(** * OpenBao secrets importer: the import engine

    A shallow embedding of [internal/cli/import.go] (flag validation in
    [runImport], [normalizePathPrefix], the interactive loop of
    [runInteractiveImport], the worker pool of [runParallelImport] and
    [importSecret]) and the properties of the import engine.

    Definitions come first: Go strings and integers; the data model;
    programs, which are trees of calls to the collaborators (the OpenBao
    client, [schema.ValidateFile], the survey prompt, the terminal), and
    their runs against an arbitrary environment; the engine's functions;
    the goroutines of parallel mode as a transition system; observations on
    traces and the invariants used in the proofs; a simulated environment
    and concrete inputs. The lemmas follow, then the stated properties of
    the engine, each with the inputs it was tried on. *)

From stdpp Require Import base strings gmap list pretty.
From Stdlib Require Import ZArith Lia Ascii.

Local Open Scope Z_scope.
Local Open Scope string_scope.

(** ** Go strings

    A Go [string] is a sequence of bytes, which is what [string] is here.
    [HasPrefix], [HasSuffix] and [TrimPrefix] follow package [strings]:
    - [HasPrefix(s, p) = len(s) >= len(p) && s[:len(p)] == p]
    - [HasSuffix(s, p) = len(s) >= len(p) && s[len(s)-len(p):] == p]
    - [TrimPrefix(s, p) = s[len(p):]] when [HasPrefix(s, p)], else [s]. *)
Module GoStrings.

(** [s[:n]] for [n <= len(s)]. *)
Fixpoint slice_to (n : nat) (s : string) : string :=
  match n, s with
  | S n', String c t => String c (slice_to n' t)
  | _, _ => EmptyString
  end.

(** [s[n:]] for [n <= len(s)]. *)
Fixpoint slice_from (n : nat) (s : string) : string :=
  match n, s with
  | S n', String _ t => slice_from n' t
  | _, _ => s
  end.

Definition HasPrefix (s prefix : string) : bool :=
  (String.length prefix <=? String.length s)%nat
  && String.eqb (slice_to (String.length prefix) s) prefix.

Definition HasSuffix (s suffix : string) : bool :=
  (String.length suffix <=? String.length s)%nat
  && String.eqb (slice_from (String.length s - String.length suffix) s) suffix.

Definition TrimPrefix (s prefix : string) : string :=
  if HasPrefix s prefix then slice_from (String.length prefix) s else s.

(** [strings.Join(elems, sep)] *)
Fixpoint Join (elems : list string) (sep : string) : string :=
  match elems with
  | [] => ""
  | [x] => x
  | x :: rest => x +:+ sep +:+ Join rest sep
  end.

End GoStrings.

Import GoStrings.

(** ** [normalizePathPrefix] (import.go) *)

Definition normalizePathPrefix (prefix : string) : string :=
  if String.eqb prefix "" || String.eqb prefix "/" then ""
  else
    (* Ensure prefix ends with / *)
    let prefix := if negb (HasSuffix prefix "/") then prefix +:+ "/" else prefix in
    (* Remove leading / *)
    let prefix := TrimPrefix prefix "/" in
    prefix.

(** ** Go integers

    [int] (64-bit platforms) and [int64] are two's-complement 64-bit
    integers: arithmetic wraps around. *)
Module GoInt.

Definition MaxInt64 : Z := 2 ^ 63 - 1.
Definition MinInt64 : Z := - 2 ^ 63.

Definition wrap (z : Z) : Z := (z + 2 ^ 63) mod 2 ^ 64 - 2 ^ 63.

Definition add (x y : Z) : Z := wrap (x + y).

(** [x++] and [atomic.AddInt64(&x, 1)]. *)
Definition incr (x : Z) : Z := add x 1.

(** [len(s)] of a slice. *)
Definition len {A} (l : list A) : Z := Z.of_nat (length l).

End GoInt.

(** ** Data model *)

(** Values decoded by [encoding/json] into [interface{}]. The engine never
    inspects them; numbers are kept as their JSON literal. *)
#[local] Set Warnings "-register-all".
Inductive Value : Type :=
| VNull
| VBool (b : bool)
| VNumber (literal : string)
| VString (s : string)
| VArray (elems : list Value)
| VObject (fields : list (string * Value)).

(** [map[string]interface{}] *)
Abbreviation SecretData := (gmap string Value).

(** Package [source] (source.go). [time.Time] values are carried as their
    RFC 3339 text. *)
Module source.

Record SecretMetadata : Type := {
  SourceID : string;
  Description : string;
  Tags : gmap string string;
  CreatedAt : option string;
  UpdatedAt : option string;
}.

Record Secret : Type := {
  Path : string;
  Data : SecretData;
  Metadata : SecretMetadata;
}.

End source.

(** Package [schema] (schema.go). *)
Module schema.

Record ExportMetadata : Type := {
  Source : string;
  ExportedAt : string;
  Region : string;
  IncludePatterns : list string;
  ExcludePatterns : list string;
  TotalSecrets : Z;
}.

Record ExportFile : Type := {
  Version : string;
  Metadata : ExportMetadata;
  Secrets : list source.Secret;
}.

End schema.

(** Go [error] values. A nil error is [None] of [option error].
    - [errors_New msg]: an error with a plain message (also the errors
      that collaborators hand back);
    - [Errorf_w msg cause]: [fmt.Errorf(msg + ": %w", cause)];
    - [Errorf_d n msg]: [fmt.Errorf("%d" + msg, n)]. *)
Inductive error : Type :=
| errors_New (msg : string)
| Errorf_w (msg : string) (cause : error)
| Errorf_d (n : Z) (msg : string).

(** Package [openbao]: the client configuration (client.go). The timeout is
    in seconds. *)
Module openbao.

Record Config : Type := {
  Address : string;
  Token : string;
  Mount : string;
  Headers : gmap string string;
  TLSSkipVerify : bool;
  Timeout : Z;
}.

End openbao.

(** ImportConfirmation represents the user's choice for a secret. *)
Inductive ImportConfirmation : Type :=
| ConfirmYes
| ConfirmNo
| ConfirmYesToAll
| ConfirmNoToAll
| ConfirmAbort.

(** ImportResult tracks the result of an import operation. *)
Record ImportResult : Type := {
  Path : string;
  Success : bool;
  Skipped : bool;
  Error : option error;
}.

(** The package-level flag variables of import.go. *)
Record Flags : Type := {
  importInput : string;
  importOpenBaoAddr : string;
  importOpenBaoToken : string;
  importMount : string;
  importHeaders : list string;
  importPathPrefix : string;
  importSkipExisting : bool;
  importOverwriteAll : bool;
  importInteractive : bool;
  importParallelism : Z;
  importDryRun : bool;
  importTLSSkipVerify : bool;
}.

(** [importSkipExisting = b] *)
Definition setSkipExisting (b : bool) (g : Flags) : Flags :=
  {| importInput := importInput g;
     importOpenBaoAddr := importOpenBaoAddr g;
     importOpenBaoToken := importOpenBaoToken g;
     importMount := importMount g;
     importHeaders := importHeaders g;
     importPathPrefix := importPathPrefix g;
     importSkipExisting := b;
     importOverwriteAll := importOverwriteAll g;
     importInteractive := importInteractive g;
     importParallelism := importParallelism g;
     importDryRun := importDryRun g;
     importTLSSkipVerify := importTLSSkipVerify g |}.

(** ** Programs over the collaborators

    The engine talks to the OpenBao client ([SecretExists], [WriteSecret],
    [Health], [NewClient], [ParseHeaders]), to [schema.ValidateFile], to
    the survey prompt ([AskOne]) and to the terminal ([Fprintf]). A program
    is a tree of such calls; each continuation receives what the call
    returned. *)

Inductive Stream : Type := Stdout | Stderr.

(** Arguments of a [Printf]. *)
Inductive Arg : Type :=
| AStr (s : string)
| AInt (n : Z)
| AErr (e : option error).

Inductive Prog (R : Type) : Type :=
| Ret (r : R)
| SecretExists (path : string) (k : bool -> option error -> Prog R)
| WriteSecret (path : string) (data : SecretData) (k : option error -> Prog R)
| Health (k : option error -> Prog R)
| NewClient (cfg : openbao.Config) (k : option error -> Prog R)
| ParseHeaders (headerStrings : list string)
    (k : gmap string string + error -> Prog R)
| ValidateFile (path : string) (k : schema.ExportFile + error -> Prog R)
| AskOne (message : string) (options : list string)
    (k : string -> option error -> Prog R)
| Fprintf (w : Stream) (format : string) (args : list Arg) (k : Prog R).

Arguments Ret {R} r.
Arguments SecretExists {R} path k.
Arguments WriteSecret {R} path data k.
Arguments Health {R} k.
Arguments NewClient {R} cfg k.
Arguments ParseHeaders {R} headerStrings k.
Arguments ValidateFile {R} path k.
Arguments AskOne {R} message options k.
Arguments Fprintf {R} w format args k.

Fixpoint bind {A B : Type} (p : Prog A) (f : A -> Prog B) : Prog B :=
  match p with
  | Ret a => f a
  | SecretExists path k => SecretExists path (fun b e => bind (k b e) f)
  | WriteSecret path data k => WriteSecret path data (fun e => bind (k e) f)
  | Health k => Health (fun e => bind (k e) f)
  | NewClient cfg k => NewClient cfg (fun e => bind (k e) f)
  | ParseHeaders hs k => ParseHeaders hs (fun r => bind (k r) f)
  | ValidateFile path k => ValidateFile path (fun r => bind (k r) f)
  | AskOne m o k => AskOne m o (fun s e => bind (k s e) f)
  | Fprintf w fmt args k => Fprintf w fmt args (bind k f)
  end.

Declare Scope prog_scope.
Delimit Scope prog_scope with prog.
Notation "x <- p ;; q" := (bind p (fun x => q))
  (at level 20, p at level 99, q at level 200, only parsing) : prog_scope.
Notation "' pat <- p ;; q" := (bind p (fun x => match x with pat => q end))
  (at level 20, pat pattern, p at level 99, q at level 200, only parsing)
  : prog_scope.
Notation "p ;; q" := (bind p (fun _ => q))
  (at level 100, q at level 200, right associativity, only parsing)
  : prog_scope.
Local Open Scope prog_scope.

(** The calls, as programs that return the call's results. *)
Module client.
Definition SecretExists (path : string) : Prog (bool * option error) :=
  SecretExists path (fun b e => Ret (b, e)).
Definition WriteSecret (path : string) (data : SecretData) : Prog (option error) :=
  WriteSecret path data Ret.
Definition Health : Prog (option error) := Health Ret.
End client.

Module fmt.
Definition Fprintf (w : Stream) (format : string) (args : list Arg) : Prog unit :=
  Fprintf w format args (Ret tt).
Definition Printf (format : string) (args : list Arg) : Prog unit :=
  Fprintf Stdout format args.
(** [fmt.Println(s)]: [s] followed by a newline. *)
Definition Println (s : string) : Prog unit :=
  Fprintf Stdout "%s\n" [AStr s].
End fmt.

Module survey.
Definition AskOne (message : string) (options : list string)
  : Prog (string * option error) :=
  AskOne message options (fun s e => Ret (s, e)).
End survey.

(** ** Running a program

    An environment answers every call from a state of its own (the server's
    contents, what the user will type). Nothing is assumed of it: theorems
    quantify over all environments. A run yields the program's result, the
    environment's final state and the trace of calls made. *)

Inductive Event : Type :=
| EvSecretExists (path : string) (found : bool) (err : option error)
| EvWriteSecret (path : string) (data : SecretData) (err : option error)
| EvHealth (err : option error)
| EvNewClient (cfg : openbao.Config) (err : option error)
| EvParseHeaders (headerStrings : list string) (r : gmap string string + error)
| EvValidateFile (path : string) (r : schema.ExportFile + error)
| EvAskOne (message : string) (options : list string)
    (selection : string) (err : option error)
| EvFprintf (w : Stream) (format : string) (args : list Arg).

Record Env (W : Type) : Type := {
  env_SecretExists : string -> W -> bool * option error * W;
  env_WriteSecret : string -> SecretData -> W -> option error * W;
  env_Health : W -> option error * W;
  env_NewClient : openbao.Config -> W -> option error * W;
  env_ParseHeaders : list string -> W -> (gmap string string + error) * W;
  env_ValidateFile : string -> W -> (schema.ExportFile + error) * W;
  env_AskOne : string -> list string -> W -> string * option error * W;
}.

Arguments env_SecretExists {W} _ _ _.
Arguments env_WriteSecret {W} _ _ _ _.
Arguments env_Health {W} _ _.
Arguments env_NewClient {W} _ _ _.
Arguments env_ParseHeaders {W} _ _ _.
Arguments env_ValidateFile {W} _ _ _.
Arguments env_AskOne {W} _ _ _ _.

(** One call: the event it leaves in the trace, the rest of the program and
    the environment's next state. [None] for a program that has returned. *)
Definition step {W R : Type} (env : Env W) (p : Prog R) (w : W)
  : option (Event * Prog R * W) :=
  match p with
  | Ret _ => None
  | SecretExists path k =>
      let '(b, e, w') := env_SecretExists env path w in
      Some (EvSecretExists path b e, k b e, w')
  | WriteSecret path data k =>
      let '(e, w') := env_WriteSecret env path data w in
      Some (EvWriteSecret path data e, k e, w')
  | Health k =>
      let '(e, w') := env_Health env w in Some (EvHealth e, k e, w')
  | NewClient cfg k =>
      let '(e, w') := env_NewClient env cfg w in Some (EvNewClient cfg e, k e, w')
  | ParseHeaders hs k =>
      let '(r, w') := env_ParseHeaders env hs w in Some (EvParseHeaders hs r, k r, w')
  | ValidateFile path k =>
      let '(r, w') := env_ValidateFile env path w in
      Some (EvValidateFile path r, k r, w')
  | AskOne m o k =>
      let '(s, e, w') := env_AskOne env m o w in Some (EvAskOne m o s e, k s e, w')
  | Fprintf s fmt args k => Some (EvFprintf s fmt args, k, w)
  end.

Fixpoint run {W R : Type} (env : Env W) (p : Prog R) (w : W)
  : R * W * list Event :=
  match p with
  | Ret r => (r, w, [])
  | SecretExists path k =>
      let '(b, e, w1) := env_SecretExists env path w in
      let '(r, w2, tr) := run env (k b e) w1 in
      (r, w2, EvSecretExists path b e :: tr)
  | WriteSecret path data k =>
      let '(e, w1) := env_WriteSecret env path data w in
      let '(r, w2, tr) := run env (k e) w1 in
      (r, w2, EvWriteSecret path data e :: tr)
  | Health k =>
      let '(e, w1) := env_Health env w in
      let '(r, w2, tr) := run env (k e) w1 in
      (r, w2, EvHealth e :: tr)
  | NewClient cfg k =>
      let '(e, w1) := env_NewClient env cfg w in
      let '(r, w2, tr) := run env (k e) w1 in
      (r, w2, EvNewClient cfg e :: tr)
  | ParseHeaders hs k =>
      let '(x, w1) := env_ParseHeaders env hs w in
      let '(r, w2, tr) := run env (k x) w1 in
      (r, w2, EvParseHeaders hs x :: tr)
  | ValidateFile path k =>
      let '(x, w1) := env_ValidateFile env path w in
      let '(r, w2, tr) := run env (k x) w1 in
      (r, w2, EvValidateFile path x :: tr)
  | AskOne m o k =>
      let '(s, e, w1) := env_AskOne env m o w in
      let '(r, w2, tr) := run env (k s e) w1 in
      (r, w2, EvAskOne m o s e :: tr)
  | Fprintf s fmt args k =>
      let '(r, w2, tr) := run env k w in
      (r, w2, EvFprintf s fmt args :: tr)
  end.

(** ** The import engine (import.go) *)

(** [getSecretKeys]: the keys of the map, in the order the [range] over the
    map yields them (Go leaves that order unspecified). *)
Definition getSecretKeys (data : SecretData) : list string :=
  (map_to_list data).*1.

(** The running totals [imported], [skipped], [failed]. *)
Record Counters : Type := {
  imported : Z;
  skipped : Z;
  failed : Z;
}.

Definition zeroCounters : Counters :=
  {| imported := 0; skipped := 0; failed := 0 |}.

(** [imported++] *)
Definition incImported (c : Counters) : Counters :=
  {| imported := GoInt.incr (imported c); skipped := skipped c; failed := failed c |}.

(** [skipped++] *)
Definition incSkipped (c : Counters) : Counters :=
  {| imported := imported c; skipped := GoInt.incr (skipped c); failed := failed c |}.

(** [failed++] *)
Definition incFailed (c : Counters) : Counters :=
  {| imported := imported c; skipped := skipped c; failed := GoInt.incr (failed c) |}.

(** [imported + skipped + failed], unbounded. *)
Definition processed (c : Counters) : Z := imported c + skipped c + failed c.

(** *** [importSecret] *)

(** The tail of [importSecret]: "Write the secret". *)
Definition importSecret_write (result : ImportResult) (destPath : string)
    (secret : source.Secret) : Prog ImportResult :=
  err <- client.WriteSecret destPath (source.Data secret);;
  match err with
  | Some e =>
      Ret {| Path := Path result; Success := Success result;
             Skipped := Skipped result; Error := Some e |}
  | None =>
      Ret {| Path := Path result; Success := true;
             Skipped := Skipped result; Error := Error result |}
  end.

Definition importSecret (g : Flags) (secret : source.Secret)
    (pathPrefix : string) : Prog ImportResult :=
  let destPath := pathPrefix +:+ source.Path secret in
  let result :=
    {| Path := destPath; Success := false; Skipped := false; Error := None |} in
  (* Check if exists when skip-existing is enabled *)
  if importSkipExisting g && negb (importOverwriteAll g) then
    '(found, err) <- client.SecretExists destPath;;
    match err with
    | Some e =>
        Ret {| Path := Path result; Success := Success result;
               Skipped := Skipped result;
               Error := Some (Errorf_w "failed to check existence" e) |}
    | None =>
        if found then
          Ret {| Path := Path result; Success := true; Skipped := true;
                 Error := Error result |}
        else importSecret_write result destPath secret
    end
  else importSecret_write result destPath secret.

(** *** Interactive mode *)

(** The switch on the selected option at the end of [promptImport]. *)
Definition selectionConfirmation (selection : string) : ImportConfirmation :=
  if String.eqb selection "Yes" then ConfirmYes
  else if String.eqb selection "No" then ConfirmNo
  else if String.eqb selection "Yes to all remaining" then ConfirmYesToAll
  else if String.eqb selection "No to all remaining" then ConfirmNoToAll
  else ConfirmAbort.

Definition promptImport (current total : Z) (secret : source.Secret)
    (destPath : string) (found : bool) : Prog (ImportConfirmation * option error) :=
  (* Display secret info *)
  fmt.Printf "[%d/%d] Secret: %s\n"
    [AInt current; AInt total; AStr (source.Path secret)];;
  fmt.Printf "  Destination: %s\n" [AStr destPath];;
  fmt.Printf "  Keys: %s\n" [AStr (Join (getSecretKeys (source.Data secret)) ", ")];;
  (if negb (String.eqb (source.Description (source.Metadata secret)) "") then
     fmt.Printf "  Description: %s\n"
       [AStr (source.Description (source.Metadata secret))]
   else Ret tt);;
  (if found then fmt.Printf "  ⚠️  Secret already exists at destination\n" []
   else Ret tt);;
  let options :=
    ["Yes"; "No"; "Yes to all remaining"; "No to all remaining"; "Abort import"] in
  '(selection, err) <- survey.AskOne "Import this secret?" options;;
  match err with
  | Some e => Ret (ConfirmAbort, Some e)
  | None => Ret (selectionConfirmation selection, None)
  end.

(** The local variables of [runInteractiveImport]. *)
Record Locals : Type := {
  counters : Counters;
  confirmAll : bool;
  skipAll : bool;
}.

Definition initLocals : Locals :=
  {| counters := zeroCounters; confirmAll := false; skipAll := false |}.

Definition withCounters (f : Counters -> Counters) (st : Locals) : Locals :=
  {| counters := f (counters st); confirmAll := confirmAll st; skipAll := skipAll st |}.

(** [confirmAll = true] *)
Definition setConfirmAll (st : Locals) : Locals :=
  {| counters := counters st; confirmAll := true; skipAll := skipAll st |}.

(** [skipAll = true] *)
Definition setSkipAll (st : Locals) : Locals :=
  {| counters := counters st; confirmAll := confirmAll st; skipAll := true |}.

(** How one iteration of the loop ends: [continue] (or falling off the end
    of the body) with the locals as they then are, or [return err]; the
    locals at the [return] are kept so that properties can speak of them. *)
Inductive Flow : Type :=
| Continue (st : Locals)
| Return (st : Locals) (err : option error).

(** "Import the secret": the last statements of the loop body. *)
Definition interactiveWrite (st : Locals) (destPath : string)
    (secret : source.Secret) : Prog Flow :=
  err <- client.WriteSecret destPath (source.Data secret);;
  match err with
  | Some e =>
      fmt.Fprintf Stderr "  Error: %v\n" [AErr (Some e)];;
      Ret (Continue (withCounters incFailed st))
  | None =>
      fmt.Printf "  ✓ Imported\n" [];;
      Ret (Continue (withCounters incImported st))
  end.

(** The body of [for i, secret := range export.Secrets]. [total] is
    [len(export.Secrets)]. *)
Definition interactiveBody (total : Z) (pathPrefix : string) (st : Locals)
    (i : Z) (secret : source.Secret) : Prog Flow :=
  let destPath := pathPrefix +:+ source.Path secret in
  (* Check if already decided for all *)
  if skipAll st then Ret (Continue (withCounters incSkipped st))
  else if negb (confirmAll st) then
    (* Check if exists *)
    '(found, err) <- client.SecretExists destPath;;
    (match err with
     | Some e =>
         fmt.Fprintf Stderr "Warning: failed to check if secret exists: %v\n" [AErr (Some e)]
     | None => Ret tt
     end);;
    (* Prompt user *)
    '(confirmation, err) <-
      promptImport (GoInt.add i 1) total secret destPath found;;
    match err with
    | Some e => Ret (Return st (Some (Errorf_w "prompt failed" e)))
    | None =>
        match confirmation with
        | ConfirmNo =>
            fmt.Printf "  Skipped\n" [];;
            Ret (Continue (withCounters incSkipped st))
        | ConfirmYesToAll => interactiveWrite (setConfirmAll st) destPath secret
        | ConfirmNoToAll =>
            Ret (Continue (withCounters incSkipped (setSkipAll st)))
        | ConfirmAbort =>
            fmt.Println "\nImport aborted by user.";;
            fmt.Printf "  Imported: %d\n" [AInt (imported (counters st))];;
            fmt.Printf "  Skipped:  %d\n" [AInt (skipped (counters st))];;
            Ret (Return st None)
        | ConfirmYes => interactiveWrite st destPath secret
        end
    end
  else interactiveWrite st destPath secret.

(** The [range] loop from index [i] on. *)
Fixpoint interactiveLoop (total : Z) (pathPrefix : string) (st : Locals)
    (i : Z) (secrets : list source.Secret) : Prog Flow :=
  match secrets with
  | [] => Ret (Continue st)
  | secret :: rest =>
      r <- interactiveBody total pathPrefix st i secret;;
      match r with
      | Continue st' => interactiveLoop total pathPrefix st' (i + 1) rest
      | Return st' err => Ret (Return st' err)
      end
  end.

Definition runInteractiveImport (export : schema.ExportFile)
    (pathPrefix : string) : Prog (option error) :=
  fmt.Println "\nStarting interactive import...";;
  fmt.Println "";;
  r <- interactiveLoop (GoInt.len (schema.Secrets export)) pathPrefix
         initLocals 0 (schema.Secrets export);;
  match r with
  | Return _ err => Ret err
  | Continue st =>
      fmt.Println "";;
      fmt.Println "Import complete:";;
      fmt.Printf "  Imported: %d\n" [AInt (imported (counters st))];;
      fmt.Printf "  Skipped:  %d\n" [AInt (skipped (counters st))];;
      fmt.Printf "  Failed:   %d\n" [AInt (failed (counters st))];;
      Ret None
  end.

(** *** Dry run *)

Fixpoint runDryRun_loop (pathPrefix : string) (secrets : list source.Secret)
  : Prog unit :=
  match secrets with
  | [] => Ret tt
  | secret :: rest =>
      let destPath := pathPrefix +:+ source.Path secret in
      let keys := getSecretKeys (source.Data secret) in
      fmt.Printf "  %s -> %s\n" [AStr (source.Path secret); AStr destPath];;
      fmt.Printf "    Keys: %s\n" [AStr (Join keys ", ")];;
      runDryRun_loop pathPrefix rest
  end.

Definition runDryRun (export : schema.ExportFile) (pathPrefix : string)
  : Prog (option error) :=
  fmt.Println "\nDry run - secrets that would be imported:";;
  fmt.Println "";;
  runDryRun_loop pathPrefix (schema.Secrets export);;
  fmt.Printf "\nTotal: %d secrets\n" [AInt (GoInt.len (schema.Secrets export))];;
  Ret None.

(** *** Parallel mode

    [runParallelImport] starts [importParallelism] worker goroutines, a
    goroutine that sends every secret on channel [work] and closes it, and
    a goroutine that waits for the workers and closes channel [results];
    the calling goroutine ranges over [results]. The goroutines are modelled
    as a transition system: a state of the pool, and one action per atomic
    step of a goroutine. Any interleaving of the actions is a run. *)

(** [importSecret] is called by the workers; what is left to run of a call
    is kept in the worker's state. *)
Inductive Worker : Type :=
| WRange                           (* at [for secret := range work] *)
| WImport (p : Prog ImportResult)  (* in [importSecret]; at [results <- r] when [p = Ret r] *)
| WDone.                           (* the range has ended, [wg.Done()] has run *)

Definition isDone (wk : Worker) : bool :=
  match wk with WDone => true | _ => false end.

Record Pool (W : Type) : Type := {
  pool_cap : nat;  (* capacity of both channels: [len(export.Secrets)] *)
  toSend : list source.Secret;  (* what the sending goroutine has yet to send *)
  work : list source.Secret;  (* buffer of channel [work], oldest first *)
  workClosed : bool;  (* [close(work)] has run *)
  workers : list Worker;  (* the worker goroutines *)
  results : list ImportResult;  (* buffer of channel [results], oldest first *)
  resultsClosed : bool;  (* [close(results)] has run *)
  collected : list ImportResult;  (* the results the main loop has received, oldest first *)
  tally : Counters;  (* [imported], [skipped], [failed] *)
  returned : option (option error);  (* what [runParallelImport] returned, once it has *)
  world : W;  (* the environment's state *)
  trace : list Event;  (* calls made so far, oldest first *)
}.

Arguments pool_cap {W} _.
Arguments toSend {W} _.
Arguments work {W} _.
Arguments workClosed {W} _.
Arguments workers {W} _.
Arguments results {W} _.
Arguments resultsClosed {W} _.
Arguments collected {W} _.
Arguments tally {W} _.
Arguments returned {W} _.
Arguments world {W} _.
Arguments trace {W} _.

Definition set_toSend {W : Type} (x : list source.Secret) (s : Pool W) : Pool W :=
  {| pool_cap := pool_cap s;
     toSend := x;
     work := work s;
     workClosed := workClosed s;
     workers := workers s;
     results := results s;
     resultsClosed := resultsClosed s;
     collected := collected s;
     tally := tally s;
     returned := returned s;
     world := world s;
     trace := trace s |}.

Definition set_work {W : Type} (x : list source.Secret) (s : Pool W) : Pool W :=
  {| pool_cap := pool_cap s;
     toSend := toSend s;
     work := x;
     workClosed := workClosed s;
     workers := workers s;
     results := results s;
     resultsClosed := resultsClosed s;
     collected := collected s;
     tally := tally s;
     returned := returned s;
     world := world s;
     trace := trace s |}.

Definition set_workClosed {W : Type} (x : bool) (s : Pool W) : Pool W :=
  {| pool_cap := pool_cap s;
     toSend := toSend s;
     work := work s;
     workClosed := x;
     workers := workers s;
     results := results s;
     resultsClosed := resultsClosed s;
     collected := collected s;
     tally := tally s;
     returned := returned s;
     world := world s;
     trace := trace s |}.

Definition set_workers {W : Type} (x : list Worker) (s : Pool W) : Pool W :=
  {| pool_cap := pool_cap s;
     toSend := toSend s;
     work := work s;
     workClosed := workClosed s;
     workers := x;
     results := results s;
     resultsClosed := resultsClosed s;
     collected := collected s;
     tally := tally s;
     returned := returned s;
     world := world s;
     trace := trace s |}.

Definition set_results {W : Type} (x : list ImportResult) (s : Pool W) : Pool W :=
  {| pool_cap := pool_cap s;
     toSend := toSend s;
     work := work s;
     workClosed := workClosed s;
     workers := workers s;
     results := x;
     resultsClosed := resultsClosed s;
     collected := collected s;
     tally := tally s;
     returned := returned s;
     world := world s;
     trace := trace s |}.

Definition set_resultsClosed {W : Type} (x : bool) (s : Pool W) : Pool W :=
  {| pool_cap := pool_cap s;
     toSend := toSend s;
     work := work s;
     workClosed := workClosed s;
     workers := workers s;
     results := results s;
     resultsClosed := x;
     collected := collected s;
     tally := tally s;
     returned := returned s;
     world := world s;
     trace := trace s |}.

Definition set_collected {W : Type} (x : list ImportResult) (s : Pool W) : Pool W :=
  {| pool_cap := pool_cap s;
     toSend := toSend s;
     work := work s;
     workClosed := workClosed s;
     workers := workers s;
     results := results s;
     resultsClosed := resultsClosed s;
     collected := x;
     tally := tally s;
     returned := returned s;
     world := world s;
     trace := trace s |}.

Definition set_tally {W : Type} (x : Counters) (s : Pool W) : Pool W :=
  {| pool_cap := pool_cap s;
     toSend := toSend s;
     work := work s;
     workClosed := workClosed s;
     workers := workers s;
     results := results s;
     resultsClosed := resultsClosed s;
     collected := collected s;
     tally := x;
     returned := returned s;
     world := world s;
     trace := trace s |}.

Definition set_returned {W : Type} (x : option (option error)) (s : Pool W) : Pool W :=
  {| pool_cap := pool_cap s;
     toSend := toSend s;
     work := work s;
     workClosed := workClosed s;
     workers := workers s;
     results := results s;
     resultsClosed := resultsClosed s;
     collected := collected s;
     tally := tally s;
     returned := x;
     world := world s;
     trace := trace s |}.

Definition set_world {W : Type} (x : W) (s : Pool W) : Pool W :=
  {| pool_cap := pool_cap s;
     toSend := toSend s;
     work := work s;
     workClosed := workClosed s;
     workers := workers s;
     results := results s;
     resultsClosed := resultsClosed s;
     collected := collected s;
     tally := tally s;
     returned := returned s;
     world := x;
     trace := trace s |}.

Definition set_trace {W : Type} (x : list Event) (s : Pool W) : Pool W :=
  {| pool_cap := pool_cap s;
     toSend := toSend s;
     work := work s;
     workClosed := workClosed s;
     workers := workers s;
     results := results s;
     resultsClosed := resultsClosed s;
     collected := collected s;
     tally := tally s;
     returned := returned s;
     world := world s;
     trace := x |}.


(** The body of [for result := range results]: one counter is incremented,
    failures and the progress are printed. Returns the new totals. *)
Definition collectResult (total : Z) (c : Counters) (result : ImportResult)
  : Prog Counters :=
  c' <- (if Skipped result then Ret (incSkipped c)
         else if Success result then Ret (incImported c)
         else
           fmt.Fprintf Stderr "  Error importing %s: %v\n"
             [AStr (Path result); AErr (Error result)];;
           Ret (incFailed c));;
  let total' := GoInt.add (GoInt.add (imported c') (skipped c')) (failed c') in
  fmt.Fprintf Stderr "\r  Progress: %d/%d" [AInt total'; AInt total];;
  Ret c'.

(** What follows the loop: the summary and the returned error. *)
Definition parallelEpilogue (c : Counters) : Prog (option error) :=
  fmt.Fprintf Stderr "\n\n" [];;
  fmt.Println "Import complete:";;
  fmt.Printf "  Imported: %d\n" [AInt (imported c)];;
  fmt.Printf "  Skipped:  %d\n" [AInt (skipped c)];;
  fmt.Printf "  Failed:   %d\n" [AInt (failed c)];;
  if failed c >? 0 then Ret (Some (Errorf_d (failed c) " secrets failed to import"))
  else Ret None.

(** The state when the goroutines have been started: [importParallelism]
    workers (none if it is zero or negative), nothing sent yet. *)
Definition parallelInit {W : Type} (g : Flags) (export : schema.ExportFile)
    (w : W) : Pool W :=
  {| pool_cap := length (schema.Secrets export);
     toSend := schema.Secrets export;
     work := [];
     workClosed := false;
     workers := replicate (Z.to_nat (importParallelism g)) WRange;
     results := [];
     resultsClosed := false;
     collected := [];
     tally := zeroCounters;
     returned := None;
     world := w;
     trace := [EvFprintf Stderr "\nImporting secrets with %d workers...\n"
                 [AInt (importParallelism g)]] |}.

Inductive Action : Type :=
| ASend                (* sender: [work <- secret] *)
| ACloseWork           (* sender: [close(work)] *)
| ARecv (i : nat)      (* worker [i]: receives a secret, enters [importSecret] *)
| ACall (i : nat)      (* worker [i]: the next client call of [importSecret] *)
| AEmit (i : nat)      (* worker [i]: [results <- result] *)
| AExit (i : nat)      (* worker [i]: [work] is closed and drained; [wg.Done()] *)
| ACloseResults        (* waiter: [wg.Wait()] has returned; [close(results)] *)
| ACollect             (* main: one iteration of [for result := range results] *)
| AFinish.             (* main: [results] is closed and drained; summary, return *)

#[global] Instance Action_eq_dec : EqDecision Action.
Proof. solve_decision. Defined.

(** One step of the pool; [None] when the action is not enabled (the
    goroutine is blocked or is elsewhere in its code). *)
Definition pstep {W : Type} (env : Env W) (g : Flags) (pathPrefix : string)
    (a : Action) (s : Pool W) : option (Pool W) :=
  match a with
  | ASend =>
      match toSend s with
      | secret :: rest =>
          if (length (work s) <? pool_cap s)%nat
          then Some (set_toSend rest (set_work (work s ++ [secret]) s))
          else None
      | [] => None
      end
  | ACloseWork =>
      match toSend s with
      | [] => if workClosed s then None else Some (set_workClosed true s)
      | _ :: _ => None
      end
  | ARecv i =>
      match workers s !! i, work s with
      | Some WRange, secret :: rest =>
          Some (set_work rest
                  (set_workers
                     (<[i := WImport (importSecret g secret pathPrefix)]> (workers s)) s))
      | _, _ => None
      end
  | ACall i =>
      match workers s !! i with
      | Some (WImport p) =>
          match step env p (world s) with
          | Some (ev, p', w') =>
              Some (set_workers (<[i := WImport p']> (workers s))
                      (set_world w' (set_trace (trace s ++ [ev]) s)))
          | None => None
          end
      | _ => None
      end
  | AEmit i =>
      match workers s !! i with
      | Some (WImport (Ret result)) =>
          if (length (results s) <? pool_cap s)%nat
          then Some (set_results (results s ++ [result])
                       (set_workers (<[i := WRange]> (workers s)) s))
          else None
      | _ => None
      end
  | AExit i =>
      match workers s !! i, work s with
      | Some WRange, [] =>
          if workClosed s then Some (set_workers (<[i := WDone]> (workers s)) s)
          else None
      | _, _ => None
      end
  | ACloseResults =>
      if forallb isDone (workers s) && negb (resultsClosed s)
      then Some (set_resultsClosed true s)
      else None
  | ACollect =>
      match returned s, results s with
      | None, result :: rest =>
          let '(c', w', evs) :=
            run env (collectResult (Z.of_nat (pool_cap s)) (tally s) result) (world s) in
          Some (set_results rest
                  (set_tally c'
                     (set_collected (collected s ++ [result])
                        (set_world w' (set_trace (trace s ++ evs) s)))))
      | _, _ => None
      end
  | AFinish =>
      match returned s, results s with
      | None, [] =>
          if resultsClosed s then
            let '(err, w', evs) := run env (parallelEpilogue (tally s)) (world s) in
            Some (set_returned (Some err)
                    (set_world w' (set_trace (trace s ++ evs) s)))
          else None
      | _, _ => None
      end
  end.

(** A schedule is the order in which the goroutines take their steps. *)
Fixpoint runSchedule {W : Type} (env : Env W) (g : Flags) (pathPrefix : string)
    (sched : list Action) (s : Pool W) : option (Pool W) :=
  match sched with
  | [] => Some s
  | a :: rest =>
      match pstep env g pathPrefix a s with
      | Some s' => runSchedule env g pathPrefix rest s'
      | None => None
      end
  end.

(** [runParallelImport] under a schedule, from the environment state [w]. *)
Definition runParallelImport {W : Type} (env : Env W) (g : Flags)
    (export : schema.ExportFile) (pathPrefix : string) (sched : list Action)
    (w : W) : option (Pool W) :=
  runSchedule env g pathPrefix sched (parallelInit g export w).

(** *** [runImport] *)

(** How [runImport] ends: it returns an error (or nil), or it hands over to
    the goroutines of [runParallelImport]. *)
Inductive Outcome : Type :=
| Exit (err : option error)
| EnterParallel (export : schema.ExportFile) (pathPrefix : string).

(** [runImport], from the flag variables [g]; the flag variables as it
    leaves them come back with the outcome. *)
Definition runImport (g : Flags) : Prog (Flags * Outcome) :=
  (* Validate flags *)
  if importOverwriteAll g && importInteractive g then
    Ret (g, Exit (Some (errors_New
           "--overwrite-all and --interactive cannot be used together")))
  else
  let g := if importOverwriteAll g then setSkipExisting false g else g in
  (* Read and validate export file *)
  fmt.Fprintf Stderr "Reading export file: %s\n" [AStr (importInput g)];;
  r <- ValidateFile (importInput g) Ret;;
  match r with
  | inr err =>
      Ret (g, Exit (Some (Errorf_w "failed to read/validate export file" err)))
  | inl export =>
  fmt.Fprintf Stderr "  Found %d secrets to import\n"
    [AInt (GoInt.len (schema.Secrets export))];;
  (* Parse custom headers *)
  r <- ParseHeaders (importHeaders g) Ret;;
  match r with
  | inr err => Ret (g, Exit (Some (Errorf_w "invalid header" err)))
  | inl headers =>
  (* Normalize path prefix *)
  let pathPrefix := normalizePathPrefix (importPathPrefix g) in
  if importDryRun g then
    err <- runDryRun export pathPrefix;; Ret (g, Exit err)
  else
  (* Create OpenBao client *)
  fmt.Fprintf Stderr "Connecting to OpenBao: %s\n" [AStr (importOpenBaoAddr g)];;
  err <- NewClient
           {| openbao.Address := importOpenBaoAddr g;
              openbao.Token := importOpenBaoToken g;
              openbao.Mount := importMount g;
              openbao.Headers := headers;
              openbao.TLSSkipVerify := importTLSSkipVerify g;
              openbao.Timeout := 30 |} Ret;;
  match err with
  | Some e => Ret (g, Exit (Some (Errorf_w "failed to create OpenBao client" e)))
  | None =>
  (* Check connection *)
  err <- client.Health;;
  match err with
  | Some e => Ret (g, Exit (Some (Errorf_w "failed to connect to OpenBao" e)))
  | None =>
  fmt.Fprintf Stderr "  Connected successfully\n" [];;
  (* Run import *)
  if importInteractive g then
    err <- runInteractiveImport export pathPrefix;; Ret (g, Exit err)
  else Ret (g, EnterParallel export pathPrefix)
  end end end end.

(** The whole command under a schedule for the goroutines: the returned
    error, the environment's last state and the trace. [None] when the
    schedule is not a complete run of the pool. *)
Definition importCommand {W : Type} (env : Env W) (g : Flags)
    (sched : list Action) (w : W) : option (option error * W * list Event) :=
  let '(g', out, w1, tr1) := run env (runImport g) w in
  match out with
  | Exit err => Some (err, w1, tr1)
  | EnterParallel export pathPrefix =>
      match runParallelImport env g' export pathPrefix sched w1 with
      | Some s =>
          match returned s with
          | Some err => Some (err, world s, (tr1 ++ trace s)%list)
          | None => None
          end
      | None => None
      end
  end.

(** ** Observations on traces *)

(** What [promptImport] returns when [survey.AskOne] has set [selection]
    and returned [err]. *)
Definition promptResult (selection : string) (err : option error)
  : ImportConfirmation * option error :=
  match err with
  | Some e => (ConfirmAbort, Some e)
  | None => (selectionConfirmation selection, None)
  end.

Definition decisionOf (ev : Event) : option (ImportConfirmation * option error) :=
  match ev with
  | EvAskOne _ _ selection err => Some (promptResult selection err)
  | _ => None
  end.

(** The decisions of the prompts of a trace, in order. *)
Definition decisions (tr : list Event) : list (ImportConfirmation * option error) :=
  omap decisionOf tr.

Definition writeOf (ev : Event) : option (string * option error) :=
  match ev with
  | EvWriteSecret path _ err => Some (path, err)
  | _ => None
  end.

(** The writes of a trace: destination path and returned error, in order. *)
Definition writes (tr : list Event) : list (string * option error) :=
  omap writeOf tr.

Definition existsCheckOf (ev : Event) : option string :=
  match ev with
  | EvSecretExists path _ _ => Some path
  | _ => None
  end.

(** The paths of the existence checks of a trace, in order. *)
Definition existsChecks (tr : list Event) : list string :=
  omap existsCheckOf tr.

Definition printedIntOf (format : string) (ev : Event) : option Z :=
  match ev with
  | EvFprintf _ f [AInt n] => if String.eqb f format then Some n else None
  | _ => None
  end.

(** The numbers printed with the one-number format [format], in order. *)
Definition printedInts (format : string) (tr : list Event) : list Z :=
  omap (printedIntOf format) tr.

(** The destination path of a secret. *)
Definition destPath (pathPrefix : string) (secret : source.Secret) : string :=
  pathPrefix +:+ source.Path secret.

(** Output that is not a line of a summary: no call, no prompt, and no
    single number printed. *)
Definition quiet (tr : list Event) : Prop :=
  decisions tr = [] /\ writes tr = [] /\ existsChecks tr = []
  /\ forall f, printedInts f tr = [].

(** The locals at the end of an iteration. *)
Definition flowLocals (r : Flow) : Locals :=
  match r with
  | Continue st => st
  | Return st _ => st
  end.

(** Exactly one of the three counters is one more (without wrap-around),
    the other two are unchanged. *)
Definition countsOne (c c' : Counters) : Prop :=
  (imported c' = imported c + 1 /\ skipped c' = skipped c /\ failed c' = failed c)
  \/ (imported c' = imported c /\ skipped c' = skipped c + 1 /\ failed c' = failed c)
  \/ (imported c' = imported c /\ skipped c' = skipped c /\ failed c' = failed c + 1).

(** No counter has decreased. *)
Definition countersLe (c c' : Counters) : Prop :=
  imported c <= imported c' /\ skipped c <= skipped c' /\ failed c <= failed c'.

(** Counters that have counted [n] secrets. *)
Definition counted (c : Counters) (n : Z) : Prop :=
  0 <= imported c /\ 0 <= skipped c /\ 0 <= failed c /\ processed c = n.

(** *** The output of an iteration of the interactive loop *)

Definition promptOptions : list string :=
  ["Yes"; "No"; "Yes to all remaining"; "No to all remaining"; "Abort import"]%string.

(** The prompt's event. *)
Definition asked (selection : string) (err : option error) : Event :=
  EvAskOne "Import this secret?" promptOptions selection err.

(** What [promptImport] prints before it asks. *)
Definition promptOutput (current total : Z) (secret : source.Secret)
    (dest : string) (found : bool) : list Event :=
  ([EvFprintf Stdout "[%d/%d] Secret: %s\n"
      [AInt current; AInt total; AStr (source.Path secret)];
    EvFprintf Stdout "  Destination: %s\n" [AStr dest];
    EvFprintf Stdout "  Keys: %s\n"
      [AStr (Join (getSecretKeys (source.Data secret)) ", ")]]
   ++ (if negb (String.eqb (source.Description (source.Metadata secret)) "")
       then [EvFprintf Stdout "  Description: %s\n"
               [AStr (source.Description (source.Metadata secret))]]
       else [])
   ++ (if found
       then [EvFprintf Stdout "  ⚠️  Secret already exists at destination\n" []]
       else []))%list.

(** The warning after an existence check that failed. *)
Definition warningOutput (err : option error) : list Event :=
  match err with
  | Some e =>
      [EvFprintf Stderr "Warning: failed to check if secret exists: %v\n"
         [AErr (Some e)]]
  | None => []
  end.

(** What is printed after a write. *)
Definition writeOutput (err : option error) : Event :=
  match err with
  | Some e => EvFprintf Stderr "  Error: %v\n" [AErr (Some e)]
  | None => EvFprintf Stdout "  ✓ Imported\n" []
  end.

(** What is printed on [ConfirmAbort]. *)
Definition abortOutput (c : Counters) : list Event :=
  [EvFprintf Stdout "%s\n" [AStr "\nImport aborted by user."];
   EvFprintf Stdout "  Imported: %d\n" [AInt (imported c)];
   EvFprintf Stdout "  Skipped:  %d\n" [AInt (skipped c)]].

(** What [runInteractiveImport] prints before the loop. *)
Definition startOutput : list Event :=
  [EvFprintf Stdout "%s\n" [AStr "\nStarting interactive import..."];
   EvFprintf Stdout "%s\n" [AStr ""]].

(** The summary that [runInteractiveImport] prints after the loop. *)
Definition summaryOutput (c : Counters) : list Event :=
  [EvFprintf Stdout "%s\n" [AStr ""];
   EvFprintf Stdout "%s\n" [AStr "Import complete:"];
   EvFprintf Stdout "  Imported: %d\n" [AInt (imported c)];
   EvFprintf Stdout "  Skipped:  %d\n" [AInt (skipped c)];
   EvFprintf Stdout "  Failed:   %d\n" [AInt (failed c)]].

(** The locals after the write of a secret that returned [err]. *)
Definition written (st : Locals) (err : option error) : Locals :=
  match err with
  | Some _ => withCounters incFailed st
  | None => withCounters incImported st
  end.

(** *** The shapes of an iteration

    The result and the trace of one iteration of the interactive loop,
    case by case; [body_iteration] below shows that every run of
    [interactiveBody] has one of these shapes. [decided] is what follows
    the prompt, given what [promptImport] returned. *)
Inductive decided (pathPrefix : string) (st : Locals) (secret : source.Secret)
  : ImportConfirmation * option error -> Flow -> list Event -> Prop :=
| d_error c e :
    decided pathPrefix st secret (c, Some e)
      (Return st (Some (Errorf_w "prompt failed" e))) []
| d_yes werr :
    decided pathPrefix st secret (ConfirmYes, None)
      (Continue (written st werr))
      [EvWriteSecret (destPath pathPrefix secret) (source.Data secret) werr;
       writeOutput werr]
| d_no :
    decided pathPrefix st secret (ConfirmNo, None)
      (Continue (withCounters incSkipped st))
      [EvFprintf Stdout "  Skipped\n" []]
| d_yesToAll werr :
    decided pathPrefix st secret (ConfirmYesToAll, None)
      (Continue (written (setConfirmAll st) werr))
      [EvWriteSecret (destPath pathPrefix secret) (source.Data secret) werr;
       writeOutput werr]
| d_noToAll :
    decided pathPrefix st secret (ConfirmNoToAll, None)
      (Continue (withCounters incSkipped (setSkipAll st))) []
| d_abort :
    decided pathPrefix st secret (ConfirmAbort, None)
      (Return st None) (abortOutput (counters st)).

Inductive iteration (total : Z) (pathPrefix : string) (st : Locals) (i : Z)
    (secret : source.Secret) : Flow -> list Event -> Prop :=
| it_skipAll :
    skipAll st = true ->
    iteration total pathPrefix st i secret
      (Continue (withCounters incSkipped st)) []
| it_confirmAll werr :
    skipAll st = false -> confirmAll st = true ->
    iteration total pathPrefix st i secret
      (Continue (written st werr))
      [EvWriteSecret (destPath pathPrefix secret) (source.Data secret) werr;
       writeOutput werr]
| it_prompt found err sel perr r tail :
    skipAll st = false -> confirmAll st = false ->
    decided pathPrefix st secret (promptResult sel perr) r tail ->
    iteration total pathPrefix st i secret r
      (EvSecretExists (destPath pathPrefix secret) found err
       :: warningOutput err
       ++ promptOutput (GoInt.add i 1) total secret (destPath pathPrefix secret) found
       ++ asked sel perr :: tail)%list.

(** ** Invariants of the pool *)

(** The counter that the main loop increments for a result. *)
Definition tallyResult (c : Counters) (result : ImportResult) : Counters :=
  if Skipped result then incSkipped c
  else if Success result then incImported c
  else incFailed c.

(** A result recorded as failed: neither skipped nor successful. *)
Definition isFailure (result : ImportResult) : bool :=
  negb (Skipped result) && negb (Success result).

Definition isImport (wk : Worker) : bool :=
  match wk with WImport _ => true | _ => false end.

(** The number of workers that are inside [importSecret]. *)
Definition busy (ws : list Worker) : nat :=
  sum_list_with (fun wk => if isImport wk then 1%nat else 0%nat) ws.

(** The programs a worker can be running: [importSecret] makes at most an
    existence check followed by a write. *)
Definition afterWrite (p : Prog ImportResult) : Prop :=
  match p with Ret _ => True | _ => False end.

Definition afterExists (p : Prog ImportResult) : Prop :=
  match p with
  | Ret _ => True
  | WriteSecret _ _ k => forall e, afterWrite (k e)
  | _ => False
  end.

Definition importShape (p : Prog ImportResult) : Prop :=
  match p with
  | Ret _ => True
  | WriteSecret _ _ k => forall e, afterWrite (k e)
  | SecretExists _ k => forall b e, afterExists (k b e)
  | _ => False
  end.

(** The client calls that a program of that shape has yet to make, at
    most. *)
Definition callsAhead (p : Prog ImportResult) : nat :=
  match p with
  | SecretExists _ _ => 2
  | WriteSecret _ _ _ => 1
  | _ => 0
  end.

(** The steps a worker has yet to take, at most: the calls, the send of the
    result and the end of the range. *)
Definition workerSteps (wk : Worker) : nat :=
  match wk with
  | WRange => 1
  | WImport p => 3 + callsAhead p
  | WDone => 0
  end.

(** A bound on the number of steps the pool has yet to take. *)
Definition stepsLeft {W : Type} (s : Pool W) : nat :=
  (6 * length (toSend s) + 5 * length (work s)
   + sum_list_with workerSteps (workers s) + length (results s)
   + (if workClosed s then 0 else 1)
   + (if resultsClosed s then 0 else 1)
   + (match returned s with Some _ => 0 | None => 1 end))%nat.

(** What holds of every state of a run on [n] secrets. *)
Record poolInv {W : Type} (n : nat) (s : Pool W) : Prop := {
  inv_cap : pool_cap s = n;
  inv_conserved :
    (length (toSend s) + length (work s) + busy (workers s)
     + length (results s) + length (collected s))%nat = n;
  inv_tally : tally s = foldl tallyResult zeroCounters (collected s);
  inv_closed : workClosed s = true -> toSend s = [];
  inv_done : WDone ∈ workers s -> workClosed s = true /\ work s = [];
  inv_waited : resultsClosed s = true -> Forall (fun wk => wk = WDone) (workers s);
  inv_returned : is_Some (returned s) -> resultsClosed s = true /\ results s = [];
  inv_shape : forall p, WImport p ∈ workers s -> importShape p;
}.

(** ** A simulated environment

    An in-memory server and a scripted user, to run the engine on concrete
    inputs: [store] is what the server holds, the server fails every call
    on a path in [broken], [answers] is what the user will select at the
    next prompts (a prompt beyond the script fails with EOF), and [files]
    maps a file name to the export it validates to. *)
Module Sim.

Record World : Type := {
  store : gmap string SecretData;
  broken : list string;
  answers : list (string * option error);
  files : gmap string schema.ExportFile;
}.

Definition unreachable : error := errors_New "connection refused".

Definition SecretExists (path : string) (w : World) : bool * option error * World :=
  if bool_decide (path ∈ broken w) then (false, Some unreachable, w)
  else (bool_decide (is_Some (store w !! path)), None, w).

Definition WriteSecret (path : string) (data : SecretData) (w : World)
  : option error * World :=
  if bool_decide (path ∈ broken w) then (Some unreachable, w)
  else (None, {| store := <[path := data]> (store w); broken := broken w;
                 answers := answers w; files := files w |}).

Definition AskOne (message : string) (options : list string) (w : World)
  : string * option error * World :=
  match answers w with
  | [] => (""%string, Some (errors_New "EOF"), w)
  | (selection, err) :: rest =>
      (selection, err, {| store := store w; broken := broken w;
                          answers := rest; files := files w |})
  end.

Definition ValidateFile (path : string) (w : World)
  : (schema.ExportFile + error) * World :=
  match files w !! path with
  | Some export => (inl export, w)
  | None => (inr (errors_New "no such file"), w)
  end.

Definition env : Env World :=
  {| env_SecretExists := SecretExists;
     env_WriteSecret := WriteSecret;
     env_Health := fun w => (None, w);
     env_NewClient := fun _ w => (None, w);
     env_ParseHeaders := fun _ w => (inl ∅, w);
     env_ValidateFile := ValidateFile;
     env_AskOne := AskOne |}.

(** A secret with one key and no metadata. *)
Definition secret (path : string) : source.Secret :=
  {| source.Path := path;
     source.Data := {[ "value"%string := VString "s3cr3t" ]};
     source.Metadata :=
       {| source.SourceID := ""; source.Description := ""; source.Tags := ∅;
          source.CreatedAt := None; source.UpdatedAt := None |} |}.

Definition export (secrets : list source.Secret) : schema.ExportFile :=
  {| schema.Version := "1.0";
     schema.Metadata :=
       {| schema.Source := "aws-secrets-manager";
          schema.ExportedAt := "2025-12-04T10:30:00Z";
          schema.Region := "";
          schema.IncludePatterns := [];
          schema.ExcludePatterns := [];
          schema.TotalSecrets := GoInt.len secrets |};
     schema.Secrets := secrets |}.

(** An empty, healthy server and a user who will select [selections]. *)
Definition world (selections : list string) : World :=
  {| store := ∅; broken := [];
     answers := map (fun s => (s, None)) selections; files := ∅ |}.

(** The default flag values of the [import] command. *)
Definition flags : Flags :=
  {| importInput := "secrets.json";
     importOpenBaoAddr := "https://openbao:8200";
     importOpenBaoToken := "hvs.xxx";
     importMount := "secret";
     importHeaders := [];
     importPathPrefix := "";
     importSkipExisting := true;
     importOverwriteAll := false;
     importInteractive := false;
     importParallelism := 5;
     importDryRun := false;
     importTLSSkipVerify := false |}.

End Sim.

(** ** Concrete inputs *)
Module Inputs.

(** Four secrets; the user answers Yes, No, Yes to all. *)
Definition four : schema.ExportFile :=
  Sim.export [Sim.secret "a"; Sim.secret "b"; Sim.secret "c"; Sim.secret "d"].

Definition yesNoYesToAll : Sim.World :=
  Sim.world ["Yes"; "No"; "Yes to all remaining"]%string.

(** Three secrets; the user answers Yes, then aborts. *)
Definition three : schema.ExportFile :=
  Sim.export [Sim.secret "a"; Sim.secret "b"; Sim.secret "c"].

Definition yesAbort : Sim.World := Sim.world ["Yes"; "Abort import"]%string.

(** One secret; the user aborts at once. *)
Definition one : schema.ExportFile := Sim.export [Sim.secret "a"].

Definition abort : Sim.World := Sim.world ["Abort import"]%string.

(** The user answers Yes, then the terminal is closed: the second prompt
    fails. *)
Definition yesThenEOF : Sim.World := Sim.world ["Yes"]%string.

(** A server that holds "app/db" and fails on "app/down". *)
Definition server : Sim.World :=
  {| Sim.store := {[ "app/db"%string := source.Data (Sim.secret "app/db") ]};
     Sim.broken := ["app/down"%string];
     Sim.answers := [];
     Sim.files := ∅ |}.

(** [--overwrite-all] *)
Definition overwriteFlags : Flags :=
  {| importInput := "secrets.json";
     importOpenBaoAddr := "https://openbao:8200";
     importOpenBaoToken := "hvs.xxx";
     importMount := "secret";
     importHeaders := [];
     importPathPrefix := "";
     importSkipExisting := true;
     importOverwriteAll := true;
     importInteractive := false;
     importParallelism := 5;
     importDryRun := false;
     importTLSSkipVerify := false |}.

(** [--interactive] *)
Definition interactiveFlags : Flags :=
  {| importInput := "secrets.json";
     importOpenBaoAddr := "https://openbao:8200";
     importOpenBaoToken := "hvs.xxx";
     importMount := "secret";
     importHeaders := [];
     importPathPrefix := "";
     importSkipExisting := true;
     importOverwriteAll := false;
     importInteractive := true;
     importParallelism := 5;
     importDryRun := false;
     importTLSSkipVerify := false |}.

(** The export file "secrets.json" holds the one secret "a"; the server
    fails on "a"; the user will answer Yes. *)
Definition failingWrite : Sim.World :=
  {| Sim.store := ∅;
     Sim.broken := ["a"%string];
     Sim.answers := [("Yes"%string, None)];
     Sim.files := {[ "secrets.json"%string := Sim.export [Sim.secret "a"] ]} |}.

(** [--parallelism 0] *)
Definition noWorkers : Flags :=
  {| importInput := "secrets.json";
     importOpenBaoAddr := "https://openbao:8200";
     importOpenBaoToken := "hvs.xxx";
     importMount := "secret";
     importHeaders := [];
     importPathPrefix := "";
     importSkipExisting := true;
     importOverwriteAll := false;
     importInteractive := false;
     importParallelism := 0;
     importDryRun := false;
     importTLSSkipVerify := false |}.

(** With no worker, the waiter closes [results] at once and the main loop
    ends. *)
Definition noWorkersSchedule : list Action := [ACloseResults; AFinish].

(** Two secrets, one of which the server fails on. *)
Definition two : schema.ExportFile :=
  Sim.export [Sim.secret "app/db"; Sim.secret "app/down"].

(** A run of the default five workers on [two]: both secrets are sent,
    workers 0 and 1 take one each and interleave their calls, the other
    workers find the channel closed. *)
Definition twoSchedule : list Action :=
  [ASend; ARecv 0; ASend; ACloseWork; ARecv 1; AExit 2; ACall 1; ACall 0;
   AEmit 1; ACollect; AEmit 0; AExit 0; AExit 1; AExit 3; AExit 4;
   ACloseResults; ACollect; AFinish].

End Inputs.

(** * The rest of the import command, and what it calls

    Further observations on the runs of the import engine, then the
    functions that [runImport] and [runList] call in the other packages. *)

(** ** Further observations on traces *)

(** A call that creates the client or reaches the OpenBao server. *)
Definition isClientCall (ev : Event) : bool :=
  match ev with
  | EvNewClient _ _ | EvHealth _ | EvSecretExists _ _ _ | EvWriteSecret _ _ _ => true
  | _ => false
  end.

(** A call that the engine makes for a secret: an existence check, a write
    or a prompt. *)
Definition isEngineCall (ev : Event) : bool :=
  match ev with
  | EvSecretExists _ _ _ | EvWriteSecret _ _ _ | EvAskOne _ _ _ _ => true
  | _ => false
  end.

Definition writeEventOf (ev : Event) : option (string * SecretData) :=
  match ev with
  | EvWriteSecret path data _ => Some (path, data)
  | _ => None
  end.

(** What the writes of a trace sent: destination path and data, in order. *)
Definition writeEvents (tr : list Event) : list (string * SecretData) :=
  omap writeEventOf tr.

(** What a write of [secret] sends. *)
Definition destOf (pathPrefix : string) (secret : source.Secret)
  : string * SecretData :=
  (destPath pathPrefix secret, source.Data secret).

Definition absentCheckOf (ev : Event) : option string :=
  match ev with
  | EvSecretExists path false None => Some path
  | _ => None
  end.

(** The paths of the existence checks that answered "absent" (false, no
    error), in order. *)
Definition absentChecks (tr : list Event) : list string :=
  omap absentCheckOf tr.

Definition dryRunLineOf (ev : Event) : option (string * string) :=
  match ev with
  | EvFprintf Stdout f [AStr a; AStr b] =>
      if String.eqb f "  %s -> %s\n" then Some (a, b) else None
  | _ => None
  end.

(** The "path -> destination" lines of a dry run, in order. *)
Definition dryRunLines (tr : list Event) : list (string * string) :=
  omap dryRunLineOf tr.

Definition progressOf (ev : Event) : option (Z * Z) :=
  match ev with
  | EvFprintf Stderr f [AInt k; AInt n] =>
      if String.eqb f "\r  Progress: %d/%d" then Some (k, n) else None
  | _ => None
  end.

(** The "Progress: k/n" lines of a parallel run, in order. *)
Definition progressLines (tr : list Event) : list (Z * Z) :=
  omap progressOf tr.

(** The configuration that [runImport] creates the client with. *)
Definition clientConfig (g : Flags) (headers : gmap string string)
  : openbao.Config :=
  {| openbao.Address := importOpenBaoAddr g;
     openbao.Token := importOpenBaoToken g;
     openbao.Mount := importMount g;
     openbao.Headers := headers;
     openbao.TLSSkipVerify := importTLSSkipVerify g;
     openbao.Timeout := 30 |}.

(** *** The writes of the pool *)

(** The write that a call of [importSecret] may still make. *)
Definition pendingWrite (p : Prog ImportResult) : list (string * SecretData) :=
  match p with
  | WriteSecret path data _ => [(path, data)]
  | SecretExists _ k =>
      match k false None with
      | WriteSecret path data _ => [(path, data)]
      | _ => []
      end
  | _ => []
  end.

Definition workerWrite (wk : Worker) : list (string * SecretData) :=
  match wk with
  | WImport p => pendingWrite p
  | _ => []
  end.

(** The programs of a worker, with what they write: after an existence
    check the write, if any, is the pending one. *)
Definition writeShape (p : Prog ImportResult) : Prop :=
  match p with
  | Ret _ => True
  | WriteSecret _ _ k => forall e, afterWrite (k e)
  | SecretExists _ k =>
      forall b e,
        match k b e with
        | Ret _ => True
        | WriteSecret path data k' =>
            k false None = k b e /\ forall e', afterWrite (k' e')
        | _ => False
        end
  | _ => False
  end.

(** The write that a worker is about to make, the existence check having
    answered "absent". *)
Definition confirmedWrite (wk : Worker) : list string :=
  match wk with
  | WImport (WriteSecret path _ _) => [path]
  | _ => []
  end.

(** The programs of a worker when skip-existing is on: a write follows an
    existence check of the same path, exactly when the check answers
    "absent". *)
Definition skipShape (p : Prog ImportResult) : Prop :=
  match p with
  | Ret _ => True
  | WriteSecret _ _ k => forall e, afterWrite (k e)
  | SecretExists path k =>
      forall b e,
        match k b e with
        | Ret _ => (b, e) <> (false, None)
        | WriteSecret path' _ k' =>
            (b, e) = (false, None) /\ path' = path /\ forall e', afterWrite (k' e')
        | _ => False
        end
  | _ => False
  end.

(** The programs of a worker when skip-existing is off: no existence
    check. *)
Definition overwriteShape (p : Prog ImportResult) : Prop :=
  match p with
  | Ret _ => True
  | WriteSecret _ _ k => forall e, afterWrite (k e)
  | _ => False
  end.

(** *** The steps of [runImport] *)

(** The flag variables after the validation of the flags. *)
Definition flagsAfterValidation (g : Flags) : Flags :=
  if importOverwriteAll g then setSkipExisting false g else g.

(** What [runImport] prints around its calls. *)
Definition readingOutput (g : Flags) : Event :=
  EvFprintf Stderr "Reading export file: %s\n" [AStr (importInput g)].

Definition foundOutput (export : schema.ExportFile) : Event :=
  EvFprintf Stderr "  Found %d secrets to import\n"
    [AInt (GoInt.len (schema.Secrets export))].

Definition connectingOutput (g : Flags) : Event :=
  EvFprintf Stderr "Connecting to OpenBao: %s\n" [AStr (importOpenBaoAddr g)].

Definition connectedOutput : Event :=
  EvFprintf Stderr "  Connected successfully\n" [].

(** The trace of [runImport] up to the parsing of the headers. *)
Definition parsedTrace (g : Flags) (export : schema.ExportFile)
    (headers : gmap string string + error) : list Event :=
  [readingOutput g; EvValidateFile (importInput g) (inl export);
   foundOutput export; EvParseHeaders (importHeaders g) headers].

(** The trace of [runImport] up to the health check. *)
Definition connectTrace (g : Flags) (export : schema.ExportFile)
    (headers : gmap string string) (herr : option error) : list Event :=
  (parsedTrace g export (inl headers)
   ++ [connectingOutput g; EvNewClient (clientConfig g headers) None;
       EvHealth herr])%list.

(** What [runDryRun] prints for the secrets. *)
Definition dryRunOutput (pathPrefix : string) (secrets : list source.Secret)
  : list Event :=
  secrets ≫= fun secret =>
    [EvFprintf Stdout "  %s -> %s\n"
       [AStr (source.Path secret); AStr (destPath pathPrefix secret)];
     EvFprintf Stdout "    Keys: %s\n"
       [AStr (Join (getSecretKeys (source.Data secret)) ", ")]].

(** ** More of package [strings]

    [Index], [Contains], [SplitN] and [TrimSpace] as package [strings]
    documents them, on byte strings. [TrimSpace] removes the leading and the
    trailing white space as Unicode defines it: a rune of the property
    White_Space, in its UTF-8 encoding. *)
Module GoStringsMore.

(** [strings.Index(s, substr)]: the index of the first instance of
    [substr] in [s]; [None] for Go's -1. *)
Fixpoint Index (s substr : string) : option nat :=
  if HasPrefix s substr then Some 0%nat
  else
    match s with
    | "" => None
    | String _ t => S <$> Index t substr
    end.

(** [strings.Contains(s, substr)] *)
Definition Contains (s substr : string) : bool :=
  match Index s substr with Some _ => true | None => false end.

(** [strings.SplitN(s, sep, n)] for [n > 0] and a non-empty [sep]: at most
    [n] substrings, the last one being the unsplit remainder. *)
Fixpoint SplitN (s sep : string) (n : nat) : list string :=
  match n with
  | 0%nat => []
  | 1%nat => [s]
  | S n' =>
      match Index s sep with
      | None => [s]
      | Some m =>
          slice_to m s :: SplitN (slice_from (m + String.length sep) s) sep n'
      end
  end.

(** The string of the bytes [l]. *)
Definition ofBytes (l : list nat) : string :=
  fold_right (fun n s => String (Ascii.ascii_of_nat n) s) "" l.

(** The runes of the Unicode property White_Space, in UTF-8:
    U+0009 to U+000D, U+0020, U+0085, U+00A0, U+1680, U+2000 to U+200A,
    U+2028, U+2029, U+202F, U+205F and U+3000. *)
Definition whiteSpace : list string :=
  ofBytes <$>
    [[9]; [10]; [11]; [12]; [13]; [32]; [194; 133]; [194; 160];
     [225; 154; 128];
     [226; 128; 128]; [226; 128; 129]; [226; 128; 130]; [226; 128; 131];
     [226; 128; 132]; [226; 128; 133]; [226; 128; 134]; [226; 128; 135];
     [226; 128; 136]; [226; 128; 137]; [226; 128; 138];
     [226; 128; 168]; [226; 128; 169]; [226; 128; 175]; [226; 129; 159];
     [227; 128; 128]]%nat.

(** The white-space rune that [s] starts with, if any. *)
Definition leadingSpace (s : string) : option string :=
  list_find (fun r => HasPrefix s r = true) whiteSpace ≫= fun x => Some x.2.

(** The white-space rune that [s] ends with, if any. *)
Definition trailingSpace (s : string) : option string :=
  list_find (fun r => HasSuffix s r = true) whiteSpace ≫= fun x => Some x.2.

(** [strings.TrimLeftFunc(s, unicode.IsSpace)]; [fuel] bounds the number
    of runes removed. *)
Fixpoint trimLeft (fuel : nat) (s : string) : string :=
  match fuel with
  | 0%nat => s
  | S fuel' =>
      match leadingSpace s with
      | Some r => trimLeft fuel' (slice_from (String.length r) s)
      | None => s
      end
  end.

(** [strings.TrimRightFunc(s, unicode.IsSpace)] *)
Fixpoint trimRight (fuel : nat) (s : string) : string :=
  match fuel with
  | 0%nat => s
  | S fuel' =>
      match trailingSpace s with
      | Some r => trimRight fuel' (slice_to (String.length s - String.length r) s)
      | None => s
      end
  end.

(** [strings.TrimSpace(s)] *)
Definition TrimSpace (s : string) : string :=
  trimRight (String.length s) (trimLeft (String.length s) s).

(** A string that neither starts nor ends with white space. *)
Definition trimmed (s : string) : Prop :=
  leadingSpace s = None /\ trailingSpace s = None.

End GoStringsMore.

Import GoStringsMore.

(** [err.Error()]: the message of an error. *)
Fixpoint Error_message (e : error) : string :=
  match e with
  | errors_New msg => msg
  | Errorf_w msg cause => msg +:+ ": " +:+ Error_message cause
  | Errorf_d n msg => pretty n +:+ msg
  end.

(** ** Package [openbao]: the client (client.go) *)
Module target.

(** [ParseHeaders]: the loop over the header strings, [headers] being the
    map built so far. *)
Fixpoint ParseHeaders_loop (headerStrings : list string)
    (headers : gmap string string) : gmap string string + error :=
  match headerStrings with
  | [] => inl headers
  | h :: rest =>
      match SplitN h ":" 2 with
      | [part0; part1] =>
          let key := TrimSpace part0 in
          let value := TrimSpace part1 in
          if String.eqb key "" then
            inr (errors_New ("invalid header: empty key in " +:+ h))
          else ParseHeaders_loop rest (<[key := value]> headers)
      | _ =>
          inr (errors_New
                 ("invalid header format: " +:+ h +:+ " (expected 'Key: Value')"))
      end
  end.

(** ParseHeaders parses header strings in "Key: Value" format. *)
Definition ParseHeaders (headerStrings : list string)
  : gmap string string + error :=
  ParseHeaders_loop headerStrings ∅.

(** The key and the value that [ParseHeaders] reads in a header: what is
    before and after the first colon, without the surrounding white space;
    [None] for a header without a colon. *)
Definition headerPair (h : string) : option (string * string) :=
  match SplitN h ":" 2 with
  | [part0; part1] => Some (TrimSpace part0, TrimSpace part1)
  | _ => None
  end.

(** The calls of the client on the Vault API: [kv.Get], [kv.Put] and
    [Sys().Health()]. A nil [*api.KVSecret] is [None]; of a health response
    only [Sealed] is read. *)
Record Vault (W : Type) : Type := {
  kv_Get : string -> W -> option SecretData * option error * W;
  kv_Put : string -> SecretData -> W -> option error * W;
  sys_Health : W -> (bool + error) * W;
}.

Arguments kv_Get {W} _ _ _.
Arguments kv_Put {W} _ _ _ _.
Arguments sys_Health {W} _ _.

(** WriteSecret writes a secret to KV v2. *)
Definition WriteSecret {W : Type} (api : Vault W) (path : string)
    (data : SecretData) (w : W) : option error * W :=
  let '(err, w') := kv_Put api path data w in
  match err with
  | Some e => (Some (Errorf_w ("failed to write secret to " +:+ path) e), w')
  | None => (None, w')
  end.

(** SecretExists checks if a secret exists at the given path. *)
Definition SecretExists {W : Type} (api : Vault W) (path : string) (w : W)
  : bool * option error * W :=
  let '(secret, err, w') := kv_Get api path w in
  match err with
  | Some e =>
      (* Check if it's a "secret not found" error *)
      if Contains (Error_message e) "secret not found" then (false, None, w')
      else (false, Some (Errorf_w ("failed to check secret at " +:+ path) e), w')
  | None => (match secret with Some _ => true | None => false end, None, w')
  end.

(** Health checks the OpenBao server health. *)
Definition Health {W : Type} (api : Vault W) (w : W) : option error * W :=
  let '(health, w') := sys_Health api w in
  match health with
  | inr e => (Some (Errorf_w "failed to check OpenBao health" e), w')
  | inl sealed =>
      if sealed then (Some (errors_New "OpenBao is sealed"), w') else (None, w')
  end.

(** The environment of the engine whose client is this one and whose
    headers are parsed by [ParseHeaders]; the other calls are those of
    [env]. *)
Definition withClient {W : Type} (api : Vault W) (env : Env W) : Env W :=
  {| env_SecretExists := SecretExists api;
     env_WriteSecret := WriteSecret api;
     env_Health := Health api;
     env_NewClient := env_NewClient env;
     env_ParseHeaders := fun headerStrings w => (ParseHeaders headerStrings, w);
     env_ValidateFile := env_ValidateFile env;
     env_AskOne := env_AskOne env |}.

End target.

(** * The other commands: [list], [export] and [validate]

    The structs of packages [source] and [schema] as Go holds them, the
    source registry, the path filter, programs over the collaborators of the
    three commands (a source, the clock, [encoding/json], the file system,
    the terminal) and the commands themselves. *)

(** ** Go's zero values *)

(** A [time.Time]: the seconds since January 1, year 1, 00:00:00 UTC and the
    nanoseconds within the second, which is what [IsZero] reads. *)
Module time.

Record Time : Type := {
  sec : Z;
  nsec : Z;
}.

(** IsZero reports whether t represents the zero time instant. *)
Definition IsZero (t : Time) : bool := (sec t =? 0)%Z && (nsec t =? 0)%Z.

End time.

(** The structs of source.go and schema.go with their zero values: a map
    that is nil is [None], and [ExportedAt] may be the zero time. The
    records [source.Secret] and [schema.ExportFile] of the import engine are
    what the engine reads of them. *)
Module gosource.

Record Secret : Type := {
  Path : string;
  Data : option SecretData;
  Metadata : source.SecretMetadata;
}.

End gosource.

Module goschema.

Record ExportMetadata : Type := {
  Source : string;
  ExportedAt : time.Time;
  Region : string;
  IncludePatterns : list string;
  ExcludePatterns : list string;
  TotalSecrets : Z;
}.

Record ExportFile : Type := {
  Version : string;
  Metadata : ExportMetadata;
  Secrets : list gosource.Secret;
}.

End goschema.

(** [source.SecretInfo] (source.go) *)
Module listing.

Record SecretInfo : Type := {
  Path : string;
  Description : string;
  Tags : gmap string string;
}.

End listing.

(** ** The source registry (registry.go)

    [S] is the type of the sources (the interface [source.Source]); a
    factory creates one. The methods take the registry's lock; each is one
    atomic step on the map. *)
Module registry.

Definition SourceFactory (S : Type) : Type := unit -> S.

Definition Registry (S : Type) : Type := gmap string (SourceFactory S).

(** NewRegistry creates a new source registry. *)
Definition NewRegistry {S : Type} : Registry S := ∅.

(** Register adds a source factory to the registry. *)
Definition Register {S : Type} (r : Registry S) (name : string)
    (factory : SourceFactory S) : Registry S :=
  <[name := factory]> r.

(** Get returns a new instance of the named source. *)
Definition Get {S : Type} (r : Registry S) (name : string) : S + error :=
  match r !! name with
  | Some factory => inl (factory tt)
  | None => inr (errors_New ("unknown source: " +:+ name))
  end.

(** List returns the names of all registered sources, in the order the
    [range] over the map yields them (Go leaves that order unspecified). *)
Definition List {S : Type} (r : Registry S) : list string :=
  (map_to_list r).*1.

(** Has checks if a source is registered. *)
Definition Has {S : Type} (r : Registry S) (name : string) : bool :=
  match r !! name with
  | Some _ => true
  | None => false
  end.

End registry.

(** ** The path filter (filter.go)

    Package [github.com/gobwas/glob] is a parameter: the type of compiled
    patterns, [glob.Compile(pattern, separators...)] and [Glob.Match]. *)
Class GlobLib : Type := {
  Glob : Type;
  glob_Compile : string -> list ascii -> Glob + error;
  glob_Match : Glob -> string -> bool;
}.

Module filter.
Section Filter.
Context `{GlobLib}.

(** PathFilter filters paths based on include/exclude glob patterns. *)
Record PathFilter : Type := {
  includes : list Glob;
  excludes : list Glob;
}.

(** One loop of [NewPathFilter]: the patterns are compiled in order and
    appended to [compiled]; the first error ends it. *)
Fixpoint compileAll (patterns : list string) (compiled : list Glob)
  : list Glob + error :=
  match patterns with
  | [] => inl compiled
  | p :: rest =>
      match glob_Compile p ["/"%char] with
      | inr err => inr err
      | inl g => compileAll rest (compiled ++ [g])
      end
  end.

(** NewPathFilter creates a new PathFilter from include and exclude
    patterns. *)
Definition NewPathFilter (includePatterns excludePatterns : list string)
  : PathFilter + error :=
  match compileAll includePatterns [] with
  | inr err => inr err
  | inl includes =>
      match compileAll excludePatterns [] with
      | inr err => inr err
      | inl excludes => inl {| includes := includes; excludes := excludes |}
      end
  end.

(** [for _, g := range globs { if g.Match(path) { return ... } }] *)
Fixpoint anyMatch (globs : list Glob) (path : string) : bool :=
  match globs with
  | [] => false
  | g :: rest => if glob_Match g path then true else anyMatch rest path
  end.

(** Matches returns true if the path matches the filter criteria. *)
Definition Matches (f : PathFilter) (path : string) : bool :=
  (* Check excludes first *)
  if anyMatch (excludes f) path then false
  (* If no includes specified, include everything *)
  else if (length (includes f) =? 0)%nat then true
  (* Check includes *)
  else anyMatch (includes f) path.

(** HasPatterns returns true if any patterns are configured. *)
Definition HasPatterns (f : PathFilter) : bool :=
  (0 <? length (includes f))%nat || (0 <? length (excludes f))%nat.

End Filter.
End filter.

(** ** Programs of the commands

    The calls of [runList], [runExport] and [runValidate]: the methods of a
    source, the type assertion of [src] to the AWS source with [Region()],
    [time.Now()], [Time.Format], [json.MarshalIndent], [json.Unmarshal],
    [os.WriteFile], [os.ReadFile], and the writes to the terminal, directly
    or through the tabwriter.

    A call that returns a value and an error returns one of the two here:
    [List] and [Get] of a source return what they have found or an error,
    as the AWS source does, whose [Get] returns a secret that is not nil
    whenever its error is nil. *)

Inductive Out : Type :=
| ToStream (s : Stream)
| ToTabwriter.

Inductive Cmd (S R : Type) : Type :=
| CRet (r : R)
| CName (src : S) (k : string -> Cmd S R)
| CConfigure (src : S) (opts : gmap string Value) (k : option error -> Cmd S R)
| CList (src : S) (patterns : list string)
    (k : list listing.SecretInfo + error -> Cmd S R)
| CGet (src : S) (path : string) (k : gosource.Secret + error -> Cmd S R)
| CRegion (src : S) (k : option string -> Cmd S R)
| CNow (k : time.Time -> Cmd S R)
| CFormat (t : time.Time) (layout : string) (k : string -> Cmd S R)
| CMarshalIndent (e : goschema.ExportFile) (k : string + error -> Cmd S R)
| CUnmarshal (data : string) (k : goschema.ExportFile + error -> Cmd S R)
| CWriteFile (name data : string) (perm : N) (k : option error -> Cmd S R)
| CReadFile (name : string) (k : string + error -> Cmd S R)
| CPrint (out : Out) (format : string) (args : list Arg) (k : Cmd S R)
| CFlush (k : Cmd S R).

Arguments CRet {S R} r.
Arguments CName {S R} src k.
Arguments CConfigure {S R} src opts k.
Arguments CList {S R} src patterns k.
Arguments CGet {S R} src path k.
Arguments CRegion {S R} src k.
Arguments CNow {S R} k.
Arguments CFormat {S R} t layout k.
Arguments CMarshalIndent {S R} e k.
Arguments CUnmarshal {S R} data k.
Arguments CWriteFile {S R} name data perm k.
Arguments CReadFile {S R} name k.
Arguments CPrint {S R} out format args k.
Arguments CFlush {S R} k.

Fixpoint cbind {S A B : Type} (p : Cmd S A) (f : A -> Cmd S B) : Cmd S B :=
  match p with
  | CRet a => f a
  | CName src k => CName src (fun x => cbind (k x) f)
  | CConfigure src opts k => CConfigure src opts (fun x => cbind (k x) f)
  | CList src patterns k => CList src patterns (fun x => cbind (k x) f)
  | CGet src path k => CGet src path (fun x => cbind (k x) f)
  | CRegion src k => CRegion src (fun x => cbind (k x) f)
  | CNow k => CNow (fun x => cbind (k x) f)
  | CFormat t layout k => CFormat t layout (fun x => cbind (k x) f)
  | CMarshalIndent e k => CMarshalIndent e (fun x => cbind (k x) f)
  | CUnmarshal data k => CUnmarshal data (fun x => cbind (k x) f)
  | CWriteFile name data perm k => CWriteFile name data perm (fun x => cbind (k x) f)
  | CReadFile name k => CReadFile name (fun x => cbind (k x) f)
  | CPrint out format args k => CPrint out format args (cbind k f)
  | CFlush k => CFlush (cbind k f)
  end.

Declare Scope cmd_scope.
Delimit Scope cmd_scope with cmd.
Notation "x <- p ;; q" := (cbind p (fun x => q))
  (at level 20, p at level 99, q at level 200, only parsing) : cmd_scope.
Notation "' pat <- p ;; q" := (cbind p (fun x => match x with pat => q end))
  (at level 20, pat pattern, p at level 99, q at level 200, only parsing)
  : cmd_scope.
Notation "p ;; q" := (cbind p (fun _ => q))
  (at level 100, q at level 200, right associativity, only parsing)
  : cmd_scope.

(** The calls, as programs that return the call's results. *)
Module cmd.
Section Calls.
Context {S : Type}.

Definition Name (src : S) : Cmd S string := CName src CRet.
Definition Configure (src : S) (opts : gmap string Value) : Cmd S (option error) :=
  CConfigure src opts CRet.
Definition List (src : S) (patterns : list string)
  : Cmd S (list listing.SecretInfo + error) :=
  CList src patterns CRet.
Definition Get (src : S) (path : string) : Cmd S (gosource.Secret + error) :=
  CGet src path CRet.
Definition Region (src : S) : Cmd S (option string) := CRegion src CRet.
Definition Now : Cmd S time.Time := CNow CRet.
Definition Format (t : time.Time) (layout : string) : Cmd S string :=
  CFormat t layout CRet.
Definition MarshalIndent (e : goschema.ExportFile) : Cmd S (string + error) :=
  CMarshalIndent e CRet.
Definition Unmarshal (data : string) : Cmd S (goschema.ExportFile + error) :=
  CUnmarshal data CRet.
Definition WriteFile (name data : string) (perm : N) : Cmd S (option error) :=
  CWriteFile name data perm CRet.
Definition ReadFile (name : string) : Cmd S (string + error) := CReadFile name CRet.
Definition Fprintf (out : Out) (format : string) (args : list Arg) : Cmd S unit :=
  CPrint out format args (CRet tt).
Definition Printf (format : string) (args : list Arg) : Cmd S unit :=
  Fprintf (ToStream Stdout) format args.
(** [fmt.Println(s)] and [fmt.Fprintln(w, s)]: [s] followed by a newline. *)
Definition Fprintln (out : Out) (s : string) : Cmd S unit :=
  Fprintf out "%s\n" [AStr s].
Definition Println (s : string) : Cmd S unit := Fprintln (ToStream Stdout) s.
Definition Flush : Cmd S unit := CFlush (CRet tt).

End Calls.
End cmd.

Inductive CEvent (S : Type) : Type :=
| EvName (src : S) (name : string)
| EvConfigure (src : S) (opts : gmap string Value) (err : option error)
| EvList (src : S) (patterns : list string) (r : list listing.SecretInfo + error)
| EvGet (src : S) (path : string) (r : gosource.Secret + error)
| EvRegion (src : S) (r : option string)
| EvNow (t : time.Time)
| EvFormat (t : time.Time) (layout : string) (text : string)
| EvMarshalIndent (e : goschema.ExportFile) (r : string + error)
| EvUnmarshal (data : string) (r : goschema.ExportFile + error)
| EvWriteFile (name data : string) (perm : N) (err : option error)
| EvReadFile (name : string) (r : string + error)
| EvPrint (out : Out) (format : string) (args : list Arg)
| EvFlush.

Arguments EvName {S} src name.
Arguments EvConfigure {S} src opts err.
Arguments EvList {S} src patterns r.
Arguments EvGet {S} src path r.
Arguments EvRegion {S} src r.
Arguments EvNow {S} t.
Arguments EvFormat {S} t layout text.
Arguments EvMarshalIndent {S} e r.
Arguments EvUnmarshal {S} data r.
Arguments EvWriteFile {S} name data perm err.
Arguments EvReadFile {S} name r.
Arguments EvPrint {S} out format args.
Arguments EvFlush {S}.

(** An environment of the commands answers every call from a state of its
    own. Nothing is assumed of it. *)
Record Sys (S W : Type) : Type := {
  sys_Name : S -> W -> string * W;
  sys_Configure : S -> gmap string Value -> W -> option error * W;
  sys_List : S -> list string -> W -> (list listing.SecretInfo + error) * W;
  sys_Get : S -> string -> W -> (gosource.Secret + error) * W;
  sys_Region : S -> W -> option string * W;
  sys_Now : W -> time.Time * W;
  sys_Format : time.Time -> string -> W -> string * W;
  sys_MarshalIndent : goschema.ExportFile -> W -> (string + error) * W;
  sys_Unmarshal : string -> W -> (goschema.ExportFile + error) * W;
  sys_WriteFile : string -> string -> N -> W -> option error * W;
  sys_ReadFile : string -> W -> (string + error) * W;
}.

Arguments sys_Name {S W} _ _ _.
Arguments sys_Configure {S W} _ _ _ _.
Arguments sys_List {S W} _ _ _ _.
Arguments sys_Get {S W} _ _ _ _.
Arguments sys_Region {S W} _ _ _.
Arguments sys_Now {S W} _ _.
Arguments sys_Format {S W} _ _ _ _.
Arguments sys_MarshalIndent {S W} _ _ _.
Arguments sys_Unmarshal {S W} _ _ _.
Arguments sys_WriteFile {S W} _ _ _ _ _.
Arguments sys_ReadFile {S W} _ _ _.

Fixpoint crun {S W R : Type} (sys : Sys S W) (p : Cmd S R) (w : W)
  : R * W * list (CEvent S) :=
  match p with
  | CRet r => (r, w, [])
  | CName src k =>
      let '(x, w1) := sys_Name sys src w in
      let '(r, w2, tr) := crun sys (k x) w1 in
      (r, w2, EvName src x :: tr)
  | CConfigure src opts k =>
      let '(x, w1) := sys_Configure sys src opts w in
      let '(r, w2, tr) := crun sys (k x) w1 in
      (r, w2, EvConfigure src opts x :: tr)
  | CList src patterns k =>
      let '(x, w1) := sys_List sys src patterns w in
      let '(r, w2, tr) := crun sys (k x) w1 in
      (r, w2, EvList src patterns x :: tr)
  | CGet src path k =>
      let '(x, w1) := sys_Get sys src path w in
      let '(r, w2, tr) := crun sys (k x) w1 in
      (r, w2, EvGet src path x :: tr)
  | CRegion src k =>
      let '(x, w1) := sys_Region sys src w in
      let '(r, w2, tr) := crun sys (k x) w1 in
      (r, w2, EvRegion src x :: tr)
  | CNow k =>
      let '(x, w1) := sys_Now sys w in
      let '(r, w2, tr) := crun sys (k x) w1 in
      (r, w2, EvNow x :: tr)
  | CFormat t layout k =>
      let '(x, w1) := sys_Format sys t layout w in
      let '(r, w2, tr) := crun sys (k x) w1 in
      (r, w2, EvFormat t layout x :: tr)
  | CMarshalIndent e k =>
      let '(x, w1) := sys_MarshalIndent sys e w in
      let '(r, w2, tr) := crun sys (k x) w1 in
      (r, w2, EvMarshalIndent e x :: tr)
  | CUnmarshal data k =>
      let '(x, w1) := sys_Unmarshal sys data w in
      let '(r, w2, tr) := crun sys (k x) w1 in
      (r, w2, EvUnmarshal data x :: tr)
  | CWriteFile name data perm k =>
      let '(x, w1) := sys_WriteFile sys name data perm w in
      let '(r, w2, tr) := crun sys (k x) w1 in
      (r, w2, EvWriteFile name data perm x :: tr)
  | CReadFile name k =>
      let '(x, w1) := sys_ReadFile sys name w in
      let '(r, w2, tr) := crun sys (k x) w1 in
      (r, w2, EvReadFile name x :: tr)
  | CPrint out format args k =>
      let '(r, w2, tr) := crun sys k w in
      (r, w2, EvPrint out format args :: tr)
  | CFlush k =>
      let '(r, w2, tr) := crun sys k w in
      (r, w2, EvFlush :: tr)
  end.

(** ** The export file (schema.go) *)
Module schemafile.
Section Schema.
Context {S : Type}.
Local Open Scope cmd_scope.

(** Version is the current schema version. *)
Definition Version : string := "1.0".

(** NewExportFile creates a new ExportFile with the current version;
    [ExportedAt] is [time.Now().UTC()]. *)
Definition NewExportFile (sourceName : string) : Cmd S goschema.ExportFile :=
  now <- cmd.Now;;
  CRet {| goschema.Version := Version;
          goschema.Metadata :=
            {| goschema.Source := sourceName;
               goschema.ExportedAt := now;
               goschema.Region := "";
               goschema.IncludePatterns := [];
               goschema.ExcludePatterns := [];
               goschema.TotalSecrets := 0 |};
          goschema.Secrets := [] |}.

(** [e.Metadata.TotalSecrets = n] *)
Definition setTotalSecrets (n : Z) (m : goschema.ExportMetadata) : goschema.ExportMetadata :=
  {| goschema.Source := goschema.Source m;
     goschema.ExportedAt := goschema.ExportedAt m;
     goschema.Region := goschema.Region m;
     goschema.IncludePatterns := goschema.IncludePatterns m;
     goschema.ExcludePatterns := goschema.ExcludePatterns m;
     goschema.TotalSecrets := n |}.

(** AddSecret adds a secret to the export file. *)
Definition AddSecret (e : goschema.ExportFile) (secret : gosource.Secret) : goschema.ExportFile :=
  let secrets := (goschema.Secrets e ++ [secret])%list in
  {| goschema.Version := goschema.Version e;
     goschema.Metadata := setTotalSecrets (GoInt.len secrets) (goschema.Metadata e);
     goschema.Secrets := secrets |}.

(** Write writes the export file to the specified path. *)
Definition Write (e : goschema.ExportFile) (path : string) : Cmd S (option error) :=
  r <- cmd.MarshalIndent e;;
  match r with
  | inr err => CRet (Some (Errorf_w "failed to marshal export file" err))
  | inl data =>
      err <- cmd.WriteFile path data 384;;
      match err with
      | Some err => CRet (Some (Errorf_w "failed to write export file" err))
      | None => CRet None
      end
  end.

(** ReadExportFile reads and parses an export file from the specified
    path. *)
Definition ReadExportFile (path : string) : Cmd S (goschema.ExportFile + error) :=
  r <- cmd.ReadFile path;;
  match r with
  | inr err => CRet (inr (Errorf_w "failed to read export file" err))
  | inl data =>
      r <- cmd.Unmarshal data;;
      match r with
      | inr err => CRet (inr (Errorf_w "failed to parse export file" err))
      | inl export => CRet (inl export)
      end
  end.

(** The loop of [Validate] over the secrets, from index [i] on. *)
Fixpoint Validate_secrets (i : Z) (secrets : list gosource.Secret) : option error :=
  match secrets with
  | [] => None
  | secret :: rest =>
      if String.eqb (gosource.Path secret) "" then
        Some (errors_New ("secret at index " +:+ pretty i
                          +:+ ": missing required field: path"))
      else
        match gosource.Data secret with
        | None =>
            Some (errors_New ("secret at index " +:+ pretty i +:+ " ("
                              +:+ gosource.Path secret
                              +:+ "): missing required field: data"))
        | Some _ => Validate_secrets (i + 1) rest
        end
  end.

(** Validate checks if the export file is valid according to the schema. *)
Definition Validate (e : goschema.ExportFile) : option error :=
  if String.eqb (goschema.Version e) "" then
    Some (errors_New "missing required field: version")
  else if negb (String.eqb (goschema.Version e) Version) then
    Some (errors_New ("unsupported schema version: " +:+ goschema.Version e
                      +:+ " (expected " +:+ Version +:+ ")"))
  else if String.eqb (goschema.Source (goschema.Metadata e)) "" then
    Some (errors_New "missing required field: metadata.source")
  else if time.IsZero (goschema.ExportedAt (goschema.Metadata e)) then
    Some (errors_New "missing required field: metadata.exported_at")
  else
    match Validate_secrets 0 (goschema.Secrets e) with
    | Some err => Some err
    | None =>
        (* Validate TotalSecrets matches actual count *)
        if negb (goschema.TotalSecrets (goschema.Metadata e) =? GoInt.len (goschema.Secrets e))%Z
        then
          Some (errors_New
                  ("metadata.total_secrets ("
                   +:+ pretty (goschema.TotalSecrets (goschema.Metadata e))
                   +:+ ") does not match actual secret count ("
                   +:+ pretty (GoInt.len (goschema.Secrets e)) +:+ ")"))
        else None
    end.

(** ValidateFile reads and validates an export file. *)
Definition ValidateFile (path : string) : Cmd S (goschema.ExportFile + error) :=
  r <- ReadExportFile path;;
  match r with
  | inr err => CRet (inr err)
  | inl export =>
      match Validate export with
      | Some err => CRet (inr (Errorf_w "validation failed" err))
      | None => CRet (inl export)
      end
  end.

End Schema.
End schemafile.

(** ** The [list] command (list.go) *)

(** The package-level flag variables of list.go. *)
Record ListFlags : Type := {
  listSource : string;
  listIncludes : list string;
  listExcludes : list string;
  listRegion : string;
}.

Definition matchSimpleGlob (pattern s : string) : bool :=
  (* Simple implementation supporting ** and * *)
  if String.eqb pattern "**" then true
  else if String.eqb pattern s then true
  else false.

Record gobFilter : Type := {
  patterns : list string;
}.

(** [for _, p := range g.patterns] of [gobFilter.Matches] *)
Fixpoint gobFilter_Matches_loop (patterns : list string) (path : string) : bool :=
  match patterns with
  | [] => false
  | p :: rest =>
      if matchSimpleGlob p path then true else gobFilter_Matches_loop rest path
  end.

Definition gobFilter_Matches (g : gobFilter) (path : string) : bool :=
  gobFilter_Matches_loop (patterns g) path.

Definition newPathFilterForMatch (patterns : list string) : gobFilter + error :=
  inl {| patterns := patterns |}.

Record simpleFilter : Type := {
  pattern : string;
}.

Definition newSimpleFilter (pattern : string) : simpleFilter + error :=
  inl {| pattern := pattern |}.

Definition simpleFilter_Matches (f : simpleFilter) (path : string) : bool :=
  match newPathFilterForMatch [pattern f] with
  | inr _ => false
  | inl pf => gobFilter_Matches pf path
  end.

(** matchGlob is a simple glob matcher for exclude patterns *)
Definition matchGlob (pattern path : string) : bool * option error :=
  match newSimpleFilter pattern with
  | inr err => (false, Some err)
  | inl f => (simpleFilter_Matches f path, None)
  end.

(** [for _, pattern := range listExcludes] of [runList]: whether some
    pattern matches; the loop breaks at the first that does. *)
Fixpoint excludedBy (listExcludes : list string) (path : string) : bool :=
  match listExcludes with
  | [] => false
  | pattern :: rest =>
      let '(matched, _) := matchGlob pattern path in
      if matched then true else excludedBy rest path
  end.

(** [for _, info := range infos] of the exclude filter of [runList];
    [filtered] is the slice built so far. *)
Fixpoint excludeLoop (listExcludes : list string) (infos : list listing.SecretInfo)
    (filtered : list listing.SecretInfo) : list listing.SecretInfo :=
  match infos with
  | [] => filtered
  | info :: rest =>
      excludeLoop listExcludes rest
        (if excludedBy listExcludes (listing.Path info) then filtered
         else (filtered ++ [info])%list)
  end.

(** "Apply exclude filter" *)
Definition applyExcludes (listExcludes : list string)
    (infos : list listing.SecretInfo) : list listing.SecretInfo :=
  if (0 <? GoInt.len listExcludes)%Z then excludeLoop listExcludes infos []
  else infos.

(** The description as the table shows it. *)
Definition shownDescription (info : listing.SecretInfo) : string :=
  let desc := listing.Description info in
  if (50 <? String.length desc)%nat then slice_to 47 desc +:+ "..." else desc.

Section Commands.
Context {S : Type}.
Local Open Scope cmd_scope.

(** [for _, info := range infos] of the table of [runList] *)
Fixpoint listRows (infos : list listing.SecretInfo) : Cmd S unit :=
  match infos with
  | [] => CRet tt
  | info :: rest =>
      cmd.Fprintf ToTabwriter "%s\t%s\n"
        [AStr (listing.Path info); AStr (shownDescription info)];;
      listRows rest
  end.

(** [opts]: the region, when the flag is set. *)
Definition sourceOptions (region : string) : gmap string Value :=
  if negb (String.eqb region "") then {[ "region" := VString region ]} else ∅.

(** [patterns]: the include patterns, or "**" when there is none. *)
Definition listPatterns (includes : list string) : list string :=
  if (GoInt.len includes =? 0)%Z then ["**"] else includes.

Definition runList (reg : registry.Registry S) (f : ListFlags)
  : Cmd S (option error) :=
  (* Get the source *)
  match registry.Get reg (listSource f) with
  | inr err => CRet (Some (Errorf_w "failed to get source" err))
  | inl src =>
  (* Configure the source *)
  let opts := sourceOptions (listRegion f) in
  err <- cmd.Configure src opts;;
  match err with
  | Some err => CRet (Some (Errorf_w "failed to configure source" err))
  | None =>
  (* Combine include and exclude patterns for filtering *)
  let patterns := listPatterns (listIncludes f) in
  (* List secrets *)
  name <- cmd.Name src;;
  cmd.Fprintf (ToStream Stderr) "Listing secrets from %s...\n\n" [AStr name];;
  r <- cmd.List src patterns;;
  match r with
  | inr err => CRet (Some (Errorf_w "failed to list secrets" err))
  | inl infos =>
  (* Apply exclude filter *)
  let infos := applyExcludes (listExcludes f) infos in
  if (GoInt.len infos =? 0)%Z then
    cmd.Println "No secrets found matching the specified patterns.";;
    CRet None
  else
  (* Print results as a table *)
  cmd.Fprintln ToTabwriter "PATH\tDESCRIPTION";;
  cmd.Fprintln ToTabwriter "----\t-----------";;
  listRows infos;;
  cmd.Flush;;
  cmd.Fprintf (ToStream Stderr) "\nTotal: %d secrets\n" [AInt (GoInt.len infos)];;
  CRet None
  end end end.

(** ** The [export] command (export.go) *)

(** The package-level flag variables of export.go. *)
Record ExportFlags : Type := {
  exportSource : string;
  exportOutput : string;
  exportIncludes : list string;
  exportExcludes : list string;
  exportRegion : string;
  exportDryRun : bool;
}.

(** [exportFile.Metadata.IncludePatterns = includes] and
    [exportFile.Metadata.ExcludePatterns = excludes] *)
Definition setPatterns (includes excludes : list string) (e : goschema.ExportFile)
  : goschema.ExportFile :=
  {| goschema.Version := goschema.Version e;
     goschema.Metadata :=
       {| goschema.Source := goschema.Source (goschema.Metadata e);
          goschema.ExportedAt := goschema.ExportedAt (goschema.Metadata e);
          goschema.Region := goschema.Region (goschema.Metadata e);
          goschema.IncludePatterns := includes;
          goschema.ExcludePatterns := excludes;
          goschema.TotalSecrets := goschema.TotalSecrets (goschema.Metadata e) |};
     goschema.Secrets := goschema.Secrets e |}.

(** [exportFile.Metadata.Region = region] *)
Definition setRegion (region : string) (e : goschema.ExportFile)
  : goschema.ExportFile :=
  {| goschema.Version := goschema.Version e;
     goschema.Metadata :=
       {| goschema.Source := goschema.Source (goschema.Metadata e);
          goschema.ExportedAt := goschema.ExportedAt (goschema.Metadata e);
          goschema.Region := region;
          goschema.IncludePatterns := goschema.IncludePatterns (goschema.Metadata e);
          goschema.ExcludePatterns := goschema.ExcludePatterns (goschema.Metadata e);
          goschema.TotalSecrets := goschema.TotalSecrets (goschema.Metadata e) |};
     goschema.Secrets := goschema.Secrets e |}.

Context `{GlobLib}.

(** "Filter with excludes": [filteredPaths] is the slice built so far. *)
Fixpoint filterPaths (pathFilter : filter.PathFilter)
    (infos : list listing.SecretInfo) (filteredPaths : list string) : list string :=
  match infos with
  | [] => filteredPaths
  | info :: rest =>
      filterPaths pathFilter rest
        (if filter.Matches pathFilter (listing.Path info)
         then (filteredPaths ++ [listing.Path info])%list
         else filteredPaths)
  end.

(** [for _, path := range filteredPaths] of the dry run *)
Fixpoint exportDryRunLoop (paths : list string) : Cmd S unit :=
  match paths with
  | [] => CRet tt
  | path :: rest =>
      cmd.Printf "  %s\n" [AStr path];;
      exportDryRunLoop rest
  end.

(** [for idx, path := range filteredPaths] of the export; [total] is
    [len(filteredPaths)]. Returns the export file and [errCount]. *)
Fixpoint exportLoop (src : S) (total : Z) (idx : Z) (paths : list string)
    (exportFile : goschema.ExportFile) (errCount : Z)
  : Cmd S (goschema.ExportFile * Z) :=
  match paths with
  | [] => CRet (exportFile, errCount)
  | path :: rest =>
      cmd.Fprintf (ToStream Stderr) "\r  [%d/%d] Fetching %s..."
        [AInt (GoInt.add idx 1); AInt total; AStr path];;
      r <- cmd.Get src path;;
      match r with
      | inr err =>
          cmd.Fprintf (ToStream Stderr) "\n  Warning: failed to get secret %s: %v\n"
            [AStr path; AErr (Some err)];;
          exportLoop src total (idx + 1) rest exportFile (GoInt.incr errCount)
      | inl secret =>
          exportLoop src total (idx + 1) rest
            (schemafile.AddSecret exportFile secret) errCount
      end
  end.

Definition runExport (reg : registry.Registry S) (f : ExportFlags)
  : Cmd S (option error) :=
  (* Get the source *)
  match registry.Get reg (exportSource f) with
  | inr err => CRet (Some (Errorf_w "failed to get source" err))
  | inl src =>
  (* Configure the source *)
  let opts := sourceOptions (exportRegion f) in
  err <- cmd.Configure src opts;;
  match err with
  | Some err => CRet (Some (Errorf_w "failed to configure source" err))
  | None =>
  (* Create path filter *)
  match filter.NewPathFilter (exportIncludes f) (exportExcludes f) with
  | inr err => CRet (Some (Errorf_w "invalid filter pattern" err))
  | inl pathFilter =>
  (* Create export file *)
  name <- cmd.Name src;;
  exportFile <- schemafile.NewExportFile name;;
  let exportFile := setPatterns (exportIncludes f) (exportExcludes f) exportFile in
  (* Add region for AWS source *)
  region <- cmd.Region src;;
  let exportFile :=
    match region with
    | Some region => setRegion region exportFile
    | None => exportFile
    end in
  (* List secrets first *)
  name <- cmd.Name src;;
  cmd.Fprintf (ToStream Stderr) "Listing secrets from %s...\n" [AStr name];;
  let patterns := listPatterns (exportIncludes f) in
  r <- cmd.List src patterns;;
  match r with
  | inr err => CRet (Some (Errorf_w "failed to list secrets" err))
  | inl infos =>
  (* Filter with excludes *)
  let filteredPaths := filterPaths pathFilter infos [] in
  if (GoInt.len filteredPaths =? 0)%Z then
    cmd.Println "No secrets found matching the specified patterns.";;
    CRet None
  else
  cmd.Fprintf (ToStream Stderr) "Found %d secrets to export.\n"
    [AInt (GoInt.len filteredPaths)];;
  if exportDryRun f then
    cmd.Println "\nDry run - secrets that would be exported:";;
    exportDryRunLoop filteredPaths;;
    CRet None
  else
  (* Export secrets *)
  cmd.Fprintf (ToStream Stderr) "Exporting secrets...\n" [];;
  '(exportFile, errCount) <-
    exportLoop src (GoInt.len filteredPaths) 0 filteredPaths exportFile 0;;
  cmd.Fprintf (ToStream Stderr)
    "\r  Exported %d secrets.                          \n"
    [AInt (GoInt.len (goschema.Secrets exportFile))];;
  (if errCount >? 0 then
     cmd.Fprintf (ToStream Stderr) "  Warning: %d secrets failed to export.\n"
       [AInt errCount]
   else CRet tt);;
  (* Write export file *)
  err <- schemafile.Write exportFile (exportOutput f);;
  match err with
  | Some err => CRet (Some (Errorf_w "failed to write export file" err))
  | None =>
  cmd.Fprintf (ToStream Stderr) "\nExport complete: %s\n" [AStr (exportOutput f)];;
  cmd.Fprintf (ToStream Stderr) "  Total secrets: %d\n"
    [AInt (goschema.TotalSecrets (goschema.Metadata exportFile))];;
  cmd.Fprintf (ToStream Stderr) "  Schema version: %s\n"
    [AStr (goschema.Version exportFile)];;
  CRet None
  end end end end end.

End Commands.

(** ** The [validate] command (validate.go) *)
Section Validate.
Context {S : Type}.
Local Open Scope cmd_scope.

(** [%v] of a [[]string]. *)
Definition sliceText (l : list string) : string := "[" +:+ Join l " " +:+ "]".

(** [for i := 0; i < limit; i++] of the preview: the paths of
    [export.Secrets[i]], which are those of the first [limit] secrets. *)
Fixpoint previewLoop (secrets : list gosource.Secret) : Cmd S unit :=
  match secrets with
  | [] => CRet tt
  | secret :: rest =>
      cmd.Printf "    - %s\n" [AStr (gosource.Path secret)];;
      previewLoop rest
  end.

Definition runValidate (validateInput : string) : Cmd S (option error) :=
  r <- schemafile.ValidateFile validateInput;;
  match r with
  | inr err => CRet (Some (Errorf_w "validation failed" err))
  | inl export =>
  let metadata := goschema.Metadata export in
  cmd.Println "✓ Export file is valid";;
  cmd.Println "";;
  cmd.Printf "  File:           %s\n" [AStr validateInput];;
  cmd.Printf "  Schema version: %s\n" [AStr (goschema.Version export)];;
  cmd.Printf "  Source:         %s\n" [AStr (goschema.Source metadata)];;
  text <- cmd.Format (goschema.ExportedAt metadata) "2006-01-02 15:04:05 UTC";;
  cmd.Printf "  Exported at:    %s\n" [AStr text];;
  cmd.Printf "  Total secrets:  %d\n" [AInt (goschema.TotalSecrets metadata)];;
  (if negb (String.eqb (goschema.Region metadata) "") then
     cmd.Printf "  Region:         %s\n" [AStr (goschema.Region metadata)]
   else CRet tt);;
  (if GoInt.len (goschema.IncludePatterns metadata) >? 0 then
     cmd.Printf "  Include:        %v\n"
       [AStr (sliceText (goschema.IncludePatterns metadata))]
   else CRet tt);;
  (if GoInt.len (goschema.ExcludePatterns metadata) >? 0 then
     cmd.Printf "  Exclude:        %v\n"
       [AStr (sliceText (goschema.ExcludePatterns metadata))]
   else CRet tt);;
  (* Show first few secret paths as preview *)
  (if GoInt.len (goschema.Secrets export) >? 0 then
     cmd.Println "";;
     cmd.Println "  Secret paths (first 10):";;
     let limit :=
       if (GoInt.len (goschema.Secrets export) <? 10)%Z
       then GoInt.len (goschema.Secrets export) else 10 in
     previewLoop (take (Z.to_nat limit) (goschema.Secrets export));;
     (if GoInt.len (goschema.Secrets export) >? 10 then
        cmd.Printf "    ... and %d more\n"
          [AInt (GoInt.len (goschema.Secrets export) - 10)]
      else CRet tt)
   else CRet tt);;
  CRet None
  end.

End Validate.

(** ** Observations on the traces of the commands *)
Section CmdObservations.
Context {S : Type}.

(** A call that reads a secret's value or touches a file. *)
Definition isFetchOrFile (ev : CEvent S) : bool :=
  match ev with
  | EvGet _ _ _ | EvMarshalIndent _ _ | EvUnmarshal _ _
  | EvWriteFile _ _ _ _ | EvReadFile _ _ => true
  | _ => false
  end.

Definition rowOf (ev : CEvent S) : option (string * string) :=
  match ev with
  | EvPrint ToTabwriter f [AStr path; AStr desc] =>
      if String.eqb f "%s\t%s\n" then Some (path, desc) else None
  | _ => None
  end.

(** The rows of the table of [runList]: path and description, in order. *)
Definition rows (tr : list (CEvent S)) : list (string * string) := omap rowOf tr.

Definition printedOf (out : Out) (format : string) (ev : CEvent S)
  : option (list Arg) :=
  match ev with
  | EvPrint o f args =>
      match out, o with
      | ToTabwriter, ToTabwriter => if String.eqb f format then Some args else None
      | ToStream Stdout, ToStream Stdout
      | ToStream Stderr, ToStream Stderr =>
          if String.eqb f format then Some args else None
      | _, _ => None
      end
  | _ => None
  end.

(** The arguments of the prints to [out] with the format [format], in
    order. *)
Definition printed (out : Out) (format : string) (tr : list (CEvent S))
  : list (list Arg) :=
  omap (printedOf out format) tr.

Definition listCallOf (ev : CEvent S) : option (list string) :=
  match ev with
  | EvList _ patterns _ => Some patterns
  | _ => None
  end.

(** The calls of [List]: the patterns asked for, in order. *)
Definition listCalls (tr : list (CEvent S)) : list (list string) :=
  omap listCallOf tr.

Definition getOf (ev : CEvent S) : option (string * (gosource.Secret + error)) :=
  match ev with
  | EvGet _ path r => Some (path, r)
  | _ => None
  end.

(** The calls of [Get]: path and result, in order. *)
Definition gets (tr : list (CEvent S)) : list (string * (gosource.Secret + error)) :=
  omap getOf tr.

Definition fetchedOf (ev : CEvent S) : option gosource.Secret :=
  match ev with
  | EvGet _ _ (inl secret) => Some secret
  | _ => None
  end.

(** The secrets that [Get] has returned, in order. *)
Definition fetched (tr : list (CEvent S)) : list gosource.Secret :=
  omap fetchedOf tr.

Definition fetchFailureOf (ev : CEvent S) : option (string * error) :=
  match ev with
  | EvGet _ path (inr err) => Some (path, err)
  | _ => None
  end.

(** The calls of [Get] that have failed: path and error, in order. *)
Definition fetchFailures (tr : list (CEvent S)) : list (string * error) :=
  omap fetchFailureOf tr.

Definition marshalledOf (ev : CEvent S)
  : option (goschema.ExportFile * (string + error)) :=
  match ev with
  | EvMarshalIndent e r => Some (e, r)
  | _ => None
  end.

(** The export files handed to [json.MarshalIndent] with what it has
    returned, in order. *)
Definition marshalled (tr : list (CEvent S))
  : list (goschema.ExportFile * (string + error)) :=
  omap marshalledOf tr.

Definition fileWriteOf (ev : CEvent S)
  : option (string * string * N * option error) :=
  match ev with
  | EvWriteFile name data perm err => Some (name, data, perm, err)
  | _ => None
  end.

(** The calls of [os.WriteFile]: name, content, permissions and the error
    returned, in order. *)
Definition fileWrites (tr : list (CEvent S))
  : list (string * string * N * option error) :=
  omap fileWriteOf tr.

(** The print of one row of the table of [runList]. *)
Definition rowEvent (info : listing.SecretInfo) : CEvent S :=
  EvPrint ToTabwriter "%s\t%s\n"
    [AStr (listing.Path info); AStr (shownDescription info)].

(** The print of one path of the dry run of [runExport]. *)
Definition dryRunEvent (path : string) : CEvent S :=
  EvPrint (ToStream Stdout) "  %s\n" [AStr path].

(** The print of one path of the preview of [runValidate]. *)
Definition previewEvent (secret : gosource.Secret) : CEvent S :=
  EvPrint (ToStream Stdout) "    - %s\n" [AStr (gosource.Path secret)].

(** The print of a line that is printed only when [c] holds. *)
Definition optionalPrint (c : bool) (format : string) (args : list Arg)
  : list (CEvent S) :=
  if c then [EvPrint (ToStream Stdout) format args] else [].

(** What [runValidate] does once [ValidateFile] has returned [export]:
    the report, for which the time of the export is formatted to [text],
    the optional lines, and the preview of the paths. *)
Definition validateTrace (validateInput : string) (export : goschema.ExportFile)
    (text : string) : list (CEvent S) :=
  let metadata := goschema.Metadata export in
  let n := GoInt.len (goschema.Secrets export) in
  [EvPrint (ToStream Stdout) "%s\n" [AStr "✓ Export file is valid"];
   EvPrint (ToStream Stdout) "%s\n" [AStr ""];
   EvPrint (ToStream Stdout) "  File:           %s\n" [AStr validateInput];
   EvPrint (ToStream Stdout) "  Schema version: %s\n"
     [AStr (goschema.Version export)];
   EvPrint (ToStream Stdout) "  Source:         %s\n"
     [AStr (goschema.Source metadata)];
   EvFormat (goschema.ExportedAt metadata) "2006-01-02 15:04:05 UTC" text;
   EvPrint (ToStream Stdout) "  Exported at:    %s\n" [AStr text];
   EvPrint (ToStream Stdout) "  Total secrets:  %d\n"
     [AInt (goschema.TotalSecrets metadata)]]
  ++ optionalPrint (negb (String.eqb (goschema.Region metadata) ""))
       "  Region:         %s\n" [AStr (goschema.Region metadata)]
  ++ optionalPrint (GoInt.len (goschema.IncludePatterns metadata) >? 0)
       "  Include:        %v\n"
       [AStr (sliceText (goschema.IncludePatterns metadata))]
  ++ optionalPrint (GoInt.len (goschema.ExcludePatterns metadata) >? 0)
       "  Exclude:        %v\n"
       [AStr (sliceText (goschema.ExcludePatterns metadata))]
  ++ (if n >? 0 then
        [EvPrint (ToStream Stdout) "%s\n" [AStr ""];
         EvPrint (ToStream Stdout) "%s\n" [AStr "  Secret paths (first 10):"]]
        ++ (previewEvent
              <$> take (Z.to_nat (if (n <? 10)%Z then n else 10))
                    (goschema.Secrets export))
        ++ optionalPrint (n >? 10) "    ... and %d more\n" [AInt (n - 10)]
      else []).

(** A print to the standard error. *)
Definition isStderrPrint (ev : CEvent S) : bool :=
  match ev with
  | EvPrint (ToStream Stderr) _ _ => true
  | _ => false
  end.

(** The export file of [runExport] when its loop starts: the file of
    [NewExportFile] for the name of the source and the time of its
    creation, with the patterns of the flags and, for the AWS source, its
    region. *)
Definition initialExportFile (f : ExportFlags) (name : string) (now : time.Time)
    (region : option string) : goschema.ExportFile :=
  let exportFile :=
    setPatterns (exportIncludes f) (exportExcludes f)
      {| goschema.Version := schemafile.Version;
         goschema.Metadata :=
           {| goschema.Source := name;
              goschema.ExportedAt := now;
              goschema.Region := "";
              goschema.IncludePatterns := [];
              goschema.ExcludePatterns := [];
              goschema.TotalSecrets := 0 |};
         goschema.Secrets := [] |} in
  match region with
  | Some region => setRegion region exportFile
  | None => exportFile
  end.

Definition listedOf (ev : CEvent S) : option (list listing.SecretInfo) :=
  match ev with
  | EvList _ _ (inl infos) => Some infos
  | _ => None
  end.

(** The listings that [List] has returned, in order. *)
Definition listed (tr : list (CEvent S)) : list (list listing.SecretInfo) :=
  omap listedOf tr.

End CmdObservations.

(** [pattern] compiles to [g], with "/" as the separator. *)
Definition compilesTo {G : GlobLib} (pattern : string) (g : Glob) : Prop :=
  glob_Compile pattern ["/"%char] = inl g.


(** ** Further inputs *)
Module Inputs2.

(** [--dry-run --path-prefix /imported] *)
Definition dryRunFlags : Flags :=
  {| importInput := "secrets.json";
     importOpenBaoAddr := "https://openbao:8200";
     importOpenBaoToken := "hvs.xxx";
     importMount := "secret";
     importHeaders := [];
     importPathPrefix := "/imported";
     importSkipExisting := true;
     importOverwriteAll := false;
     importInteractive := false;
     importParallelism := 5;
     importDryRun := true;
     importTLSSkipVerify := false |}.

(** A run of the default five workers on [Inputs.two] against an empty,
    healthy server: each of the workers 0 and 1 checks its secret, then
    writes it. *)
Definition checkAndWrite : list Action :=
  [ASend; ASend; ACloseWork; ARecv 0; ARecv 1; ACall 0; ACall 1; ACall 1;
   AEmit 1; ACall 0; AEmit 0; ACollect; ACollect; AExit 0; AExit 1; AExit 2;
   AExit 3; AExit 4; ACloseResults; AFinish].

(** A Vault API whose [kv.Get] always fails with "secret not found" and
    whose [kv.Put] always succeeds. *)
Definition notFound : target.Vault Sim.World :=
  {| target.kv_Get := fun path w =>
       (None, Some (errors_New ("secret not found: at " +:+ path)), w);
     target.kv_Put := fun _ _ w => (None, w);
     target.sys_Health := fun w => (inl false, w) |}.

(** A secret as the export command fetches it, with one key. *)
Definition gosecret (path : string) : gosource.Secret :=
  {| gosource.Path := path;
     gosource.Data := Some {[ "value"%string := VString "s3cr3t" ]};
     gosource.Metadata := source.Metadata (Sim.secret path) |}.

(** A secret whose data map is nil. *)
Definition nosecret (path : string) : gosource.Secret :=
  {| gosource.Path := path;
     gosource.Data := None;
     gosource.Metadata := source.Metadata (Sim.secret path) |}.

(** December 4, 2025, 10:30:00 UTC. *)
Definition exportTime : time.Time := {| time.sec := 63900441000; time.nsec := 0 |}.

Definition gofile (secrets : list gosource.Secret) : goschema.ExportFile :=
  {| goschema.Version := "1.0";
     goschema.Metadata :=
       {| goschema.Source := "aws-secrets-manager";
          goschema.ExportedAt := exportTime;
          goschema.Region := "";
          goschema.IncludePatterns := [];
          goschema.ExcludePatterns := [];
          goschema.TotalSecrets := GoInt.len secrets |};
     goschema.Secrets := secrets |}.

(** An export file whose second secret has no data. *)
Definition nilData : goschema.ExportFile :=
  gofile [gosecret "app/db"; nosecret "app/empty"].

End Inputs2.

(** ** A simulated environment of the commands

    Used to run the commands on concrete inputs. A source is its name. It
    lists the secrets of the world whatever the patterns, and [Get] fails
    on the paths that are [unreadable]. Every file on disk has the same
    content, which decodes to [decoded]. *)
Module Sim2.

Definition Source : Type := string.

Record World : Type := {
  secrets : list listing.SecretInfo;
  unreadable : list string;
  content : string;
  decoded : goschema.ExportFile + error;
}.

Definition accessDenied : error := errors_New "AccessDeniedException".

Definition sys : Sys Source World :=
  {| sys_Name := fun src w => (src, w);
     sys_Configure := fun _ _ w => (None, w);
     sys_List := fun _ _ w => (inl (secrets w), w);
     sys_Get := fun _ path w =>
       (if bool_decide (path ∈ unreadable w) then inr accessDenied
        else inl (Inputs2.gosecret path), w);
     sys_Region := fun src w =>
       (if String.eqb src "aws-secrets-manager" then Some "us-east-1" else None, w);
     sys_Now := fun w => (Inputs2.exportTime, w);
     sys_Format := fun _ _ w => ("2025-12-04 10:30:00 UTC", w);
     sys_MarshalIndent := fun _ w => (inl "{}", w);
     sys_Unmarshal := fun _ w => (decoded w, w);
     sys_WriteFile := fun _ _ _ w => (None, w);
     sys_ReadFile := fun _ w => (inl (content w), w) |}.

(** The registry after [init()] of the AWS source has run. *)
Definition registered : registry.Registry Source :=
  registry.Register registry.NewRegistry "aws-secrets-manager"
    (fun _ => "aws-secrets-manager").

(** A glob library that knows "**" and literal paths, and refuses "[". *)
Definition globs : GlobLib :=
  {| Glob := string;
     glob_Compile := fun p _ =>
       if String.eqb p "[" then inr (errors_New "unexpected end of input")
       else inl p;
     glob_Match := fun g path => String.eqb g "**" || String.eqb g path |}.

Definition info (path description : string) : listing.SecretInfo :=
  {| listing.Path := path;
     listing.Description := description;
     listing.Tags := ∅ |}.

(** Three secrets; the description of the second has 60 bytes. *)
Definition three : list listing.SecretInfo :=
  [info "app/db" "database password";
   info "app/api" "0123456789012345678901234567890123456789012345678901234567890";
   info "dev/tmp" ""].

(** A world with the three secrets, of which "app/api" cannot be read, and
    a valid export file of two secrets on disk. *)
Definition world : World :=
  {| secrets := three;
     unreadable := ["app/api"];
     content := "{}";
     decoded := inl (Inputs2.gofile [Inputs2.gosecret "app/db";
                                     Inputs2.gosecret "dev/tmp"]) |}.

(** [list --source aws-secrets-manager --exclude dev/tmp] *)
Definition listFlags : ListFlags :=
  {| listSource := "aws-secrets-manager";
     listIncludes := [];
     listExcludes := ["dev/tmp"];
     listRegion := "" |}.

(** [export --source aws-secrets-manager --output secrets.json
    --exclude dev/tmp --region us-east-1] *)
Definition exportFlags : ExportFlags :=
  {| exportSource := "aws-secrets-manager";
     exportOutput := "secrets.json";
     exportIncludes := [];
     exportExcludes := ["dev/tmp"];
     exportRegion := "us-east-1";
     exportDryRun := false |}.

(** The same with [--dry-run]. *)
Definition exportDryRunFlags : ExportFlags :=
  {| exportSource := "aws-secrets-manager";
     exportOutput := "secrets.json";
     exportIncludes := [];
     exportExcludes := ["dev/tmp"];
     exportRegion := "us-east-1";
     exportDryRun := true |}.

(** Twelve secrets, "s/1" to "s/12". *)
Definition twelve : list gosource.Secret :=
  (fun n : nat => Inputs2.gosecret ("s/" +:+ pretty (Z.of_nat n))) <$> seq 1 12.

(** A world whose file on disk has the twelve secrets. *)
Definition bigFile : World :=
  {| secrets := [];
     unreadable := [];
     content := "{}";
     decoded := inl (Inputs2.gofile twelve) |}.

End Sim2.

(** *** Invariants of the pool on its writes *)

Definition isPrint (ev : Event) : bool :=
  match ev with EvFprintf _ _ _ => true | _ => false end.

(** Every write made or still to be made is of a secret of the file, each
    at most once; [all] are the secrets of the file. *)
Record writeInv {W : Type} (pathPrefix : string) (all : list source.Secret)
    (s : Pool W) : Prop := {
  wi_shape : forall p, WImport p ∈ workers s -> writeShape p;
  wi_prompts : decisions (trace s) = [];
  wi_writes :
    (writeEvents (trace s) ++ (workers s ≫= workerWrite)
     ++ (destOf pathPrefix <$> work s) ++ (destOf pathPrefix <$> toSend s))%list
    ⊆+ destOf pathPrefix <$> all;
}.

(** With skip-existing off, every secret of the file is written or still to
    be written, exactly once. *)
Record overwriteInv {W : Type} (pathPrefix : string) (all : list source.Secret)
    (s : Pool W) : Prop := {
  oi_shape : forall p, WImport p ∈ workers s -> overwriteShape p;
  oi_checks : existsChecks (trace s) = [];
  oi_writes :
    (writeEvents (trace s) ++ (workers s ≫= workerWrite)
     ++ (destOf pathPrefix <$> work s) ++ (destOf pathPrefix <$> toSend s))%list
    ≡ₚ destOf pathPrefix <$> all;
}.

(** The existence check that a worker is about to make. *)
Definition pendingCheck (wk : Worker) : list string :=
  match wk with
  | WImport (SecretExists path _) => [path]
  | _ => []
  end.

(** With skip-existing on, the destination of every secret of the file is
    checked or still to be checked, exactly once, and the writes made or
    about to be made are those of the paths that an existence check found
    absent. *)
Record skipInv {W : Type} (pathPrefix : string) (all : list source.Secret)
    (s : Pool W) : Prop := {
  si_shape : forall p, WImport p ∈ workers s -> skipShape p;
  si_checks :
    (existsChecks (trace s) ++ (workers s ≫= pendingCheck)
     ++ (destPath pathPrefix <$> work s) ++ (destPath pathPrefix <$> toSend s))%list
    ≡ₚ destPath pathPrefix <$> all;
  si_writes :
    ((writes (trace s)).*1 ++ (workers s ≫= confirmedWrite))%list
    ≡ₚ absentChecks (trace s);
}.
(** * Properties *)

(** ** Facts about Go string operations *)
Section GoStringsFacts.

Lemma str_app_cons (c : ascii) (s t : string) :
  String c s +:+ t = String c (s +:+ t).
Proof. reflexivity. Qed.

Lemma str_app_nil_l (s : string) : "" +:+ s = s.
Proof. reflexivity. Qed.

Lemma str_length_app (s t : string) :
  String.length (s +:+ t) = (String.length s + String.length t)%nat.
Proof.
  induction s as [|c s IH]; [reflexivity|].
  rewrite str_app_cons. cbn. by rewrite IH.
Qed.

Lemma slice_to_app (p t : string) : slice_to (String.length p) (p +:+ t) = p.
Proof.
  induction p as [|c p IH]; [by destruct t|].
  rewrite str_app_cons. cbn. by rewrite IH.
Qed.

Lemma slice_from_app (p t : string) :
  slice_from (String.length p) (p +:+ t) = t.
Proof.
  induction p as [|c p IH]; [by destruct t|].
  rewrite str_app_cons. cbn. by rewrite IH.
Qed.

Lemma slice_to_from (n : nat) (s : string) :
  slice_to n s +:+ slice_from n s = s.
Proof.
  revert s. induction n as [|n IH]; intros [|c s]; try reflexivity.
  cbn. rewrite str_app_cons. by rewrite IH.
Qed.

Lemma HasPrefix_spec (s p : string) :
  HasPrefix s p = true <-> exists t, s = p +:+ t.
Proof.
  unfold HasPrefix. rewrite andb_true_iff, Nat.leb_le, String.eqb_eq. split.
  - intros [_ Heq]. exists (slice_from (String.length p) s).
    rewrite <- Heq at 1. by rewrite slice_to_from.
  - intros [t ->]. rewrite str_length_app, slice_to_app. split; [lia|done].
Qed.

Lemma HasSuffix_spec (s p : string) :
  HasSuffix s p = true <-> exists t, s = t +:+ p.
Proof.
  unfold HasSuffix. rewrite andb_true_iff, Nat.leb_le, String.eqb_eq. split.
  - intros [_ Heq]. exists (slice_to (String.length s - String.length p) s).
    rewrite <- (slice_to_from (String.length s - String.length p) s) at 1.
    by rewrite Heq.
  - intros [t ->]. rewrite str_length_app.
    replace (String.length t + String.length p - String.length p)%nat
      with (String.length t) by lia.
    rewrite slice_from_app. split; [lia|done].
Qed.

Lemma TrimPrefix_app (p t : string) : TrimPrefix (p +:+ t) p = t.
Proof.
  unfold TrimPrefix.
  replace (HasPrefix (p +:+ t) p) with true.
  - apply slice_from_app.
  - symmetry. apply HasPrefix_spec. by exists t.
Qed.

(** A non-empty string has a last byte. *)
Lemma str_snoc_cases (s : string) :
  s = "" \/ exists t c, s = t +:+ String c "".
Proof.
  induction s as [|a s IH]; [by left|right].
  destruct IH as [->|(t & c & ->)].
  - by exists "", a.
  - by exists (String a t), c.
Qed.

End GoStringsFacts.

(** ** Facts about [normalizePathPrefix] *)
Section NormalizeFacts.

Local Arguments Ascii.eqb : simpl never.

Lemma HasPrefix_cons1 (c : ascii) (s : string) :
  HasPrefix (String c s) "/" = Ascii.eqb c "/".
Proof.
  unfold HasPrefix. cbn. destruct (Ascii.eqb c "/"); reflexivity.
Qed.

Lemma HasPrefix_cons2 (c : ascii) (s : string) :
  HasPrefix (String c s) "//" = Ascii.eqb c "/" && HasPrefix s "/".
Proof.
  destruct s as [|d s].
  - cbn. by rewrite andb_false_r.
  - rewrite HasPrefix_cons1. unfold HasPrefix. cbn.
    destruct (Ascii.eqb c "/"), (Ascii.eqb d "/"); reflexivity.
Qed.

Lemma TrimPrefix_cons1 (c : ascii) (s : string) :
  TrimPrefix (String c s) "/" = if Ascii.eqb c "/" then s else String c s.
Proof. unfold TrimPrefix. rewrite HasPrefix_cons1. reflexivity. Qed.

Lemma HasSuffix_cons (c : ascii) (s suf : string) :
  (String.length suf <= String.length s)%nat ->
  HasSuffix (String c s) suf = HasSuffix s suf.
Proof.
  intros Hle. unfold HasSuffix. cbn [String.length].
  replace (S (String.length s) - String.length suf)%nat
    with (S (String.length s - String.length suf)) by lia.
  cbn [slice_from].
  replace (String.length suf <=? S (String.length s))%nat with true
    by (symmetry; apply Nat.leb_le; lia).
  replace (String.length suf <=? String.length s)%nat with true
    by (symmetry; apply Nat.leb_le; lia).
  reflexivity.
Qed.

Lemma HasSuffix_snoc1 (s : string) (c : ascii) :
  HasSuffix (s +:+ String c "") "/" = Ascii.eqb c "/".
Proof.
  induction s as [|a s IH].
  - rewrite str_app_nil_l. unfold HasSuffix. cbn.
    destruct (Ascii.eqb c "/"); reflexivity.
  - rewrite str_app_cons, HasSuffix_cons; [done|].
    rewrite str_length_app. cbn. lia.
Qed.

Lemma HasSuffix_snoc2 (s : string) (c : ascii) :
  HasSuffix (s +:+ String c "") "//" = Ascii.eqb c "/" && HasSuffix s "/".
Proof.
  induction s as [|a s IH].
  - rewrite str_app_nil_l. cbn. by rewrite andb_false_r.
  - destruct s as [|b s].
    + rewrite str_app_cons, str_app_nil_l. unfold HasSuffix. cbn.
      destruct (Ascii.eqb a "/"), (Ascii.eqb c "/"); reflexivity.
    + rewrite str_app_cons, HasSuffix_cons; [|rewrite str_length_app; cbn; lia].
      rewrite IH. rewrite (HasSuffix_cons a); [done|cbn; lia].
Qed.

Lemma two_ends (s : string) :
  s = "" \/ (exists a, s = String a "")
  \/ exists a m c, s = String a (m +:+ String c "").
Proof.
  destruct s as [|a s]; [by left|right].
  destruct (str_snoc_cases s) as [->|(m & c & ->)]; [left|right]; eauto.
Qed.

Lemma normalize_unfold (p : string) :
  p <> "" -> p <> "/" ->
  normalizePathPrefix p
  = TrimPrefix (if negb (HasSuffix p "/") then p +:+ "/" else p) "/".
Proof.
  intros H1 H2. unfold normalizePathPrefix.
  apply String.eqb_neq in H1, H2. by rewrite H1, H2.
Qed.

Lemma HasPrefix_snoc_app (m : string) (c : ascii) (t : string) :
  HasPrefix ((m +:+ String c "") +:+ t) "/" = HasPrefix (m +:+ String c "") "/".
Proof.
  destruct m as [|a m].
  - rewrite str_app_nil_l, str_app_cons. by rewrite !HasPrefix_cons1.
  - rewrite !str_app_cons. by rewrite !HasPrefix_cons1.
Qed.

Lemma eqb_slash2_long (a : ascii) (m : string) (c : ascii) :
  m <> "" -> String.eqb (String a (m +:+ String c "")) "//" = false.
Proof.
  intros Hm. apply String.eqb_neq. intros H.
  apply (f_equal String.length) in H. cbn in H. rewrite str_length_app in H.
  destruct m; [done|]. cbn in H. lia.
Qed.

Lemma TrimPrefix_cons_app (c : ascii) (s t : string) :
  TrimPrefix (String c s +:+ t) "/"
  = if Ascii.eqb c "/" then s +:+ t else String c s +:+ t.
Proof. by rewrite str_app_cons, TrimPrefix_cons1. Qed.

Lemma HasSuffix_single1 (a : ascii) :
  HasSuffix (String a "") "/" = Ascii.eqb a "/".
Proof. by rewrite <- (str_app_nil_l (String a "")), HasSuffix_snoc1. Qed.

Lemma HasSuffix_single2 (a : ascii) : HasSuffix (String a "") "//" = false.
Proof. reflexivity. Qed.

Lemma eqb_slash2_head (a : ascii) (s : string) :
  Ascii.eqb a "/" = false -> String.eqb (String a s) "//" = false.
Proof.
  intros Ha. apply String.eqb_neq. intros [= -> _]. by rewrite Ascii.eqb_refl in Ha.
Qed.

Lemma HasSuffix_cons_snoc1 (a : ascii) (m : string) (c : ascii) :
  HasSuffix (String a (m +:+ String c "")) "/" = Ascii.eqb c "/".
Proof. by rewrite <- str_app_cons, HasSuffix_snoc1. Qed.

Lemma HasSuffix_cons_snoc2 (a : ascii) (m : string) (c : ascii) :
  HasSuffix (String a (m +:+ String c "")) "//"
  = Ascii.eqb c "/" && HasSuffix (String a m) "/".
Proof. by rewrite <- str_app_cons, HasSuffix_snoc2. Qed.

(** The exact shape of the output: it ends with "/", it starts with "/"
    exactly when the prefix starts with "//", and it ends with "//" exactly
    when the prefix does, "//" itself apart. *)
Lemma normalize_shape (p : string) :
  p <> "" -> p <> "/" ->
  HasSuffix (normalizePathPrefix p) "/" = true
  /\ HasPrefix (normalizePathPrefix p) "/" = HasPrefix p "//"
  /\ HasSuffix (normalizePathPrefix p) "//"
     = HasSuffix p "//" && negb (String.eqb p "//").
Proof.
  intros H1 H2. rewrite (normalize_unfold p H1 H2).
  destruct (two_ends p) as [->|[[a ->]|(a & m & c & ->)]]; [done|..].
  - assert (Ha : Ascii.eqb a "/" = false).
    { apply Ascii.eqb_neq. by intros ->. }
    rewrite HasSuffix_single1, Ha. cbn [negb].
    rewrite TrimPrefix_cons_app, Ha.
    rewrite HasSuffix_snoc1, HasSuffix_snoc2, HasSuffix_single1, Ha.
    rewrite str_app_cons, HasPrefix_cons1, HasPrefix_cons2, Ha.
    rewrite HasSuffix_single2. done.
  - rewrite (HasSuffix_cons a _ "/") by (rewrite str_length_app; cbn; lia).
    rewrite HasSuffix_snoc1, HasPrefix_cons2.
    destruct (Ascii.eqb c "/") eqn:Hc; cbn [negb].
    + apply Ascii.eqb_eq in Hc as ->.
      rewrite TrimPrefix_cons1.
      destruct (Ascii.eqb a "/") eqn:Ha.
      * apply Ascii.eqb_eq in Ha as ->.
        rewrite HasSuffix_snoc1, HasSuffix_snoc2, Ascii.eqb_refl. cbn [andb].
        split; [done|]. split; [done|].
        destruct m as [|b m].
        { reflexivity. }
        rewrite (HasSuffix_cons "/" _ "//") by (rewrite str_length_app; cbn; lia).
        rewrite HasSuffix_snoc2, Ascii.eqb_refl. cbn [andb].
        rewrite eqb_slash2_long by done. by rewrite andb_true_r.
      * rewrite HasSuffix_cons_snoc1, HasPrefix_cons1, Ha, Ascii.eqb_refl.
        rewrite eqb_slash2_head by done. by rewrite andb_true_r.
    + rewrite TrimPrefix_cons_app. rewrite HasSuffix_cons_snoc2, Hc.
      destruct (Ascii.eqb a "/") eqn:Ha.
      * rewrite HasSuffix_snoc1, HasSuffix_snoc2, HasSuffix_snoc1, Hc.
        by rewrite HasPrefix_snoc_app, Ascii.eqb_refl.
      * rewrite HasSuffix_snoc1, HasSuffix_snoc2, HasSuffix_cons_snoc1, Hc.
        by rewrite str_app_cons, HasPrefix_cons1, Ha, Ascii.eqb_refl.
Qed.

(** A string that ends with "/" is left as it is exactly when it does not
    start with "/". *)
Lemma normalize_fixpoint_iff (r : string) :
  HasSuffix r "/" = true ->
  normalizePathPrefix r = r <-> HasPrefix r "/" = false.
Proof.
  intros Hs.
  destruct r as [|a r]; [done|].
  rewrite HasPrefix_cons1.
  destruct (Ascii.eqb a "/") eqn:Ha.
  - apply Ascii.eqb_eq in Ha as ->. split; [|done]. intros Heq.
    destruct r as [|b r]; [done|].
    rewrite normalize_unfold in Heq by done. rewrite Hs in Heq.
    cbn [negb] in Heq. rewrite TrimPrefix_cons1, Ascii.eqb_refl in Heq.
    apply (f_equal String.length) in Heq. cbn in Heq. lia.
  - split; [done|]. intros _.
    rewrite normalize_unfold; [| done | by intros [= -> _]].
    rewrite Hs. cbn [negb]. by rewrite TrimPrefix_cons1, Ha.
Qed.

(** Normalising twice is normalising once exactly for the prefixes that do
    not start with "//". *)
Lemma normalize_idempotent_iff (p : string) :
  normalizePathPrefix (normalizePathPrefix p) = normalizePathPrefix p
  <-> HasPrefix p "//" = false.
Proof.
  destruct (String.eqb_spec p "") as [->|H1]; [done|].
  destruct (String.eqb_spec p "/") as [->|H2]; [done|].
  destruct (normalize_shape p H1 H2) as (Hs & Hp & _).
  rewrite (normalize_fixpoint_iff _ Hs). by rewrite Hp.
Qed.
End NormalizeFacts.

Local Open Scope list_scope.

(** ** Running programs *)
Section RunFacts.
Context {W : Type} (env : Env W).

Lemma run_bind {A B : Type} (p : Prog A) (f : A -> Prog B) (w : W) :
  run env (bind p f) w =
  let '(a, w1, tr1) := run env p w in
  let '(b, w2, tr2) := run env (f a) w1 in
  (b, w2, tr1 ++ tr2).
Proof.
  revert w. induction p as [a|path k IH|path data k IH|k IH|cfg k IH|hs k IH
                            |path k IH|m o k IH|s fmt args k IH]; intros w; cbn.
  - by destruct (run env (f a) w) as [[b w2] tr2].
  - destruct (env_SecretExists env path w) as [[b e] w1]. rewrite IH.
    destruct (run env (k b e) w1) as [[a w2] tr1].
    by destruct (run env (f a) w2) as [[b' w3] tr2].
  - destruct (env_WriteSecret env path data w) as [e w1]. rewrite IH.
    destruct (run env (k e) w1) as [[a w2] tr1].
    by destruct (run env (f a) w2) as [[b' w3] tr2].
  - destruct (env_Health env w) as [e w1]. rewrite IH.
    destruct (run env (k e) w1) as [[a w2] tr1].
    by destruct (run env (f a) w2) as [[b' w3] tr2].
  - destruct (env_NewClient env cfg w) as [e w1]. rewrite IH.
    destruct (run env (k e) w1) as [[a w2] tr1].
    by destruct (run env (f a) w2) as [[b' w3] tr2].
  - destruct (env_ParseHeaders env hs w) as [e w1]. rewrite IH.
    destruct (run env (k e) w1) as [[a w2] tr1].
    by destruct (run env (f a) w2) as [[b' w3] tr2].
  - destruct (env_ValidateFile env path w) as [e w1]. rewrite IH.
    destruct (run env (k e) w1) as [[a w2] tr1].
    by destruct (run env (f a) w2) as [[b' w3] tr2].
  - destruct (env_AskOne env m o w) as [[s e] w1]. rewrite IH.
    destruct (run env (k s e) w1) as [[a w2] tr1].
    by destruct (run env (f a) w2) as [[b' w3] tr2].
  - rewrite IH. destruct (run env k w) as [[a w2] tr1].
    by destruct (run env (f a) w2) as [[b' w3] tr2].
Qed.

End RunFacts.

Section InteractiveSteps.
Context {W : Type} (env : Env W).

Lemma promptImport_run (current total : Z) (secret : source.Secret)
    (dest : string) (found : bool) (w : W) :
  run env (promptImport current total secret dest found) w =
  let '(sel, perr, w1) := env_AskOne env "Import this secret?" promptOptions w in
  (promptResult sel perr, w1,
   promptOutput current total secret dest found ++ [asked sel perr]).
Proof.
  unfold promptImport, promptOutput.
  destruct (negb _), found; cbn;
    destruct (env_AskOne env _ _ w) as [[sel [e|]] w1]; reflexivity.
Qed.

Lemma interactiveWrite_run (st : Locals) (dest : string)
    (secret : source.Secret) (w : W) :
  run env (interactiveWrite st dest secret) w =
  let '(err, w1) := env_WriteSecret env dest (source.Data secret) w in
  (Continue (written st err), w1,
   [EvWriteSecret dest (source.Data secret) err; writeOutput err]).
Proof.
  unfold interactiveWrite. cbn.
  by destruct (env_WriteSecret env dest (source.Data secret) w) as [[e|] w1].
Qed.

Lemma body_skipAll (total : Z) (pathPrefix : string) (st : Locals) (i : Z)
    (secret : source.Secret) :
  skipAll st = true ->
  interactiveBody total pathPrefix st i secret
  = Ret (Continue (withCounters incSkipped st)).
Proof. unfold interactiveBody. by intros ->. Qed.

Lemma body_confirmAll (total : Z) (pathPrefix : string) (st : Locals) (i : Z)
    (secret : source.Secret) :
  skipAll st = false -> confirmAll st = true ->
  interactiveBody total pathPrefix st i secret
  = interactiveWrite st (destPath pathPrefix secret) secret.
Proof. unfold interactiveBody. by intros -> ->. Qed.

(** An iteration that prompts: the existence check, the warning if it
    failed, the prompt, and what the decision leads to. *)
Lemma body_deciding (total : Z) (pathPrefix : string) (st : Locals) (i : Z)
    (secret : source.Secret) (w : W) :
  skipAll st = false -> confirmAll st = false ->
  let dest := destPath pathPrefix secret in
  run env (interactiveBody total pathPrefix st i secret) w =
  let '(found, err, w1) := env_SecretExists env dest w in
  let '(sel, perr, w2) := env_AskOne env "Import this secret?" promptOptions w1 in
  let head :=
    EvSecretExists dest found err :: warningOutput err
    ++ promptOutput (GoInt.add i 1) total secret dest found ++ [asked sel perr] in
  match promptResult sel perr with
  | (_, Some e) => (Return st (Some (Errorf_w "prompt failed" e)), w2, head)
  | (ConfirmNo, None) =>
      (Continue (withCounters incSkipped st), w2,
       head ++ [EvFprintf Stdout "  Skipped\n" []])
  | (ConfirmNoToAll, None) =>
      (Continue (withCounters incSkipped (setSkipAll st)), w2, head)
  | (ConfirmAbort, None) => (Return st None, w2, head ++ abortOutput (counters st))
  | (ConfirmYes, None) =>
      let '(werr, w3) := env_WriteSecret env dest (source.Data secret) w2 in
      (Continue (written st werr), w3,
       head ++ [EvWriteSecret dest (source.Data secret) werr; writeOutput werr])
  | (ConfirmYesToAll, None) =>
      let '(werr, w3) := env_WriteSecret env dest (source.Data secret) w2 in
      (Continue (written (setConfirmAll st) werr), w3,
       head ++ [EvWriteSecret dest (source.Data secret) werr; writeOutput werr])
  end.
Proof.
  intros Hs Hc. cbv zeta. unfold interactiveBody, destPath.
  set (dest := pathPrefix +:+ source.Path secret).
  rewrite Hs, Hc. cbn [negb].
  rewrite run_bind. cbn [run client.SecretExists].
  destruct (env_SecretExists env dest w) as [[found err] w1].
  rewrite run_bind.
  assert (Hwarn : run env
            match err with
            | Some e =>
                fmt.Fprintf Stderr
                  "Warning: failed to check if secret exists: %v\n" [AErr (Some e)]
            | None => Ret tt
            end w1 = (tt, w1, warningOutput err)) by by destruct err.
  rewrite Hwarn. rewrite run_bind, promptImport_run.
  generalize (promptOutput (GoInt.add i 1) total secret dest found) as po.
  generalize (warningOutput err) as wo. intros wo po.
  destruct (env_AskOne env _ _ w1) as [[sel perr] w2].
  destruct perr as [e|]; cbn [promptResult].
  { cbn. by rewrite <- !app_assoc. }
  destruct (selectionConfirmation sel); rewrite ?interactiveWrite_run;
    try destruct (env_WriteSecret env dest _ w2) as [werr w3];
    cbn; by rewrite <- ?app_assoc.
Qed.

End InteractiveSteps.

(** ** Observations on the output of an iteration *)
Section TraceFacts.

Lemma decisions_app (t1 t2 : list Event) :
  decisions (t1 ++ t2) = decisions t1 ++ decisions t2.
Proof. apply omap_app. Qed.

Lemma writes_app (t1 t2 : list Event) : writes (t1 ++ t2) = writes t1 ++ writes t2.
Proof. apply omap_app. Qed.

Lemma existsChecks_app (t1 t2 : list Event) :
  existsChecks (t1 ++ t2) = existsChecks t1 ++ existsChecks t2.
Proof. apply omap_app. Qed.

Lemma printedInts_app (f : string) (t1 t2 : list Event) :
  printedInts f (t1 ++ t2) = printedInts f t1 ++ printedInts f t2.
Proof. apply omap_app. Qed.

Lemma quiet_app (t1 t2 : list Event) : quiet t1 -> quiet t2 -> quiet (t1 ++ t2).
Proof.
  intros (H1 & H2 & H3 & H4) (H1' & H2' & H3' & H4').
  repeat split; intros;
    rewrite ?decisions_app, ?writes_app, ?existsChecks_app, ?printedInts_app;
    by rewrite ?H1, ?H2, ?H3, ?H4, ?H1', ?H2', ?H3', ?H4'.
Qed.

Lemma quiet_promptOutput current total secret dest found :
  quiet (promptOutput current total secret dest found).
Proof.
  unfold promptOutput. repeat apply quiet_app; try by repeat split.
  - destruct (negb _); by repeat split.
  - destruct found; by repeat split.
Qed.

Lemma quiet_warningOutput err : quiet (warningOutput err).
Proof. destruct err; by repeat split. Qed.

End TraceFacts.

(** ** Go integers *)
Section GoIntFacts.

Lemma incr_small (x : Z) : 0 <= x < GoInt.MaxInt64 -> GoInt.incr x = x + 1.
Proof.
  unfold GoInt.incr, GoInt.add, GoInt.wrap, GoInt.MaxInt64. intros H.
  change (2 ^ 63) with 9223372036854775808 in *.
  change (2 ^ 64) with 18446744073709551616.
  rewrite Z.mod_small; lia.
Qed.

Lemma countsOne_incImported c n :
  counted c n -> n < GoInt.MaxInt64 -> countsOne c (incImported c).
Proof.
  unfold counted, processed. intros (?&?&?&?) ?. left. cbn.
  rewrite incr_small; lia.
Qed.

Lemma countsOne_incSkipped c n :
  counted c n -> n < GoInt.MaxInt64 -> countsOne c (incSkipped c).
Proof.
  unfold counted, processed. intros (?&?&?&?) ?. right; left. cbn.
  rewrite incr_small; lia.
Qed.

Lemma countsOne_incFailed c n :
  counted c n -> n < GoInt.MaxInt64 -> countsOne c (incFailed c).
Proof.
  unfold counted, processed. intros (?&?&?&?) ?. right; right. cbn.
  rewrite incr_small; lia.
Qed.

Lemma countsOne_counted c c' n :
  counted c n -> countsOne c c' -> counted c' (n + 1) /\ countersLe c c'.
Proof.
  unfold counted, countsOne, countersLe, processed.
  intros (?&?&?&?) [(?&?&?)|[(?&?&?)|(?&?&?)]]; repeat split; lia.
Qed.

Lemma counted_zero : counted zeroCounters 0.
Proof. by repeat split. Qed.

End GoIntFacts.

(** ** The interactive loop *)
Section InteractiveLoop.
Context {W : Type} (env : Env W).
Implicit Types (st : Locals) (w : W) (tr : list Event) (r : Flow).

Lemma loop_cons total pathPrefix st i secret rest w :
  run env (interactiveLoop total pathPrefix st i (secret :: rest)) w =
  let '(r, w1, tr1) := run env (interactiveBody total pathPrefix st i secret) w in
  match r with
  | Continue st' =>
      let '(r2, w2, tr2) :=
        run env (interactiveLoop total pathPrefix st' (i + 1) rest) w1 in
      (r2, w2, tr1 ++ tr2)
  | Return st' err => (Return st' err, w1, tr1)
  end.
Proof.
  cbn [interactiveLoop]. rewrite run_bind.
  destruct (run env (interactiveBody _ _ _ _ _) w) as [[[st'|st' err] w1] tr1].
  - by destruct (run env (interactiveLoop _ _ _ _ _) w1) as [[r2 w2] tr2].
  - cbn. by rewrite app_nil_r.
Qed.

Lemma loop_app total pathPrefix st i pre post w :
  run env (interactiveLoop total pathPrefix st i (pre ++ post)) w =
  let '(r, w1, tr1) := run env (interactiveLoop total pathPrefix st i pre) w in
  match r with
  | Continue st' =>
      let '(r2, w2, tr2) :=
        run env (interactiveLoop total pathPrefix st' (i + GoInt.len pre) post) w1 in
      (r2, w2, tr1 ++ tr2)
  | Return st' err => (Return st' err, w1, tr1)
  end.
Proof.
  revert st i w. induction pre as [|secret pre IH]; intros st i w.
  - cbn. unfold GoInt.len. cbn. rewrite Z.add_0_r.
    by destruct (run env _ w) as [[r2 w2] tr2].
  - rewrite <- app_comm_cons, !loop_cons.
    destruct (run env (interactiveBody _ _ _ _ _) w) as [[[st'|st' err] w1] tr1];
      [|done].
    rewrite IH.
    destruct (run env (interactiveLoop _ _ _ _ pre) w1) as [[[st2|st2 err] w2] tr2];
      [|done].
    replace (i + 1 + GoInt.len pre) with (i + GoInt.len (secret :: pre))
      by (unfold GoInt.len; cbn [length]; lia).
    destruct (run env (interactiveLoop _ _ _ _ post) w2) as [[r3 w3] tr3].
    by rewrite app_assoc.
Qed.

Lemma body_iteration total pathPrefix st i secret w r w' tr :
  run env (interactiveBody total pathPrefix st i secret) w = (r, w', tr) ->
  iteration total pathPrefix st i secret r tr.
Proof.
  intros Hrun.
  destruct (skipAll st) eqn:Hs.
  { rewrite body_skipAll in Hrun by done. injection Hrun as <- <- <-.
    by constructor. }
  destruct (confirmAll st) eqn:Hc.
  { rewrite body_confirmAll, interactiveWrite_run in Hrun by done.
    destruct (env_WriteSecret env _ _ w) as [werr w1].
    injection Hrun as <- <- <-. by constructor. }
  rewrite body_deciding in Hrun by done.
  destruct (env_SecretExists env _ w) as [[found err] w1].
  destruct (env_AskOne env _ _ w1) as [[sel perr] w2].
  destruct (promptResult sel perr) as [c o] eqn:Hd.
  remember (promptOutput (GoInt.add i 1) total secret
              (destPath pathPrefix secret) found) as po eqn:Hpo in Hrun.
  destruct c, o as [e|];
    try destruct (env_WriteSecret env _ _ w2) as [werr w3];
    injection Hrun as <- <- <-; subst po; rewrite <- ?app_assoc;
    try change ([asked sel perr] ++ ?t) with (asked sel perr :: t);
    (apply it_prompt; [done..|]); rewrite Hd; constructor.
Qed.


Lemma runInteractiveImport_run export pathPrefix w :
  run env (runInteractiveImport export pathPrefix) w =
  let '(r, w1, tr1) :=
    run env (interactiveLoop (GoInt.len (schema.Secrets export)) pathPrefix
               initLocals 0 (schema.Secrets export)) w in
  match r with
  | Continue st => (None, w1, startOutput ++ tr1 ++ summaryOutput (counters st))
  | Return _ err => (err, w1, startOutput ++ tr1)
  end.
Proof.
  unfold runInteractiveImport. cbn [bind fmt.Println fmt.Fprintf run].
  rewrite run_bind.
  destruct (run env (interactiveLoop _ _ _ _ _) w) as [[[st|st err] w1] tr1]; cbn.
  - done.
  - by rewrite app_nil_r.
Qed.

Lemma decided_tail pathPrefix st secret d r tail :
  decided pathPrefix st secret d r tail ->
  decisions tail = [] /\ existsChecks tail = [].
Proof. destruct 1; by try destruct werr. Qed.

(** The observations of an iteration that prompts. *)
Lemma iteration_deciding total pathPrefix st i secret r tr :
  iteration total pathPrefix st i secret r tr ->
  skipAll st = false -> confirmAll st = false ->
  exists d tail,
    decided pathPrefix st secret d r tail
    /\ decisions tr = [d]
    /\ existsChecks tr = [destPath pathPrefix secret]
    /\ writes tr = writes tail
    /\ forall f, printedInts f tr = printedInts f tail.
Proof.
  intros Hit Hs Hc. destruct Hit as [Hs'|werr Hs' Hc'|found err sel perr r tail _ _ Hd];
    [congruence..|].
  exists (promptResult sel perr), tail. split; [done|].
  destruct (decided_tail _ _ _ _ _ _ Hd) as [Hd1 Hd2].
  destruct (quiet_warningOutput err) as (Hw1 & Hw2 & Hw3 & Hw4).
  destruct (quiet_promptOutput (GoInt.add i 1) total secret
              (destPath pathPrefix secret) found) as (Hp1 & Hp2 & Hp3 & Hp4).
  change (asked sel perr :: tail) with ([asked sel perr] ++ tail).
  change (EvSecretExists ?p ?b ?e :: ?l) with ([EvSecretExists p b e] ++ l).
  repeat split; intros;
    rewrite ?decisions_app, ?existsChecks_app, ?writes_app, ?printedInts_app;
    rewrite ?Hw1, ?Hw2, ?Hw3, ?Hw4, ?Hp1, ?Hp2, ?Hp3, ?Hp4, ?Hd1, ?Hd2; done.
Qed.

(** The observations of an iteration under [confirmAll]. *)
Lemma iteration_confirmAll total pathPrefix st i secret r tr :
  iteration total pathPrefix st i secret r tr ->
  skipAll st = false -> confirmAll st = true ->
  exists werr,
    r = Continue (written st werr)
    /\ decisions tr = [] /\ existsChecks tr = []
    /\ writes tr = [(destPath pathPrefix secret, werr)]
    /\ forall f, printedInts f tr = [].
Proof.
  intros Hit Hs Hc. destruct Hit as [Hs'|werr Hs' Hc'|found err sel perr r tail _ Hc' Hd];
    [congruence| |congruence].
  exists werr. by destruct werr.
Qed.

End InteractiveLoop.

(** ** Invariants of the interactive loop *)
Section InteractiveInvariants.
Context {W : Type} (env : Env W).
Implicit Types (st : Locals) (w : W) (tr : list Event) (r : Flow).

Lemma written_flags st werr :
  confirmAll (written st werr) = confirmAll st
  /\ skipAll (written st werr) = skipAll st.
Proof. by destruct werr. Qed.

Lemma written_counts st werr n :
  counted (counters st) n -> n < GoInt.MaxInt64 ->
  countsOne (counters st) (counters (written st werr)).
Proof.
  intros Hc Hn. destruct werr; cbn.
  - eapply countsOne_incFailed; eauto.
  - eapply countsOne_incImported; eauto.
Qed.

Lemma iteration_counts total pathPrefix st i secret r tr n :
  iteration total pathPrefix st i secret r tr ->
  counted (counters st) n -> n < GoInt.MaxInt64 ->
  match r with
  | Continue st' => countsOne (counters st) (counters st')
  | Return st' _ => st' = st
  end.
Proof.
  intros Hit Hc Hn.
  destruct Hit as [Hs|werr Hs Hc'|found err sel perr r tail Hs Hc' Hd].
  - cbn. eapply countsOne_incSkipped; eauto.
  - eapply written_counts; eauto.
  - destruct Hd; try done.
    + eapply written_counts; eauto.
    + cbn. eapply countsOne_incSkipped; eauto.
    + eapply (written_counts (setConfirmAll st)); eauto.
    + cbn. eapply countsOne_incSkipped; eauto.
Qed.

Lemma iteration_flags total pathPrefix st i secret r tr :
  iteration total pathPrefix st i secret r tr ->
  (confirmAll st = true -> confirmAll (flowLocals r) = true)
  /\ (skipAll st = true -> skipAll (flowLocals r) = true)
  /\ (confirmAll st && skipAll st = false ->
      confirmAll (flowLocals r) && skipAll (flowLocals r) = false).
Proof.
  intros Hit.
  destruct Hit as [Hs|werr Hs Hc'|found err sel perr r tail Hs Hc' Hd].
  - cbn. by rewrite Hs.
  - cbn. destruct (written_flags st werr) as [-> ->]. by rewrite Hs, Hc'.
  - destruct Hd; cbn;
      try (destruct (written_flags st werr) as [-> ->]);
      try (destruct (written_flags (setConfirmAll st) werr) as [-> ->]);
      cbn; rewrite ?Hs, ?Hc'; done.
Qed.

Lemma iteration_continue_quiet total pathPrefix st i secret st' tr :
  iteration total pathPrefix st i secret (Continue st') tr ->
  forall f, printedInts f tr = [].
Proof.
  intros Hit f. remember (Continue st') as r eqn:Hr.
  destruct Hit as [Hs|werr Hs Hc'|found err sel perr r tail Hs Hc' Hd].
  - done.
  - by destruct werr.
  - destruct (quiet_warningOutput err) as (_ & _ & _ & Hw).
    destruct (quiet_promptOutput (GoInt.add i 1) total secret
                (destPath pathPrefix secret) found) as (_ & _ & _ & Hp).
    change (asked sel perr :: tail) with ([asked sel perr] ++ tail).
    change (EvSecretExists ?p ?b ?e :: ?l) with ([EvSecretExists p b e] ++ l).
    rewrite !printedInts_app, Hw, Hp.
    destruct Hd; try done; by destruct werr.
Qed.

Lemma loop_counted total pathPrefix st i secrets w r w' tr n :
  run env (interactiveLoop total pathPrefix st i secrets) w = (r, w', tr) ->
  counted (counters st) n -> n + GoInt.len secrets <= GoInt.MaxInt64 ->
  countersLe (counters st) (counters (flowLocals r))
  /\ match r with
     | Continue st' => counted (counters st') (n + GoInt.len secrets)
     | Return st' _ =>
         exists k, 0 <= k < GoInt.len secrets /\ counted (counters st') (n + k)
     end.
Proof.
  revert st i w tr n. induction secrets as [|secret rest IH]; intros st i w tr n.
  - cbn. intros [= <- <- <-] Hc _. unfold GoInt.len. cbn.
    rewrite Z.add_0_r. split; [by repeat split|done].
  - rewrite loop_cons.
    destruct (run env (interactiveBody _ _ _ _ _) w) as [[r1 w1] tr1] eqn:H1.
    apply body_iteration in H1. intros Hrun Hc Hn.
    assert (Hlen : GoInt.len (secret :: rest) = GoInt.len rest + 1)
      by (unfold GoInt.len; cbn [length]; lia).
    assert (0 <= GoInt.len rest) by (unfold GoInt.len; lia).
    pose proof (iteration_counts _ _ _ _ _ _ _ n H1 Hc ltac:(lia)) as H1c.
    destruct r1 as [st1|st1 e1].
    + destruct (countsOne_counted _ _ _ Hc H1c) as [Hc1 Hle1].
      destruct (run env (interactiveLoop _ _ st1 _ _) w1) as [[r2 w2] tr2] eqn:H2.
      injection Hrun as <- <- <-.
      destruct (IH _ _ _ _ (n + 1) H2 Hc1 ltac:(lia)) as [Hle2 Hr2].
      split.
      { unfold countersLe in *. lia. }
      destruct r2 as [st2|st2 e2].
      * by replace (n + GoInt.len (secret :: rest)) with (n + 1 + GoInt.len rest) by lia.
      * destruct Hr2 as (k & Hk & Hck). exists (k + 1). split; [lia|].
        by replace (n + (k + 1)) with (n + 1 + k) by lia.
    + injection Hrun as <- <- <-. subst st1. split; [by repeat split|].
      exists 0. split; [lia|]. by rewrite Z.add_0_r.
Qed.

Lemma loop_flags total pathPrefix st i secrets w r w' tr :
  run env (interactiveLoop total pathPrefix st i secrets) w = (r, w', tr) ->
  (confirmAll st = true -> confirmAll (flowLocals r) = true)
  /\ (skipAll st = true -> skipAll (flowLocals r) = true)
  /\ (confirmAll st && skipAll st = false ->
      confirmAll (flowLocals r) && skipAll (flowLocals r) = false).
Proof.
  revert st i w tr. induction secrets as [|secret rest IH]; intros st i w tr.
  - cbn. by intros [= <- <- <-].
  - rewrite loop_cons.
    destruct (run env (interactiveBody _ _ _ _ _) w) as [[r1 w1] tr1] eqn:H1.
    apply body_iteration, iteration_flags in H1 as (Ha & Hb & Hc).
    destruct r1 as [st1|st1 e1].
    + destruct (run env (interactiveLoop _ _ st1 _ _) w1) as [[r2 w2] tr2] eqn:H2.
      intros [= <- <- <-]. apply IH in H2 as (Ha2 & Hb2 & Hc2). cbn in *.
      repeat split; auto.
    + by intros [= <- <- <-].
Qed.

Lemma loop_skipAll total pathPrefix st i secrets w r w' tr :
  run env (interactiveLoop total pathPrefix st i secrets) w = (r, w', tr) ->
  skipAll st = true ->
  r = Continue (withCounters (Nat.iter (length secrets) incSkipped) st)
  /\ w' = w /\ tr = [].
Proof.
  revert st i w tr. induction secrets as [|secret rest IH]; intros st i w tr.
  - cbn. intros [= <- <- <-] _. by destruct st.
  - rewrite loop_cons. intros Hrun Hs. rewrite body_skipAll in Hrun by done.
    cbn [run] in Hrun.
    destruct (run env (interactiveLoop _ _ _ _ _) w) as [[r2 w2] tr2] eqn:H2.
    injection Hrun as <- <- <-.
    apply IH in H2 as (-> & -> & ->); [|done]. repeat split.
    f_equal. unfold withCounters. cbn [counters confirmAll skipAll length].
    by rewrite Nat.iter_succ_r.
Qed.

Lemma loop_confirmAll total pathPrefix st i secrets w r w' tr :
  run env (interactiveLoop total pathPrefix st i secrets) w = (r, w', tr) ->
  skipAll st = false -> confirmAll st = true ->
  exists st',
    r = Continue st'
    /\ decisions tr = [] /\ existsChecks tr = []
    /\ (writes tr).*1 = map (destPath pathPrefix) secrets
    /\ skipped (counters st') = skipped (counters st).
Proof.
  revert st i w tr. induction secrets as [|secret rest IH]; intros st i w tr.
  - cbn. intros [= <- <- <-] _ _. by exists st.
  - rewrite loop_cons. intros Hrun Hs Hc.
    destruct (run env (interactiveBody _ _ _ _ _) w) as [[r1 w1] tr1] eqn:H1.
    apply body_iteration, iteration_confirmAll in H1
      as (werr & -> & Hd1 & He1 & Hw1 & _); [|done..].
    destruct (run env (interactiveLoop _ _ _ _ _) w1) as [[r2 w2] tr2] eqn:H2.
    injection Hrun as <- <- <-.
    destruct (written_flags st werr) as [Hc' Hs'].
    apply IH in H2 as (st' & -> & Hd2 & He2 & Hw2 & Hsk); [|congruence..].
    exists st'. rewrite decisions_app, existsChecks_app, writes_app.
    rewrite Hd1, He1, Hw1, Hd2, He2, fmap_app, Hw2. repeat split.
    rewrite Hsk. by destruct werr.
Qed.

Lemma loop_continue_quiet total pathPrefix st i secrets w st' w' tr :
  run env (interactiveLoop total pathPrefix st i secrets) w = (Continue st', w', tr) ->
  forall f, printedInts f tr = [].
Proof.
  revert st i w tr. induction secrets as [|secret rest IH]; intros st i w tr.
  - cbn. by intros [= <- <- <-].
  - rewrite loop_cons.
    destruct (run env (interactiveBody _ _ _ _ _) w) as [[r1 w1] tr1] eqn:H1.
    apply body_iteration in H1. destruct r1 as [st1|st1 e1]; [|done].
    destruct (run env (interactiveLoop _ _ st1 _ _) w1) as [[r2 w2] tr2] eqn:H2.
    intros [= -> <- <-] f. rewrite printedInts_app.
    by rewrite (iteration_continue_quiet _ _ _ _ _ _ _ H1), (IH _ _ _ _ H2).
Qed.

End InteractiveInvariants.

(** ** Runs that stop early *)
Section EarlyReturn.
Context {W : Type} (env : Env W).
Implicit Types (st : Locals) (w : W) (tr : list Event) (r : Flow).

(** An iteration with a decision is an iteration that prompted. *)
Lemma iteration_prompted total pathPrefix st i secret r tr d :
  iteration total pathPrefix st i secret r tr ->
  decisions tr = [d] ->
  skipAll st = false /\ confirmAll st = false
  /\ exists found err sel perr tail,
       promptResult sel perr = d
       /\ decided pathPrefix st secret d r tail
       /\ tr = EvSecretExists (destPath pathPrefix secret) found err
               :: warningOutput err
               ++ promptOutput (GoInt.add i 1) total secret
                    (destPath pathPrefix secret) found
               ++ asked sel perr :: tail.
Proof.
  intros Hit Hd.
  pose proof Hit as Hit'.
  destruct Hit as [Hs|werr Hs Hc|found err sel perr r tail Hs Hc Hdec].
  - done.
  - by destruct werr.
  - split; [done|]. split; [done|].
    apply iteration_deciding in Hit' as (d' & tail' & _ & Hd' & _); [|done..].
    assert (d' = d) as -> by congruence.
    destruct (decided_tail _ _ _ _ _ _ Hdec) as [Hd1 _].
    destruct (quiet_warningOutput err) as (Hw1 & _).
    destruct (quiet_promptOutput (GoInt.add i 1) total secret
                (destPath pathPrefix secret) found) as (Hp1 & _).
    assert (promptResult sel perr = d) as <-.
    { revert Hd.
      change (asked sel perr :: tail) with ([asked sel perr] ++ tail).
      change (EvSecretExists ?p ?b ?e :: ?l) with ([EvSecretExists p b e] ++ l).
      rewrite !decisions_app, Hw1, Hp1, Hd1. cbn. congruence. }
    by exists found, err, sel, perr, tail.
Qed.

(** The run of [runInteractiveImport] when the iteration on [secret]
    returns. *)
Lemma runInteractiveImport_stop export pathPrefix pre secret post w st w1 tr1
    st' err w2 tr2 :
  schema.Secrets export = pre ++ secret :: post ->
  run env (interactiveLoop (GoInt.len (schema.Secrets export)) pathPrefix
             initLocals 0 pre) w = (Continue st, w1, tr1) ->
  run env (interactiveBody (GoInt.len (schema.Secrets export)) pathPrefix st
             (GoInt.len pre) secret) w1 = (Return st' err, w2, tr2) ->
  run env (runInteractiveImport export pathPrefix) w
  = (err, w2, startOutput ++ tr1 ++ tr2).
Proof.
  intros Hsec H1 H2. rewrite runInteractiveImport_run.
  rewrite Hsec at 2. rewrite loop_app, H1, loop_cons, Z.add_0_l.
  by rewrite H2.
Qed.

End EarlyReturn.

(** ** The pool of goroutines *)
Section PoolFacts.
Context {W : Type} (env : Env W) (g : Flags) (pathPrefix : string).
Implicit Types (s : Pool W) (ws : list Worker) (wk : Worker).

Lemma sum_insert (f : Worker -> nat) ws i old new :
  ws !! i = Some old ->
  (sum_list_with f (<[i:=new]> ws) + f old = sum_list_with f ws + f new)%nat.
Proof.
  revert i. induction ws as [|x ws IH]; intros [|i] Hi; try done.
  - injection Hi as ->. cbn. lia.
  - simpl in Hi. specialize (IH _ Hi). simpl. lia.
Qed.

Lemma elem_of_insert_inv ws i (x y : Worker) :
  y ∈ <[i:=x]> ws -> y = x \/ y ∈ ws.
Proof.
  intros [j Hj]%list_elem_of_lookup.
  destruct (decide (i = j)) as [->|Hne].
  - destruct (ws !! j) eqn:Hl.
    + rewrite list_lookup_insert_eq in Hj by by eapply lookup_lt_Some.
      left. congruence.
    + rewrite list_insert_ge in Hj by by apply lookup_ge_None. congruence.
  - rewrite list_lookup_insert_ne in Hj by done.
    right. by eapply list_elem_of_lookup_2.
Qed.

Lemma forallb_isDone ws :
  forallb isDone ws = true <-> Forall (fun wk => wk = WDone) ws.
Proof.
  induction ws as [|wk ws IH]; cbn; [by split|].
  rewrite andb_true_iff, Forall_cons, IH. destruct wk; cbn; intuition congruence.
Qed.

Lemma collectResult_run total c result (w : W) :
  exists evs, run env (collectResult total c result) w = (tallyResult c result, w, evs).
Proof.
  unfold collectResult, tallyResult.
  destruct (Skipped result), (Success result); cbn; by eexists.
Qed.

Lemma parallelEpilogue_run c (w : W) :
  exists evs,
    run env (parallelEpilogue c) w =
    (if failed c >? 0 then Some (Errorf_d (failed c) " secrets failed to import")
     else None, w, evs)
    /\ printedInts "  Imported: %d\n" evs = [imported c]
    /\ printedInts "  Skipped:  %d\n" evs = [skipped c]
    /\ printedInts "  Failed:   %d\n" evs = [failed c].
Proof.
  unfold parallelEpilogue. destruct (failed c >? 0); cbn; by eexists.
Qed.

Lemma afterWrite_shape p : afterWrite p -> importShape p.
Proof. by destruct p. Qed.

Lemma afterExists_shape p : afterExists p -> importShape p.
Proof. by destruct p. Qed.

Lemma importSecret_shape secret :
  importShape (importSecret g secret pathPrefix)
  /\ (callsAhead (importSecret g secret pathPrefix) <= 2)%nat.
Proof.
  unfold importSecret.
  destruct (importSkipExisting g && negb (importOverwriteAll g)); cbn.
  - split; [|lia]. intros found [e|]; [done|]. destruct found; [done|].
    cbn. by intros [e|].
  - split; [|lia]. by intros [e|].
Qed.

Lemma step_shape (p : Prog ImportResult) (w : W) ev p' w' :
  importShape p -> step env p w = Some (ev, p', w') ->
  importShape p' /\ (callsAhead p' < callsAhead p)%nat.
Proof.
  destruct p as [r|path k|path data k| | | | | | ]; try done; cbn; intros Hsh.
  - destruct (env_SecretExists env path w) as [[b e] w1]. intros [= <- <- <-].
    specialize (Hsh b e). split; [by apply afterExists_shape|].
    destruct (k b e); try done; cbn; lia.
  - destruct (env_WriteSecret env path data w) as [e w1]. intros [= <- <- <-].
    specialize (Hsh e). split; [by apply afterWrite_shape|].
    destruct (k e); try done; cbn; lia.
Qed.

Lemma step_enabled (p : Prog ImportResult) (w : W) :
  (forall r, p <> Ret r) -> is_Some (step env p w).
Proof.
  intros Hp. destruct p; cbn; try by eexists.
  - by destruct (Hp r).
  - by destruct (env_SecretExists env path w) as [[b e] w1].
  - by destruct (env_WriteSecret env path data w) as [e w1].
  - by destruct (env_Health env w) as [e w1].
  - by destruct (env_NewClient env cfg w) as [e w1].
  - by destruct (env_ParseHeaders env headerStrings w) as [e w1].
  - by destruct (env_ValidateFile env path w) as [e w1].
  - by destruct (env_AskOne env message options w) as [[x e] w1].
Qed.

End PoolFacts.

Section PoolInvariant.
Context {W : Type} (env : Env W) (g : Flags) (pathPrefix : string).
Implicit Types (s : Pool W) (ws : list Worker) (wk : Worker).

Lemma busy_replicate k : busy (replicate k WRange) = 0%nat.
Proof. induction k; [done|]. unfold busy in *. simpl. lia. Qed.

Lemma poolInv_init (export : schema.ExportFile) (w : W) :
  poolInv (length (schema.Secrets export)) (parallelInit g export w).
Proof.
  constructor; cbn; try done.
  - rewrite busy_replicate. lia.
  - by intros [[=] _]%elem_of_replicate.
  - by intros p [[=] _]%elem_of_replicate.
Qed.

Lemma not_all_done ws i wk :
  ws !! i = Some wk -> wk <> WDone -> ~ Forall (fun wk => wk = WDone) ws.
Proof. intros Hi Hne HF. by eapply Hne, (Forall_lookup_1 _ _ _ _ HF Hi). Qed.

Lemma poolInv_step n a s s' :
  poolInv n s -> pstep env g pathPrefix a s = Some s' -> poolInv n s'.
Proof.
  intros [Hcap Hcons Htally Hclosed Hdone Hwaited Hret Hshape] Hstep.
  unfold busy in Hcons.
  destruct a; unfold pstep in Hstep.
  - (* ASend *)
    destruct (toSend s) as [|secret rest] eqn:Hsend; [done|].
    destruct (length (work s) <? pool_cap s)%nat; [|done].
    injection Hstep as <-.
    assert (Hopen : workClosed s = false).
    { destruct (workClosed s); [|done]. by specialize (Hclosed eq_refl). }
    constructor; simpl.
    + done.
    + rewrite length_app. unfold busy. simpl in *. lia.
    + done.
    + by rewrite Hopen.
    + intros Hd. destruct (Hdone Hd) as [? _]. congruence.
    + done.
    + done.
    + done.
  - (* ACloseWork *)
    destruct (toSend s) eqn:Hsend; [|done].
    destruct (workClosed s) eqn:Hopen; [done|].
    injection Hstep as <-.
    constructor; simpl.
    + done.
    + by rewrite Hsend.
    + done.
    + by rewrite Hsend.
    + intros Hd. destruct (Hdone Hd) as [? _]. congruence.
    + done.
    + done.
    + done.
  - (* ARecv *)
    destruct (workers s !! i) as [[| |]|] eqn:Hi; try done.
    destruct (work s) as [|secret rest] eqn:Hwork; [done|].
    injection Hstep as <-.
    pose proof (sum_insert (fun wk => if isImport wk then 1%nat else 0%nat)
                  _ _ _ (WImport (importSecret g secret pathPrefix)) Hi) as Hb.
    constructor; simpl.
    + done.
    + unfold busy. simpl in *. lia.
    + done.
    + done.
    + intros [[=]|Hd]%elem_of_insert_inv. by destruct (Hdone Hd).
    + intros Hc. by destruct (not_all_done _ _ _ Hi ltac:(done) (Hwaited Hc)).
    + done.
    + intros p [[= ->]|Hp]%elem_of_insert_inv; [|by apply Hshape].
      apply importSecret_shape.
  - (* ACall *)
    destruct (workers s !! i) as [[|p|]|] eqn:Hi; try done.
    destruct (step env p (world s)) as [[[ev p'] w']|] eqn:Hp; [|done].
    injection Hstep as <-.
    pose proof (sum_insert (fun wk => if isImport wk then 1%nat else 0%nat)
                  _ _ _ (WImport p') Hi) as Hb.
    constructor; simpl.
    + done.
    + unfold busy. simpl in *. lia.
    + done.
    + done.
    + intros [[=]|Hd]%elem_of_insert_inv. by apply Hdone.
    + intros Hc. by destruct (not_all_done _ _ _ Hi ltac:(done) (Hwaited Hc)).
    + done.
    + intros q [[= ->]|Hq]%elem_of_insert_inv; [|by apply Hshape].
      eapply step_shape; [|done]. apply Hshape. by eapply list_elem_of_lookup_2.
  - (* AEmit *)
    destruct (workers s !! i) as [[|[result| | | | | | | |]|]|] eqn:Hi; try done.
    destruct (length (results s) <? pool_cap s)%nat; [|done].
    injection Hstep as <-.
    pose proof (sum_insert (fun wk => if isImport wk then 1%nat else 0%nat)
                  _ _ _ WRange Hi) as Hb.
    constructor; simpl.
    + done.
    + rewrite length_app. unfold busy. simpl in *. lia.
    + done.
    + done.
    + intros [[=]|Hd]%elem_of_insert_inv. by apply Hdone.
    + intros Hc. by destruct (not_all_done _ _ _ Hi ltac:(done) (Hwaited Hc)).
    + intros Hr. destruct (Hret Hr) as [Hc _].
      by destruct (not_all_done _ _ _ Hi ltac:(done) (Hwaited Hc)).
    + intros q [[=]|Hq]%elem_of_insert_inv. by apply Hshape.
  - (* AExit *)
    destruct (workers s !! i) as [[| |]|] eqn:Hi; try done.
    destruct (work s) eqn:Hwork; [|done].
    destruct (workClosed s) eqn:Hopen; [|done].
    injection Hstep as <-.
    pose proof (sum_insert (fun wk => if isImport wk then 1%nat else 0%nat)
                  _ _ _ WDone Hi) as Hb.
    constructor; simpl.
    + done.
    + rewrite Hwork. unfold busy. simpl in *. lia.
    + done.
    + rewrite Hopen. done.
    + by rewrite Hopen, Hwork.
    + intros Hc. by destruct (not_all_done _ _ _ Hi ltac:(done) (Hwaited Hc)).
    + done.
    + intros q [[=]|Hq]%elem_of_insert_inv. by apply Hshape.
  - (* ACloseResults *)
    destruct (forallb isDone (workers s)) eqn:Hall; [|done].
    destruct (resultsClosed s) eqn:Hopen; [done|].
    injection Hstep as <-.
    constructor; simpl.
    + done.
    + done.
    + done.
    + done.
    + done.
    + intros _. by apply forallb_isDone.
    + intros Hr. destruct (Hret Hr) as [Hc _]. congruence.
    + done.
  - (* ACollect *)
    destruct (returned s) eqn:Hr; [done|].
    destruct (results s) as [|result rest] eqn:Hres; [done|].
    destruct (collectResult_run env (Z.of_nat (pool_cap s)) (tally s) result (world s))
      as [evs Hrun].
    rewrite Hrun in Hstep. injection Hstep as <-.
    constructor; simpl.
    + done.
    + rewrite length_app. unfold busy. simpl in *. lia.
    + by rewrite foldl_app, <- Htally.
    + done.
    + done.
    + done.
    + rewrite Hr. by intros [x [=]].
    + done.
  - (* AFinish *)
    destruct (returned s) eqn:Hr; [done|].
    destruct (results s) eqn:Hres; [|done].
    destruct (resultsClosed s) eqn:Hopen; [|done].
    destruct (parallelEpilogue_run env (tally s) (world s)) as (evs & Hrun & _).
    rewrite Hrun in Hstep. injection Hstep as <-.
    constructor; simpl.
    + done.
    + by rewrite Hres.
    + done.
    + done.
    + done.
    + by rewrite Hopen.
    + by rewrite Hopen, Hres.
    + done.
Qed.

Lemma poolInv_schedule n sched s s' :
  poolInv n s -> runSchedule env g pathPrefix sched s = Some s' -> poolInv n s'.
Proof.
  revert s. induction sched as [|a sched IH]; intros s Hinv; cbn.
  - by intros [= <-].
  - destruct (pstep env g pathPrefix a s) as [s1|] eqn:Hstep; [|done].
    apply IH. by eapply poolInv_step.
Qed.

End PoolInvariant.

Section PoolProgress.
Context {W : Type} (env : Env W) (g : Flags) (pathPrefix : string).
Implicit Types (s : Pool W) (ws : list Worker) (wk : Worker).

Lemma some_not_done ws :
  forallb isDone ws = false -> exists i wk, ws !! i = Some wk /\ wk <> WDone.
Proof.
  induction ws as [|wk ws IH]; [done|]. simpl.
  destruct wk; simpl.
  - intros _. by exists 0%nat, WRange.
  - intros _. by exists 0%nat, (WImport p).
  - intros (i & wk & Hi & Hne)%IH. by exists (S i), wk.
Qed.

Lemma busy_pos ws i p : ws !! i = Some (WImport p) -> (0 < busy ws)%nat.
Proof.
  revert i. induction ws as [|wk ws IH]; intros [|i] Hi; try done.
  - injection Hi as ->. unfold busy. simpl. lia.
  - simpl in Hi. specialize (IH _ Hi). unfold busy in *. simpl. lia.
Qed.

(** No deadlock: as long as [runParallelImport] has not returned, some
    goroutine can take a step. *)
Lemma pool_progress n s :
  poolInv n s -> returned s = None ->
  exists a s', pstep env g pathPrefix a s = Some s'.
Proof.
  intros [Hcap Hcons Htally Hclosed Hdone Hwaited Hret Hshape] Hr.
  destruct (results s) as [|result rest] eqn:Hres; cycle 1.
  { exists ACollect. unfold pstep. rewrite Hr, Hres.
    destruct (collectResult_run env (Z.of_nat (pool_cap s)) (tally s) result (world s))
      as [evs ->]. by eexists. }
  destruct (resultsClosed s) eqn:Hrc.
  { exists AFinish. unfold pstep. rewrite Hr, Hres, Hrc.
    destruct (parallelEpilogue_run env (tally s) (world s)) as (evs & -> & _).
    by eexists. }
  destruct (forallb isDone (workers s)) eqn:Hall.
  { exists ACloseResults. unfold pstep. rewrite Hall, Hrc. by eexists. }
  destruct (some_not_done _ Hall) as (i & wk & Hi & Hne).
  destruct wk as [|p|]; [| |done].
  - (* a worker at the range *)
    destruct (work s) as [|secret more] eqn:Hwork; cycle 1.
    { exists (ARecv i). unfold pstep. rewrite Hi, Hwork. by eexists. }
    destruct (workClosed s) eqn:Hwc.
    { exists (AExit i). unfold pstep. rewrite Hi, Hwork, Hwc. by eexists. }
    destruct (toSend s) as [|secret more] eqn:Hsend.
    { exists ACloseWork. unfold pstep. rewrite Hsend, Hwc. by eexists. }
    exists ASend. unfold pstep. rewrite Hsend.
    assert ((length (work s) <? pool_cap s)%nat = true) as ->.
    { apply Nat.ltb_lt. rewrite Hwork. simpl in *. lia. }
    by eexists.
  - (* a worker in importSecret *)
    destruct p as [result| | | | | | | |] eqn:Hp.
    { exists (AEmit i). unfold pstep. rewrite Hi.
      assert ((length (results s) <? pool_cap s)%nat = true) as ->.
      { apply Nat.ltb_lt. pose proof (busy_pos _ _ _ Hi). rewrite Hres. simpl. lia. }
      by eexists. }
    all: exists (ACall i); unfold pstep; rewrite Hi;
      match goal with
      | |- context [step env ?q ?w] =>
          destruct (step_enabled env q w ltac:(done)) as [[[ev p'] w'] ->]
      end; by eexists.
Qed.

(** Every step brings the pool closer to its end. *)
Lemma pool_decrease n a s s' :
  poolInv n s -> pstep env g pathPrefix a s = Some s' ->
  (stepsLeft s' < stepsLeft s)%nat.
Proof.
  intros [Hcap Hcons Htally Hclosed Hdone Hwaited Hret Hshape] Hstep.
  destruct a; unfold pstep in Hstep.
  - destruct (toSend s) as [|secret rest] eqn:Hsend; [done|].
    destruct (length (work s) <? pool_cap s)%nat; [|done].
    injection Hstep as <-. unfold stepsLeft. simpl. rewrite Hsend, length_app.
    simpl. lia.
  - destruct (toSend s) eqn:Hsend; [|done].
    destruct (workClosed s) eqn:Hopen; [done|].
    injection Hstep as <-. unfold stepsLeft. simpl. rewrite Hsend, Hopen. lia.
  - destruct (workers s !! i) as [[| |]|] eqn:Hi; try done.
    destruct (work s) as [|secret rest] eqn:Hwork; [done|].
    injection Hstep as <-.
    pose proof (sum_insert workerSteps _ _ _
                  (WImport (importSecret g secret pathPrefix)) Hi) as Hb.
    destruct (importSecret_shape g pathPrefix secret) as [_ Hle].
    unfold stepsLeft. simpl in *. rewrite Hwork. simpl. lia.
  - destruct (workers s !! i) as [[|p|]|] eqn:Hi; try done.
    destruct (step env p (world s)) as [[[ev p'] w']|] eqn:Hp; [|done].
    injection Hstep as <-.
    pose proof (sum_insert workerSteps _ _ _ (WImport p') Hi) as Hb.
    assert (Hsh : importShape p) by (apply Hshape; by eapply list_elem_of_lookup_2).
    destruct (step_shape env _ _ _ _ _ Hsh Hp) as [_ Hlt].
    unfold stepsLeft. simpl in *. lia.
  - destruct (workers s !! i) as [[|[result| | | | | | | |]|]|] eqn:Hi; try done.
    destruct (length (results s) <? pool_cap s)%nat; [|done].
    injection Hstep as <-.
    pose proof (sum_insert workerSteps _ _ _ WRange Hi) as Hb.
    unfold stepsLeft. simpl in *. rewrite length_app. simpl. lia.
  - destruct (workers s !! i) as [[| |]|] eqn:Hi; try done.
    destruct (work s) eqn:Hwork; [|done].
    destruct (workClosed s) eqn:Hopen; [|done].
    injection Hstep as <-.
    pose proof (sum_insert workerSteps _ _ _ WDone Hi) as Hb.
    unfold stepsLeft. simpl in *. rewrite Hwork, Hopen. simpl. lia.
  - destruct (forallb isDone (workers s)) eqn:Hall; [|done].
    destruct (resultsClosed s) eqn:Hopen; [done|].
    injection Hstep as <-. unfold stepsLeft. simpl. rewrite Hopen. lia.
  - destruct (returned s) eqn:Hr; [done|].
    destruct (results s) as [|result rest] eqn:Hres; [done|].
    destruct (collectResult_run env (Z.of_nat (pool_cap s)) (tally s) result (world s))
      as [evs Hrun].
    rewrite Hrun in Hstep. injection Hstep as <-.
    unfold stepsLeft. simpl. rewrite Hres, Hr. simpl. lia.
  - destruct (returned s) eqn:Hr; [done|].
    destruct (results s) eqn:Hres; [|done].
    destruct (resultsClosed s) eqn:Hopen; [|done].
    destruct (parallelEpilogue_run env (tally s) (world s)) as (evs & Hrun & _).
    rewrite Hrun in Hstep. injection Hstep as <-.
    unfold stepsLeft. simpl. rewrite Hres, Hr, Hopen. simpl. lia.
Qed.

(** Termination: from every state of a run the pool can be run to the
    return of [runParallelImport]. *)
Lemma pool_completes n s :
  poolInv n s ->
  exists sched s',
    runSchedule env g pathPrefix sched s = Some s' /\ is_Some (returned s').
Proof.
  remember (stepsLeft s) as k eqn:Hk. revert s Hk.
  induction (lt_wf k) as [k _ IH]. intros s -> Hinv.
  destruct (returned s) as [err|] eqn:Hr.
  { exists [], s. split; [done|]. rewrite Hr. by eexists. }
  destruct (pool_progress n s Hinv Hr) as (a & s1 & Hstep).
  destruct (IH (stepsLeft s1) (pool_decrease _ _ _ _ Hinv Hstep) s1 eq_refl
              (poolInv_step env g pathPrefix _ _ _ _ Hinv Hstep))
    as (sched & s' & Hrun & Hret).
  exists (a :: sched), s'. split; [|done]. simpl. by rewrite Hstep.
Qed.

(** No run is longer than the bound. *)
Lemma pool_bounded n sched s s' :
  poolInv n s -> runSchedule env g pathPrefix sched s = Some s' ->
  (length sched + stepsLeft s' <= stepsLeft s)%nat.
Proof.
  revert s. induction sched as [|a sched IH]; intros s Hinv; simpl.
  - intros [= <-]. lia.
  - destruct (pstep env g pathPrefix a s) as [s1|] eqn:Hstep; [|done].
    intros Hrun.
    pose proof (pool_decrease _ _ _ _ Hinv Hstep).
    pose proof (IH _ (poolInv_step env g pathPrefix _ _ _ _ Hinv Hstep) Hrun).
    lia.
Qed.

End PoolProgress.

Section PoolTally.
Context {W : Type} (env : Env W) (g : Flags) (pathPrefix : string).
Implicit Types (s : Pool W) (ws : list Worker) (wk : Worker).

Lemma tallyResult_counts c result k :
  counted c k -> k < GoInt.MaxInt64 ->
  countsOne c (tallyResult c result)
  /\ failed (tallyResult c result)
     = failed c + (if isFailure result then 1 else 0).
Proof.
  intros Hc Hk. unfold tallyResult, isFailure.
  destruct (Skipped result), (Success result); simpl.
  - split; [by eapply countsOne_incSkipped|lia].
  - split; [by eapply countsOne_incSkipped|lia].
  - split; [by eapply countsOne_incImported|lia].
  - split; [by eapply countsOne_incFailed|].
    destruct Hc as (?&?&?&?). unfold processed in *. rewrite incr_small; lia.
Qed.

(** The totals after the results [l], when there are no more than the
    largest [int64] of them. *)
Lemma tally_counted (l : list ImportResult) :
  Z.of_nat (length l) <= GoInt.MaxInt64 ->
  counted (foldl tallyResult zeroCounters l) (Z.of_nat (length l))
  /\ failed (foldl tallyResult zeroCounters l)
     = Z.of_nat (length (filter (fun r => isFailure r = true) l)).
Proof.
  induction l as [|result l IH] using rev_ind; intros Hlen.
  - split; [apply counted_zero|done].
  - rewrite length_app in Hlen. simpl in Hlen.
    destruct IH as [Hc Hf]; [lia|].
    destruct (tallyResult_counts _ result _ Hc ltac:(lia)) as [Hone Hfail].
    rewrite foldl_app. simpl.
    destruct (countsOne_counted _ _ _ Hc Hone) as [Hc' _]. split.
    + rewrite length_app. simpl.
      by replace (Z.of_nat (length l + 1)) with (Z.of_nat (length l) + 1) by lia.
    + rewrite Hfail, Hf, filter_app, length_app.
      rewrite filter_cons, filter_nil.
      destruct (isFailure result); simpl; lia.
Qed.

Lemma pool_counted n s :
  poolInv n s -> Z.of_nat n <= GoInt.MaxInt64 ->
  counted (tally s) (Z.of_nat (length (collected s)))
  /\ (length (collected s) <= n)%nat
  /\ (0 < failed (tally s) <->
      exists result, result ∈ collected s /\ isFailure result = true).
Proof.
  intros Hinv Hn.
  assert (Hle : (length (collected s) <= n)%nat).
  { pose proof (inv_conserved _ _ Hinv). lia. }
  destruct (tally_counted (collected s) ltac:(lia)) as [Hc Hf].
  rewrite <- (inv_tally _ _ Hinv) in Hc, Hf.
  split; [done|]. split; [done|]. rewrite Hf. split.
  - intros Hpos.
    destruct (filter (fun r => isFailure r = true) (collected s))
      as [|result l] eqn:Hfilter; [simpl in Hpos; lia|].
    exists result.
    assert (Hin : result ∈ filter (fun r => isFailure r = true) (collected s))
      by (rewrite Hfilter; by left).
    apply list_elem_of_filter in Hin as [? ?]. done.
  - intros (result & Hin & Hfail).
    assert (Hin' : result ∈ filter (fun r => isFailure r = true) (collected s))
      by by apply list_elem_of_filter.
    destruct (filter _ (collected s)); [by apply elem_of_nil in Hin'|].
    simpl. lia.
Qed.

(** Only the main loop touches the totals: an iteration of it collects one
    result and adds one to exactly one counter; every other step leaves the
    totals and the collected results as they are. *)
Lemma pool_tally_step n a s s' :
  poolInv n s -> Z.of_nat n <= GoInt.MaxInt64 ->
  pstep env g pathPrefix a s = Some s' ->
  if decide (a = ACollect) then
    countsOne (tally s) (tally s')
    /\ exists result, collected s' = collected s ++ [result]
                      /\ tally s' = tallyResult (tally s) result
  else tally s' = tally s /\ collected s' = collected s.
Proof.
  intros Hinv Hn Hstep.
  destruct (pool_counted _ _ Hinv Hn) as (Hc & Hle & _).
  pose proof (inv_conserved _ _ Hinv) as Hcons.
  destruct a; unfold pstep in Hstep;
    try (rewrite decide_False by done; repeat case_match; by simplify_eq).
  rewrite decide_True by done.
  destruct (returned s) eqn:Hr; [done|].
  destruct (results s) as [|result rest] eqn:Hres; [done|].
  destruct (collectResult_run env (Z.of_nat (pool_cap s)) (tally s) result (world s))
    as [evs Hrun].
  rewrite Hrun in Hstep. injection Hstep as <-. simpl. split.
  - eapply tallyResult_counts; [done|]. simpl in Hcons. lia.
  - by exists result.
Qed.

(** When [runParallelImport] has returned and there was a worker, every
    secret has been collected. *)
Lemma pool_final n s :
  poolInv n s -> is_Some (returned s) -> workers s <> [] ->
  length (collected s) = n.
Proof.
  intros Hinv Hret Hws.
  destruct (inv_returned _ _ Hinv Hret) as [Hrc Hres].
  pose proof (inv_waited _ _ Hinv Hrc) as Hall.
  assert (Hbusy : busy (workers s) = 0%nat).
  { clear -Hall. induction Hall as [|wk ws -> _ IH]; [done|].
    unfold busy in *. simpl. lia. }
  assert (Hd : WDone ∈ workers s).
  { destruct (workers s) as [|wk ws]; [done|].
    apply Forall_cons in Hall as [-> _]. by left. }
  destruct (inv_done _ _ Hinv Hd) as [Hwc Hwork].
  pose proof (inv_closed _ _ Hinv Hwc) as Hsend.
  pose proof (inv_conserved _ _ Hinv) as Hcons.
  rewrite Hres, Hwork, Hsend, Hbusy in Hcons. simpl in Hcons. lia.
Qed.

Lemma pstep_workers a s s' :
  pstep env g pathPrefix a s = Some s' ->
  length (workers s') = length (workers s).
Proof.
  intros Hstep. destruct a; unfold pstep in Hstep;
    repeat case_match; simplify_eq; simpl; by rewrite ?length_insert.
Qed.

Lemma runSchedule_workers sched s s' :
  runSchedule env g pathPrefix sched s = Some s' ->
  length (workers s') = length (workers s).
Proof.
  revert s. induction sched as [|a sched IH]; intros s; simpl.
  - by intros [= <-].
  - destruct (pstep env g pathPrefix a s) as [s1|] eqn:Hstep; [|done].
    intros Hrun. rewrite (IH _ Hrun). by eapply pstep_workers.
Qed.

(** What [runParallelImport] returns: an error exactly when the failed
    counter is positive. *)
Lemma pstep_returned a s s' err :
  pstep env g pathPrefix a s = Some s' -> returned s' = Some err ->
  returned s = Some err
  \/ (err = if failed (tally s') >? 0
            then Some (Errorf_d (failed (tally s')) " secrets failed to import")
            else None).
Proof.
  intros Hstep Hret. destruct a; unfold pstep in Hstep;
    try (repeat case_match; simplify_eq; simpl in *; left; congruence).
  destruct (returned s) eqn:Hr; [done|].
  destruct (results s) eqn:Hres; [|done].
  destruct (resultsClosed s) eqn:Hopen; [|done].
  destruct (parallelEpilogue_run env (tally s) (world s)) as (evs & Hrun & _).
  rewrite Hrun in Hstep. injection Hstep as <-. simpl in *. right. congruence.
Qed.

Lemma pstep_tally_returned a s s' :
  pstep env g pathPrefix a s = Some s' -> is_Some (returned s) ->
  tally s' = tally s /\ returned s' = returned s.
Proof.
  intros Hstep [err Hret]. destruct a; unfold pstep in Hstep;
    repeat case_match; simplify_eq; simpl; done.
Qed.

Lemma runSchedule_returned sched s s' err :
  runSchedule env g pathPrefix sched s = Some s' ->
  returned s = None -> returned s' = Some err ->
  err = if failed (tally s') >? 0
        then Some (Errorf_d (failed (tally s')) " secrets failed to import")
        else None.
Proof.
  revert s. induction sched as [|a sched IH]; intros s; simpl.
  - intros [= <-] Hr Hr'. congruence.
  - destruct (pstep env g pathPrefix a s) as [s1|] eqn:Hstep; [|done].
    intros Hrun Hr Hr'.
    destruct (returned s1) as [err1|] eqn:Hr1; [|by eapply IH].
    destruct (pstep_returned _ _ _ _ Hstep Hr1) as [?|Herr1]; [congruence|].
    assert (Hkeep : tally s' = tally s1 /\ returned s' = returned s1).
    { clear -Hrun Hr1. revert s1 Hrun Hr1.
      induction sched as [|b sched IH2]; intros s1; simpl.
      - by intros [= <-].
      - destruct (pstep env g pathPrefix b s1) as [s2|] eqn:Hstep2; [|done].
        intros Hrun Hr1.
        destruct (pstep_tally_returned _ _ _ Hstep2 ltac:(by eexists)) as [Ht Hr2].
        destruct (IH2 s2 Hrun ltac:(congruence)) as [Ht' Hr'].
        split; congruence. }
    destruct Hkeep as [Ht Hrr]. rewrite Ht. congruence.
Qed.

End PoolTally.


(** * The claims *)

(** ** Interactive mode on a fixed decision sequence *)
(** C2 (as amended). In interactive mode, for a stream of 4 secrets, when
    the prompts are answered Yes, No, Yes-to-all in that order and every
    attempted write succeeds, the run returns nil and the final summary is
    imported=3, skipped=1, failed=0: the third and the fourth secret are
    both written. *)
Theorem interactive_yes_no_yesToAll {W : Type} (env : Env W)
    (export : schema.ExportFile) (pathPrefix : string) (w : W)
    (err : option error) (w' : W) (tr : list Event) :
  length (schema.Secrets export) = 4%nat ->
  run env (runInteractiveImport export pathPrefix) w = (err, w', tr) ->
  decisions tr = [(ConfirmYes, None); (ConfirmNo, None); (ConfirmYesToAll, None)] ->
  Forall (fun x => x.2 = None) (writes tr) ->
  err = None
  /\ printedInts "  Imported: %d\n" tr = [3]
  /\ printedInts "  Skipped:  %d\n" tr = [1]
  /\ printedInts "  Failed:   %d\n" tr = [0].
Proof.
  intros Hlen Hrun Hdec Hwr. rewrite runInteractiveImport_run in Hrun.
  destruct (schema.Secrets export) as [|s1 [|s2 [|s3 [|s4 [|]]]]]; try done.
  clear Hlen.
  destruct (run env (interactiveLoop _ _ _ _ _) w) as [[r wl] trl] eqn:Hloop.
  assert (Htr : tr = startOutput ++ trl ++
                   match r with
                   | Continue st => summaryOutput (counters st)
                   | Return _ _ => []
                   end).
  { destruct r; rewrite ?app_nil_r; congruence. }
  assert (Hdecl : decisions tr = decisions trl).
  { rewrite Htr, !decisions_app. destruct r; cbn; by rewrite app_nil_r. }
  assert (Hwrl : writes tr = writes trl).
  { rewrite Htr, !writes_app. destruct r; cbn; by rewrite app_nil_r. }
  rewrite Hdecl in Hdec. rewrite Hwrl in Hwr. clear Hdecl Hwrl.
  (* first secret: Yes *)
  rewrite loop_cons in Hloop.
  destruct (run env (interactiveBody _ _ _ _ s1) w) as [[r1 w1] tr1] eqn:H1.
  apply body_iteration, iteration_deciding in H1
    as (d1 & tail1 & Hd1 & Hdec1 & _ & Hwr1 & Hpr1); [|done..].
  destruct r1 as [st1|st1 e1]; cycle 1.
  { injection Hloop as <- <- <-. rewrite Hdec1 in Hdec. done. }
  destruct (run env (interactiveLoop _ _ st1 _ _) w1) as [[r2' w2'] trl2] eqn:Hloop2.
  injection Hloop as <- <- <-.
  rewrite decisions_app, Hdec1 in Hdec. injection Hdec as -> Hdec.
  rewrite writes_app, Hwr1 in Hwr. apply Forall_app in Hwr as [Hw1 Hwr].
  inversion Hd1 as [| werr1 | | | |]; subst.
  cbn in Hw1. apply Forall_cons in Hw1 as [Hw1 _]. cbn in Hw1. subst werr1.
  (* second secret: No *)
  rewrite loop_cons in Hloop2.
  destruct (run env (interactiveBody _ _ _ _ s2) w1) as [[r2 w2] tr2] eqn:H2.
  apply body_iteration, iteration_deciding in H2
    as (d2 & tail2 & Hd2 & Hdec2 & _ & Hwr2 & Hpr2); [|done..].
  destruct r2 as [st2|st2 e2]; cycle 1.
  { injection Hloop2 as <- <- <-. rewrite Hdec2 in Hdec. done. }
  destruct (run env (interactiveLoop _ _ st2 _ _) w2) as [[r3' w3'] trl3] eqn:Hloop3.
  injection Hloop2 as <- <- <-.
  rewrite decisions_app, Hdec2 in Hdec. injection Hdec as -> Hdec.
  rewrite writes_app, Hwr2 in Hwr. apply Forall_app in Hwr as [Hw2 Hwr].
  inversion Hd2; subst. clear Hw2.
  (* third secret: Yes to all *)
  rewrite loop_cons in Hloop3.
  destruct (run env (interactiveBody _ _ _ _ s3) w2) as [[r3 w3] tr3] eqn:H3.
  apply body_iteration, iteration_deciding in H3
    as (d3 & tail3 & Hd3 & Hdec3 & _ & Hwr3 & Hpr3); [|done..].
  destruct r3 as [st3|st3 e3]; cycle 1.
  { injection Hloop3 as <- <- <-. rewrite Hdec3 in Hdec.
    injection Hdec as ->. inversion Hd3. }
  destruct (run env (interactiveLoop _ _ st3 _ _) w3) as [[r4' w4'] trl4] eqn:Hloop4.
  injection Hloop3 as <- <- <-.
  rewrite decisions_app, Hdec3 in Hdec. injection Hdec as -> Hdec.
  rewrite writes_app, Hwr3 in Hwr. apply Forall_app in Hwr as [Hw3 Hwr].
  inversion Hd3 as [| | | werr3 | |]; subst.
  cbn in Hw3. apply Forall_cons in Hw3 as [Hw3 _]. cbn in Hw3. subst werr3.
  (* fourth secret: written without a prompt *)
  rewrite loop_cons in Hloop4.
  destruct (run env (interactiveBody _ _ _ _ s4) w3) as [[r4 w4] tr4] eqn:H4.
  apply body_iteration, iteration_confirmAll in H4
    as (werr4 & -> & Hdec4 & _ & Hwr4 & Hpr4); [|done..].
  cbn [interactiveLoop run] in Hloop4. injection Hloop4 as <- <- <-.
  rewrite app_nil_r in *.
  rewrite Hwr4 in Hwr. apply Forall_cons in Hwr as [Hw4 _]. cbn in Hw4. subst werr4.
  (* the summary *)
  split; [congruence|].
  rewrite !printedInts_app, Hpr1, Hpr2, Hpr3, Hpr4.
  rewrite (Hpr1 "  Skipped:  %d\n"%string), (Hpr1 "  Failed:   %d\n"%string).
  rewrite (Hpr2 "  Skipped:  %d\n"%string), (Hpr2 "  Failed:   %d\n"%string).
  rewrite (Hpr3 "  Skipped:  %d\n"%string), (Hpr3 "  Failed:   %d\n"%string).
  rewrite (Hpr4 "  Skipped:  %d\n"%string), (Hpr4 "  Failed:   %d\n"%string).
  by vm_compute.
Qed.

(** Witness of [interactive_yes_no_yesToAll]: four secrets on the simulated
    server, answered Yes, No, Yes to all. *)
Lemma interactive_yes_no_yesToAll_witness :
  exists err w' tr,
    run Sim.env (runInteractiveImport Inputs.four "") Inputs.yesNoYesToAll
    = (err, w', tr)
    /\ err = None
    /\ printedInts "  Imported: %d\n" tr = [3]
    /\ printedInts "  Skipped:  %d\n" tr = [1]
    /\ printedInts "  Failed:   %d\n" tr = [0].
Proof.
  eexists _, _, _. split; [vm_compute; reflexivity|].
  eapply (interactive_yes_no_yesToAll Sim.env Inputs.four "" Inputs.yesNoYesToAll).
  - reflexivity.
  - vm_compute; reflexivity.
  - vm_compute; reflexivity.
  - vm_compute. repeat constructor.
Defined.

(** C2 as stated fails: on four secrets answered Yes, No, Yes to all, with
    every write succeeding, the summary is not imported=2. *)
Lemma interactive_yes_no_yesToAll_counterexample :
  let '(err, _, tr) :=
    run Sim.env (runInteractiveImport Inputs.four "") Inputs.yesNoYesToAll in
  length (schema.Secrets Inputs.four) = 4%nat
  /\ decisions tr = [(ConfirmYes, None); (ConfirmNo, None); (ConfirmYesToAll, None)]
  /\ Forall (fun x => x.2 = None) (writes tr)
  /\ ~ (printedInts "  Imported: %d\n" tr = [2]
        /\ printedInts "  Skipped:  %d\n" tr = [1]
        /\ printedInts "  Failed:   %d\n" tr = [0]).
Proof.
  vm_compute. repeat split; try by repeat constructor.
  intros [H _]. discriminate H.
Qed.

(** ** Path-prefix normalisation *)

(** C3 (as amended). [normalizePathPrefix] maps the empty prefix and "/" to
    the empty prefix, and for every prefix that does not start with "//",
    normalising twice is the same as normalising once. *)
Theorem normalizePathPrefix_idempotent (p : string) :
  HasPrefix p "//" = false ->
  normalizePathPrefix "" = ""
  /\ normalizePathPrefix "/" = ""
  /\ normalizePathPrefix (normalizePathPrefix p) = normalizePathPrefix p.
Proof.
  intros Hp. split; [reflexivity|]. split; [reflexivity|].
  by apply normalize_idempotent_iff.
Qed.

(** Witness of [normalizePathPrefix_idempotent]: the prefix "/aws/imported". *)
Lemma normalizePathPrefix_idempotent_witness :
  normalizePathPrefix "" = ""
  /\ normalizePathPrefix "/" = ""
  /\ normalizePathPrefix (normalizePathPrefix "/aws/imported")
     = normalizePathPrefix "/aws/imported".
Proof. exact (normalizePathPrefix_idempotent "/aws/imported" eq_refl). Defined.

(** C3 as stated fails: "//" normalises to "/", which normalises to "". *)
Lemma normalizePathPrefix_idempotent_counterexample :
  normalizePathPrefix "//" = "/"
  /\ normalizePathPrefix (normalizePathPrefix "//") = ""
  /\ normalizePathPrefix (normalizePathPrefix "//") <> normalizePathPrefix "//".
Proof. by vm_compute. Qed.

(** C4 (as amended). For every prefix other than "" and "/", the output of
    [normalizePathPrefix] ends with "/"; it has no leading "/" when the
    prefix does not start with "//", and it ends with exactly one "/" when
    the prefix does not end with "//". *)
Theorem normalizePathPrefix_shape (p : string) :
  p <> "" -> p <> "/" ->
  HasSuffix (normalizePathPrefix p) "/" = true
  /\ (HasPrefix p "//" = false -> HasPrefix (normalizePathPrefix p) "/" = false)
  /\ (HasSuffix p "//" = false -> HasSuffix (normalizePathPrefix p) "//" = false).
Proof.
  intros H1 H2. destruct (normalize_shape p H1 H2) as (Hs & Hp & Hss).
  split; [done|]. rewrite Hp, Hss. split; [done|]. by intros ->.
Qed.

(** Witness of [normalizePathPrefix_shape]: the prefix "/aws/imported"
    becomes "aws/imported/". *)
Lemma normalizePathPrefix_shape_witness :
  normalizePathPrefix "/aws/imported" = "aws/imported/"
  /\ HasSuffix (normalizePathPrefix "/aws/imported") "/" = true
  /\ HasPrefix (normalizePathPrefix "/aws/imported") "/" = false
  /\ HasSuffix (normalizePathPrefix "/aws/imported") "//" = false.
Proof.
  destruct (normalizePathPrefix_shape "/aws/imported") as (Hs & Hp & Hss);
    [discriminate..|].
  split; [reflexivity|]. split; [exact Hs|].
  split; [exact (Hp eq_refl)|exact (Hss eq_refl)].
Defined.

(** C4 as stated fails: "//" yields "/", which has a leading "/"; "a//"
    yields "a//", which ends with two. *)
Lemma normalizePathPrefix_shape_counterexample :
  "//" <> "" /\ "//" <> "/"
  /\ normalizePathPrefix "//" = "/"
  /\ HasPrefix (normalizePathPrefix "//") "/" = true
  /\ normalizePathPrefix "a//" = "a//"
  /\ HasSuffix (normalizePathPrefix "a//") "//" = true.
Proof. by vm_compute. Qed.

(** ** [importSecret] under skip-existing *)

(** C5. With skip-existing on and overwrite-all off, [importSecret] first
    asks whether the destination (prefix + path) exists. If that check
    returns an error, the result is a failure carrying the wrapped error and
    no write is made; if it returns true, the result is skipped-success and
    no write is made; if it returns false, the secret is written, and the
    result is a failure carrying the write's error or, when the write
    succeeds, an imported result. The first part is the program itself, call
    by call, whatever other workers do in between; the second is its run on
    its own, whose trace lists every call made. *)
Theorem importSecret_skip_existing {W : Type} (env : Env W) (g : Flags)
    (secret : source.Secret) (pathPrefix : string) (w : W) :
  importSkipExisting g = true -> importOverwriteAll g = false ->
  let dest := pathPrefix +:+ source.Path secret in
  importSecret g secret pathPrefix =
    SecretExists dest (fun found err =>
      match err with
      | Some e =>
          Ret {| Path := dest; Success := false; Skipped := false;
                 Error := Some (Errorf_w "failed to check existence" e) |}
      | None =>
          if found then
            Ret {| Path := dest; Success := true; Skipped := true; Error := None |}
          else
            WriteSecret dest (source.Data secret) (fun werr =>
              match werr with
              | Some e =>
                  Ret {| Path := dest; Success := false; Skipped := false;
                         Error := Some e |}
              | None =>
                  Ret {| Path := dest; Success := true; Skipped := false;
                         Error := None |}
              end)
      end)
  /\ let '(found, err, w1) := env_SecretExists env dest w in
     run env (importSecret g secret pathPrefix) w =
     match err with
     | Some e =>
         ({| Path := dest; Success := false; Skipped := false;
             Error := Some (Errorf_w "failed to check existence" e) |},
          w1, [EvSecretExists dest found err])
     | None =>
         if found then
           ({| Path := dest; Success := true; Skipped := true; Error := None |},
            w1, [EvSecretExists dest true None])
         else
           let '(werr, w2) := env_WriteSecret env dest (source.Data secret) w1 in
           (match werr with
            | Some e =>
                {| Path := dest; Success := false; Skipped := false;
                   Error := Some e |}
            | None =>
                {| Path := dest; Success := true; Skipped := false;
                   Error := None |}
            end,
            w2, [EvSecretExists dest false None;
                 EvWriteSecret dest (source.Data secret) werr])
     end.
Proof.
  intros Hskip Hover dest. unfold importSecret. rewrite Hskip, Hover.
  cbn [andb negb]. fold dest. split; [reflexivity|]. cbn.
  destruct (env_SecretExists env dest w) as [[found [e|]] w1]; cbn; [done|].
  destruct found; cbn; [done|].
  by destruct (env_WriteSecret env dest _ w1) as [[e|] w2].
Qed.

(** Witness of [importSecret_skip_existing]: the default flags and a secret
    that the server already holds. *)
Lemma importSecret_skip_existing_witness :
  run Sim.env (importSecret Sim.flags (Sim.secret "app/db") "") Inputs.server =
  ({| Path := "app/db"; Success := true; Skipped := true; Error := None |},
   Inputs.server, [EvSecretExists "app/db" true None]).
Proof.
  exact (proj2 (importSecret_skip_existing Sim.env Sim.flags (Sim.secret "app/db") ""
                  Inputs.server eq_refl eq_refl)).
Defined.

(** ** Flag validation in [runImport] *)
Section RunImport.
Context {W : Type} (env : Env W).

(** The flag variables as [runImport] leaves them. *)
Lemma runImport_flags (g : Flags) (w : W) :
  (run env (runImport g) w).1.1.1 =
  if importOverwriteAll g && importInteractive g then g
  else if importOverwriteAll g then setSkipExisting false g else g.
Proof.
  unfold runImport.
  destruct (importOverwriteAll g && importInteractive g); [done|].
  generalize (if importOverwriteAll g then setSkipExisting false g else g).
  intros g'. cbn -[runDryRun runInteractiveImport].
  destruct (env_ValidateFile env _ w) as [[export|e] w1];
    cbn -[runDryRun runInteractiveImport]; [|done].
  destruct (env_ParseHeaders env _ w1) as [[headers|e] w2];
    cbn -[runDryRun runInteractiveImport]; [|done].
  destruct (importDryRun g').
  { rewrite run_bind.
    by destruct (run env (runDryRun _ _) w2) as [[e w3] tr3]. }
  cbn -[runInteractiveImport].
  destruct (env_NewClient env _ w2) as [[e|] w3];
    cbn -[runInteractiveImport]; [done|].
  destruct (env_Health env w3) as [[e|] w4];
    cbn -[runInteractiveImport]; [done|].
  destruct (importInteractive g'); cbn -[runInteractiveImport].
  - rewrite run_bind.
    by destruct (run env (runInteractiveImport _ _) w4) as [[e w5] tr5].
  - done.
Qed.

End RunImport.

(** C9. When overwrite-all is selected together with interactive,
    [runImport] returns a configuration error without any call: the export
    file is not read, no client is created, no Target call is made and the
    engine is not entered. When overwrite-all is selected alone, the
    skip-existing variable is false when [runImport] ends or hands over to
    the parallel engine, and the command behaves as if skip-existing had
    been off from the start. *)
Theorem runImport_overwrite_all (g : Flags) :
  importOverwriteAll g = true ->
  if importInteractive g then
    runImport g
    = Ret (g, Exit (Some (errors_New
              "--overwrite-all and --interactive cannot be used together")))
    /\ forall (W : Type) (env : Env W) (sched : list Action) (w : W),
         importCommand env g sched w
         = Some (Some (errors_New
                   "--overwrite-all and --interactive cannot be used together"),
                 w, [])
  else
    runImport g = runImport (setSkipExisting false g)
    /\ forall (W : Type) (env : Env W) (w : W),
         (run env (runImport g) w).1.1.1 = setSkipExisting false g
         /\ importSkipExisting (run env (runImport g) w).1.1.1 = false
         /\ forall sched,
              importCommand env g sched w
              = importCommand env (setSkipExisting false g) sched w.
Proof.
  intros Hover. destruct (importInteractive g) eqn:Hint.
  - assert (Hp : runImport g
                 = Ret (g, Exit (Some (errors_New
                     "--overwrite-all and --interactive cannot be used together")))).
    { unfold runImport. by rewrite Hover, Hint. }
    split; [done|]. intros W env sched w. unfold importCommand. by rewrite Hp.
  - assert (Hp : runImport g = runImport (setSkipExisting false g)).
    { unfold runImport. cbn [importOverwriteAll importInteractive setSkipExisting].
      by rewrite Hover, Hint. }
    split; [done|]. intros W env w.
    rewrite runImport_flags, Hover, Hint. cbn [andb].
    repeat split. intros sched. unfold importCommand. by rewrite Hp.
Qed.

(** Witness of [runImport_overwrite_all]: [--overwrite-all] alone. *)
Lemma runImport_overwrite_all_witness :
  runImport Inputs.overwriteFlags
  = runImport (setSkipExisting false Inputs.overwriteFlags)
  /\ forall (W : Type) (env : Env W) (w : W),
       (run env (runImport Inputs.overwriteFlags) w).1.1.1
       = setSkipExisting false Inputs.overwriteFlags
       /\ importSkipExisting (run env (runImport Inputs.overwriteFlags) w).1.1.1
          = false
       /\ forall sched,
            importCommand env Inputs.overwriteFlags sched w
            = importCommand env (setSkipExisting false Inputs.overwriteFlags)
                sched w.
Proof. exact (runImport_overwrite_all Inputs.overwriteFlags eq_refl). Defined.

(** ** The exit status of an interactive run *)

(** In interactive mode a run that reaches the end of the stream returns
    nil whatever the failed counter is: the counter is only printed. *)
Lemma runInteractiveImport_completed {W : Type} (env : Env W)
    (export : schema.ExportFile) (pathPrefix : string) (w : W) (st : Locals)
    (w' : W) (tr : list Event) :
  run env (interactiveLoop (GoInt.len (schema.Secrets export)) pathPrefix
             initLocals 0 (schema.Secrets export)) w = (Continue st, w', tr) ->
  run env (runInteractiveImport export pathPrefix) w
  = (None, w', startOutput ++ tr ++ summaryOutput (counters st)).
Proof. intros Hloop. by rewrite runInteractiveImport_run, Hloop. Qed.

(** C1, at a failing input. [import --interactive] on an export of one
    secret whose write fails, the prompt answered Yes: the failure is
    counted (the summary prints Failed: 1) and yet [runImport] returns nil,
    so the process exits with status 0. *)
Theorem interactive_failure_returns_nil :
  exists w' tr,
    importCommand Sim.env Inputs.interactiveFlags [] Inputs.failingWrite
    = Some (None, w', tr)
    /\ writes tr = [("a"%string, Some Sim.unreachable)]
    /\ printedInts "  Imported: %d\n" tr = [0]
    /\ printedInts "  Skipped:  %d\n" tr = [0]
    /\ printedInts "  Failed:   %d\n" tr = [1].
Proof. eexists _, _. split; [vm_compute; reflexivity|]. by vm_compute. Qed.

(** ** Abort *)

(** C8 (as amended). In interactive mode, when the decision for the k-th
    secret is Abort, processing stops at once and the run returns nil: no
    write is made for the k-th or any later secret and no existence check
    for any later secret (the existence of the k-th has been checked before
    its prompt); after the prompt only the totals are printed, which are
    those of the k-1 secrets already processed, and the k-th and later
    secrets are counted in no bucket. Here [pre] are the k-1 secrets before
    the k-th, [tr1] the trace of their iterations and [tr2] the trace of the
    k-th iteration. *)
Theorem interactive_abort {W : Type} (env : Env W) (export : schema.ExportFile)
    (pathPrefix : string) (pre : list source.Secret) (secret : source.Secret)
    (post : list source.Secret) (w : W) (st : Locals) (w1 : W)
    (tr1 : list Event) (r : Flow) (w2 : W) (tr2 : list Event) :
  schema.Secrets export = pre ++ secret :: post ->
  GoInt.len (schema.Secrets export) <= GoInt.MaxInt64 ->
  run env (interactiveLoop (GoInt.len (schema.Secrets export)) pathPrefix
             initLocals 0 pre) w = (Continue st, w1, tr1) ->
  run env (interactiveBody (GoInt.len (schema.Secrets export)) pathPrefix st
             (GoInt.len pre) secret) w1 = (r, w2, tr2) ->
  decisions tr2 = [(ConfirmAbort, None)] ->
  run env (runInteractiveImport export pathPrefix) w
  = (None, w2, startOutput ++ tr1 ++ tr2)
  /\ r = Return st None
  /\ writes tr2 = []
  /\ existsChecks tr2 = [destPath pathPrefix secret]
  /\ (exists before sel, tr2 = before ++ asked sel None :: abortOutput (counters st))
  /\ counted (counters st) (GoInt.len pre)
  /\ printedInts "  Imported: %d\n" (startOutput ++ tr1 ++ tr2)
     = [imported (counters st)]
  /\ printedInts "  Skipped:  %d\n" (startOutput ++ tr1 ++ tr2)
     = [skipped (counters st)]
  /\ printedInts "  Failed:   %d\n" (startOutput ++ tr1 ++ tr2) = [].
Proof.
  intros Hsec Hlen H1 H2 Hdec.
  pose proof (body_iteration _ _ _ _ _ _ _ _ _ _ H2) as Hit.
  destruct (iteration_prompted _ _ _ _ _ _ _ _ Hit Hdec)
    as (Hs & Hc & found & err & sel & perr & tail & Hpr & Hd & Htr).
  destruct (iteration_deciding _ _ _ _ _ _ _ Hit Hs Hc)
    as (d' & tail' & _ & _ & Hex & _).
  assert (Hperr : perr = None).
  { destruct perr; [discriminate Hpr|done]. }
  subst perr. inversion Hd; subst r tail.
  assert (Hlen' : GoInt.len pre < GoInt.len (schema.Secrets export)).
  { rewrite Hsec. unfold GoInt.len. rewrite length_app. cbn [length]. lia. }
  destruct (loop_counted env _ _ _ _ _ _ _ _ _ 0 H1 counted_zero ltac:(lia))
    as [_ Hcnt].
  rewrite Z.add_0_l in Hcnt.
  destruct (quiet_warningOutput err) as (_ & Hw2 & _ & Hw4).
  destruct (quiet_promptOutput (GoInt.add (GoInt.len pre) 1)
              (GoInt.len (schema.Secrets export)) secret
              (destPath pathPrefix secret) found) as (_ & Hp2 & _ & Hp4).
  assert (Hq1 : forall f, printedInts f tr1 = [])
    by (eapply loop_continue_quiet; eauto).
  assert (Hq2 : forall f,
             printedInts f tr2 = printedInts f (abortOutput (counters st))).
  { intros f. rewrite Htr.
    change (asked sel None :: ?t) with ([asked sel None] ++ t).
    change (EvSecretExists ?p ?b ?e :: ?l) with ([EvSecretExists p b e] ++ l).
    by rewrite !printedInts_app, Hw4, Hp4. }
  split. { eapply runInteractiveImport_stop; eauto. }
  split; [done|]. split.
  { rewrite Htr.
    change (asked sel None :: ?t) with ([asked sel None] ++ t).
    change (EvSecretExists ?p ?b ?e :: ?l) with ([EvSecretExists p b e] ++ l).
    by rewrite !writes_app, Hw2, Hp2. }
  split; [done|]. split.
  { rewrite Htr. eexists (_ :: _ ++ _), sel.
    by rewrite <- app_comm_cons, <- app_assoc. }
  split; [done|].
  rewrite !printedInts_app, !Hq1, !Hq2. done.
Qed.

(** Witness of [interactive_abort]: three secrets, the user answers Yes and
    then aborts at the second. *)
Lemma interactive_abort_witness :
  exists st w1 tr1 w2 tr2,
    run Sim.env (interactiveLoop 3 "" initLocals 0 [Sim.secret "a"]) Inputs.yesAbort
    = (Continue st, w1, tr1)
    /\ run Sim.env (runInteractiveImport Inputs.three "") Inputs.yesAbort
       = (None, w2, startOutput ++ tr1 ++ tr2)
    /\ writes tr2 = []
    /\ existsChecks tr2 = ["b"%string]
    /\ counted (counters st) 1
    /\ printedInts "  Imported: %d\n" (startOutput ++ tr1 ++ tr2) = [1]
    /\ printedInts "  Skipped:  %d\n" (startOutput ++ tr1 ++ tr2) = [0]
    /\ printedInts "  Failed:   %d\n" (startOutput ++ tr1 ++ tr2) = [].
Proof.
  destruct (run Sim.env (interactiveLoop 3 "" initLocals 0 [Sim.secret "a"])
              Inputs.yesAbort) as [[r1 w1] tr1] eqn:H1.
  destruct r1 as [st|st e]; [|by vm_compute in H1].
  destruct (run Sim.env (interactiveBody 3 "" st 1 (Sim.secret "b")) w1)
    as [[r w2] tr2] eqn:H2.
  exists st, w1, tr1, w2, tr2.
  assert (Hdec : decisions tr2 = [(ConfirmAbort, None)]).
  { vm_compute in H1. injection H1 as <- <- <-.
    vm_compute in H2. by injection H2 as <- <- <-. }
  assert (Hst : imported (counters st) = 1 /\ skipped (counters st) = 0).
  { vm_compute in H1. by injection H1 as <- <- <-. }
  destruct (interactive_abort Sim.env Inputs.three "" [Sim.secret "a"]
              (Sim.secret "b") [Sim.secret "c"] Inputs.yesAbort st w1 tr1 r w2 tr2
              eq_refl ltac:(by vm_compute) H1 H2 Hdec)
    as (Hrun & _ & Hw & He & _ & Hc & Hi & Hsk & Hf).
  destruct Hst as [Hst1 Hst2]. rewrite Hst1 in Hi. rewrite Hst2 in Hsk.
  done.
Defined.

(** C8 as stated fails: with one secret and the decision Abort, the
    existence of that secret has been checked. *)
Lemma interactive_abort_counterexample :
  let '(err, _, tr) :=
    run Sim.env (runInteractiveImport Inputs.one "") Inputs.abort in
  err = None
  /\ decisions tr = [(ConfirmAbort, None)]
  /\ existsChecks tr = ["a"%string]
  /\ existsChecks tr <> [].
Proof. by vm_compute. Qed.

(** ** A prompt that fails *)

(** C10. In interactive mode, when the prompt for a secret itself fails
    with error [e], [runInteractiveImport] returns at once with the non-nil
    error "prompt failed: e": the trace ends with the failed prompt, so the
    current secret is not written and no later secret is touched, nothing
    that was written before is undone, the counters are those of the
    secrets processed before and no summary line is printed. A prompt that
    returns Abort without error makes the run return nil instead. Here
    [perr] is the error of the prompt of the current secret, [None] when the
    user chose Abort. *)
Theorem interactive_prompt_failure {W : Type} (env : Env W)
    (export : schema.ExportFile) (pathPrefix : string)
    (pre : list source.Secret) (secret : source.Secret)
    (post : list source.Secret) (w : W) (st : Locals) (w1 : W)
    (tr1 : list Event) (r : Flow) (w2 : W) (tr2 : list Event)
    (perr : option error) :
  schema.Secrets export = pre ++ secret :: post ->
  GoInt.len (schema.Secrets export) <= GoInt.MaxInt64 ->
  run env (interactiveLoop (GoInt.len (schema.Secrets export)) pathPrefix
             initLocals 0 pre) w = (Continue st, w1, tr1) ->
  run env (interactiveBody (GoInt.len (schema.Secrets export)) pathPrefix st
             (GoInt.len pre) secret) w1 = (r, w2, tr2) ->
  decisions tr2 = [(ConfirmAbort, perr)] ->
  run env (runInteractiveImport export pathPrefix) w
  = (Errorf_w "prompt failed" <$> perr, w2, startOutput ++ tr1 ++ tr2)
  /\ r = Return st (Errorf_w "prompt failed" <$> perr)
  /\ counted (counters st) (GoInt.len pre)
  /\ writes tr2 = []
  /\ match perr with
     | Some e =>
         (exists before sel, tr2 = before ++ [asked sel (Some e)])
         /\ forall f, printedInts f (startOutput ++ tr1 ++ tr2) = []
     | None =>
         printedInts "  Imported: %d\n" (startOutput ++ tr1 ++ tr2)
         = [imported (counters st)]
     end.
Proof.
  intros Hsec Hlen H1 H2 Hdec.
  pose proof (body_iteration _ _ _ _ _ _ _ _ _ _ H2) as Hit.
  destruct (iteration_prompted _ _ _ _ _ _ _ _ Hit Hdec)
    as (Hs & Hc & found & err & sel & perr' & tail & Hpr & Hd & Htr).
  assert (perr' = perr) as ->.
  { destruct perr'; cbn in Hpr; congruence. }
  assert (Hlen' : GoInt.len pre < GoInt.len (schema.Secrets export)).
  { rewrite Hsec. unfold GoInt.len. rewrite length_app. cbn [length]. lia. }
  destruct (loop_counted env _ _ _ _ _ _ _ _ _ 0 H1 counted_zero ltac:(lia))
    as [_ Hcnt].
  rewrite Z.add_0_l in Hcnt.
  destruct (quiet_warningOutput err) as (_ & Hw2 & _ & Hw4).
  destruct (quiet_promptOutput (GoInt.add (GoInt.len pre) 1)
              (GoInt.len (schema.Secrets export)) secret
              (destPath pathPrefix secret) found) as (_ & Hp2 & _ & Hp4).
  assert (Hq1 : forall f, printedInts f tr1 = [])
    by (eapply loop_continue_quiet; eauto).
  assert (Hr : r = Return st (Errorf_w "prompt failed" <$> perr)
               /\ tail = match perr with
                         | Some _ => []
                         | None => abortOutput (counters st)
                         end).
  { inversion Hd; subst; done. }
  destruct Hr as [-> ->].
  assert (Hq2 : forall f,
             printedInts f tr2
             = printedInts f match perr with
                             | Some _ => []
                             | None => abortOutput (counters st)
                             end).
  { intros f. rewrite Htr.
    change (asked sel perr :: ?t) with ([asked sel perr] ++ t).
    change (EvSecretExists ?p ?b ?e :: ?l) with ([EvSecretExists p b e] ++ l).
    by rewrite !printedInts_app, Hw4, Hp4. }
  split. { eapply runInteractiveImport_stop; eauto. }
  split; [done|]. split; [done|]. split.
  { rewrite Htr.
    change (asked sel perr :: ?t) with ([asked sel perr] ++ t).
    change (EvSecretExists ?p ?b ?e :: ?l) with ([EvSecretExists p b e] ++ l).
    rewrite !writes_app, Hw2, Hp2. by destruct perr. }
  destruct perr as [e|].
  - split.
    + rewrite Htr. eexists (_ :: _ ++ _), sel.
      by rewrite <- app_comm_cons, <- app_assoc.
    + intros f. by rewrite !printedInts_app, Hq1, Hq2.
  - by rewrite !printedInts_app, Hq1, Hq2.
Qed.

(** Witness of [interactive_prompt_failure]: three secrets, the user answers
    Yes and the second prompt fails with EOF. *)
Lemma interactive_prompt_failure_witness :
  exists st w1 tr1 w2 tr2,
    run Sim.env (interactiveLoop 3 "" initLocals 0 [Sim.secret "a"]) Inputs.yesThenEOF
    = (Continue st, w1, tr1)
    /\ run Sim.env (runInteractiveImport Inputs.three "") Inputs.yesThenEOF
       = (Some (Errorf_w "prompt failed" (errors_New "EOF")), w2,
          startOutput ++ tr1 ++ tr2)
    /\ counted (counters st) 1
    /\ writes tr1 = [("a"%string, None)]
    /\ writes tr2 = []
    /\ forall f, printedInts f (startOutput ++ tr1 ++ tr2) = [].
Proof.
  destruct (run Sim.env (interactiveLoop 3 "" initLocals 0 [Sim.secret "a"])
              Inputs.yesThenEOF) as [[r1 w1] tr1] eqn:H1.
  destruct r1 as [st|st e]; [|by vm_compute in H1].
  destruct (run Sim.env (interactiveBody 3 "" st 1 (Sim.secret "b")) w1)
    as [[r w2] tr2] eqn:H2.
  exists st, w1, tr1, w2, tr2.
  assert (Hdec : decisions tr2 = [(ConfirmAbort, Some (errors_New "EOF"))]).
  { vm_compute in H1. injection H1 as <- <- <-.
    vm_compute in H2. by injection H2 as <- <- <-. }
  assert (Hw1 : writes tr1 = [("a"%string, None)]).
  { vm_compute in H1. by injection H1 as <- <- <-. }
  destruct (interactive_prompt_failure Sim.env Inputs.three ""
              [Sim.secret "a"] (Sim.secret "b") [Sim.secret "c"]
              Inputs.yesThenEOF st w1 tr1 r w2 tr2 _
              eq_refl ltac:(by vm_compute) H1 H2 Hdec)
    as (Hrun & _ & Hc & Hw & _ & Hq).
  done.
Defined.

(** ** The sticky decisions *)

(** C7. In interactive mode [confirmAll] and [skipAll] start false. Take
    any point of a run: the first secrets [pre] have been processed, the
    locals are [st] and the secrets [post] follow. Then [confirmAll] and
    [skipAll] are not both true in [st]; one that is true in [st] is still
    true when the run ends; if [skipAll] is true, every secret of [post] is
    counted as skipped with no call at all (no prompt, no existence check,
    no write); if [confirmAll] is true, every secret of [post] is written,
    in order, with no prompt and no existence check. [tr2] is the trace of
    the iterations on [post]. *)
Theorem interactive_sticky_flags {W : Type} (env : Env W) (total : Z)
    (pathPrefix : string) (pre post : list source.Secret) (w : W)
    (st : Locals) (w1 : W) (tr1 : list Event) (r : Flow) (w2 : W)
    (tr : list Event) :
  run env (interactiveLoop total pathPrefix initLocals 0 pre) w
  = (Continue st, w1, tr1) ->
  run env (interactiveLoop total pathPrefix initLocals 0 (pre ++ post)) w
  = (r, w2, tr) ->
  (confirmAll initLocals = false /\ skipAll initLocals = false)
  /\ confirmAll st && skipAll st = false
  /\ (confirmAll st = true -> confirmAll (flowLocals r) = true)
  /\ (skipAll st = true -> skipAll (flowLocals r) = true)
  /\ exists tr2,
       tr = tr1 ++ tr2
       /\ (skipAll st = true ->
           r = Continue (withCounters (Nat.iter (length post) incSkipped) st)
           /\ w2 = w1 /\ tr2 = [])
       /\ (confirmAll st = true ->
           exists st',
             r = Continue st'
             /\ decisions tr2 = [] /\ existsChecks tr2 = []
             /\ (writes tr2).*1 = map (destPath pathPrefix) post
             /\ skipped (counters st') = skipped (counters st)).
Proof.
  intros H1 H2. rewrite loop_app, H1 in H2.
  destruct (run env (interactiveLoop _ _ st _ post) w1) as [[r' w'] tr2] eqn:H3.
  injection H2 as <- <- <-.
  destruct (loop_flags env _ _ _ _ _ _ _ _ _ H1) as (_ & _ & Hex).
  destruct (loop_flags env _ _ _ _ _ _ _ _ _ H3) as (Hc & Hs & _).
  specialize (Hex eq_refl). cbn in Hex.
  split; [done|]. split; [done|]. split; [done|]. split; [done|].
  exists tr2. split; [done|]. split.
  - intros Hskip. by apply (loop_skipAll env _ _ _ _ _ _ _ _ _ H3).
  - intros Hconf. apply (loop_confirmAll env _ _ _ _ _ _ _ _ _ H3); [|done].
    rewrite Hconf in Hex. by destruct (skipAll st).
Qed.

(** Witness of [interactive_sticky_flags]: four secrets, the user answers
    Yes, No, Yes to all; after the third secret [confirmAll] is set and the
    fourth is written without a prompt. *)
Lemma interactive_sticky_flags_witness :
  exists st w1 tr1 st' w2 tr2,
    run Sim.env (interactiveLoop 4 "" initLocals 0
                   [Sim.secret "a"; Sim.secret "b"; Sim.secret "c"])
      Inputs.yesNoYesToAll = (Continue st, w1, tr1)
    /\ run Sim.env (interactiveLoop 4 "" initLocals 0 (schema.Secrets Inputs.four))
         Inputs.yesNoYesToAll = (Continue st', w2, tr1 ++ tr2)
    /\ confirmAll st = true /\ skipAll st = false
    /\ confirmAll st' = true
    /\ decisions tr2 = [] /\ existsChecks tr2 = []
    /\ (writes tr2).*1 = ["d"%string].
Proof.
  destruct (run Sim.env (interactiveLoop 4 "" initLocals 0
                           [Sim.secret "a"; Sim.secret "b"; Sim.secret "c"])
              Inputs.yesNoYesToAll) as [[r1 w1] tr1] eqn:H1.
  destruct r1 as [st|st e]; [|by vm_compute in H1].
  destruct (run Sim.env (interactiveLoop 4 "" initLocals 0
                           (schema.Secrets Inputs.four))
              Inputs.yesNoYesToAll) as [[r w2] tr] eqn:H2.
  assert (Hst : confirmAll st = true /\ skipAll st = false).
  { vm_compute in H1. by injection H1 as <- <- <-. }
  destruct Hst as [Hconf Hskip].
  destruct (interactive_sticky_flags Sim.env 4 ""
              [Sim.secret "a"; Sim.secret "b"; Sim.secret "c"] [Sim.secret "d"]
              Inputs.yesNoYesToAll st w1 tr1 r w2 tr H1 H2)
    as (_ & _ & Hc & _ & tr2 & -> & _ & Hall).
  destruct (Hall Hconf) as (st' & -> & Hd & He & Hw & _).
  exists st, w1, tr1, st', w2, tr2. specialize (Hc Hconf). done.
Defined.

(** ** The counters *)

(** The exit status of parallel mode: when [runParallelImport] has
    returned, the error is non-nil exactly when the failed counter is
    positive, which is exactly when a collected result was a failure. *)
Lemma runParallelImport_error_iff_failed {W : Type} (env : Env W) (g : Flags)
    (export : schema.ExportFile) (pathPrefix : string) (sched : list Action)
    (w : W) (s : Pool W) (err : option error) :
  GoInt.len (schema.Secrets export) <= GoInt.MaxInt64 ->
  runParallelImport env g export pathPrefix sched w = Some s ->
  returned s = Some err ->
  (err <> None <-> 0 < failed (tally s))
  /\ (0 < failed (tally s) <->
      exists result, result ∈ collected s /\ isFailure result = true).
Proof.
  intros Hlen Hrun Hret.
  pose proof (poolInv_schedule env g pathPrefix _ _ _ _
                (poolInv_init g export w) Hrun) as Hinv.
  destruct (pool_counted _ _ Hinv Hlen) as (_ & _ & Hfail).
  split; [|done].
  rewrite (runSchedule_returned env g pathPrefix _ _ _ _ Hrun eq_refl Hret).
  destruct (failed (tally s) >? 0) eqn:Hpos.
  - split; [intros _; lia|done].
  - split; [done|]. intros ?. rewrite Z.gtb_ltb in Hpos.
    apply Z.ltb_ge in Hpos. lia.
Qed.

(** C6 (as amended). In every run each processed secret increments exactly
    one of imported, skipped, failed, so the counters never decrease and
    their sum is the number of secrets processed so far. In parallel mode
    the run can always be completed, and at completion the sum is the
    stream length N provided there is at least one worker. In interactive
    mode the sum is N when the loop completes and less than N when the run
    is aborted or a prompt fails. [GoInt.len (schema.Secrets export) <=
    GoInt.MaxInt64] holds of every Go slice. *)
Theorem counters_account_for_processed {W : Type} (env : Env W) (g : Flags)
    (export : schema.ExportFile) (pathPrefix : string) :
  GoInt.len (schema.Secrets export) <= GoInt.MaxInt64 ->
  (* parallel mode *)
  (forall (sched : list Action) (w : W) (s : Pool W),
     runParallelImport env g export pathPrefix sched w = Some s ->
     counted (tally s) (GoInt.len (collected s))
     /\ GoInt.len (collected s) <= GoInt.len (schema.Secrets export)
     /\ (forall a s', pstep env g pathPrefix a s = Some s' ->
           if decide (a = ACollect) then
             countsOne (tally s) (tally s')
             /\ exists result, collected s' = collected s ++ [result]
                               /\ tally s' = tallyResult (tally s) result
           else tally s' = tally s /\ collected s' = collected s)
     /\ (1 <= importParallelism g -> is_Some (returned s) ->
         counted (tally s) (GoInt.len (schema.Secrets export)))
     /\ exists sched' s',
          runSchedule env g pathPrefix sched' s = Some s' /\ is_Some (returned s'))
  (* interactive mode *)
  /\ (forall (w : W) r w' tr,
        run env (interactiveLoop (GoInt.len (schema.Secrets export)) pathPrefix
                   initLocals 0 (schema.Secrets export)) w = (r, w', tr) ->
        match r with
        | Continue st => counted (counters st) (GoInt.len (schema.Secrets export))
        | Return st _ =>
            exists k, 0 <= k < GoInt.len (schema.Secrets export)
                      /\ counted (counters st) k
        end)
  /\ (forall pre secret post (w : W) st w1 tr1 r w2 tr2,
        schema.Secrets export = pre ++ secret :: post ->
        run env (interactiveLoop (GoInt.len (schema.Secrets export)) pathPrefix
                   initLocals 0 pre) w = (Continue st, w1, tr1) ->
        run env (interactiveBody (GoInt.len (schema.Secrets export)) pathPrefix
                   st (GoInt.len pre) secret) w1 = (r, w2, tr2) ->
        counted (counters st) (GoInt.len pre)
        /\ match r with
           | Continue st' => countsOne (counters st) (counters st')
           | Return st' _ => st' = st
           end).
Proof.
  intros Hlen. split; [|split].
  - intros sched w s Hrun.
    pose proof (poolInv_schedule env g pathPrefix _ _ _ _
                  (poolInv_init g export w) Hrun) as Hinv.
    destruct (pool_counted _ _ Hinv Hlen) as (Hc & Hle & _).
    split; [done|]. split; [unfold GoInt.len; lia|]. split.
    { intros a s'. by eapply pool_tally_step. }
    split; [|by eapply pool_completes].
    intros Hw Hret.
    assert (Hws : workers s <> []).
    { intros Hnil. apply (f_equal length) in Hnil.
      rewrite (runSchedule_workers env g pathPrefix _ _ _ Hrun) in Hnil.
      simpl in Hnil. rewrite length_replicate in Hnil. lia. }
    pose proof (pool_final _ _ Hinv Hret Hws) as Hfin.
    unfold GoInt.len in *. by rewrite Hfin in Hc.
  - intros w r w' tr Hrun.
    destruct (loop_counted env _ _ _ _ _ _ _ _ _ 0 Hrun counted_zero ltac:(lia))
      as [_ Hr].
    destruct r; by rewrite ?Z.add_0_l in Hr.
  - intros pre secret post w st w1 tr1 r w2 tr2 Hsec H1 H2.
    assert (Hlen' : GoInt.len pre < GoInt.len (schema.Secrets export)).
    { rewrite Hsec. unfold GoInt.len. rewrite length_app. simpl. lia. }
    destruct (loop_counted env _ _ _ _ _ _ _ _ _ 0 H1 counted_zero ltac:(lia))
      as [_ Hc].
    rewrite Z.add_0_l in Hc. split; [done|].
    eapply iteration_counts; [by eapply body_iteration|done|lia].
Qed.

(** Witness of [counters_account_for_processed]: the default five workers
    on two secrets, under a schedule that interleaves two workers. *)
Lemma counters_account_for_processed_witness :
  exists s,
    runParallelImport Sim.env Sim.flags Inputs.two "" Inputs.twoSchedule
      Inputs.server = Some s
    /\ is_Some (returned s)
    /\ counted (tally s) 2.
Proof.
  destruct (runParallelImport Sim.env Sim.flags Inputs.two "" Inputs.twoSchedule
              Inputs.server) as [s|] eqn:Hrun; [|by vm_compute in Hrun].
  exists s. split; [done|].
  assert (Hret : is_Some (returned s)).
  { vm_compute in Hrun. injection Hrun as <-. by eexists. }
  split; [done|].
  destruct (counters_account_for_processed Sim.env Sim.flags Inputs.two ""
              ltac:(by vm_compute)) as [Hpar _].
  destruct (Hpar _ _ _ Hrun) as (_ & _ & _ & Hfinal & _).
  apply Hfinal; [by vm_compute|done].
Defined.

(** C6 as stated fails in parallel mode when the worker count is zero: the
    run on one secret completes with all counters at zero. *)
Lemma counters_account_for_processed_counterexample :
  exists s,
    runParallelImport Sim.env Inputs.noWorkers Inputs.one ""
      Inputs.noWorkersSchedule (Sim.world []) = Some s
    /\ returned s = Some None
    /\ length (schema.Secrets Inputs.one) = 1%nat
    /\ processed (tally s) = 0
    /\ processed (tally s) <> GoInt.len (schema.Secrets Inputs.one).
Proof. eexists. split; [vm_compute; reflexivity|]. by vm_compute. Qed.

(** * Further properties: lemmas *)

Section TraceFacts2.

Lemma writeEvents_app (t1 t2 : list Event) :
  writeEvents (t1 ++ t2) = writeEvents t1 ++ writeEvents t2.
Proof. apply omap_app. Qed.

Lemma absentChecks_app (t1 t2 : list Event) :
  absentChecks (t1 ++ t2) = absentChecks t1 ++ absentChecks t2.
Proof. apply omap_app. Qed.

Lemma dryRunLines_app (t1 t2 : list Event) :
  dryRunLines (t1 ++ t2) = dryRunLines t1 ++ dryRunLines t2.
Proof. apply omap_app. Qed.

Lemma progressLines_app (t1 t2 : list Event) :
  progressLines (t1 ++ t2) = progressLines t1 ++ progressLines t2.
Proof. apply omap_app. Qed.

Lemma writes_writeEvents (tr : list Event) : (writes tr).*1 = (writeEvents tr).*1.
Proof.
  induction tr as [|ev tr IH]; [done|].
  destruct ev; try done. unfold writes, writeEvents in *. simpl. f_equal.
  exact IH.
Qed.

End TraceFacts2.

Section RunImportFacts.
Context {W : Type} (env : Env W).

(** The run of [runImport], call by call. *)
Lemma runImport_run (g : Flags) (w : W) :
  importOverwriteAll g && importInteractive g = false ->
  let g1 := flagsAfterValidation g in
  run env (runImport g) w =
  let '(file, w1) := env_ValidateFile env (importInput g) w in
  match file with
  | inr err =>
      (g1, Exit (Some (Errorf_w "failed to read/validate export file" err)), w1,
       [readingOutput g; EvValidateFile (importInput g) (inr err)])
  | inl export =>
      let '(hdrs, w2) := env_ParseHeaders env (importHeaders g) w1 in
      match hdrs with
      | inr err =>
          (g1, Exit (Some (Errorf_w "invalid header" err)), w2,
           parsedTrace g export (inr err))
      | inl headers =>
          let pathPrefix := normalizePathPrefix (importPathPrefix g) in
          if importDryRun g then
            let '(err, w3, tr) := run env (runDryRun export pathPrefix) w2 in
            (g1, Exit err, w3, parsedTrace g export (inl headers) ++ tr)
          else
            let '(cerr, w3) := env_NewClient env (clientConfig g headers) w2 in
            match cerr with
            | Some e =>
                (g1, Exit (Some (Errorf_w "failed to create OpenBao client" e)), w3,
                 parsedTrace g export (inl headers)
                 ++ [connectingOutput g;
                     EvNewClient (clientConfig g headers) (Some e)])
            | None =>
                let '(herr, w4) := env_Health env w3 in
                match herr with
                | Some e =>
                    (g1, Exit (Some (Errorf_w "failed to connect to OpenBao" e)), w4,
                     connectTrace g export headers (Some e))
                | None =>
                    if importInteractive g then
                      let '(err, w5, tr) :=
                        run env (runInteractiveImport export pathPrefix) w4 in
                      (g1, Exit err, w5,
                       connectTrace g export headers None ++ connectedOutput :: tr)
                    else
                      (g1, EnterParallel export pathPrefix, w4,
                       connectTrace g export headers None ++ [connectedOutput])
                end
            end
      end
  end.
Proof.
  intros Hflags g1. subst g1. unfold runImport, flagsAfterValidation.
  rewrite Hflags. clear Hflags.
  unfold parsedTrace, connectTrace, readingOutput, foundOutput, connectingOutput,
    connectedOutput, clientConfig.
  destruct (importOverwriteAll g);
    cbn -[runDryRun runInteractiveImport normalizePathPrefix];
    (destruct (env_ValidateFile env _ w) as [[export|e] w1];
       cbn -[runDryRun runInteractiveImport normalizePathPrefix]; [|done]);
    (destruct (env_ParseHeaders env _ w1) as [[headers|e] w2];
       cbn -[runDryRun runInteractiveImport normalizePathPrefix]; [|done]);
    (destruct (importDryRun g);
       [rewrite run_bind;
        destruct (run env (runDryRun _ _) w2) as [[e w3] tr3]; cbn;
        by rewrite app_nil_r|]);
    cbn -[runInteractiveImport normalizePathPrefix];
    (destruct (env_NewClient env _ w2) as [[e|] w3];
       cbn -[runInteractiveImport normalizePathPrefix]; [done|]);
    (destruct (env_Health env w3) as [[e|] w4];
       cbn -[runInteractiveImport normalizePathPrefix]; [done|]);
    (destruct (importInteractive g);
       cbn -[runInteractiveImport normalizePathPrefix]; [|done]);
    rewrite run_bind;
    destruct (run env (runInteractiveImport _ _) w4) as [[e w5] tr5]; cbn;
    by rewrite app_nil_r.
Qed.

End RunImportFacts.

Section DryRunFacts.
Context {W : Type} (env : Env W).

Lemma runDryRun_loop_run (pathPrefix : string) (secrets : list source.Secret)
    (w : W) :
  run env (runDryRun_loop pathPrefix secrets) w
  = (tt, w, dryRunOutput pathPrefix secrets).
Proof.
  induction secrets as [|secret rest IH]; [done|].
  cbn -[dryRunOutput]. rewrite IH. done.
Qed.

Lemma runDryRun_run (export : schema.ExportFile) (pathPrefix : string) (w : W) :
  run env (runDryRun export pathPrefix) w
  = (None, w,
     [EvFprintf Stdout "%s\n" [AStr "\nDry run - secrets that would be imported:"];
      EvFprintf Stdout "%s\n" [AStr ""]]
     ++ dryRunOutput pathPrefix (schema.Secrets export)
     ++ [EvFprintf Stdout "\nTotal: %d secrets\n"
           [AInt (GoInt.len (schema.Secrets export))]]).
Proof.
  unfold runDryRun. cbn -[dryRunOutput]. rewrite run_bind, runDryRun_loop_run.
  done.
Qed.

Lemma dryRunOutput_quiet (pathPrefix : string) (secrets : list source.Secret) :
  Forall (fun ev => isClientCall ev = false /\ isEngineCall ev = false)
    (dryRunOutput pathPrefix secrets)
  /\ dryRunLines (dryRunOutput pathPrefix secrets)
     = map (fun secret => (source.Path secret, destPath pathPrefix secret)) secrets
  /\ forall f, printedInts f (dryRunOutput pathPrefix secrets) = [].
Proof.
  induction secrets as [|secret rest (IH1 & IH2 & IH3)]; [done|].
  unfold dryRunOutput in *. rewrite bind_cons. split; [|split].
  - apply Forall_app. split; [|done]. by repeat constructor.
  - rewrite dryRunLines_app, IH2. done.
  - intros f. rewrite printedInts_app, IH3. done.
Qed.

End DryRunFacts.

Section ListFacts.
Context {A : Type}.

(** An element with property [P] of [l1 ++ l2], where no element of [l1]
    has it, lies in [l2]. *)
Lemma first_after (P : A -> bool) (l1 l2 pre post : list A) (x : A) :
  Forall (fun y => P y = false) l1 -> P x = true ->
  pre ++ x :: post = l1 ++ l2 -> l1 `prefix_of` pre.
Proof.
  revert pre. induction l1 as [|y l1 IH]; intros pre Hall Hx Heq.
  - apply prefix_nil.
  - apply Forall_cons in Hall as [Hy Hall].
    destruct pre as [|z pre]; simpl in Heq.
    + injection Heq as -> _. congruence.
    + injection Heq as -> Heq. apply prefix_cons. by apply IH.
Qed.

Lemma none_in (P : A -> bool) (l pre post : list A) (x : A) :
  Forall (fun y => P y = false) l -> P x = true -> pre ++ x :: post <> l.
Proof.
  intros Hall Hx <-. apply Forall_app in Hall as [_ Hall].
  apply Forall_cons in Hall as [Hy _]. congruence.
Qed.

End ListFacts.

Section PoolView.
Context {W : Type} (env : Env W) (g : Flags) (pathPrefix : string).
Implicit Types (s : Pool W) (ws : list Worker) (wk : Worker).

Lemma collectResult_prints total c result (w : W) :
  Forall (fun ev => isPrint ev = true) (run env (collectResult total c result) w).2.
Proof.
  unfold collectResult.
  destruct (Skipped result), (Success result); cbn; by repeat constructor.
Qed.

Lemma parallelEpilogue_prints c (w : W) :
  Forall (fun ev => isPrint ev = true) (run env (parallelEpilogue c) w).2.
Proof.
  unfold parallelEpilogue. destruct (failed c >? 0); cbn; by repeat constructor.
Qed.

(** What a step of the pool does to the secrets, the workers and the
    trace. *)
Lemma pstep_view a s s' :
  pstep env g pathPrefix a s = Some s' ->
  (exists secret rest,
      toSend s = secret :: rest /\ toSend s' = rest
      /\ work s' = work s ++ [secret]
      /\ workers s' = workers s /\ trace s' = trace s)
  \/ (exists i secret rest,
        workers s !! i = Some WRange /\ work s = secret :: rest
        /\ work s' = rest
        /\ workers s' = <[i := WImport (importSecret g secret pathPrefix)]> (workers s)
        /\ toSend s' = toSend s /\ trace s' = trace s)
  \/ (exists i p ev p' w',
        workers s !! i = Some (WImport p)
        /\ step env p (world s) = Some (ev, p', w')
        /\ workers s' = <[i := WImport p']> (workers s)
        /\ trace s' = trace s ++ [ev]
        /\ toSend s' = toSend s /\ work s' = work s)
  \/ (exists i wk wk',
        workers s !! i = Some wk
        /\ ((exists r, wk = WImport (Ret r)) /\ wk' = WRange
            \/ wk = WRange /\ wk' = WDone)
        /\ workers s' = <[i := wk']> (workers s)
        /\ trace s' = trace s /\ toSend s' = toSend s /\ work s' = work s)
  \/ (exists evs,
        Forall (fun ev => isPrint ev = true) evs
        /\ trace s' = trace s ++ evs
        /\ workers s' = workers s /\ toSend s' = toSend s /\ work s' = work s).
Proof.
  intros Hstep. destruct a; unfold pstep in Hstep.
  - left. destruct (toSend s) as [|secret rest] eqn:Hsend; [done|].
    destruct (length (work s) <? pool_cap s)%nat; [|done].
    injection Hstep as <-. by exists secret, rest.
  - do 4 right. exists []. rewrite app_nil_r.
    destruct (toSend s) eqn:Hsend; [|done]. destruct (workClosed s); [done|].
    injection Hstep as <-. by rewrite <- Hsend.
  - right; left. destruct (workers s !! i) as [[]|] eqn:Hi; try done.
    destruct (work s) as [|secret rest] eqn:Hwork; [done|].
    injection Hstep as <-. by exists i, secret, rest.
  - do 2 right; left. destruct (workers s !! i) as [[|p|]|] eqn:Hi; try done.
    destruct (step env p (world s)) as [[[ev p'] w']|] eqn:Hp; [|done].
    injection Hstep as <-. by exists i, p, ev, p', w'.
  - do 3 right; left. destruct (workers s !! i) as [[|p|]|] eqn:Hi; try done.
    destruct p as [r| | | | | | | | ]; try done.
    destruct (length (results s) <? pool_cap s)%nat; [|done].
    injection Hstep as <-. exists i, (WImport (Ret r)), WRange.
    split; [done|]. split; [left; split; [by eexists|done]|done].
  - do 3 right; left. destruct (workers s !! i) as [[]|] eqn:Hi; try done.
    destruct (work s) eqn:Hwork; [|done]. destruct (workClosed s); [|done].
    injection Hstep as <-. exists i, WRange, WDone.
    split; [done|]. split; [by right|]. by rewrite <- Hwork.
  - do 4 right. exists []. rewrite app_nil_r.
    destruct (forallb isDone (workers s) && negb (resultsClosed s)); [|done].
    by injection Hstep as <-.
  - do 4 right. destruct (returned s); [done|].
    destruct (results s) as [|result rest]; [done|].
    pose proof (collectResult_prints (Z.of_nat (pool_cap s)) (tally s) result
                  (world s)) as Hpr.
    destruct (run env (collectResult _ _ _) (world s)) as [[c' w'] evs].
    injection Hstep as <-. by exists evs.
  - do 4 right. destruct (returned s); [done|].
    destruct (results s); [|done]. destruct (resultsClosed s); [|done].
    pose proof (parallelEpilogue_prints (tally s) (world s)) as Hpr.
    destruct (run env (parallelEpilogue _) (world s)) as [[err w'] evs].
    injection Hstep as <-. by exists evs.
Qed.

Lemma prints_no_write (evs : list Event) :
  Forall (fun ev => isPrint ev = true) evs ->
  writeEvents evs = [] /\ writes evs = [] /\ absentChecks evs = []
  /\ existsChecks evs = [] /\ decisions evs = [].
Proof.
  induction 1 as [|ev evs Hev _ IH]; [done|]. by destruct ev.
Qed.

Lemma bind_insert_perm {A B : Type} (f : A -> list B) (l : list A) (i : nat)
    (x y : A) :
  l !! i = Some y -> f y ++ (<[i:=x]> l ≫= f) ≡ₚ f x ++ (l ≫= f).
Proof.
  revert i. induction l as [|z l IH]; intros [|i] Hi; try done.
  - injection Hi as ->. change (<[0%nat:=x]> (y :: l)) with (x :: l).
    rewrite !bind_cons. apply Permutation_app_swap_app.
  - change (<[S i:=x]> (z :: l)) with (z :: <[i:=x]> l).
    change ((z :: l) !! S i) with (l !! i) in Hi. rewrite !bind_cons.
    rewrite (Permutation_app_swap_app (f y)), (IH _ Hi).
    by rewrite (Permutation_app_swap_app (f x)).
Qed.

Lemma bind_insert_same {A B : Type} (f : A -> list B) (l : list A) (i : nat)
    (x y : A) :
  l !! i = Some y -> f x = f y -> <[i:=x]> l ≫= f = l ≫= f.
Proof.
  revert i. induction l as [|z l IH]; intros [|i] Hi Hf; try done.
  - injection Hi as ->. change (<[0%nat:=x]> (y :: l)) with (x :: l).
    by rewrite !bind_cons, Hf.
  - change (<[S i:=x]> (z :: l)) with (z :: <[i:=x]> l).
    change ((z :: l) !! S i) with (l !! i) in Hi. rewrite !bind_cons.
    by rewrite (IH _ Hi Hf).
Qed.

End PoolView.

Section PoolWrites.
Context {W : Type} (env : Env W) (g : Flags) (pathPrefix : string).
Implicit Types (s : Pool W) (ws : list Worker) (wk : Worker).

(** The workers other than worker [i]. *)
Lemma bind_lookup_perm {A B : Type} (f : A -> list B) (l : list A) (i : nat)
    (y : A) :
  l !! i = Some y ->
  exists R, l ≫= f ≡ₚ f y ++ R /\ forall x, <[i:=x]> l ≫= f ≡ₚ f x ++ R.
Proof.
  revert i. induction l as [|z l IH]; intros [|i] Hi; try done.
  - injection Hi as ->. exists (l ≫= f). split; [by rewrite bind_cons|].
    intros x. change (<[0%nat:=x]> (y :: l)) with (x :: l). by rewrite bind_cons.
  - change ((z :: l) !! S i) with (l !! i) in Hi.
    destruct (IH _ Hi) as (R & HR & Hins). exists (f z ++ R). split.
    + rewrite bind_cons, HR. apply Permutation_app_swap_app.
    + intros x. change (<[S i:=x]> (z :: l)) with (z :: <[i:=x]> l).
      rewrite bind_cons, Hins. apply Permutation_app_swap_app.
Qed.

Lemma bind_replicate_nil {A B : Type} (f : A -> list B) (x : A) (n : nat) :
  f x = [] -> replicate n x ≫= f = [].
Proof.
  intros Hf. induction n as [|n IH]; [done|].
  change (replicate (S n) x) with (x :: replicate n x).
  by rewrite bind_cons, Hf, IH.
Qed.

Lemma importSecret_writeShape (secret : source.Secret) :
  writeShape (importSecret g secret pathPrefix)
  /\ pendingWrite (importSecret g secret pathPrefix) = [destOf pathPrefix secret].
Proof.
  unfold importSecret.
  destruct (importSkipExisting g && negb (importOverwriteAll g)); cbn.
  - split; [|done]. intros found [e|]; [done|]. destruct found; [done|].
    cbn. split; [done|]. by intros [e|].
  - split; [|done]. by intros [e|].
Qed.

Lemma importSecret_overwriteShape (secret : source.Secret) :
  importSkipExisting g && negb (importOverwriteAll g) = false ->
  overwriteShape (importSecret g secret pathPrefix).
Proof. unfold importSecret. intros ->. cbn. by intros [e|]. Qed.

Lemma importSecret_skipShape (secret : source.Secret) :
  importSkipExisting g && negb (importOverwriteAll g) = true ->
  skipShape (importSecret g secret pathPrefix)
  /\ confirmedWrite (WImport (importSecret g secret pathPrefix)) = []
  /\ pendingCheck (WImport (importSecret g secret pathPrefix))
     = [destPath pathPrefix secret].
Proof.
  unfold importSecret. intros ->. cbn. split; [|done].
  intros found [e|]; [done|]. destruct found; [done|].
  cbn. split; [done|]. split; [done|]. by intros [e|].
Qed.

Lemma step_writeShape (p : Prog ImportResult) (w : W) ev p' w' :
  writeShape p -> step env p w = Some (ev, p', w') ->
  writeShape p' /\ writeEvents [ev] ++ pendingWrite p' ⊆+ pendingWrite p
  /\ decisions [ev] = [].
Proof.
  destruct p as [r|path k|path data k| | | | | | ]; try done; cbn; intros Hsh.
  - destruct (env_SecretExists env path w) as [[b e] w1]. intros [= <- <- <-].
    specialize (Hsh b e). destruct (k b e) as [r| |path' data' k'| | | | | | ];
      try done; cbn.
    + split; [done|]. split; [apply submseteq_nil_l|done].
    + destruct Hsh as [-> Hk']. done.
  - destruct (env_WriteSecret env path data w) as [e w1]. intros [= <- <- <-].
    specialize (Hsh e). destruct (k e); try done.
Qed.

Lemma step_overwriteShape (p : Prog ImportResult) (w : W) ev p' w' :
  overwriteShape p -> step env p w = Some (ev, p', w') ->
  overwriteShape p' /\ writeEvents [ev] ++ pendingWrite p' = pendingWrite p
  /\ existsChecks [ev] = [].
Proof.
  destruct p as [r|path k|path data k| | | | | | ]; try done; cbn; intros Hsh.
  destruct (env_WriteSecret env path data w) as [e w1]. intros [= <- <- <-].
  specialize (Hsh e). destruct (k e); try done.
Qed.

Lemma step_skipShape (p : Prog ImportResult) (w : W) ev p' w' :
  skipShape p -> step env p w = Some (ev, p', w') ->
  skipShape p'
  /\ (writes [ev]).*1 ++ confirmedWrite (WImport p')
     = absentChecks [ev] ++ confirmedWrite (WImport p)
  /\ existsChecks [ev] ++ pendingCheck (WImport p') = pendingCheck (WImport p).
Proof.
  destruct p as [r|path k|path data k| | | | | | ]; try done; cbn; intros Hsh.
  - destruct (env_SecretExists env path w) as [[b e] w1]. intros [= <- <- <-].
    specialize (Hsh b e). destruct (k b e) as [r| |path' data' k'| | | | | | ];
      try done; cbn.
    + split; [done|]. by destruct b, e.
    + destruct Hsh as ([= -> ->] & -> & Hk'). done.
  - destruct (env_WriteSecret env path data w) as [e w1]. intros [= <- <- <-].
    specialize (Hsh e). destruct (k e); try done.
Qed.


Lemma no_import_replicate n p : WImport p ∈ replicate n WRange -> False.
Proof. by intros [[=] _]%elem_of_replicate. Qed.

Lemma writeInv_init (export : schema.ExportFile) (w : W) :
  writeInv pathPrefix (schema.Secrets export) (parallelInit g export w).
Proof.
  constructor; simpl.
  - by intros p ?%no_import_replicate.
  - done.
  - by rewrite bind_replicate_nil.
Qed.

Lemma writeInv_step all a s s' :
  writeInv pathPrefix all s -> pstep env g pathPrefix a s = Some s' ->
  writeInv pathPrefix all s'.
Proof.
  intros [Hshape Hprompts Hwr] Hstep.
  destruct (pstep_view env g pathPrefix _ _ _ Hstep)
    as [(secret & rest & Hsend & E1 & E2 & E3 & E4)
       |[(i & secret & rest & Hi & Hwork & E1 & E2 & E3 & E4)
       |[(i & p & ev & p' & w' & Hi & Hp & E1 & E2 & E3 & E4)
       |[(i & wk & wk' & Hi & Hwk & E1 & E2 & E3 & E4)
       |(evs & Hpr & E1 & E2 & E3 & E4)]]]];
    constructor; rewrite ?E1, ?E2, ?E3, ?E4; clear E1 E2 E3 E4; try done.
  - rewrite Hsend in Hwr. etrans; [|exact Hwr].
    rewrite fmap_app, !fmap_cons, fmap_nil. solve_submseteq.
  - intros p [[= ->]|Hp]%elem_of_insert_inv; [|by apply Hshape].
    apply importSecret_writeShape.
  - rewrite Hwork in Hwr. etrans; [|exact Hwr].
    destruct (bind_lookup_perm workerWrite _ _ _ Hi) as (R & HR & Hins).
    rewrite Hins, HR, fmap_cons. simpl workerWrite.
    rewrite (proj2 (importSecret_writeShape secret)).
    solve_submseteq.
  - intros q [[= ->]|Hq]%elem_of_insert_inv; [|by apply Hshape].
    eapply step_writeShape; [|done]. apply Hshape. by eapply list_elem_of_lookup_2.
  - assert (Hsh : writeShape p).
    { apply Hshape. by eapply list_elem_of_lookup_2. }
    destruct (step_writeShape _ _ _ _ _ Hsh Hp) as (_ & _ & Hd).
    by rewrite decisions_app, Hprompts, Hd.
  - assert (Hsh : writeShape p).
    { apply Hshape. by eapply list_elem_of_lookup_2. }
    destruct (step_writeShape _ _ _ _ _ Hsh Hp) as (Hsh' & Hsub & _).
    etrans; [|exact Hwr].
    destruct (bind_lookup_perm workerWrite _ _ _ Hi) as (R & HR & Hins).
    rewrite Hins, HR, writeEvents_app. simpl workerWrite.
    set (X := (destOf pathPrefix <$> work s) ++ (destOf pathPrefix <$> toSend s)).
    transitivity ((writeEvents [ev] ++ pendingWrite p')
                  ++ (writeEvents (trace s) ++ R ++ X)); [solve_submseteq|].
    transitivity (pendingWrite p ++ (writeEvents (trace s) ++ R ++ X));
      [by apply submseteq_app|solve_submseteq].
  - intros q [Heq|Hq]%elem_of_insert_inv; [|by apply Hshape].
    by destruct Hwk as [[_ ->]|[_ ->]].
  - rewrite (bind_insert_same workerWrite _ _ _ _ Hi); [done|].
    by destruct Hwk as [[[r ->] ->]|[-> ->]].
  - destruct (prints_no_write _ Hpr) as (_ & _ & _ & _ & Hd).
    by rewrite decisions_app, Hprompts, Hd.
  - rewrite writeEvents_app.
    rewrite (proj1 (prints_no_write _ Hpr)), app_nil_r. done.
Qed.

Lemma writeInv_schedule all sched s s' :
  writeInv pathPrefix all s -> runSchedule env g pathPrefix sched s = Some s' ->
  writeInv pathPrefix all s'.
Proof.
  revert s. induction sched as [|a sched IH]; intros s Hinv; simpl.
  - by intros [= <-].
  - destruct (pstep env g pathPrefix a s) as [s1|] eqn:Hstep; [|done].
    apply IH. by eapply writeInv_step.
Qed.

Lemma overwriteInv_init (export : schema.ExportFile) (w : W) :
  overwriteInv pathPrefix (schema.Secrets export) (parallelInit g export w).
Proof.
  constructor; simpl.
  - by intros p ?%no_import_replicate.
  - done.
  - by rewrite bind_replicate_nil.
Qed.

Lemma overwriteInv_step all a s s' :
  importSkipExisting g && negb (importOverwriteAll g) = false ->
  overwriteInv pathPrefix all s -> pstep env g pathPrefix a s = Some s' ->
  overwriteInv pathPrefix all s'.
Proof.
  intros Hmode [Hshape Hchecks Hwr] Hstep.
  destruct (pstep_view env g pathPrefix _ _ _ Hstep)
    as [(secret & rest & Hsend & E1 & E2 & E3 & E4)
       |[(i & secret & rest & Hi & Hwork & E1 & E2 & E3 & E4)
       |[(i & p & ev & p' & w' & Hi & Hp & E1 & E2 & E3 & E4)
       |[(i & wk & wk' & Hi & Hwk & E1 & E2 & E3 & E4)
       |(evs & Hpr & E1 & E2 & E3 & E4)]]]];
    constructor; rewrite ?E1, ?E2, ?E3, ?E4; clear E1 E2 E3 E4; try done.
  - rewrite Hsend in Hwr. rewrite <- Hwr.
    rewrite fmap_app, !fmap_cons, fmap_nil. solve_Permutation.
  - intros p [[= ->]|Hp]%elem_of_insert_inv; [|by apply Hshape].
    by apply importSecret_overwriteShape.
  - rewrite Hwork in Hwr. rewrite <- Hwr.
    destruct (bind_lookup_perm workerWrite _ _ _ Hi) as (R & HR & Hins).
    rewrite Hins, HR, fmap_cons. simpl workerWrite.
    rewrite (proj2 (importSecret_writeShape secret)).
    solve_Permutation.
  - intros q [[= ->]|Hq]%elem_of_insert_inv; [|by apply Hshape].
    eapply step_overwriteShape; [|done].
    apply Hshape. by eapply list_elem_of_lookup_2.
  - assert (Hsh : overwriteShape p).
    { apply Hshape. by eapply list_elem_of_lookup_2. }
    destruct (step_overwriteShape _ _ _ _ _ Hsh Hp) as (_ & _ & Hc).
    by rewrite existsChecks_app, Hchecks, Hc.
  - assert (Hsh : overwriteShape p).
    { apply Hshape. by eapply list_elem_of_lookup_2. }
    destruct (step_overwriteShape _ _ _ _ _ Hsh Hp) as (Hsh' & Heq & _).
    rewrite <- Hwr.
    destruct (bind_lookup_perm workerWrite _ _ _ Hi) as (R & HR & Hins).
    rewrite Hins, HR, writeEvents_app. simpl workerWrite.
    rewrite <- Heq. solve_Permutation.
  - intros q [Heq|Hq]%elem_of_insert_inv; [|by apply Hshape].
    by destruct Hwk as [[_ ->]|[_ ->]].
  - rewrite (bind_insert_same workerWrite _ _ _ _ Hi); [done|].
    by destruct Hwk as [[[r ->] ->]|[-> ->]].
  - destruct (prints_no_write _ Hpr) as (_ & _ & _ & Hc & _).
    by rewrite existsChecks_app, Hchecks, Hc.
  - rewrite writeEvents_app.
    rewrite (proj1 (prints_no_write _ Hpr)), app_nil_r. done.
Qed.

Lemma overwriteInv_schedule all sched s s' :
  importSkipExisting g && negb (importOverwriteAll g) = false ->
  overwriteInv pathPrefix all s -> runSchedule env g pathPrefix sched s = Some s' ->
  overwriteInv pathPrefix all s'.
Proof.
  intros Hmode. revert s. induction sched as [|a sched IH]; intros s Hinv; simpl.
  - by intros [= <-].
  - destruct (pstep env g pathPrefix a s) as [s1|] eqn:Hstep; [|done].
    apply IH. by eapply overwriteInv_step.
Qed.

Lemma skipInv_init (export : schema.ExportFile) (w : W) :
  skipInv pathPrefix (schema.Secrets export) (parallelInit g export w).
Proof.
  constructor; simpl.
  - by intros p ?%no_import_replicate.
  - by rewrite bind_replicate_nil.
  - by rewrite bind_replicate_nil.
Qed.

Lemma skipInv_step all a s s' :
  importSkipExisting g && negb (importOverwriteAll g) = true ->
  skipInv pathPrefix all s -> pstep env g pathPrefix a s = Some s' ->
  skipInv pathPrefix all s'.
Proof.
  intros Hmode [Hshape Hchecks Hwr] Hstep.
  destruct (pstep_view env g pathPrefix _ _ _ Hstep)
    as [(secret & rest & Hsend & E1 & E2 & E3 & E4)
       |[(i & secret & rest & Hi & Hwork & E1 & E2 & E3 & E4)
       |[(i & p & ev & p' & w' & Hi & Hp & E1 & E2 & E3 & E4)
       |[(i & wk & wk' & Hi & Hwk & E1 & E2 & E3 & E4)
       |(evs & Hpr & E1 & E2 & E3 & E4)]]]];
    constructor; rewrite ?E1, ?E2, ?E3, ?E4; clear E1 E2 E3 E4; try done.
  - rewrite Hsend in Hchecks. rewrite <- Hchecks.
    rewrite fmap_app, !fmap_cons, fmap_nil. solve_Permutation.
  - intros p [[= ->]|Hp]%elem_of_insert_inv; [|by apply Hshape].
    by apply importSecret_skipShape.
  - rewrite Hwork in Hchecks. rewrite <- Hchecks.
    destruct (bind_lookup_perm pendingCheck _ _ _ Hi) as (R & HR & Hins).
    rewrite Hins, HR, fmap_cons.
    destruct (importSecret_skipShape secret Hmode) as (_ & _ & ->).
    simpl pendingCheck. solve_Permutation.
  - rewrite (bind_insert_same confirmedWrite _ _ _ _ Hi); [done|].
    by destruct (importSecret_skipShape secret Hmode) as (_ & -> & _).
  - intros q [[= ->]|Hq]%elem_of_insert_inv; [|by apply Hshape].
    eapply step_skipShape; [|done]. apply Hshape. by eapply list_elem_of_lookup_2.
  - assert (Hsh : skipShape p).
    { apply Hshape. by eapply list_elem_of_lookup_2. }
    destruct (step_skipShape _ _ _ _ _ Hsh Hp) as (_ & _ & Heq).
    rewrite <- Hchecks.
    destruct (bind_lookup_perm pendingCheck _ _ _ Hi) as (R & HR & Hins).
    rewrite Hins, HR, existsChecks_app, <- Heq. solve_Permutation.
  - assert (Hsh : skipShape p).
    { apply Hshape. by eapply list_elem_of_lookup_2. }
    destruct (step_skipShape _ _ _ _ _ Hsh Hp) as (_ & Heq & _).
    destruct (bind_lookup_perm confirmedWrite _ _ _ Hi) as (R & HR & Hins).
    rewrite writes_app, fmap_app, absentChecks_app, <- Hwr, Hins, HR.
    transitivity (((writes (trace s)).*1 ++ R)
                  ++ ((writes [ev]).*1 ++ confirmedWrite (WImport p'))).
    { solve_Permutation. }
    rewrite Heq. solve_Permutation.
  - intros q [Heq|Hq]%elem_of_insert_inv; [|by apply Hshape].
    by destruct Hwk as [[_ ->]|[_ ->]].
  - rewrite (bind_insert_same pendingCheck _ _ _ _ Hi); [done|].
    by destruct Hwk as [[[r ->] ->]|[-> ->]].
  - rewrite (bind_insert_same confirmedWrite _ _ _ _ Hi); [done|].
    by destruct Hwk as [[[r ->] ->]|[-> ->]].
  - destruct (prints_no_write _ Hpr) as (_ & _ & _ & Hc & _).
    by rewrite existsChecks_app, Hc, app_nil_r.
  - destruct (prints_no_write _ Hpr) as (_ & Hw & Ha & _).
    by rewrite writes_app, absentChecks_app, Hw, Ha, !app_nil_r.
Qed.

Lemma skipInv_schedule all sched s s' :
  importSkipExisting g && negb (importOverwriteAll g) = true ->
  skipInv pathPrefix all s -> runSchedule env g pathPrefix sched s = Some s' ->
  skipInv pathPrefix all s'.
Proof.
  intros Hmode. revert s. induction sched as [|a sched IH]; intros s Hinv; simpl.
  - by intros [= <-].
  - destruct (pstep env g pathPrefix a s) as [s1|] eqn:Hstep; [|done].
    apply IH. by eapply skipInv_step.
Qed.

(** When [runParallelImport] has returned, every worker is done; if there
    was a worker, nothing is left to send or to receive. *)
Lemma pool_drained n s :
  poolInv n s -> is_Some (returned s) ->
  Forall (fun wk => wk = WDone) (workers s)
  /\ (workers s <> [] -> work s = [] /\ toSend s = []).
Proof.
  intros Hinv Hret.
  destruct (inv_returned _ _ Hinv Hret) as [Hrc Hres].
  pose proof (inv_waited _ _ Hinv Hrc) as Hall. split; [done|]. intros Hws.
  assert (Hd : WDone ∈ workers s).
  { destruct (workers s) as [|wk ws]; [done|].
    apply Forall_cons in Hall as [-> _]. by left. }
  destruct (inv_done _ _ Hinv Hd) as [Hwc Hwork].
  by pose proof (inv_closed _ _ Hinv Hwc).
Qed.

Lemma bind_done_nil {B : Type} (f : Worker -> list B) ws :
  f WDone = [] -> Forall (fun wk => wk = WDone) ws -> ws ≫= f = [].
Proof.
  intros Hf. induction 1 as [|wk ws -> _ IH]; [done|].
  by rewrite bind_cons, Hf, IH.
Qed.

End PoolWrites.

Section InteractiveCalls.
Context {W : Type} (env : Env W).
Implicit Types (st : Locals) (w : W) (tr : list Event) (r : Flow).





End InteractiveCalls.

Section PoolSteps.
Context {W : Type} (env : Env W) (g : Flags) (pathPrefix : string).

Lemma stepsLeft_init (export : schema.ExportFile) (w : W) :
  stepsLeft (parallelInit g export w)
  = (6 * length (schema.Secrets export) + Z.to_nat (importParallelism g) + 3)%nat.
Proof.
  unfold stepsLeft. simpl.
  assert (H : forall k, sum_list_with workerSteps (replicate k WRange) = k).
  { induction k as [|k IH]; [done|]. simpl. by rewrite IH. }
  rewrite H. lia.
Qed.

End PoolSteps.

Section StringsMoreFacts.

Lemma SplitN_2 (s sep : string) :
  SplitN s sep 2 =
  match Index s sep with
  | None => [s]
  | Some m => [slice_to m s; slice_from (m + String.length sep) s]
  end.
Proof. simpl. by destruct (Index s sep). Qed.

Lemma HasPrefix_nil (s : string) : HasPrefix s "" = true.
Proof. by destruct s. Qed.

Lemma HasPrefix_byte (c d : ascii) (s : string) :
  HasPrefix (String c s) (String d "") = Ascii.eqb c d.
Proof.
  unfold HasPrefix. simpl. by destruct (Ascii.eqb c d).
Qed.

(** The first instance of a byte. *)
Lemma Index_byte_cons (c d : ascii) (s : string) :
  Index (String c s) (String d "") =
  if Ascii.eqb c d then Some 0%nat else S <$> Index s (String d "").
Proof.
  change (Index (String c s) (String d "")) with
    (if HasPrefix (String c s) (String d "") then Some 0%nat
     else S <$> Index s (String d "")).
  by rewrite HasPrefix_byte.
Qed.

Lemma Index_byte_nil (d : ascii) : Index "" (String d "") = None.
Proof. done. Qed.

Lemma Index_byte_app (d : ascii) (k v : string) :
  Index k (String d "") = None ->
  Index (k +:+ String d v) (String d "") = Some (String.length k).
Proof.
  induction k as [|c k IH]; intros Hk.
  - rewrite str_app_nil_l, Index_byte_cons. by rewrite Ascii.eqb_refl.
  - rewrite Index_byte_cons in Hk. rewrite str_app_cons, Index_byte_cons.
    destruct (Ascii.eqb c d); [done|].
    destruct (Index k (String d "")) eqn:E; [done|]. by rewrite IH.
Qed.

(** What a string is around the first instance of a byte. *)
Lemma Index_byte_split (d : ascii) (s : string) (i : nat) :
  Index s (String d "") = Some i ->
  s = slice_to i s +:+ String d (slice_from (i + 1) s)
  /\ Index (slice_to i s) (String d "") = None
  /\ String.length (slice_to i s) = i.
Proof.
  revert i. induction s as [|c s IH]; intros i; [done|].
  rewrite Index_byte_cons. destruct (Ascii.eqb c d) eqn:E.
  - intros [= <-]. apply Ascii.eqb_eq in E as ->. done.
  - destruct (Index s (String d "")) as [j|] eqn:Hj; [|done].
    intros [= <-]. destruct (IH j eq_refl) as (Hs & Hn & Hl).
    change (slice_to (S j) (String c s)) with (String c (slice_to j s)).
    change (slice_from (S j + 1) (String c s)) with (slice_from (j + 1) s).
    rewrite Index_byte_cons, E, Hn. split; [|split; [done|]].
    + rewrite str_app_cons. by f_equal.
    + simpl. by rewrite Hl.
Qed.

Lemma slice_from_0 (s : string) : slice_from 0 s = s.
Proof. by destruct s. Qed.

Lemma trimLeft_trimmed (fuel : nat) (s : string) :
  leadingSpace s = None -> trimLeft fuel s = s.
Proof. intros H. destruct fuel; [done|]. simpl. by rewrite H. Qed.

Lemma trimRight_trimmed (fuel : nat) (s : string) :
  trailingSpace s = None -> trimRight fuel s = s.
Proof. intros H. destruct fuel; [done|]. simpl. by rewrite H. Qed.

Lemma TrimSpace_trimmed (s : string) : trimmed s -> TrimSpace s = s.
Proof.
  intros [Hl Hr]. unfold TrimSpace. by rewrite trimLeft_trimmed, trimRight_trimmed.
Qed.

(** A blank before a trimmed string is removed. *)
Lemma TrimSpace_blank (s : string) : trimmed s -> TrimSpace (String " " s) = s.
Proof.
  intros [Hl Hr]. unfold TrimSpace.
  change (trimLeft (String.length (String " " s)) (String " " s))
    with (trimLeft (String.length s) s).
  by rewrite trimLeft_trimmed, trimRight_trimmed.
Qed.

End StringsMoreFacts.

Section ParseHeadersFacts.

Lemma ParseHeaders_loop_cons (h : string) (rest : list string)
    (headers : gmap string string) :
  target.ParseHeaders_loop (h :: rest) headers =
  match target.headerPair h with
  | None =>
      inr (errors_New
             ("invalid header format: " +:+ h +:+ " (expected 'Key: Value')"))
  | Some (key, value) =>
      if String.eqb key "" then
        inr (errors_New ("invalid header: empty key in " +:+ h))
      else target.ParseHeaders_loop rest (<[key := value]> headers)
  end.
Proof.
  unfold target.headerPair. cbn [target.ParseHeaders_loop].
  rewrite SplitN_2. by destruct (Index h ":").
Qed.

Lemma headerPair_Index (h : string) :
  target.headerPair h =
  match Index h ":" with
  | None => None
  | Some i => Some (TrimSpace (slice_to i h), TrimSpace (slice_from (i + 1) h))
  end.
Proof. unfold target.headerPair. rewrite SplitN_2. by destruct (Index h ":"). Qed.

Lemma ParseHeaders_loop_app (pre post : list string) (headers : gmap string string) :
  target.ParseHeaders_loop (pre ++ post) headers =
  match target.ParseHeaders_loop pre headers with
  | inl m => target.ParseHeaders_loop post m
  | inr err => inr err
  end.
Proof.
  revert headers. induction pre as [|h pre IH]; intros headers; [done|].
  rewrite <- app_comm_cons, !ParseHeaders_loop_cons.
  destruct (target.headerPair h) as [[key value]|]; [|done].
  destruct (String.eqb key ""); [done|]. apply IH.
Qed.

End ParseHeadersFacts.

Section ParseHeadersLoop.

(** A header that [ParseHeaders] accepts: it has a colon, and what is
    before the first colon is not blank. *)
Lemma ParseHeaders_loop_spec (hs : list string) (headers : gmap string string) :
  match target.ParseHeaders_loop hs headers with
  | inl _ =>
      Forall (fun h => exists i, Index h ":" = Some i
                                 /\ TrimSpace (slice_to i h) <> "") hs
  | inr err =>
      exists pre h post,
        hs = pre ++ h :: post
        /\ (exists m, target.ParseHeaders_loop pre headers = inl m)
        /\ match Index h ":" with
           | None =>
               err = errors_New ("invalid header format: " +:+ h
                                 +:+ " (expected 'Key: Value')")
           | Some i =>
               TrimSpace (slice_to i h) = ""
               /\ err = errors_New ("invalid header: empty key in " +:+ h)
           end
  end.
Proof.
  revert headers. induction hs as [|h rest IH]; intros headers;
    [by constructor|].
  rewrite ParseHeaders_loop_cons, headerPair_Index.
  destruct (Index h ":") as [i|] eqn:Hi; cycle 1.
  { exists [], h, rest. split; [done|]. split; [by eexists|]. by rewrite Hi. }
  destruct (String.eqb_spec (TrimSpace (slice_to i h)) "") as [Hk|Hk].
  { exists [], h, rest. split; [done|]. split; [by eexists|]. by rewrite Hi. }
  specialize (IH (<[TrimSpace (slice_to i h) := TrimSpace (slice_from (i + 1) h)]>
                    headers)).
  destruct (target.ParseHeaders_loop rest _) as [m|err] eqn:Hrest.
  - apply Forall_cons. split; [by exists i|done].
  - destruct IH as (pre & h' & post & -> & [m Hpre] & Herr).
    exists (h :: pre), h', post. split; [done|]. split; [|done].
    exists m. rewrite ParseHeaders_loop_cons, headerPair_Index, Hi.
    by destruct (String.eqb_spec (TrimSpace (slice_to i h)) "").
Qed.

(** The value that the headers give to [key]: that of the last header
    with this key. *)
Lemma ParseHeaders_loop_lookup (hs : list string) (headers m : gmap string string)
    (key : string) :
  target.ParseHeaders_loop hs headers = inl m ->
  m !! key =
  match last (omap (fun h => match target.headerPair h with
                             | Some (k, v) => if String.eqb k key then Some v else None
                             | None => None
                             end) hs) with
  | Some v => Some v
  | None => headers !! key
  end.
Proof.
  revert headers. induction hs as [|h rest IH]; intros headers.
  { by intros [= ->]. }
  rewrite ParseHeaders_loop_cons. simpl.
  destruct (target.headerPair h) as [[k v]|]; [|done].
  destruct (String.eqb k ""); [done|]. intros Hrest.
  rewrite (IH _ Hrest).
  destruct (String.eqb_spec k key) as [->|Hne].
  - rewrite last_cons.
    destruct (last _); [done|]. by rewrite lookup_insert_eq.
  - destruct (last _); [done|]. by rewrite lookup_insert_ne.
Qed.

Lemma slice_from_succ_app (k : string) (c : ascii) (t : string) :
  slice_from (String.length k + 1) (k +:+ String c t) = t.
Proof. induction k as [|d k IH]; [done|]. by rewrite str_app_cons. Qed.

(** A header "key: value" is read back as the key and the value. *)
Lemma headerPair_format (k v : string) :
  Index k ":" = None -> trimmed k -> trimmed v ->
  target.headerPair (k +:+ ": " +:+ v) = Some (k, v).
Proof.
  intros Hk Htk Htv. rewrite headerPair_Index.
  change (": " +:+ v) with (String ":" (String " " v)).
  rewrite (Index_byte_app ":" k _ Hk), slice_to_app, slice_from_succ_app.
  by rewrite (TrimSpace_trimmed k), (TrimSpace_blank v).
Qed.

Lemma ParseHeaders_loop_format (kvs : list (string * string))
    (headers : gmap string string) :
  Forall (fun kv => kv.1 <> "" /\ Index kv.1 ":" = None
                    /\ trimmed kv.1 /\ trimmed kv.2) kvs ->
  target.ParseHeaders_loop ((fun kv => kv.1 +:+ ": " +:+ kv.2) <$> kvs) headers
  = inl (foldl (fun m kv => <[kv.1 := kv.2]> m) headers kvs).
Proof.
  intros Hall. revert headers.
  induction Hall as [|[k v] kvs (Hne & Hk & Htk & Htv) _ IH]; intros headers;
    [done|].
  rewrite fmap_cons, ParseHeaders_loop_cons. simpl.
  rewrite (headerPair_format k v Hk Htk Htv).
  destruct (String.eqb_spec k "") as [->|_]; [done|]. apply IH.
Qed.

Lemma foldl_insert_list_to_map (kvs : list (string * string)) :
  foldl (fun (m : gmap string string) kv => <[kv.1 := kv.2]> m) ∅ kvs
  = list_to_map (reverse kvs).
Proof.
  induction kvs as [|[k v] kvs IH] using rev_ind; [done|].
  by rewrite foldl_app, reverse_app, IH.
Qed.

End ParseHeadersLoop.

Section CmdFacts.
Context {S W : Type} (sys : Sys S W).

Lemma crun_bind {A B : Type} (p : Cmd S A) (f : A -> Cmd S B) (w : W) :
  crun sys (cbind p f) w =
  let '(a, w1, tr1) := crun sys p w in
  let '(b, w2, tr2) := crun sys (f a) w1 in
  (b, w2, tr1 ++ tr2).
Proof.
  revert w. induction p as [a|src k IH|src opts k IH|src patterns k IH
    |src path k IH|src k IH|k IH|t layout k IH|e k IH|data k IH
    |name data perm k IH|name k IH|out format args k IH|k IH]; intros w; simpl.
  - by destruct (crun sys (f a) w) as [[b w2] tr2].
  - destruct (sys_Name sys src w) as [x w1]. rewrite IH.
    destruct (crun sys (k x) w1) as [[a w2] tr1].
    by destruct (crun sys (f a) w2) as [[b w3] tr2].
  - destruct (sys_Configure sys src opts w) as [x w1]. rewrite IH.
    destruct (crun sys (k x) w1) as [[a w2] tr1].
    by destruct (crun sys (f a) w2) as [[b w3] tr2].
  - destruct (sys_List sys src patterns w) as [x w1]. rewrite IH.
    destruct (crun sys (k x) w1) as [[a w2] tr1].
    by destruct (crun sys (f a) w2) as [[b w3] tr2].
  - destruct (sys_Get sys src path w) as [x w1]. rewrite IH.
    destruct (crun sys (k x) w1) as [[a w2] tr1].
    by destruct (crun sys (f a) w2) as [[b w3] tr2].
  - destruct (sys_Region sys src w) as [x w1]. rewrite IH.
    destruct (crun sys (k x) w1) as [[a w2] tr1].
    by destruct (crun sys (f a) w2) as [[b w3] tr2].
  - destruct (sys_Now sys w) as [x w1]. rewrite IH.
    destruct (crun sys (k x) w1) as [[a w2] tr1].
    by destruct (crun sys (f a) w2) as [[b w3] tr2].
  - destruct (sys_Format sys t layout w) as [x w1]. rewrite IH.
    destruct (crun sys (k x) w1) as [[a w2] tr1].
    by destruct (crun sys (f a) w2) as [[b w3] tr2].
  - destruct (sys_MarshalIndent sys e w) as [x w1]. rewrite IH.
    destruct (crun sys (k x) w1) as [[a w2] tr1].
    by destruct (crun sys (f a) w2) as [[b w3] tr2].
  - destruct (sys_Unmarshal sys data w) as [x w1]. rewrite IH.
    destruct (crun sys (k x) w1) as [[a w2] tr1].
    by destruct (crun sys (f a) w2) as [[b w3] tr2].
  - destruct (sys_WriteFile sys name data perm w) as [x w1]. rewrite IH.
    destruct (crun sys (k x) w1) as [[a w2] tr1].
    by destruct (crun sys (f a) w2) as [[b w3] tr2].
  - destruct (sys_ReadFile sys name w) as [x w1]. rewrite IH.
    destruct (crun sys (k x) w1) as [[a w2] tr1].
    by destruct (crun sys (f a) w2) as [[b w3] tr2].
  - rewrite IH. destruct (crun sys k w) as [[a w2] tr1].
    by destruct (crun sys (f a) w2) as [[b w3] tr2].
  - rewrite IH. destruct (crun sys k w) as [[a w2] tr1].
    by destruct (crun sys (f a) w2) as [[b w3] tr2].
Qed.

End CmdFacts.

Section SchemaFacts.

(** A secret that [Validate] accepts. *)
Lemma Validate_secrets_spec (i : Z) (secrets : list gosource.Secret) :
  match schemafile.Validate_secrets i secrets with
  | None =>
      Forall (fun secret => gosource.Path secret <> ""
                            /\ is_Some (gosource.Data secret)) secrets
  | Some err =>
      exists pre secret post,
        secrets = pre ++ secret :: post
        /\ Forall (fun secret => gosource.Path secret <> ""
                                 /\ is_Some (gosource.Data secret)) pre
        /\ (if String.eqb (gosource.Path secret) "" then
              err = errors_New ("secret at index " +:+ pretty (i + GoInt.len pre)
                                +:+ ": missing required field: path")
            else
              gosource.Data secret = None
              /\ err = errors_New ("secret at index " +:+ pretty (i + GoInt.len pre)
                                   +:+ " (" +:+ gosource.Path secret
                                   +:+ "): missing required field: data"))
  end.
Proof.
  revert i. induction secrets as [|secret rest IH]; intros i; [by constructor|].
  simpl. destruct (String.eqb_spec (gosource.Path secret) "") as [Hp|Hp].
  { exists [], secret, rest. split; [done|]. split; [done|].
    rewrite Hp. simpl. unfold GoInt.len. simpl. by rewrite Z.add_0_r. }
  destruct (gosource.Data secret) as [data|] eqn:Hd; cycle 1.
  { exists [], secret, rest. split; [done|]. split; [done|].
    destruct (String.eqb_spec (gosource.Path secret) ""); [done|].
    unfold GoInt.len. simpl. by rewrite Z.add_0_r. }
  specialize (IH (i + 1)).
  destruct (schemafile.Validate_secrets (i + 1) rest) as [err|].
  - destruct IH as (pre & s' & post & -> & Hpre & Herr).
    exists (secret :: pre), s', post. split; [done|]. split.
    + apply Forall_cons. split; [|done]. split; [done|]. rewrite Hd. by eexists.
    + replace (i + GoInt.len (secret :: pre)) with (i + 1 + GoInt.len pre); [done|].
      unfold GoInt.len. simpl. lia.
  - apply Forall_cons. split; [|done]. split; [done|]. rewrite Hd. by eexists.
Qed.

End SchemaFacts.

Section SchemaFacts2.

Lemma Validate_secrets_first (i : Z) (pre : list gosource.Secret)
    (secret : gosource.Secret) (post : list gosource.Secret) :
  Forall (fun secret => gosource.Path secret <> ""
                        /\ is_Some (gosource.Data secret)) pre ->
  schemafile.Validate_secrets i (pre ++ secret :: post)
  = schemafile.Validate_secrets (i + GoInt.len pre) (secret :: post).
Proof.
  intros Hpre. revert i. induction Hpre as [|s pre [Hp [d Hd]] _ IH]; intros i.
  { unfold GoInt.len. simpl. by rewrite Z.add_0_r. }
  replace (i + GoInt.len (s :: pre)) with (i + 1 + GoInt.len pre)
    by (unfold GoInt.len; simpl; lia).
  rewrite <- IH, <- app_comm_cons.
  change (schemafile.Validate_secrets i (s :: pre ++ secret :: post)) with
    (if String.eqb (gosource.Path s) "" then
       Some (errors_New ("secret at index " +:+ pretty i
                         +:+ ": missing required field: path"))
     else
       match gosource.Data s with
       | None =>
           Some (errors_New ("secret at index " +:+ pretty i +:+ " ("
                             +:+ gosource.Path s
                             +:+ "): missing required field: data"))
       | Some _ => schemafile.Validate_secrets (i + 1) (pre ++ secret :: post)
       end).
  destruct (String.eqb_spec (gosource.Path s) ""); [done|]. by rewrite Hd.
Qed.

Lemma foldl_AddSecret (e : goschema.ExportFile) (secrets : list gosource.Secret) :
  goschema.Secrets (foldl schemafile.AddSecret e secrets)
  = goschema.Secrets e ++ secrets
  /\ goschema.Version (foldl schemafile.AddSecret e secrets) = goschema.Version e
  /\ goschema.Source (goschema.Metadata (foldl schemafile.AddSecret e secrets))
     = goschema.Source (goschema.Metadata e)
  /\ goschema.ExportedAt (goschema.Metadata (foldl schemafile.AddSecret e secrets))
     = goschema.ExportedAt (goschema.Metadata e)
  /\ goschema.Region (goschema.Metadata (foldl schemafile.AddSecret e secrets))
     = goschema.Region (goschema.Metadata e)
  /\ goschema.IncludePatterns (goschema.Metadata (foldl schemafile.AddSecret e secrets))
     = goschema.IncludePatterns (goschema.Metadata e)
  /\ goschema.ExcludePatterns (goschema.Metadata (foldl schemafile.AddSecret e secrets))
     = goschema.ExcludePatterns (goschema.Metadata e)
  /\ goschema.TotalSecrets (goschema.Metadata (foldl schemafile.AddSecret e secrets))
     = match secrets with
       | [] => goschema.TotalSecrets (goschema.Metadata e)
       | _ => GoInt.len (goschema.Secrets e ++ secrets)
       end.
Proof.
  induction secrets as [|secret secrets IH] using rev_ind.
  { simpl. by rewrite app_nil_r. }
  rewrite foldl_app. simpl. destruct IH as (-> & -> & -> & -> & -> & -> & -> & _).
  rewrite app_assoc. repeat split. by destruct secrets.
Qed.

(** What [Validate] checks, in full. *)
Lemma Validate_spec (e : goschema.ExportFile) :
  schemafile.Validate e = None <->
  goschema.Version e = "1.0"
  /\ goschema.Source (goschema.Metadata e) <> ""
  /\ time.IsZero (goschema.ExportedAt (goschema.Metadata e)) = false
  /\ Forall (fun secret => gosource.Path secret <> ""
                           /\ is_Some (gosource.Data secret)) (goschema.Secrets e)
  /\ goschema.TotalSecrets (goschema.Metadata e) = GoInt.len (goschema.Secrets e).
Proof.
  unfold schemafile.Validate, schemafile.Version.
  pose proof (Validate_secrets_spec 0 (goschema.Secrets e)) as Hsec.
  destruct (String.eqb_spec (goschema.Version e) "") as [Hv|Hv].
  { split; [done|]. intros (Hv' & _). by rewrite Hv' in Hv. }
  destruct (String.eqb_spec (goschema.Version e) "1.0") as [Hv1|Hv1]; simpl;
    cycle 1.
  { split; [done|]. by intros [? _]. }
  destruct (String.eqb_spec (goschema.Source (goschema.Metadata e)) "") as [Hs|Hs].
  { split; [done|]. by intros (_ & ? & _). }
  destruct (time.IsZero (goschema.ExportedAt (goschema.Metadata e))) eqn:Hz.
  { split; [done|]. by intros (_ & _ & ? & _). }
  destruct (schemafile.Validate_secrets 0 (goschema.Secrets e)) as [err|].
  { split; [done|]. intros (_ & _ & _ & Hall & _).
    destruct Hsec as (pre & secret & post & Heq & _ & Hbad).
    rewrite Heq in Hall. apply Forall_app in Hall as [_ Hall].
    apply Forall_cons in Hall as [[Hp [d Hd]] _].
    destruct (String.eqb_spec (gosource.Path secret) ""); [done|].
    destruct Hbad as [Hbad _]. congruence. }
  destruct (Z.eqb_spec (goschema.TotalSecrets (goschema.Metadata e))
              (GoInt.len (goschema.Secrets e))) as [Ht|Ht]; simpl.
  - done.
  - split; [done|]. by intros (_ & _ & _ & _ & ?).
Qed.

End SchemaFacts2.

Section ListCommandFacts.

Lemma matchGlob_spec (pattern path : string) :
  matchGlob pattern path
  = (String.eqb pattern "**" || String.eqb pattern path, None).
Proof.
  unfold matchGlob, newSimpleFilter, simpleFilter_Matches, newPathFilterForMatch,
    gobFilter_Matches. simpl. unfold matchSimpleGlob.
  by destruct (String.eqb pattern "**"), (String.eqb pattern path).
Qed.

Lemma excludedBy_spec (listExcludes : list string) (path : string) :
  excludedBy listExcludes path = true <-> "**" ∈ listExcludes \/ path ∈ listExcludes.
Proof.
  induction listExcludes as [|pattern rest IH].
  { simpl. split; [done|]. by intros [?%elem_of_nil|?%elem_of_nil]. }
  cbn [excludedBy]. rewrite matchGlob_spec, !elem_of_cons. cbv beta iota.
  destruct (String.eqb_spec pattern "**") as [->|Hne1].
  { simpl. split; [|done]. intros _. by left; left. }
  destruct (String.eqb_spec pattern path) as [->|Hne2].
  { simpl. split; [|done]. intros _. by right; left. }
  simpl. rewrite IH. intuition congruence.
Qed.

Lemma excludeLoop_spec (listExcludes : list string)
    (infos filtered : list listing.SecretInfo) :
  excludeLoop listExcludes infos filtered
  = filtered ++ filter (fun info => ("**" ∉ listExcludes)
                                    /\ (listing.Path info ∉ listExcludes)) infos.
Proof.
  revert filtered. induction infos as [|info rest IH]; intros filtered.
  { simpl. by rewrite app_nil_r. }
  simpl. rewrite IH, filter_cons.
  destruct (excludedBy listExcludes (listing.Path info)) eqn:E.
  - apply excludedBy_spec in E. rewrite decide_False; [done|]. tauto.
  - rewrite decide_True.
    + by rewrite <- app_assoc.
    + split; intros Hin; apply not_true_iff_false in E; apply E, excludedBy_spec;
        tauto.
Qed.

Lemma applyExcludes_spec (listExcludes : list string)
    (infos : list listing.SecretInfo) :
  applyExcludes listExcludes infos
  = filter (fun info => ("**" ∉ listExcludes)
                        /\ (listing.Path info ∉ listExcludes)) infos.
Proof.
  unfold applyExcludes. destruct listExcludes as [|pattern rest].
  - simpl. symmetry. induction infos as [|info infos IH]; [done|].
    rewrite filter_cons, decide_True, IH; [done|].
    split; apply not_elem_of_nil.
  - replace (0 <? GoInt.len (pattern :: rest))%Z with true.
    + by rewrite excludeLoop_spec.
    + symmetry. apply Z.ltb_lt. unfold GoInt.len. simpl. lia.
Qed.

Lemma slice_to_length (n : nat) (s : string) :
  String.length (slice_to n s) = Nat.min n (String.length s).
Proof.
  revert s. induction n as [|n IH]; intros [|c s]; simpl; try done.
  by rewrite IH.
Qed.

End ListCommandFacts.

Section RegistryFacts.
Context {S : Type}.

Lemma registry_Has_lookup (r : registry.Registry S) (name : string) :
  registry.Has r name = true <-> is_Some (r !! name).
Proof.
  unfold registry.Has. destruct (r !! name); split; done.
Qed.

Lemma registry_List_elem (r : registry.Registry S) (name : string) :
  name ∈ registry.List r <-> is_Some (r !! name).
Proof.
  unfold registry.List. rewrite list_elem_of_fmap. split.
  - intros ([n factory] & -> & Hin).
    apply (elem_of_map_to_list (r : gmap string _)) in Hin. by eexists.
  - intros [factory Hin]. exists (name, factory). split; [done|].
    by apply (elem_of_map_to_list (r : gmap string _)).
Qed.

Lemma registry_List_Has (r : registry.Registry S) (name : string) :
  name ∈ registry.List r <-> registry.Has r name = true.
Proof.
  etrans; [apply registry_List_elem|]. symmetry. apply registry_Has_lookup.
Qed.

Lemma registry_List_NoDup (r : registry.Registry S) : NoDup (registry.List r).
Proof.
  unfold registry.List, registry.Registry in *. apply NoDup_fst_map_to_list.
Qed.

Lemma registry_Get_Register (r : registry.Registry S) (name : string)
    (factory : registry.SourceFactory S) (other : string) :
  registry.Get (registry.Register r name factory) other
  = if decide (other = name) then inl (factory tt) else registry.Get r other.
Proof.
  unfold registry.Get, registry.Register, registry.Registry,
    registry.SourceFactory in *.
  destruct (decide (other = name)) as [->|Hne].
  - by rewrite lookup_insert_eq.
  - by rewrite lookup_insert_ne.
Qed.

Lemma registry_Has_Register (r : registry.Registry S) (name : string)
    (factory : registry.SourceFactory S) (other : string) :
  registry.Has (registry.Register r name factory) other
  = bool_decide (other = name) || registry.Has r other.
Proof.
  unfold registry.Has, registry.Register, registry.Registry,
    registry.SourceFactory in *.
  destruct (decide (other = name)) as [->|Hne].
  - by rewrite lookup_insert_eq, bool_decide_true.
  - by rewrite lookup_insert_ne, bool_decide_false.
Qed.

End RegistryFacts.

Section FilterFacts.
Context {G : GlobLib}.

Lemma compileAll_inl (patterns : list string) (compiled globs : list Glob) :
  filter.compileAll patterns compiled = inl globs ->
  exists new, globs = compiled ++ new /\ Forall2 compilesTo patterns new.
Proof.
  revert compiled. induction patterns as [|p rest IH]; intros compiled; simpl.
  - intros [= <-]. exists []. split; [by rewrite app_nil_r|constructor].
  - destruct (glob_Compile p ["/"%char]) as [g|err] eqn:Hp; [|done].
    intros (new & -> & Hall)%IH. exists (g :: new). split.
    + by rewrite <- app_assoc.
    + by constructor.
Qed.

Lemma compileAll_inr (patterns : list string) (compiled : list Glob) (err : error) :
  filter.compileAll patterns compiled = inr err ->
  exists pre p post, patterns = pre ++ p :: post
    /\ Forall (fun q => exists g, compilesTo q g) pre
    /\ glob_Compile p ["/"%char] = inr err.
Proof.
  revert compiled. induction patterns as [|p rest IH]; intros compiled; simpl.
  - done.
  - destruct (glob_Compile p ["/"%char]) as [g|err'] eqn:Hp.
    + intros (pre & q & post & -> & Hpre & Hq)%IH.
      exists (p :: pre), q, post. split; [done|]. split; [|done].
      constructor; [by exists g|done].
    + intros [= ->]. exists [], p, rest. split; [done|]. split; [constructor|done].
Qed.

Lemma anyMatch_spec (globs : list Glob) (path : string) :
  filter.anyMatch globs path = true
  <-> exists g, g ∈ globs /\ glob_Match g path = true.
Proof.
  induction globs as [|g rest IH]; simpl.
  - split; [done|]. by intros (g & ?%elem_of_nil & _).
  - destruct (glob_Match g path) eqn:Hg.
    + split; [|done]. intros _. exists g. split; [by left|done].
    + rewrite IH. split.
      * intros (g' & Hin & Hm). exists g'. split; [by right|done].
      * intros (g' & [->|Hin]%elem_of_cons & Hm); [congruence|by exists g'].
Qed.

Lemma Forall2_compilesTo_elem (patterns : list string) (globs : list Glob)
    (g : Glob) :
  Forall2 compilesTo patterns globs ->
  g ∈ globs <-> exists p, p ∈ patterns /\ compilesTo p g /\ g ∈ globs.
Proof.
  intros Hall. split; [|by intros (_ & _ & _ & ?)].
  intros Hin. induction Hall as [|p g' ps gs Hp _ IH].
  - by apply elem_of_nil in Hin.
  - apply elem_of_cons in Hin as [->|Hin].
    + exists p. repeat split; [by left|done|by left].
    + destruct (IH Hin) as (q & Hq & Hc & _). exists q.
      repeat split; [by right|done|by right].
Qed.

Lemma Forall2_compilesTo_pattern (patterns : list string) (globs : list Glob)
    (p : string) (g : Glob) :
  Forall2 compilesTo patterns globs -> p ∈ patterns -> compilesTo p g -> g ∈ globs.
Proof.
  intros Hall Hin Hc. induction Hall as [|q g' ps gs Hq _ IH].
  - by apply elem_of_nil in Hin.
  - apply elem_of_cons in Hin as [->|Hin].
    + unfold compilesTo in *. replace g with g' by congruence. by left.
    + right. by apply IH.
Qed.

End FilterFacts.

Section CommandLoops.
Context {S W : Type} (sys : Sys S W).

Lemma append_length (s t : string) :
  String.length (s +:+ t) = (String.length s + String.length t)%nat.
Proof. induction s as [|c s IH]; simpl; [done|by rewrite IH]. Qed.

Lemma omap_fmap_None {A B C : Type} (f : B -> option C) (g : A -> B) (l : list A) :
  (forall x, f (g x) = None) -> omap f (g <$> l) = [].
Proof.
  intros Hf. induction l as [|x l IH]; [done|].
  rewrite fmap_cons.
  change (omap f (g x :: (g <$> l)))
    with (match f (g x) with
          | Some y => y :: omap f (g <$> l)
          | None => omap f (g <$> l)
          end).
  by rewrite Hf.
Qed.

Lemma omap_fmap_Some {A B C : Type} (f : B -> option C) (g : A -> B) (h : A -> C)
    (l : list A) :
  (forall x, f (g x) = Some (h x)) -> omap f (g <$> l) = h <$> l.
Proof.
  intros Hf. induction l as [|x l IH]; [done|].
  rewrite !fmap_cons.
  change (omap f (g x :: (g <$> l)))
    with (match f (g x) with
          | Some y => y :: omap f (g <$> l)
          | None => omap f (g <$> l)
          end).
  by rewrite Hf, IH.
Qed.

Lemma listRows_run (infos : list listing.SecretInfo) (w : W) :
  crun sys (listRows infos) w = (tt, w, rowEvent <$> infos).
Proof.
  induction infos as [|info rest IH]; [done|].
  simpl. by rewrite IH.
Qed.

Lemma exportDryRunLoop_run (paths : list string) (w : W) :
  crun sys (exportDryRunLoop paths) w = (tt, w, dryRunEvent <$> paths).
Proof.
  induction paths as [|path rest IH]; [done|].
  simpl. by rewrite IH.
Qed.

Lemma previewLoop_run (secrets : list gosource.Secret) (w : W) :
  crun sys (previewLoop secrets) w = (tt, w, previewEvent <$> secrets).
Proof.
  induction secrets as [|secret rest IH]; [done|].
  simpl. by rewrite IH.
Qed.

Lemma filterPaths_spec {G : GlobLib} (pathFilter : filter.PathFilter)
    (infos : list listing.SecretInfo) (filteredPaths : list string) :
  filterPaths pathFilter infos filteredPaths
  = filteredPaths
    ++ filter (fun path => filter.Matches pathFilter path = true)
         (listing.Path <$> infos).
Proof.
  revert filteredPaths. induction infos as [|info rest IH]; intros filteredPaths.
  { simpl. by rewrite app_nil_r. }
  cbn [filterPaths]. rewrite IH, fmap_cons, filter_cons.
  destruct (filter.Matches pathFilter (listing.Path info)) eqn:E.
  - rewrite decide_True by done. by rewrite <- app_assoc.
  - rewrite decide_False; [done|congruence].
Qed.

End CommandLoops.

Section ExportFacts.
Context {S W : Type} (sys : Sys S W) {G : GlobLib}.

Lemma setTotalSecrets_same (m : goschema.ExportMetadata) :
  schemafile.setTotalSecrets (goschema.TotalSecrets m) m = m.
Proof. by destruct m. Qed.

Lemma setTotalSecrets_twice (n k : Z) (m : goschema.ExportMetadata) :
  schemafile.setTotalSecrets n (schemafile.setTotalSecrets k m)
  = schemafile.setTotalSecrets n m.
Proof. done. Qed.

(** The loop of [runExport]: it asks the source for every path in order,
    and the secrets it gets are added to the file. *)
Lemma exportLoop_run (src : S) (total idx : Z) (paths : list string)
    (e : goschema.ExportFile) (n : Z) (w : W) :
  let '(e', n', w', tr) := crun sys (exportLoop src total idx paths e n) w in
  (gets tr).*1 = paths
  /\ goschema.Secrets e' = goschema.Secrets e ++ fetched tr
  /\ goschema.Version e' = goschema.Version e
  /\ goschema.Metadata e'
     = schemafile.setTotalSecrets
         (match fetched tr with
          | [] => goschema.TotalSecrets (goschema.Metadata e)
          | _ => GoInt.len (goschema.Secrets e ++ fetched tr)
          end) (goschema.Metadata e)
  /\ Forall (fun ev => isStderrPrint ev = true
                       \/ exists path r, ev = EvGet src path r) tr.
Proof.
  revert idx e n w. induction paths as [|path rest IH]; intros idx e n w.
  { simpl. rewrite app_nil_r, setTotalSecrets_same. by repeat split. }
  simpl. destruct (sys_Get sys src path w) as [[secret|err] w1].
  - specialize (IH (idx + 1) (schemafile.AddSecret e secret) n w1).
    destruct (crun sys (exportLoop src total (idx + 1) rest
                          (schemafile.AddSecret e secret) n) w1)
      as [[[e' n'] w'] tr].
    destruct IH as (Hgets & Hsec & Hver & Hmeta & Hall). simpl in *.
    split; [by f_equal|]. split; [by rewrite Hsec, <- app_assoc|].
    split; [done|]. split.
    + rewrite Hmeta, setTotalSecrets_twice.
      destruct (fetched tr); [done|by rewrite <- app_assoc].
    + apply Forall_cons. split; [by left|]. apply Forall_cons. split; [|done].
      right. by eexists _, _.
  - simpl.
    specialize (IH (idx + 1) e (GoInt.incr n) w1).
    destruct (crun sys (exportLoop src total (idx + 1) rest e (GoInt.incr n)) w1)
      as [[[e' n'] w'] tr].
    destruct IH as (Hgets & Hsec & Hver & Hmeta & Hall). simpl in *.
    split; [by f_equal|]. split; [done|]. split; [done|]. split; [done|].
    apply Forall_cons. split; [by left|]. apply Forall_cons. split.
    { right. by eexists _, _. }
    apply Forall_cons. split; [by left|done].
Qed.

(** [Write]: one call of [json.MarshalIndent] and, when it succeeds, one of
    [os.WriteFile] with the permissions 0600. *)
Lemma Write_run (e : goschema.ExportFile) (path : string) (w : W) :
  let '(err, w', tr) := crun sys (schemafile.Write e path) w in
  (exists cause, tr = [EvMarshalIndent e (inr cause)]
                 /\ err = Some (Errorf_w "failed to marshal export file" cause))
  \/ (exists data werr,
        tr = [EvMarshalIndent e (inl data); EvWriteFile path data 384 werr]
        /\ err = match werr with
                 | Some cause => Some (Errorf_w "failed to write export file" cause)
                 | None => None
                 end).
Proof.
  unfold schemafile.Write. simpl.
  destruct (sys_MarshalIndent sys e w) as [[data|cause] w1]; simpl.
  - destruct (sys_WriteFile sys path data 384 w1) as [[cause|] w2]; simpl;
      right; by eexists _, _.
  - left. by eexists.
Qed.

End ExportFacts.

Section ExportShape.
Context {S W : Type} (sys : Sys S W) {G : GlobLib}.

(** The runs of [runExport]: either it stops before the source has listed
    its secrets, or it lists them and then prints that there is none, or
    prints the paths of the dry run, or runs its loop and writes the
    file. *)
Lemma runExport_shape (reg : registry.Registry S) (f : ExportFlags) (w : W) :
  let '(r, w', tr) := crun sys (runExport reg f) w in
  Forall (fun ev => isFetchOrFile ev = false /\ listedOf ev = None) tr
  \/ exists src pf name now region name' infos w6,
       let hdr := [EvConfigure src (sourceOptions (exportRegion f)) None;
                   EvName src name; EvNow now; EvRegion src region;
                   EvName src name';
                   EvPrint (ToStream Stderr) "Listing secrets from %s...\n"
                     [AStr name'];
                   EvList src (listPatterns (exportIncludes f)) (inl infos)] in
       let paths := filter (fun p => filter.Matches pf p = true)
                      (listing.Path <$> infos) in
       registry.Get reg (exportSource f) = inl src
       /\ filter.NewPathFilter (exportIncludes f) (exportExcludes f) = inl pf
       /\ match paths with
          | [] =>
              r = None
              /\ tr = hdr ++ [EvPrint (ToStream Stdout) "%s\n"
                               [AStr "No secrets found matching the specified patterns."]]
          | _ :: _ =>
              if exportDryRun f then
                r = None
                /\ tr = hdr
                        ++ [EvPrint (ToStream Stderr) "Found %d secrets to export.\n"
                              [AInt (GoInt.len paths)];
                            EvPrint (ToStream Stdout) "%s\n"
                              [AStr "\nDry run - secrets that would be exported:"]]
                        ++ (dryRunEvent <$> paths)
              else
                exists mid tail,
                  let '(e, n, w7, trL) :=
                    crun sys (exportLoop src (GoInt.len paths) 0 paths
                                (initialExportFile f name now region) 0) w6 in
                  let '(err, w8, trW) :=
                    crun sys (schemafile.Write e (exportOutput f)) w7 in
                  tr = hdr
                       ++ [EvPrint (ToStream Stderr) "Found %d secrets to export.\n"
                             [AInt (GoInt.len paths)];
                           EvPrint (ToStream Stderr) "Exporting secrets...\n" []]
                       ++ trL ++ mid ++ trW ++ tail
                  /\ Forall (fun ev => isStderrPrint ev = true) (mid ++ tail)
                  /\ r = match err with
                         | Some cause =>
                             Some (Errorf_w "failed to write export file" cause)
                         | None => None
                         end
          end.
Proof.
  unfold runExport.
  destruct (registry.Get reg (exportSource f)) as [src|err] eqn:Hget.
  2: { simpl. left. constructor. }
  simpl.
  destruct (sys_Configure sys src (sourceOptions (exportRegion f)) w)
    as [[err|] w1]; simpl.
  { left. by repeat constructor. }
  destruct (filter.NewPathFilter (exportIncludes f) (exportExcludes f))
    as [pf|err] eqn:Hpf; simpl.
  2: { left. by repeat constructor. }
  destruct (sys_Name sys src w1) as [name w2]; simpl.
  destruct (sys_Now sys w2) as [now w3]; simpl.
  destruct (sys_Region sys src w3) as [region w4]; simpl.
  destruct (sys_Name sys src w4) as [name' w5]; simpl.
  destruct (sys_List sys src (listPatterns (exportIncludes f)) w5)
    as [[infos|err] w6]; simpl.
  2: { left. by repeat constructor. }
  set (e0 := match region with Some _ => _ | None => _ end).
  assert (He0 : e0 = initialExportFile f name now region) by done.
  clearbody e0. subst e0.
  rewrite filterPaths_spec. cbn [app].
  destruct (filter (fun p => filter.Matches pf p = true) (listing.Path <$> infos))
    as [|path rest] eqn:Hpaths.
  { simpl. right. exists src, pf, name, now, region, name', infos, w6. cbv zeta.
    rewrite Hpaths. by repeat split. }
  destruct (Z.eqb_spec (GoInt.len (path :: rest)) 0) as [Hlen|_].
  { unfold GoInt.len in Hlen. simpl in Hlen. lia. }
  destruct (exportDryRun f) eqn:Hdry.
  { cbn [crun]. rewrite crun_bind, exportDryRunLoop_run. cbn [crun].
    right. exists src, pf, name, now, region, name', infos, w6. cbv zeta.
    rewrite Hpaths. split; [done|]. split; [done|]. split; [done|].
    cbn [app]. by rewrite app_nil_r. }
  cbn [crun]. rewrite crun_bind.
  destruct (crun sys (exportLoop src (GoInt.len (path :: rest)) 0 (path :: rest)
                        (initialExportFile f name now region) 0) w6)
    as [[[e n] w7] trL] eqn:Hloop.
  cbn [crun]. rewrite crun_bind.
  set (warn := crun sys (if n >? 0 then _ else _) w7).
  assert (Hwarn : exists mid, warn = (tt, w7, mid)
                    /\ Forall (fun ev => isStderrPrint ev = true) mid).
  { subst warn. destruct (n >? 0); simpl; eexists; split; try done;
      by repeat constructor. }
  destruct Hwarn as (mid0 & -> & Hmid). cbn [crun].
  set (exported := EvPrint (ToStream Stderr)
         "\r  Exported %d secrets.                          \n"
         [AInt (GoInt.len (goschema.Secrets e))]).
  destruct (sys_MarshalIndent sys e w7) as [[data|cause] w8] eqn:Hm; cbn.
  - destruct (sys_WriteFile sys (exportOutput f) data 384 w8) as [[cause|] w9]
      eqn:Hw; cbn.
    + right. exists src, pf, name, now, region, name', infos, w6. cbv zeta.
      rewrite Hpaths, Hloop. split; [done|]. split; [done|].
      exists (exported :: mid0), [].
      unfold schemafile.Write. cbn. rewrite Hm. cbn. rewrite Hw. cbn.
      split; [by rewrite <- ?app_assoc|]. split; [|done].
      rewrite app_nil_r. by constructor.
    + right. exists src, pf, name, now, region, name', infos, w6. cbv zeta.
      rewrite Hpaths, Hloop. split; [done|]. split; [done|].
      exists (exported :: mid0). eexists.
      unfold schemafile.Write. cbn. rewrite Hm. cbn. rewrite Hw. cbn.
      split; [by rewrite <- ?app_assoc|]. split; [|done].
      constructor; [done|]. apply Forall_app. split; [done|by repeat constructor].
  - right. exists src, pf, name, now, region, name', infos, w6. cbv zeta.
    rewrite Hpaths, Hloop. split; [done|]. split; [done|].
    exists (exported :: mid0), [].
    unfold schemafile.Write. cbn. rewrite Hm. cbn.
    split; [by rewrite <- ?app_assoc|]. split; [|done].
    rewrite app_nil_r. by constructor.
Qed.

End ExportShape.

Section TraceParts.
Context {S : Type}.

Lemma omap_Forall_None {A B : Type} (f : A -> option B) (l : list A) :
  Forall (fun x => f x = None) l -> omap f l = [].
Proof.
  induction 1 as [|x l Hx _ IH]; [done|].
  change (omap f (x :: l))
    with (match f x with Some y => y :: omap f l | None => omap f l end).
  by rewrite Hx.
Qed.

(** Prints to the standard error are no calls and no prints to the
    standard output. *)
Lemma stderr_quiet (tr : list (CEvent S)) :
  Forall (fun ev => isStderrPrint ev = true) tr ->
  gets tr = [] /\ fetched tr = [] /\ listed tr = [] /\ listCalls tr = []
  /\ marshalled tr = [] /\ fileWrites tr = []
  /\ (forall format, printed (ToStream Stdout) format tr = [])
  /\ Forall (fun ev => isFetchOrFile ev = false) tr.
Proof.
  intros Hall. repeat split; try intros format;
    try (apply omap_Forall_None; eapply Forall_impl; [exact Hall|];
         by intros [| | | | | | | | | | |[[]|]|]);
    (eapply Forall_impl; [exact Hall|]; by intros [| | | | | | | | | | |[[]|]|]).
Qed.

(** The events of the loop of [runExport] are calls of [Get] and prints to
    the standard error. *)
Lemma loop_quiet (src : S) (tr : list (CEvent S)) :
  Forall (fun ev => isStderrPrint ev = true
                    \/ exists path r, ev = EvGet src path r) tr ->
  listed tr = [] /\ listCalls tr = [] /\ marshalled tr = [] /\ fileWrites tr = []
  /\ (forall format, printed (ToStream Stdout) format tr = []).
Proof.
  intros Hall. repeat split; try intros format;
    apply omap_Forall_None; (eapply Forall_impl; [exact Hall|]);
    intros ev [Hev|(path & r & ->)]; try done;
    by destruct ev as [| | | | | | | | | | |[[]|]|].
Qed.

End TraceParts.

Section ExportRuns.
Context {S W : Type} (sys : Sys S W) {G : GlobLib}.

(** What a run of [runExport] without [--dry-run] calls, and the file it
    encodes. *)
Lemma runExport_exports (reg : registry.Registry S) (f : ExportFlags) (w : W) :
  exportDryRun f = false ->
  let '(r, w', tr) := crun sys (runExport reg f) w in
  Forall (fun ev => isFetchOrFile ev = false /\ listedOf ev = None) tr
  \/ exists src pf name now region infos,
       registry.Get reg (exportSource f) = inl src
       /\ filter.NewPathFilter (exportIncludes f) (exportExcludes f) = inl pf
       /\ listed tr = [infos]
       /\ listCalls tr = [listPatterns (exportIncludes f)]
       /\ (gets tr).*1 = filter (fun p => filter.Matches pf p = true)
                           (listing.Path <$> infos)
       /\ EvName src name ∈ tr /\ EvNow now ∈ tr
       /\ match filter (fun p => filter.Matches pf p = true)
                  (listing.Path <$> infos) with
          | [] => marshalled tr = [] /\ fileWrites tr = [] /\ r = None
          | _ :: _ =>
              exists e r',
                marshalled tr = [(e, r')]
                /\ goschema.Secrets e = fetched tr
                /\ goschema.Version e = "1.0"
                /\ goschema.Metadata e
                   = schemafile.setTotalSecrets (GoInt.len (fetched tr))
                       (goschema.Metadata (initialExportFile f name now region))
                /\ match r' with
                   | inr cause =>
                       fileWrites tr = []
                       /\ r = Some (Errorf_w "failed to write export file"
                                      (Errorf_w "failed to marshal export file" cause))
                   | inl data =>
                       exists werr,
                         fileWrites tr = [(exportOutput f, data, 384%N, werr)]
                         /\ r = match werr with
                                | Some cause =>
                                    Some (Errorf_w "failed to write export file"
                                            (Errorf_w "failed to write export file"
                                               cause))
                                | None => None
                                end
                   end
          end.
Proof.
  intros Hdry. pose proof (runExport_shape sys reg f w) as Hshape.
  destruct (crun sys (runExport reg f) w) as [[r w'] tr].
  destruct Hshape as [Hearly|Hrun]; [by left|right].
  destruct Hrun as (src & pf & name & now & region & name' & infos & w6 & Hrun).
  cbv zeta in Hrun. destruct Hrun as (Hget & Hpf & Hrun). rewrite Hdry in Hrun.
  exists src, pf, name, now, region, infos. split; [done|]. split; [done|].
  destruct (filter (fun p => filter.Matches pf p = true) (listing.Path <$> infos))
    as [|path rest] eqn:Hpaths.
  { destruct Hrun as [-> ->]. repeat split; try done; by repeat constructor. }
  destruct Hrun as (mid & tail & Hrun).
  pose proof (exportLoop_run sys src (GoInt.len (path :: rest)) 0 (path :: rest)
                (initialExportFile f name now region) 0 w6) as Hloop.
  destruct (crun sys (exportLoop src (GoInt.len (path :: rest)) 0 (path :: rest)
                        (initialExportFile f name now region) 0) w6)
    as [[[e n] w7] trL].
  pose proof (Write_run sys e (exportOutput f) w7) as Hwrite.
  destruct (crun sys (schemafile.Write e (exportOutput f)) w7) as [[err w8] trW].
  destruct Hrun as (-> & Hprints & ->).
  destruct Hloop as (Hgets & Hsecrets & Hversion & Hmeta & Hloop).
  apply Forall_app in Hprints as [Hmid Htail].
  destruct (stderr_quiet mid Hmid) as (Hm1 & Hm2 & Hm3 & Hm4 & Hm5 & Hm6 & _).
  destruct (stderr_quiet tail Htail) as (Ht1 & Ht2 & Ht3 & Ht4 & Ht5 & Ht6 & _).
  destruct (loop_quiet src trL Hloop) as (Hl3 & Hl4 & Hl5 & Hl6 & _).
  assert (Hfetched : GoInt.len (fetched trL)
                     = match fetched trL with
                       | [] => goschema.TotalSecrets
                                 (goschema.Metadata
                                    (initialExportFile f name now region))
                       | _ => GoInt.len
                                (goschema.Secrets
                                   (initialExportFile f name now region)
                                 ++ fetched trL)
                       end).
  { by destruct region, (fetched trL). }
  assert (Hsecrets' : goschema.Secrets e = fetched trL).
  { rewrite Hsecrets. by destruct region. }
  assert (Hversion' : goschema.Version e = "1.0").
  { rewrite Hversion. by destruct region. }
  unfold gets, fetched, listed, listCalls, marshalled, fileWrites in *.
  destruct Hwrite as [(cause & -> & ->)|(data & werr & -> & ->)];
    rewrite !omap_app, ?fmap_app, ?Hm1, ?Hm2, ?Hm3, ?Hm4, ?Hm5, ?Hm6,
      ?Ht1, ?Ht2, ?Ht3, ?Ht4, ?Ht5, ?Ht6, ?Hl3, ?Hl4, ?Hl5, ?Hl6.
  - cbn. rewrite ?app_nil_r. split; [done|]. split; [done|]. split; [done|].
    split; [by repeat constructor|]. split; [by repeat constructor|].
    exists e, (inr cause). split; [done|]. split; [done|]. split; [done|].
    split; [|done]. by rewrite Hmeta, <- Hfetched.
  - cbn. rewrite ?app_nil_r. split; [done|]. split; [done|]. split; [done|].
    split; [by repeat constructor|]. split; [by repeat constructor|].
    exists e, (inl data). split; [done|]. split; [done|]. split; [done|].
    split; [by rewrite Hmeta, <- Hfetched|]. exists werr. split; [done|].
    by destruct werr.
Qed.

End ExportRuns.

Section ExportDryRun.

(** What a run of [runExport] with [--dry-run] calls and prints. *)
Lemma runExport_dry_run {S W : Type} (sys : Sys S W) {G : GlobLib}
    (reg : registry.Registry S) (f : ExportFlags) (w : W) :
  exportDryRun f = true ->
  let '(r, _, tr) := crun sys (runExport reg f) w in
  Forall (fun ev => isFetchOrFile ev = false) tr
  /\ forall pf infos,
       filter.NewPathFilter (exportIncludes f) (exportExcludes f) = inl pf ->
       infos ∈ listed tr ->
       r = None
       /\ printed (ToStream Stdout) "  %s\n" tr
          = (fun path => [AStr path])
            <$> filter (fun path => filter.Matches pf path = true)
                  (listing.Path <$> infos).
Proof.
  intros Hdry. pose proof (runExport_shape sys reg f w) as Hshape.
  destruct (crun sys (runExport reg f) w) as [[r w'] tr].
  destruct Hshape as [Hearly|Hrun].
  { split.
    - eapply Forall_impl; [exact Hearly|]. by intros ev [? _].
    - intros pf infos _ Hin. unfold listed in Hin.
      rewrite omap_Forall_None in Hin; [by apply elem_of_nil in Hin|].
      eapply Forall_impl; [exact Hearly|]. by intros ev [_ ?]. }
  destruct Hrun as (src & pf & name & now & region & name' & infos & w6 & Hrun).
  cbv zeta in Hrun. destruct Hrun as (_ & Hpf & Hrun). rewrite Hdry in Hrun.
  assert (Htr : exists out,
             r = None
             /\ tr = [EvConfigure src (sourceOptions (exportRegion f)) None;
                      EvName src name; EvNow now; EvRegion src region;
                      EvName src name';
                      EvPrint (ToStream Stderr) "Listing secrets from %s...\n"
                        [AStr name'];
                      EvList src (listPatterns (exportIncludes f)) (inl infos)]
                     ++ out
                     ++ (dryRunEvent
                           <$> filter (fun p => filter.Matches pf p = true)
                                 (listing.Path <$> infos))
             /\ Forall (fun ev => isFetchOrFile ev = false) out
             /\ listed out = []
             /\ printed (ToStream Stdout) "  %s\n" out = []).
  { destruct (filter (fun p => filter.Matches pf p = true) (listing.Path <$> infos))
      as [|path rest]; destruct Hrun as [-> ->].
    - exists [EvPrint (ToStream Stdout) "%s\n"
                [AStr "No secrets found matching the specified patterns."]].
      split; [done|]. split; [done|]. split; [by repeat constructor|done].
    - exists [EvPrint (ToStream Stderr) "Found %d secrets to export.\n"
                [AInt (GoInt.len (path :: rest))];
              EvPrint (ToStream Stdout) "%s\n"
                [AStr "\nDry run - secrets that would be exported:"]].
      split; [done|]. split; [done|]. split; [by repeat constructor|done]. }
  destruct Htr as (out & -> & -> & Hout & Hlisted & Hprinted). split.
  - apply Forall_app. split; [by repeat constructor|].
    apply Forall_app. split; [done|]. apply Forall_fmap. by apply Forall_true.
  - intros pf' infos'. rewrite Hpf. intros [= <-].
    unfold listed, printed in *. rewrite !omap_app, Hlisted, Hprinted.
    rewrite (omap_fmap_None listedOf dryRunEvent) by done.
    rewrite (omap_fmap_Some _ dryRunEvent (fun path => [AStr path])) by done.
    intros ->%list_elem_of_singleton. done.
Qed.

End ExportDryRun.

Section ValidateRuns.
Context {S W : Type} (sys : Sys S W).

Lemma crun_optional_print (c : bool) (format : string) (args : list Arg) (w : W) :
  crun sys (if c then cmd.Printf format args else CRet tt) w
  = (tt, w, optionalPrint c format args).
Proof. by destruct c. Qed.

Lemma runValidate_run (validateInput data : string) (export : goschema.ExportFile)
    (text : string) (w w1 w2 w3 : W) :
  sys_ReadFile sys validateInput w = (inl data, w1) ->
  sys_Unmarshal sys data w1 = (inl export, w2) ->
  schemafile.Validate export = None ->
  sys_Format sys (goschema.ExportedAt (goschema.Metadata export))
    "2006-01-02 15:04:05 UTC" w2 = (text, w3) ->
  crun sys (runValidate validateInput) w
  = (None, w3,
     [EvReadFile validateInput (inl data); EvUnmarshal data (inl export)]
     ++ validateTrace validateInput export text).
Proof.
  intros Hread Hparse Hvalid Hformat.
  unfold runValidate, schemafile.ValidateFile, schemafile.ReadExportFile.
  cbn. rewrite Hread. cbn. rewrite Hparse. cbn. rewrite Hvalid. cbn.
  rewrite Hformat. cbn.
  rewrite crun_bind, crun_optional_print.
  rewrite crun_bind, crun_optional_print.
  rewrite crun_bind, crun_optional_print.
  rewrite crun_bind. unfold validateTrace. cbv zeta.
  destruct (GoInt.len (goschema.Secrets export) >? 0).
  - cbn [crun]. rewrite crun_bind, previewLoop_run, crun_optional_print.
    cbn. by rewrite ?app_nil_r.
  - cbn. by rewrite ?app_nil_r.
Qed.

End ValidateRuns.

Section ValidateOutput.
Context {S : Type}.

Lemma printed_optional (format f : string) (c : bool) (args : list Arg) :
  omap (printedOf (S := S) (ToStream Stdout) format) (optionalPrint c f args)
  = if c && String.eqb f format then [args] else [].
Proof. destruct c; [|done]. cbn. by destruct (String.eqb f format). Qed.

Lemma validateTrace_quiet (validateInput : string) (export : goschema.ExportFile)
    (text : string) :
  Forall (fun ev : CEvent S => isFetchOrFile ev = false)
    (validateTrace validateInput export text).
Proof.
  unfold validateTrace. cbv zeta.
  repeat (apply Forall_app; split); try by repeat constructor.
  - unfold optionalPrint. destruct (negb _); by repeat constructor.
  - unfold optionalPrint. destruct (_ >? 0); by repeat constructor.
  - unfold optionalPrint. destruct (_ >? 0); by repeat constructor.
  - destruct (_ >? 0); [|constructor].
    repeat (apply Forall_app; split); try by repeat constructor.
    + apply Forall_fmap. by apply Forall_true.
    + unfold optionalPrint. destruct (_ >? 10); by repeat constructor.
Qed.

End ValidateOutput.

(** * Further properties of the import command *)

(** ** The steps of [runImport] *)

(** [runImport] stops at the first step that fails and returns that
    step's error wrapped: an export file that does not validate
    ("failed to read/validate export file"), headers that do not parse
    ("invalid header"), a client that cannot be created ("failed to create
    OpenBao client"), a health check that fails ("failed to connect to
    OpenBao"). The failing call is the last event of the trace: the headers
    are not parsed for a bad file, no client is created for bad headers, and
    no health check is made without a client. *)
Theorem runImport_stops_at_first_failure {W : Type} (env : Env W) (g : Flags)
    (w : W) :
  importOverwriteAll g && importInteractive g = false ->
  let '(file, w1) := env_ValidateFile env (importInput g) w in
  match file with
  | inr err =>
      run env (runImport g) w
      = (flagsAfterValidation g,
         Exit (Some (Errorf_w "failed to read/validate export file" err)), w1,
         [readingOutput g; EvValidateFile (importInput g) (inr err)])
  | inl export =>
      let '(hdrs, w2) := env_ParseHeaders env (importHeaders g) w1 in
      match hdrs with
      | inr err =>
          run env (runImport g) w
          = (flagsAfterValidation g, Exit (Some (Errorf_w "invalid header" err)),
             w2, parsedTrace g export (inr err))
      | inl headers =>
          importDryRun g = false ->
          let '(cerr, w3) := env_NewClient env (clientConfig g headers) w2 in
          match cerr with
          | Some e =>
              run env (runImport g) w
              = (flagsAfterValidation g,
                 Exit (Some (Errorf_w "failed to create OpenBao client" e)), w3,
                 parsedTrace g export (inl headers)
                 ++ [connectingOutput g;
                     EvNewClient (clientConfig g headers) (Some e)])
          | None =>
              let '(herr, w4) := env_Health env w3 in
              match herr with
              | Some e =>
                  run env (runImport g) w
                  = (flagsAfterValidation g,
                     Exit (Some (Errorf_w "failed to connect to OpenBao" e)), w4,
                     connectTrace g export headers (Some e))
              | None =>
                  exists out w5 tr,
                    run env (runImport g) w
                    = (flagsAfterValidation g, out, w5,
                       connectTrace g export headers None ++ connectedOutput :: tr)
              end
          end
      end
  end.
Proof.
  intros Hflags. rewrite (runImport_run env g w Hflags).
  destruct (env_ValidateFile env _ w) as [[export|e] w1]; [|done].
  destruct (env_ParseHeaders env _ w1) as [[headers|e] w2]; [|done].
  intros ->.
  destruct (env_NewClient env _ w2) as [[e|] w3]; [done|].
  destruct (env_Health env w3) as [[e|] w4]; [done|].
  cbv beta iota zeta.
  destruct (importInteractive g).
  - destruct (run env (runInteractiveImport _ _) w4) as [[e w5] tr5].
    by eexists _, _, _.
  - by eexists _, _, [].
Qed.

(** No secret is touched before the server has answered the health check:
    in every run of the import command, in either mode and under every
    schedule of the workers, an existence check, a write or a prompt comes
    after the export file has validated, the headers have parsed, the
    client has been created and the health check has returned nil; and
    there is none at all in a dry run. *)
Theorem import_needs_healthy_server {W : Type} (env : Env W) (g : Flags)
    (sched : list Action) (w : W) (err : option error) (w' : W)
    (tr pre post : list Event) (ev : Event) :
  importCommand env g sched w = Some (err, w', tr) ->
  tr = pre ++ ev :: post -> isEngineCall ev = true ->
  importDryRun g = false
  /\ exists export headers,
       (connectTrace g export headers None ++ [connectedOutput]) `prefix_of` pre.
Proof.
  unfold importCommand. intros Hcmd -> Hev.
  assert (Hnone : forall l : list Event,
             Forall (fun ev => isEngineCall ev = false) l -> l <> pre ++ ev :: post).
  { intros l Hl Heq. by eapply (none_in isEngineCall). }
  destruct (importOverwriteAll g && importInteractive g) eqn:Hflags.
  { unfold runImport in Hcmd. rewrite Hflags in Hcmd. simpl in Hcmd.
    injection Hcmd as _ _ Htr. by destruct pre. }
  rewrite (runImport_run env g w Hflags) in Hcmd.
  destruct (env_ValidateFile env _ w) as [[export|e] w1];
    cbv beta iota zeta in Hcmd; cycle 1.
  { injection Hcmd as _ _ Htr. by eapply Hnone in Htr; [|repeat constructor]. }
  destruct (env_ParseHeaders env _ w1) as [[headers|e] w2];
    cbv beta iota zeta in Hcmd; cycle 1.
  { injection Hcmd as _ _ Htr. by eapply Hnone in Htr; [|repeat constructor]. }
  destruct (importDryRun g).
  { rewrite runDryRun_run in Hcmd. injection Hcmd as _ _ Htr.
    eapply Hnone in Htr; [done|].
    repeat (apply Forall_cons; split; [done|]).
    repeat (apply Forall_app; split); [|by repeat constructor].
    eapply Forall_impl; [apply dryRunOutput_quiet|]. by intros ? [_ ?]. }
  split; [done|].
  destruct (env_NewClient env _ w2) as [[e|] w3]; cbv beta iota zeta in Hcmd.
  { injection Hcmd as _ _ Htr. by eapply Hnone in Htr; [|repeat constructor]. }
  destruct (env_Health env w3) as [[e|] w4]; cbv beta iota zeta in Hcmd.
  { injection Hcmd as _ _ Htr. by eapply Hnone in Htr; [|repeat constructor]. }
  exists export, headers.
  destruct (importInteractive g).
  - destruct (run env (runInteractiveImport _ _) w4) as [[e w5] tr5].
    injection Hcmd as _ _ Htr. symmetry in Htr.
    apply (first_after isEngineCall _ tr5 pre post ev);
      [by repeat constructor|done|exact Htr].
  - destruct (runParallelImport _ _ _ _ _ w4) as [s|]; [|done].
    destruct (returned s); [|done].
    injection Hcmd as _ _ Htr. symmetry in Htr.
    apply (first_after isEngineCall _ (trace s) pre post ev);
      [by repeat constructor|done|exact Htr].
Qed.

(** A dry run only prints: whatever the other flags, the command creates no
    client, makes no health check, no existence check, no write and no
    prompt, and never enters the engine. When the file validates and the
    headers parse it returns nil, and prints one "path -> destination" line
    per secret in file order, the destination being the normalised prefix
    followed by the path, then the number of secrets. *)
Theorem dry_run_only_prints {W : Type} (env : Env W) (g : Flags) (w : W) :
  importDryRun g = true ->
  let '(g', out, w', tr) := run env (runImport g) w in
  Forall (fun ev => isClientCall ev = false /\ isEngineCall ev = false) tr
  /\ (exists err, out = Exit err)
  /\ forall export w1 headers w2,
       importOverwriteAll g && importInteractive g = false ->
       env_ValidateFile env (importInput g) w = (inl export, w1) ->
       env_ParseHeaders env (importHeaders g) w1 = (inl headers, w2) ->
       out = Exit None /\ w' = w2
       /\ dryRunLines tr
          = map (fun secret =>
                   (source.Path secret,
                    normalizePathPrefix (importPathPrefix g) +:+ source.Path secret))
              (schema.Secrets export)
       /\ printedInts "\nTotal: %d secrets\n" tr
          = [GoInt.len (schema.Secrets export)].
Proof.
  intros Hdry.
  destruct (importOverwriteAll g && importInteractive g) eqn:Hflags.
  { unfold runImport. rewrite Hflags. simpl. split; [done|]. split; [by eexists|].
    done. }
  rewrite (runImport_run env g w Hflags), Hdry.
  destruct (env_ValidateFile env _ w) as [[export|e] w1] eqn:Hfile; cycle 1.
  { split; [by repeat constructor|]. split; [by eexists|]. by intros. }
  destruct (env_ParseHeaders env _ w1) as [[headers|e] w2] eqn:Hhdrs; cycle 1.
  { split; [by repeat constructor|]. split; [by eexists|].
    intros export' w1' headers' w2' _ [= <- <-]. by rewrite Hhdrs. }
  cbv beta iota zeta. rewrite runDryRun_run.
  destruct (dryRunOutput_quiet (normalizePathPrefix (importPathPrefix g))
              (schema.Secrets export)) as (Hq & Hlines & Hints).
  split; [|split; [by eexists|]].
  - repeat (apply Forall_cons; split; [done|]).
    repeat (apply Forall_app; split); [done|by repeat constructor].
  - intros export' w1' headers' w2' _ [= <- <-]. rewrite Hhdrs.
    intros [= <- <-]. split; [done|]. split; [done|].
    unfold parsedTrace. rewrite !dryRunLines_app, !printedInts_app, Hlines, Hints.
    split; [|done]. simpl. by rewrite app_nil_r.
Qed.

(** Witness of [dry_run_only_prints]: a dry run on the export file of
    [Inputs.failingWrite] prints the line of its one secret. *)
Lemma dry_run_only_prints_witness :
  exists tr,
    (run Sim.env (runImport Inputs2.dryRunFlags) Inputs.failingWrite).2 = tr
    /\ Forall (fun ev => isClientCall ev = false /\ isEngineCall ev = false) tr
    /\ dryRunLines tr = [("a", "imported/a")].
Proof.
  pose proof (dry_run_only_prints Sim.env Inputs2.dryRunFlags Inputs.failingWrite
                eq_refl) as H.
  destruct (run Sim.env (runImport Inputs2.dryRunFlags) Inputs.failingWrite)
    as [[[g' out] w'] tr] eqn:Hrun.
  destruct H as (Hq & _ & Hok). exists tr. split; [done|]. split; [done|].
  by destruct (Hok _ _ _ _ eq_refl eq_refl eq_refl) as (_ & _ & -> & _).
Defined.

(** Witness of [runImport_stops_at_first_failure]: the default flags and no
    export file. *)
Lemma runImport_stops_at_first_failure_witness :
  run Sim.env (runImport Sim.flags) (Sim.world [])
  = (Sim.flags,
     Exit (Some (Errorf_w "failed to read/validate export file"
                   (errors_New "no such file"))),
     Sim.world [],
     [readingOutput Sim.flags;
      EvValidateFile "secrets.json" (inr (errors_New "no such file"))]).
Proof.
  exact (runImport_stops_at_first_failure Sim.env Sim.flags (Sim.world []) eq_refl).
Defined.

(** Witness of [import_needs_healthy_server]: the interactive import of
    [Inputs.failingWrite]; its first existence check is the eleventh
    event. *)
Lemma import_needs_healthy_server_witness :
  exists export headers pre,
    (connectTrace Inputs.interactiveFlags export headers None ++ [connectedOutput])
      `prefix_of` pre
    /\ length pre = 10%nat.
Proof.
  destruct (importCommand Sim.env Inputs.interactiveFlags [] Inputs.failingWrite)
    as [[[err w'] tr]|] eqn:Hcmd; [|by vm_compute in Hcmd].
  assert (Htr : tr = take 10 tr
                     ++ EvSecretExists "a" false (Some Sim.unreachable) :: drop 11 tr).
  { vm_compute in Hcmd. by injection Hcmd as _ _ <-. }
  assert (Hlen : length (take 10 tr) = 10%nat).
  { vm_compute in Hcmd. by injection Hcmd as _ _ <-. }
  destruct (import_needs_healthy_server Sim.env Inputs.interactiveFlags []
              Inputs.failingWrite err w' tr (take 10 tr) (drop 11 tr)
              (EvSecretExists "a" false (Some Sim.unreachable)) Hcmd Htr eq_refl)
    as (_ & export & headers & Hpre).
  by exists export, headers, (take 10 tr).
Defined.

(** ** The results of [importSecret] *)

(** Whatever the flags and the server, the result of [importSecret] names
    the destination (prefix followed by path), is successful exactly when
    it carries no error, and is skipped only when successful; every call is
    on the destination. A skipped result has made no write; an imported one
    has made exactly one write, of the secret's data, that returned nil.
    When skip-existing is off or overwrite-all is on, there is no existence
    check and no skipped result: the secret's data is written once. *)
Theorem importSecret_result {W : Type} (env : Env W) (g : Flags)
    (secret : source.Secret) (pathPrefix : string) (w : W) :
  let dest := pathPrefix +:+ source.Path secret in
  let '(r, w', tr) := run env (importSecret g secret pathPrefix) w in
  Path r = dest
  /\ (Success r = true <-> Error r = None)
  /\ (Skipped r = true -> Success r = true /\ writeEvents tr = [])
  /\ (Skipped r = false -> Success r = true ->
      writes tr = [(dest, None)]
      /\ writeEvents tr = [(dest, source.Data secret)])
  /\ Forall (fun ev =>
               match ev with
               | EvSecretExists path _ _ | EvWriteSecret path _ _ => path = dest
               | _ => False
               end) tr
  /\ (importSkipExisting g && negb (importOverwriteAll g) = false ->
      Skipped r = false /\ existsChecks tr = []
      /\ writeEvents tr = [(dest, source.Data secret)]).
Proof.
  intros dest. unfold importSecret. fold dest.
  destruct (importSkipExisting g && negb (importOverwriteAll g)); cbn.
  - destruct (env_SecretExists env dest w) as [[found [e|]] w1]; cbn.
    { repeat split; try done. by repeat constructor. }
    destruct found; cbn.
    { repeat split; try done. by repeat constructor. }
    destruct (env_WriteSecret env dest _ w1) as [[e|] w2]; cbn;
      (repeat split; try done; by repeat constructor).
  - destruct (env_WriteSecret env dest _ w) as [[e|] w2]; cbn;
      (repeat split; try done; by repeat constructor).
Qed.

(** ** The writes of parallel mode *)

(** In parallel mode, under every schedule of the goroutines and at every
    point of the run, the writes made so far are writes of secrets of the
    file, each to the prefix followed by the secret's path and with the
    secret's data, and no secret of the file is written more than once;
    no prompt is made. *)
Theorem parallel_writes_from_file {W : Type} (env : Env W) (g : Flags)
    (export : schema.ExportFile) (pathPrefix : string) (sched : list Action)
    (w : W) (s : Pool W) :
  runParallelImport env g export pathPrefix sched w = Some s ->
  writeEvents (trace s) ⊆+ destOf pathPrefix <$> schema.Secrets export
  /\ decisions (trace s) = [].
Proof.
  intros Hrun.
  destruct (writeInv_schedule env g pathPrefix _ _ _ _
              (writeInv_init g pathPrefix export w) Hrun) as [_ Hd Hw].
  split; [|done]. etrans; [|exact Hw]. apply submseteq_inserts_r. done.
Qed.

(** Witness of [parallel_writes_from_file]: the two secrets of [Inputs.two]
    on an empty server; both are written. *)
Lemma parallel_writes_from_file_witness :
  exists s,
    runParallelImport Sim.env Sim.flags Inputs.two "" Inputs2.checkAndWrite
      (Sim.world []) = Some s
    /\ length (writeEvents (trace s)) = 2%nat
    /\ writeEvents (trace s) ⊆+ destOf "" <$> schema.Secrets Inputs.two.
Proof.
  destruct (runParallelImport Sim.env Sim.flags Inputs.two "" Inputs2.checkAndWrite
              (Sim.world [])) as [s|] eqn:Hrun; [|by vm_compute in Hrun].
  exists s. split; [done|]. split.
  - vm_compute in Hrun. by injection Hrun as <-.
  - exact (proj1 (parallel_writes_from_file Sim.env Sim.flags Inputs.two ""
                    Inputs2.checkAndWrite (Sim.world []) s Hrun)).
Defined.

(** With skip-existing off or overwrite-all on, parallel mode makes no
    existence check, and when [runParallelImport] has returned and there
    was at least one worker, every secret of the file has been written
    exactly once, whatever the schedule and whatever the writes returned. *)
Theorem overwrite_all_writes_every_secret {W : Type} (env : Env W) (g : Flags)
    (export : schema.ExportFile) (pathPrefix : string) (sched : list Action)
    (w : W) (s : Pool W) :
  importSkipExisting g && negb (importOverwriteAll g) = false ->
  runParallelImport env g export pathPrefix sched w = Some s ->
  existsChecks (trace s) = []
  /\ (1 <= importParallelism g -> is_Some (returned s) ->
      writeEvents (trace s) ≡ₚ destOf pathPrefix <$> schema.Secrets export).
Proof.
  intros Hmode Hrun.
  destruct (overwriteInv_schedule env g pathPrefix _ _ _ _ Hmode
              (overwriteInv_init g pathPrefix export w) Hrun) as [_ Hc Hw].
  split; [done|]. intros Hpar Hret.
  pose proof (poolInv_schedule env g pathPrefix _ _ _ _
                (poolInv_init g export w) Hrun) as Hinv.
  destruct (pool_drained _ _ Hinv Hret) as [Hdone Hempty].
  destruct Hempty as [Hwork Hsend].
  { intros Hnil. apply (f_equal length) in Hnil.
    rewrite (runSchedule_workers env g pathPrefix _ _ _ Hrun) in Hnil.
    simpl in Hnil. rewrite length_replicate in Hnil. lia. }
  rewrite Hwork, Hsend, (bind_done_nil workerWrite _ eq_refl Hdone) in Hw.
  by rewrite !app_nil_r in Hw.
Qed.

(** Witness of [overwrite_all_writes_every_secret]: [--overwrite-all] on
    the two secrets of [Inputs.two]; the write of "app/down" fails and is
    made all the same. *)
Lemma overwrite_all_writes_every_secret_witness :
  exists s,
    runParallelImport Sim.env Inputs.overwriteFlags Inputs.two ""
      Inputs.twoSchedule Inputs.server = Some s
    /\ existsChecks (trace s) = []
    /\ writeEvents (trace s) ≡ₚ destOf "" <$> schema.Secrets Inputs.two.
Proof.
  destruct (runParallelImport Sim.env Inputs.overwriteFlags Inputs.two ""
              Inputs.twoSchedule Inputs.server) as [s|] eqn:Hrun;
    [|by vm_compute in Hrun].
  assert (Hret : is_Some (returned s)).
  { vm_compute in Hrun. injection Hrun as <-. by eexists. }
  destruct (overwrite_all_writes_every_secret Sim.env Inputs.overwriteFlags
              Inputs.two "" Inputs.twoSchedule Inputs.server s eq_refl Hrun)
    as [Hc Hw].
  exists s. split; [done|]. split; [done|]. apply Hw; [by vm_compute|done].
Defined.

(** With skip-existing on (and overwrite-all off), under every schedule:
    the destination of a secret is checked at most once, and a path is
    written only after an existence check of it has answered "absent",
    once per such answer. When [runParallelImport] has returned, the paths
    written are exactly those that a check found absent, and, if there was
    at least one worker, the destination of every secret of the file has
    been checked exactly once. *)
Theorem skip_existing_checks_then_writes {W : Type} (env : Env W) (g : Flags)
    (export : schema.ExportFile) (pathPrefix : string) (sched : list Action)
    (w : W) (s : Pool W) :
  importSkipExisting g && negb (importOverwriteAll g) = true ->
  runParallelImport env g export pathPrefix sched w = Some s ->
  existsChecks (trace s) ⊆+ destPath pathPrefix <$> schema.Secrets export
  /\ (writes (trace s)).*1 ⊆+ absentChecks (trace s)
  /\ (is_Some (returned s) ->
      (writes (trace s)).*1 ≡ₚ absentChecks (trace s)
      /\ (1 <= importParallelism g ->
          existsChecks (trace s) ≡ₚ destPath pathPrefix <$> schema.Secrets export)).
Proof.
  intros Hmode Hrun.
  destruct (skipInv_schedule env g pathPrefix _ _ _ _ Hmode
              (skipInv_init g pathPrefix export w) Hrun) as [_ Hc Hw].
  split; [|split].
  - rewrite <- Hc. by apply submseteq_inserts_r.
  - rewrite <- Hw. by apply submseteq_inserts_r.
  - intros Hret.
    pose proof (poolInv_schedule env g pathPrefix _ _ _ _
                  (poolInv_init g export w) Hrun) as Hinv.
    destruct (pool_drained _ _ Hinv Hret) as [Hdone Hempty]. split.
    + rewrite (bind_done_nil confirmedWrite _ eq_refl Hdone) in Hw.
      by rewrite app_nil_r in Hw.
    + intros Hpar. destruct Hempty as [Hwork Hsend].
      { intros Hnil. apply (f_equal length) in Hnil.
        rewrite (runSchedule_workers env g pathPrefix _ _ _ Hrun) in Hnil.
        simpl in Hnil. rewrite length_replicate in Hnil. lia. }
      rewrite Hwork, Hsend, (bind_done_nil pendingCheck _ eq_refl Hdone) in Hc.
      by rewrite !app_nil_r in Hc.
Qed.

(** Witness of [skip_existing_checks_then_writes]: the default flags on
    the two secrets of [Inputs.two] and an empty server; both are found
    absent, then written. *)
Lemma skip_existing_checks_then_writes_witness :
  exists s,
    runParallelImport Sim.env Sim.flags Inputs.two "" Inputs2.checkAndWrite
      (Sim.world []) = Some s
    /\ length (absentChecks (trace s)) = 2%nat
    /\ (writes (trace s)).*1 ≡ₚ absentChecks (trace s)
    /\ existsChecks (trace s) ≡ₚ destPath "" <$> schema.Secrets Inputs.two.
Proof.
  destruct (runParallelImport Sim.env Sim.flags Inputs.two "" Inputs2.checkAndWrite
              (Sim.world [])) as [s|] eqn:Hrun; [|by vm_compute in Hrun].
  assert (Hret : is_Some (returned s)).
  { vm_compute in Hrun. injection Hrun as <-. by eexists. }
  assert (Hlen : length (absentChecks (trace s)) = 2%nat).
  { vm_compute in Hrun. by injection Hrun as <-. }
  destruct (skip_existing_checks_then_writes Sim.env Sim.flags Inputs.two ""
              Inputs2.checkAndWrite (Sim.world []) s eq_refl Hrun)
    as (_ & _ & Hfin).
  destruct (Hfin Hret) as [Hw Hc].
  exists s. split; [done|]. split; [done|]. split; [done|].
  apply Hc. by vm_compute.
Defined.

(** ** The calls of interactive mode *)


(** ** Termination of parallel mode *)

(** Parallel mode on N secrets with W workers takes at most 6 N + W + 3
    steps under any schedule (a send, a receive, at most two client calls,
    a result and its collection per secret, the end of each worker, the two
    closes and the return), and as long as [runParallelImport] has not
    returned some goroutine can take a step: the goroutines neither
    deadlock nor run forever. *)
Theorem parallel_terminates {W : Type} (env : Env W) (g : Flags)
    (export : schema.ExportFile) (pathPrefix : string) (sched : list Action)
    (w : W) (s : Pool W) :
  runParallelImport env g export pathPrefix sched w = Some s ->
  (length sched + stepsLeft s
   <= 6 * length (schema.Secrets export) + Z.to_nat (importParallelism g) + 3)%nat
  /\ (returned s = None -> exists a s', pstep env g pathPrefix a s = Some s')
  /\ exists sched' s',
       runParallelImport env g export pathPrefix (sched ++ sched') w = Some s'
       /\ is_Some (returned s')
       /\ (length (sched ++ sched')
           <= 6 * length (schema.Secrets export)
              + Z.to_nat (importParallelism g) + 3)%nat.
Proof.
  intros Hrun.
  pose proof (poolInv_init g export w) as Hinit.
  pose proof (poolInv_schedule env g pathPrefix _ _ _ _ Hinit Hrun) as Hinv.
  pose proof (pool_bounded env g pathPrefix _ _ _ _ Hinit Hrun) as Hb.
  rewrite stepsLeft_init in Hb. split; [done|]. split.
  { by eapply pool_progress. }
  destruct (pool_completes env g pathPrefix _ _ Hinv) as (sched' & s' & Hrun' & Hret).
  assert (Hall : runParallelImport env g export pathPrefix (sched ++ sched') w
                 = Some s').
  { unfold runParallelImport in *. clear -Hrun Hrun'.
    revert Hrun. generalize (parallelInit g export w). 
    induction sched as [|a sched IH]; intros s0; simpl.
    - by intros [= ->].
    - destruct (pstep env g pathPrefix a s0); [apply IH|done]. }
  exists sched', s'. split; [done|]. split; [done|].
  pose proof (pool_bounded env g pathPrefix _ _ _ _ Hinit Hall) as Hb'.
  rewrite stepsLeft_init in Hb'. lia.
Qed.

(** Witness of [parallel_terminates]: the eighteen steps of
    [Inputs.twoSchedule]. *)
Lemma parallel_terminates_witness :
  exists s,
    runParallelImport Sim.env Sim.flags Inputs.two "" Inputs.twoSchedule
      Inputs.server = Some s
    /\ (length Inputs.twoSchedule + stepsLeft s <= 20)%nat.
Proof.
  destruct (runParallelImport Sim.env Sim.flags Inputs.two "" Inputs.twoSchedule
              Inputs.server) as [s|] eqn:Hrun; [|by vm_compute in Hrun].
  exists s. split; [done|].
  exact (proj1 (parallel_terminates Sim.env Sim.flags Inputs.two ""
                  Inputs.twoSchedule Inputs.server s Hrun)).
Defined.

(** ** The exit status of parallel mode *)

(** When [runParallelImport] has returned, it has returned nil if no
    collected result is a failure (neither skipped nor successful), and
    otherwise the error "k secrets failed to import", k being the number
    of failures among the collected results. *)
Theorem parallel_exit_status {W : Type} (env : Env W) (g : Flags)
    (export : schema.ExportFile) (pathPrefix : string) (sched : list Action)
    (w : W) (s : Pool W) (err : option error) :
  GoInt.len (schema.Secrets export) <= GoInt.MaxInt64 ->
  runParallelImport env g export pathPrefix sched w = Some s ->
  returned s = Some err ->
  let k := Z.of_nat (length (filter (fun r => isFailure r = true) (collected s))) in
  failed (tally s) = k
  /\ err = if (0 <? k)%Z then Some (Errorf_d k " secrets failed to import")
           else None.
Proof.
  intros Hlen Hrun Hret k.
  pose proof (poolInv_schedule env g pathPrefix _ _ _ _
                (poolInv_init g export w) Hrun) as Hinv.
  assert (Hle : (length (collected s) <= length (schema.Secrets export))%nat).
  { pose proof (inv_conserved _ _ Hinv). lia. }
  destruct (tally_counted (collected s)) as [_ Hf].
  { unfold GoInt.len in Hlen. lia. }
  rewrite <- (inv_tally _ _ Hinv) in Hf. fold k in Hf. split; [done|].
  rewrite (runSchedule_returned env g pathPrefix _ _ _ _ Hrun eq_refl Hret), Hf.
  by rewrite Z.gtb_ltb.
Qed.

(** Witness of [parallel_exit_status]: of the two secrets of [Inputs.two]
    one fails, and the run returns "1 secrets failed to import". *)
Lemma parallel_exit_status_witness :
  exists s,
    runParallelImport Sim.env Sim.flags Inputs.two "" Inputs.twoSchedule
      Inputs.server = Some s
    /\ returned s = Some (Some (Errorf_d 1 " secrets failed to import")).
Proof.
  destruct (runParallelImport Sim.env Sim.flags Inputs.two "" Inputs.twoSchedule
              Inputs.server) as [s|] eqn:Hrun; [|by vm_compute in Hrun].
  destruct (returned s) as [err|] eqn:Hret;
    [|vm_compute in Hrun; by injection Hrun as <-].
  assert (Hk : length (filter (fun r => isFailure r = true) (collected s)) = 1%nat).
  { vm_compute in Hrun. by injection Hrun as <-. }
  destruct (parallel_exit_status Sim.env Sim.flags Inputs.two ""
              Inputs.twoSchedule Inputs.server s err ltac:(by vm_compute) Hrun Hret)
    as [_ Herr].
  rewrite Hk in Herr. exists s. split; [done|]. by rewrite Hret, Herr.
Defined.

(** * The OpenBao client *)

(** ** [ParseHeaders] *)

(** [ParseHeaders] accepts the header strings exactly when each of them
    has a colon and is not blank before its first colon. Otherwise it
    returns an error for the first header that is not so, the headers
    before it being fine: "invalid header format: h (expected 'Key:
    Value')" when the header has no colon, "invalid header: empty key in h"
    when it is blank before the colon. *)
Theorem ParseHeaders_reports_first_bad_header (headerStrings : list string) :
  match target.ParseHeaders headerStrings with
  | inl _ =>
      Forall (fun h => exists i, Index h ":" = Some i
                                 /\ TrimSpace (slice_to i h) <> "") headerStrings
  | inr err =>
      exists pre h post,
        headerStrings = pre ++ h :: post
        /\ (exists m, target.ParseHeaders pre = inl m)
        /\ match Index h ":" with
           | None =>
               err = errors_New ("invalid header format: " +:+ h
                                 +:+ " (expected 'Key: Value')")
           | Some i =>
               TrimSpace (slice_to i h) = ""
               /\ err = errors_New ("invalid header: empty key in " +:+ h)
           end
  end.
Proof. apply ParseHeaders_loop_spec. Qed.

(** In the map that [ParseHeaders] returns, a key has the value of the
    last header with that key, key and value being what is before and
    after the header's first colon without the surrounding white space (so
    a value may itself contain colons); a key that no header has is not in
    the map. *)
Theorem ParseHeaders_last_wins (headerStrings : list string)
    (m : gmap string string) (key : string) :
  target.ParseHeaders headerStrings = inl m ->
  m !! key =
  last (omap (fun h => match target.headerPair h with
                       | Some (k, v) => if String.eqb k key then Some v else None
                       | None => None
                       end) headerStrings).
Proof.
  intros Hm. rewrite (ParseHeaders_loop_lookup _ _ _ key Hm).
  by destruct (last _).
Qed.

(** Witness of [ParseHeaders_last_wins]: the second value of
    "X-Custom-Auth" replaces the first, and the value of "Host" keeps its
    colon. *)
Lemma ParseHeaders_last_wins_witness :
  exists m,
    target.ParseHeaders ["X-Custom-Auth: token"; "Host:a:b"; " X-Custom-Auth :t2 "]
    = inl m
    /\ m !! "X-Custom-Auth" = Some "t2" /\ m !! "Host" = Some "a:b".
Proof.
  destruct (target.ParseHeaders
              ["X-Custom-Auth: token"; "Host:a:b"; " X-Custom-Auth :t2 "])
    as [m|err] eqn:Hm; [|by vm_compute in Hm].
  exists m. split; [done|]. split.
  - by rewrite (ParseHeaders_last_wins _ m "X-Custom-Auth" Hm).
  - by rewrite (ParseHeaders_last_wins _ m "Host" Hm).
Defined.

(** Headers written "key: value", with keys that are not empty and have no
    colon, and keys and values that neither start nor end with white
    space, are read back as the map from each key to its last value. *)
Theorem ParseHeaders_round_trip (kvs : list (string * string)) :
  Forall (fun kv => kv.1 <> "" /\ Index kv.1 ":" = None
                    /\ trimmed kv.1 /\ trimmed kv.2) kvs ->
  target.ParseHeaders ((fun kv => kv.1 +:+ ": " +:+ kv.2) <$> kvs)
  = inl (list_to_map (reverse kvs)).
Proof.
  intros Hall. unfold target.ParseHeaders.
  by rewrite (ParseHeaders_loop_format kvs ∅ Hall), foldl_insert_list_to_map.
Qed.

(** Witness of [ParseHeaders_round_trip]: the two headers of the command's
    help. *)
Lemma ParseHeaders_round_trip_witness :
  target.ParseHeaders ["X-Custom-Auth: token"; "X-Forwarded-For: internal"]
  = inl (list_to_map [("X-Forwarded-For", "internal"); ("X-Custom-Auth", "token")]).
Proof.
  apply (ParseHeaders_round_trip
           [("X-Custom-Auth", "token"); ("X-Forwarded-For", "internal")]).
  repeat constructor; by vm_compute.
Defined.

(** ** The client under [importSecret] *)

(** [importSecret] through the client's [SecretExists] and [WriteSecret],
    with skip-existing on: a [kv.Get] error whose message contains "secret
    not found" counts as absent, as does a nil secret without error, and
    the secret is written; any other [kv.Get] error makes the secret fail
    with "failed to check existence: failed to check secret at <dest>: ..."
    and nothing is written; a secret that [kv.Get] returns is skipped. A
    [kv.Put] error makes the secret fail with "failed to write secret to
    <dest>: ...". *)
Theorem importSecret_through_client {W : Type} (api : target.Vault W)
    (env : Env W) (g : Flags) (secret : source.Secret) (pathPrefix : string)
    (w : W) :
  importSkipExisting g && negb (importOverwriteAll g) = true ->
  let dest := pathPrefix +:+ source.Path secret in
  let '(found, gerr, w1) := target.kv_Get api dest w in
  let '(r, w', tr) :=
    run (target.withClient api env) (importSecret g secret pathPrefix) w in
  let absent :=
    match gerr with
    | Some e => Contains (Error_message e) "secret not found"
    | None => match found with Some _ => false | None => true end
    end in
  if absent then
    let '(perr, w2) := target.kv_Put api dest (source.Data secret) w1 in
    w' = w2
    /\ writeEvents tr = [(dest, source.Data secret)]
    /\ Skipped r = false
    /\ Error r = match perr with
                 | Some e => Some (Errorf_w ("failed to write secret to " +:+ dest) e)
                 | None => None
                 end
  else
    w' = w1 /\ writeEvents tr = []
    /\ match gerr with
       | Some e =>
           isFailure r = true
           /\ Error r = Some (Errorf_w "failed to check existence"
                                (Errorf_w ("failed to check secret at " +:+ dest) e))
       | None => Skipped r = true /\ Error r = None
       end.
Proof.
  intros Hmode dest. unfold importSecret. rewrite Hmode. fold dest.
  cbn. unfold target.SecretExists, target.WriteSecret.
  destruct (target.kv_Get api dest w) as [[found [e|]] w1].
  - destruct (Contains (Error_message e) "secret not found"); cbn; [|done].
    unfold target.WriteSecret.
    destruct (target.kv_Put api dest _ w1) as [[e'|] w2]; by cbn.
  - destruct found; cbn; [done|]. unfold target.WriteSecret.
    destruct (target.kv_Put api dest _ w1) as [[e'|] w2]; by cbn.
Qed.

(** Witness of [importSecret_through_client]: the server answers "secret
    not found" and the secret is written. *)
Lemma importSecret_through_client_witness :
  exists r tr,
    run (target.withClient Inputs2.notFound Sim.env)
      (importSecret Sim.flags (Sim.secret "a") "") (Sim.world [])
    = (r, (Sim.world []), tr)
    /\ writeEvents tr = [("a", source.Data (Sim.secret "a"))]
    /\ Error r = None.
Proof.
  pose proof (importSecret_through_client Inputs2.notFound Sim.env Sim.flags
                (Sim.secret "a") "" (Sim.world []) eq_refl) as H.
  cbv beta iota zeta in H.
  destruct (run _ _ _) as [[r w'] tr]. simpl in H.
  destruct H as (-> & Hw & _ & He). by exists r, tr.
Defined.

(** * The export file *)

(** ** [Validate] *)

(** [Validate] accepts an export file exactly when its version is "1.0",
    its source is not empty, its export time is not the zero time, every
    secret has a path that is not empty and a data map that is not nil,
    and [total_secrets] is the number of secrets. *)
Theorem Validate_accepts_exactly (e : goschema.ExportFile) :
  schemafile.Validate e = None <->
  goschema.Version e = "1.0"
  /\ goschema.Source (goschema.Metadata e) <> ""
  /\ time.IsZero (goschema.ExportedAt (goschema.Metadata e)) = false
  /\ Forall (fun secret => gosource.Path secret <> ""
                           /\ is_Some (gosource.Data secret)) (goschema.Secrets e)
  /\ goschema.TotalSecrets (goschema.Metadata e) = GoInt.len (goschema.Secrets e).
Proof. apply Validate_spec. Qed.

(** When version, source and export time are in order, [Validate] reports
    the first secret that has an empty path or a nil data map, with its
    index (from 0) and, for the data, its path; the path is looked at
    first, and a wrong [total_secrets] is reported only when every secret
    is in order. *)
Theorem Validate_reports_first_bad_secret (e : goschema.ExportFile)
    (pre : list gosource.Secret) (secret : gosource.Secret)
    (post : list gosource.Secret) :
  goschema.Version e = "1.0" ->
  goschema.Source (goschema.Metadata e) <> "" ->
  time.IsZero (goschema.ExportedAt (goschema.Metadata e)) = false ->
  goschema.Secrets e = pre ++ secret :: post ->
  Forall (fun secret => gosource.Path secret <> ""
                        /\ is_Some (gosource.Data secret)) pre ->
  gosource.Path secret = "" \/ gosource.Data secret = None ->
  schemafile.Validate e =
  Some (errors_New
          (if String.eqb (gosource.Path secret) "" then
             "secret at index " +:+ pretty (GoInt.len pre)
             +:+ ": missing required field: path"
           else
             "secret at index " +:+ pretty (GoInt.len pre) +:+ " ("
             +:+ gosource.Path secret +:+ "): missing required field: data")).
Proof.
  intros Hv Hs Hz Hsec Hpre Hbad. unfold schemafile.Validate, schemafile.Version.
  rewrite Hv, Hz. simpl.
  destruct (String.eqb_spec (goschema.Source (goschema.Metadata e)) ""); [done|].
  rewrite Hsec, (Validate_secrets_first 0 pre secret post Hpre). simpl.
  destruct (String.eqb_spec (gosource.Path secret) "") as [Hp|Hp]; [done|].
  destruct Hbad as [Hbad|Hbad]; [done|]. by rewrite Hbad.
Qed.

(** Witness of [Validate_reports_first_bad_secret]: the second secret of
    [Inputs2.nilData] has no data. *)
Lemma Validate_reports_first_bad_secret_witness :
  schemafile.Validate Inputs2.nilData
  = Some (errors_New "secret at index 1 (app/empty): missing required field: data").
Proof.
  apply (Validate_reports_first_bad_secret Inputs2.nilData
           [Inputs2.gosecret "app/db"] (Inputs2.nosecret "app/empty") []);
    try done.
  - apply Forall_cons. split; [|by constructor]. split; [done|by eexists].
  - by right.
Defined.

(** ** [NewExportFile] and [AddSecret] *)

(** A file made by [NewExportFile] and any number of [AddSecret] holds the
    added secrets in the order they were added, and its [total_secrets] is
    their number. It has version "1.0", the given source name and the time
    of its creation; so [Validate] accepts it exactly when the source name
    is not empty, that time is not the zero time, and every added secret
    has a path that is not empty and a data map that is not nil. *)
Theorem built_file_counts_its_secrets {S W : Type} (sys : Sys S W)
    (sourceName : string) (secrets : list gosource.Secret) (w : W) :
  let '(now, w1) := sys_Now sys w in
  let '(e0, w', tr) := crun sys (schemafile.NewExportFile sourceName) w in
  let e := foldl schemafile.AddSecret e0 secrets in
  w' = w1 /\ tr = [EvNow now]
  /\ goschema.Secrets e = secrets
  /\ goschema.TotalSecrets (goschema.Metadata e) = GoInt.len secrets
  /\ goschema.Version e = "1.0"
  /\ goschema.Source (goschema.Metadata e) = sourceName
  /\ goschema.ExportedAt (goschema.Metadata e) = now
  /\ (schemafile.Validate e = None <->
      sourceName <> "" /\ time.IsZero now = false
      /\ Forall (fun secret => gosource.Path secret <> ""
                               /\ is_Some (gosource.Data secret)) secrets).
Proof.
  simpl. destruct (sys_Now sys w) as [now w1]. simpl.
  set (e0 := {| goschema.Version := schemafile.Version |}).
  destruct (foldl_AddSecret e0 secrets) as (Hs & Hv & Hsrc & Ht & _ & _ & _ & Hn).
  assert (Hn' : goschema.TotalSecrets
                  (goschema.Metadata (foldl schemafile.AddSecret e0 secrets))
                = GoInt.len secrets).
  { rewrite Hn. by destruct secrets. }
  do 7 (split; [done|]).
  rewrite Validate_spec, Hv, Hsrc, Ht, Hs, Hn'. simpl. tauto.
Qed.

(** * The source registry and the path filter *)

(** ** The registry *)

(** After [Register(name, factory)], [Get(name)] returns a source made by
    that factory, also when the name was registered before; the other
    names are as they were. [Has] tells whether [Get] succeeds, [Get] of a
    name that is not registered fails with "unknown source: <name>", and
    [List] has each registered name once. *)
Theorem registry_round_trip {S : Type} (r : registry.Registry S)
    (name : string) (factory : registry.SourceFactory S) (other : string) :
  let r' := registry.Register r name factory in
  registry.Get r' other
  = (if decide (other = name) then inl (factory tt) else registry.Get r other)
  /\ registry.Has r' other = bool_decide (other = name) || registry.Has r other
  /\ registry.Get r other
     = (if registry.Has r other then registry.Get r other
        else inr (errors_New ("unknown source: " +:+ other)))
  /\ (registry.Has r other = true <-> exists src, registry.Get r other = inl src)
  /\ (other ∈ registry.List r <-> registry.Has r other = true)
  /\ NoDup (registry.List r)
  /\ registry.List r' ≡ₚ name :: filter (fun n => n <> name) (registry.List r).
Proof.
  cbv zeta. split; [|split; [|split; [|split; [|split; [|split]]]]].
  - apply registry_Get_Register.
  - apply registry_Has_Register.
  - unfold registry.Get, registry.Has. by destruct (r !! other).
  - unfold registry.Get, registry.Has.
    destruct (r !! other) as [factory'|]; split; try done.
    + intros _. by eexists.
    + by intros [src ?].
  - apply registry_List_Has.
  - apply registry_List_NoDup.
  - apply NoDup_Permutation.
    + apply registry_List_NoDup.
    + constructor.
      * rewrite list_elem_of_filter. by intros [? _].
      * apply NoDup_filter, registry_List_NoDup.
    + intros n.
      rewrite elem_of_cons, list_elem_of_filter.
      rewrite !registry_List_Has, registry_Has_Register.
      destruct (decide (n = name)) as [->|Hne].
      * rewrite bool_decide_true by done. split; [by left|done].
      * rewrite bool_decide_false by done. simpl. tauto.
Qed.

(** ** The path filter *)

(** A filter made by [NewPathFilter] matches a path exactly when no exclude
    pattern matches it and, if there are include patterns, one of them
    does: an exclude pattern wins over every include pattern, and without
    include patterns everything that is not excluded matches.
    [HasPatterns] tells whether a pattern was given. *)
Theorem PathFilter_excludes_win {G : GlobLib} (includePatterns excludePatterns : list string)
    (f : filter.PathFilter) (path : string) :
  filter.NewPathFilter includePatterns excludePatterns = inl f ->
  (filter.Matches f path = true <->
   (forall p g, p ∈ excludePatterns -> glob_Compile p ["/"%char] = inl g ->
                glob_Match g path = false)
   /\ (includePatterns = []
       \/ exists p g, p ∈ includePatterns /\ glob_Compile p ["/"%char] = inl g
                      /\ glob_Match g path = true))
  /\ (filter.HasPatterns f = true <-> includePatterns <> [] \/ excludePatterns <> []).
Proof.
  unfold filter.NewPathFilter.
  destruct (filter.compileAll includePatterns []) as [incl|err] eqn:Hi; [|done].
  destruct (filter.compileAll excludePatterns []) as [excl|err] eqn:He; [|done].
  intros [= <-].
  apply compileAll_inl in Hi as (incl' & -> & Hi).
  apply compileAll_inl in He as (excl' & -> & He). simpl in *. split.
  - unfold filter.Matches. simpl.
    destruct (filter.anyMatch excl' path) eqn:Hex.
    + split; [done|]. intros [Hno _].
      apply anyMatch_spec in Hex as (g & Hin & Hm).
      apply (Forall2_compilesTo_elem _ _ _ He) in Hin as (p & Hp & Hc & _).
      by rewrite (Hno p g Hp Hc) in Hm.
    + assert (Hno : forall p g, p ∈ excludePatterns ->
                glob_Compile p ["/"%char] = inl g -> glob_Match g path = false).
      { intros p g Hp Hc. destruct (glob_Match g path) eqn:Hm; [|done].
        assert (filter.anyMatch excl' path = true); [|congruence].
        apply anyMatch_spec. exists g. split; [|done].
        by apply (Forall2_compilesTo_pattern _ _ p g He). }
      destruct Hi as [|p g ps gs Hp Hi]; simpl.
      { split; [|done]. intros _. split; [done|by left]. }
      change (if glob_Match g path then true else filter.anyMatch gs path)
        with (filter.anyMatch (g :: gs) path).
      rewrite anyMatch_spec. split.
      * intros (g' & Hin & Hm). split; [done|]. right.
        apply (Forall2_compilesTo_elem (p :: ps) (g :: gs)) in Hin
          as (q & Hq & Hc & _); [|by constructor].
        by exists q, g'.
      * intros [_ [?|(q & g' & Hq & Hc & Hm)]]; [done|]. exists g'. split; [|done].
        apply (Forall2_compilesTo_pattern (p :: ps) (g :: gs) q g');
          [by constructor|done|done].
  - unfold filter.HasPatterns. simpl.
    destruct Hi, He; simpl; split; try done; try (intros _; by left);
      try (intros _; by right); intros [?|?]; done.
Qed.

(** Witness of [PathFilter_excludes_win]: with the include pattern "**" and
    the exclude pattern "dev/tmp", "app/db" matches. *)
Lemma PathFilter_excludes_win_witness :
  exists f, filter.NewPathFilter (H := Sim2.globs) ["**"] ["dev/tmp"] = inl f
            /\ filter.Matches f "app/db" = true.
Proof.
  eexists. split; [reflexivity|].
  apply (PathFilter_excludes_win (G := Sim2.globs) ["**"] ["dev/tmp"] _ "app/db");
    [reflexivity|]. split.
  - intros p g ->%list_elem_of_singleton [= <-]. reflexivity.
  - right. exists "**", "**". split; [by left|]. split; reflexivity.
Defined.

(** [NewPathFilter] compiles the include patterns, then the exclude
    patterns, each in order and with "/" as the separator; the error of the
    first pattern that does not compile is returned as it is, and the
    patterns after it are not compiled. When all compile, the filter holds
    the compiled patterns in the order given. *)
Theorem NewPathFilter_reports_first_bad_pattern {G : GlobLib}
    (includePatterns excludePatterns : list string) :
  match filter.NewPathFilter includePatterns excludePatterns with
  | inr err =>
      exists pre p post,
        includePatterns ++ excludePatterns = pre ++ p :: post
        /\ Forall (fun q => exists g, glob_Compile q ["/"%char] = inl g) pre
        /\ glob_Compile p ["/"%char] = inr err
  | inl f =>
      Forall2 (fun p g => glob_Compile p ["/"%char] = inl g)
        includePatterns (filter.includes f)
      /\ Forall2 (fun p g => glob_Compile p ["/"%char] = inl g)
           excludePatterns (filter.excludes f)
  end.
Proof.
  unfold filter.NewPathFilter.
  destruct (filter.compileAll includePatterns []) as [incl|err] eqn:Hi.
  - apply compileAll_inl in Hi as (incl' & -> & Hi).
    destruct (filter.compileAll excludePatterns []) as [excl|err] eqn:He.
    + apply compileAll_inl in He as (excl' & -> & He). by split.
    + apply compileAll_inr in He as (pre & p & post & -> & Hpre & Hp).
      exists (includePatterns ++ pre), p, post. split; [by rewrite <- app_assoc|].
      split; [|done]. apply Forall_app. split; [|done].
      clear -Hi. induction Hi; constructor; [by eexists|done].
  - apply compileAll_inr in Hi as (pre & p & post & -> & Hpre & Hp).
    exists pre, p, (post ++ excludePatterns). split; [by rewrite <- app_assoc|done].
Qed.

(** * The [list] command *)

(** ** The exclude patterns of [list] *)

(** The exclude patterns of the [list] command are not globs: a listed
    secret is dropped exactly when its path is equal to one of the exclude
    patterns, or when one of the exclude patterns is "**", which drops
    every secret. The secrets that stay keep their order. *)
Theorem list_excludes_are_literal (listExcludes : list string)
    (infos : list listing.SecretInfo) :
  applyExcludes listExcludes infos
  = filter (fun info => ("**" ∉ listExcludes)
                        /\ (listing.Path info ∉ listExcludes)) infos.
Proof. apply applyExcludes_spec. Qed.

(** ** The descriptions in the table *)

(** The table of [list] shows a description of at most 50 bytes as it is,
    and of a longer one the first 47 bytes followed by "...": what is shown
    has never more than 50 bytes, and starts as the description does. *)
Theorem shown_description_is_cut (info : listing.SecretInfo) :
  let desc := listing.Description info in
  String.length (shownDescription info) = Nat.min (String.length desc) 50
  /\ slice_to 47 (shownDescription info) = slice_to 47 desc
  /\ slice_from 47 (shownDescription info)
     = (if (50 <? String.length desc)%nat then "..." else slice_from 47 desc)
  /\ (shownDescription info = desc <-> (String.length desc <= 50)%nat).
Proof.
  cbv zeta. unfold shownDescription.
  destruct (Nat.ltb_spec 50 (String.length (listing.Description info))) as [Hlt|Hle].
  - assert (H47 : String.length (slice_to 47 (listing.Description info)) = 47%nat).
    { rewrite slice_to_length. lia. }
    split; [|split; [|split]].
    + rewrite append_length, H47. simpl. lia.
    + rewrite <- H47 at 1. apply slice_to_app.
    + rewrite <- H47 at 1. apply slice_from_app.
    + split; [|lia]. intros Heq.
      apply (f_equal String.length) in Heq. rewrite append_length, H47 in Heq.
      simpl in Heq. lia.
  - split; [lia|]. split; [done|]. split; [done|]. split; [lia|done].
Qed.

(** ** The table of [list] *)

(** When the source has answered [List] with its secrets, [list] succeeds.
    It has asked for the include patterns, or for "**" when there is none.
    The table has one row for each listed secret that the exclude patterns
    leave, in the order of the listing, with the path and the description
    as shown; the total printed after it is the number of rows. When no
    secret is left there is no table and no total, but the line "No
    secrets found matching the specified patterns." *)
Theorem runList_table {S W : Type} (sys : Sys S W) (reg : registry.Registry S)
    (f : ListFlags) (w : W) (src : S) (patterns : list string)
    (infos : list listing.SecretInfo) :
  let '(r, _, tr) := crun sys (runList reg f) w in
  EvList src patterns (inl infos) ∈ tr ->
  let shown := filter (fun info => ("**" ∉ listExcludes f)
                                   /\ (listing.Path info ∉ listExcludes f)) infos in
  r = None
  /\ registry.Get reg (listSource f) = inl src
  /\ patterns = match listIncludes f with [] => ["**"] | _ => listIncludes f end
  /\ rows tr = (fun info => (listing.Path info, shownDescription info)) <$> shown
  /\ printed (ToStream Stderr) "\nTotal: %d secrets\n" tr
     = match shown with [] => [] | _ => [[AInt (GoInt.len shown)]] end
  /\ printed (ToStream Stdout) "%s\n" tr
     = match shown with
       | [] => [[AStr "No secrets found matching the specified patterns."]]
       | _ => []
       end.
Proof.
  unfold runList.
  destruct (registry.Get reg (listSource f)) as [src0|err] eqn:Hget.
  2: { simpl. by intros ?%elem_of_nil. }
  simpl.
  destruct (sys_Configure sys src0 (sourceOptions (listRegion f)) w)
    as [[err|] w1]; simpl.
  { by intros [=]%list_elem_of_singleton. }
  destruct (sys_Name sys src0 w1) as [name w2]; simpl.
  destruct (sys_List sys src0 (listPatterns (listIncludes f)) w2)
    as [[infos0|err] w3]; simpl.
  2: { intros Hin. repeat (apply elem_of_cons in Hin as [[=]|Hin]).
       by apply elem_of_nil in Hin. }
  rewrite applyExcludes_spec.
  assert (Hpat : listPatterns (listIncludes f)
                 = match listIncludes f with [] => ["**"] | _ => listIncludes f end).
  { unfold listPatterns. by destruct (listIncludes f). }
  remember (filter (fun info => ("**" ∉ listExcludes f)
                                /\ (listing.Path info ∉ listExcludes f)) infos0)
    as shown0 eqn:Hshown.
  destruct shown0 as [|info rest].
  - simpl. intros Hin.
    apply elem_of_cons in Hin as [[=]|Hin].
    apply elem_of_cons in Hin as [[=]|Hin].
    apply elem_of_cons in Hin as [[=]|Hin].
    apply elem_of_cons in Hin as [[= -> -> ->]|Hin].
    2: { apply elem_of_cons in Hin as [[=]|Hin]. by apply elem_of_nil in Hin. }
    rewrite <- Hshown. by rewrite Hpat.
  - destruct (Z.eqb_spec (GoInt.len (info :: rest)) 0) as [Hlen|_].
    { unfold GoInt.len in Hlen. simpl in Hlen. lia. }
    cbn [crun]. rewrite crun_bind, listRows_run. cbn [crun].
    intros Hin.
    assert (Heq : src0 = src /\ listPatterns (listIncludes f) = patterns
                  /\ infos0 = infos).
    { apply elem_of_cons in Hin as [[=]|Hin].
      apply elem_of_cons in Hin as [[=]|Hin].
      apply elem_of_cons in Hin as [[=]|Hin].
      apply elem_of_cons in Hin as [[= -> -> ->]|Hin]; [done|].
      apply elem_of_cons in Hin as [[=]|Hin].
      apply elem_of_cons in Hin as [[=]|Hin].
      apply elem_of_app in Hin as [Hin|Hin].
      - by apply list_elem_of_fmap in Hin as (? & [=] & _).
      - apply elem_of_cons in Hin as [[=]|Hin].
        apply elem_of_cons in Hin as [[=]|Hin]. by apply elem_of_nil in Hin. }
    destruct Heq as (-> & <- & ->). clear Hin. rewrite <- Hshown.
    split; [done|]. split; [done|]. split; [done|].
    match goal with
    | |- context [?a :: ?b :: ?c :: ?d :: ?e :: ?g :: (rowEvent <$> ?l) ++ ?t] =>
        change (a :: b :: c :: d :: e :: g :: (rowEvent <$> l) ++ t)
          with ([a; b; c; d; e; g] ++ (rowEvent <$> l) ++ t)
    end.
    unfold rows, printed. rewrite !omap_app.
    rewrite (omap_fmap_Some rowOf rowEvent
               (fun info => (listing.Path info, shownDescription info)))
      by done.
    rewrite !(omap_fmap_None (printedOf _ _) rowEvent) by done.
    split; [|split].
    + simpl. by rewrite app_nil_r.
    + done.
    + done.
Qed.

(** Witness of [runList_table]: of the three secrets of [Sim2.world], the
    exclude pattern "dev/tmp" leaves two. *)
Lemma runList_table_witness :
  exists tr,
    (crun Sim2.sys (runList Sim2.registered Sim2.listFlags) Sim2.world).2 = tr
    /\ EvList "aws-secrets-manager" ["**"] (inl Sim2.three) ∈ tr
    /\ rows tr
       = [("app/db", "database password");
          ("app/api", "01234567890123456789012345678901234567890123456...")]
    /\ printed (ToStream Stderr) "\nTotal: %d secrets\n" tr = [[AInt 2]].
Proof.
  pose proof (runList_table Sim2.sys Sim2.registered Sim2.listFlags Sim2.world
                "aws-secrets-manager" ["**"] Sim2.three) as H.
  destruct (crun Sim2.sys (runList Sim2.registered Sim2.listFlags) Sim2.world)
    as [[r w'] tr] eqn:Hrun.
  assert (Hin : EvList "aws-secrets-manager" ["**"] (inl Sim2.three) ∈ tr).
  { vm_compute in Hrun. injection Hrun as _ _ <-. by repeat constructor. }
  destruct (H Hin) as (_ & _ & _ & Hrows & Htotal & _).
  exists tr. split; [done|]. split; [done|]. split.
  - rewrite Hrows. reflexivity.
  - rewrite Htotal. reflexivity.
Defined.

(** ** What [list] does not do *)

(** The [list] command reads no secret value and touches no file: however
    the source answers, it never calls [Get], never reads or writes a file
    and never encodes or decodes an export file. It calls [List] at most
    once. *)
Theorem list_reads_no_secret {S W : Type} (sys : Sys S W)
    (reg : registry.Registry S) (f : ListFlags) (w : W) :
  let tr := (crun sys (runList reg f) w).2 in
  Forall (fun ev => isFetchOrFile ev = false) tr
  /\ (length (listCalls tr) <= 1)%nat.
Proof.
  cbv zeta. unfold runList.
  destruct (registry.Get reg (listSource f)) as [src|err].
  2: { simpl. split; [constructor|lia]. }
  simpl.
  destruct (sys_Configure sys src (sourceOptions (listRegion f)) w)
    as [[err|] w1]; simpl.
  { split; [by repeat constructor|lia]. }
  destruct (sys_Name sys src w1) as [name w2]; simpl.
  destruct (sys_List sys src (listPatterns (listIncludes f)) w2)
    as [[infos|err] w3]; simpl.
  2: { split; [by repeat constructor|done]. }
  destruct (GoInt.len (applyExcludes (listExcludes f) infos) =? 0)%Z.
  { simpl. split; [by repeat constructor|done]. }
  cbn [crun]. rewrite crun_bind, listRows_run. cbn [crun snd].
  split.
  - repeat (apply Forall_cons; split; [done|]).
    apply Forall_app. split; [|by repeat constructor].
    apply Forall_fmap. by apply Forall_true.
  - match goal with
    | |- context [?a :: ?b :: ?c :: ?d :: ?e :: ?g :: (rowEvent <$> ?l) ++ ?t] =>
        change (a :: b :: c :: d :: e :: g :: (rowEvent <$> l) ++ t)
          with ([a; b; c; d; e; g] ++ (rowEvent <$> l) ++ t)
    end.
    unfold listCalls. rewrite !omap_app.
    by rewrite (omap_fmap_None listCallOf rowEvent).
Qed.

(** * The [export] command *)

(** ** The dry run *)

(** With [--dry-run], [export] reads no secret value and touches no file:
    it never calls [Get], encodes no export file and writes none, however
    the source answers. When the patterns compile and the source has
    listed its secrets, it succeeds, and the paths it prints are those of
    the listing that the filter matches, in the order of the listing. *)
Theorem export_dry_run_fetches_nothing {S W : Type} (sys : Sys S W) {G : GlobLib}
    (reg : registry.Registry S) (f : ExportFlags) (w : W) :
  exportDryRun f = true ->
  let '(r, _, tr) := crun sys (runExport reg f) w in
  Forall (fun ev => isFetchOrFile ev = false) tr
  /\ forall pf infos,
       filter.NewPathFilter (exportIncludes f) (exportExcludes f) = inl pf ->
       infos ∈ listed tr ->
       r = None
       /\ printed (ToStream Stdout) "  %s\n" tr
          = (fun path => [AStr path])
            <$> filter (fun path => filter.Matches pf path = true)
                  (listing.Path <$> infos).
Proof. apply runExport_dry_run. Qed.

(** Witness of [export_dry_run_fetches_nothing]: of the three secrets of
    [Sim2.world], the exclude pattern "dev/tmp" leaves two. *)
Lemma export_dry_run_fetches_nothing_witness :
  exists tr,
    (crun Sim2.sys (runExport (H := Sim2.globs) Sim2.registered Sim2.exportDryRunFlags)
       Sim2.world).2 = tr
    /\ Forall (fun ev => isFetchOrFile ev = false) tr
    /\ printed (ToStream Stdout) "  %s\n" tr = [[AStr "app/db"]; [AStr "app/api"]].
Proof.
  pose proof (export_dry_run_fetches_nothing Sim2.sys (G := Sim2.globs)
                Sim2.registered Sim2.exportDryRunFlags Sim2.world eq_refl) as H.
  destruct (crun Sim2.sys (runExport (H := Sim2.globs) Sim2.registered
                             Sim2.exportDryRunFlags) Sim2.world)
    as [[r w'] tr] eqn:Hrun.
  destruct H as [Hquiet Hpaths]. exists tr. split; [done|]. split; [done|].
  assert (Hin : Sim2.three ∈ listed tr).
  { vm_compute in Hrun. injection Hrun as _ _ <-. by repeat constructor. }
  destruct (Hpaths _ Sim2.three eq_refl Hin) as [_ ->]. reflexivity.
Defined.

(** ** The export *)

(** Without [--dry-run], when the patterns compile and the source has
    listed its secrets, [export] asks the source once for the include
    patterns, or for "**" when there is none, and then calls [Get] once
    for each listed path that the filter matches, in the order of the
    listing. A [Get] that fails stops nothing: the paths after it are still
    fetched, the file is still encoded, once, unless no path matched, and
    the command succeeds exactly when no path matched or the file was
    written, whatever the fetches returned. *)
Theorem export_fetches_every_matching_path {S W : Type} (sys : Sys S W)
    {G : GlobLib} (reg : registry.Registry S) (f : ExportFlags) (w : W)
    (pf : filter.PathFilter) (infos : list listing.SecretInfo) :
  exportDryRun f = false ->
  filter.NewPathFilter (exportIncludes f) (exportExcludes f) = inl pf ->
  let '(r, _, tr) := crun sys (runExport reg f) w in
  infos ∈ listed tr ->
  let paths := filter (fun path => filter.Matches pf path = true)
                 (listing.Path <$> infos) in
  listCalls tr
  = [match exportIncludes f with [] => ["**"] | _ => exportIncludes f end]
  /\ (gets tr).*1 = paths
  /\ length (marshalled tr) = (match paths with [] => 0 | _ => 1 end)%nat
  /\ (r = None <->
      paths = []
      \/ exists e data,
           marshalled tr = [(e, inl data)]
           /\ fileWrites tr = [(exportOutput f, data, 384%N, None)]).
Proof.
  intros Hdry Hpf. pose proof (runExport_exports sys reg f w Hdry) as Hrun.
  destruct (crun sys (runExport reg f) w) as [[r w'] tr].
  destruct Hrun as [Hearly|Hrun].
  { intros Hin. unfold listed in Hin.
    rewrite omap_Forall_None in Hin; [by apply elem_of_nil in Hin|].
    eapply Forall_impl; [exact Hearly|]. by intros ev [_ ?]. }
  destruct Hrun as (src & pf' & name & now & region & infos' & _ & Hpf' & Hlisted
                    & Hcalls & Hgets & _ & _ & Hfile).
  rewrite Hpf in Hpf'. injection Hpf' as <-.
  rewrite Hlisted. intros Hin%list_elem_of_singleton. subst infos'. cbv zeta.
  split. { rewrite Hcalls. unfold listPatterns. by destruct (exportIncludes f). }
  split; [done|].
  destruct (filter (fun p => filter.Matches pf p = true) (listing.Path <$> infos))
    as [|path rest].
  { destruct Hfile as (-> & _ & ->). split; [done|]. split; [by left|done]. }
  destruct Hfile as (e & r' & -> & _ & _ & _ & Hwrite). split; [done|].
  destruct r' as [data|cause].
  - destruct Hwrite as (werr & -> & ->). split.
    + destruct werr; [done|]. intros _. right. by exists e, data.
    + intros [?|(e' & data' & [= _ _] & [= _ ->])]; done.
  - destruct Hwrite as [-> ->]. split; [done|].
    by intros [?|(e' & data' & [= _ ?] & _)].
Qed.

(** Witness of [export_fetches_every_matching_path]: in [Sim2.world] the
    fetch of "app/api" fails, and the export still succeeds. *)
Lemma export_fetches_every_matching_path_witness :
  exists r tr,
    crun Sim2.sys (runExport (H := Sim2.globs) Sim2.registered Sim2.exportFlags)
      Sim2.world = (r, Sim2.world, tr)
    /\ (gets tr).*1 = ["app/db"; "app/api"]
    /\ fetchFailures tr = [("app/api", Sim2.accessDenied)]
    /\ r = None.
Proof.
  destruct (filter.NewPathFilter (H := Sim2.globs) (exportIncludes Sim2.exportFlags)
              (exportExcludes Sim2.exportFlags)) as [pf|] eqn:Hpf;
    [|by vm_compute in Hpf].
  pose proof (export_fetches_every_matching_path Sim2.sys (G := Sim2.globs)
                Sim2.registered Sim2.exportFlags Sim2.world pf Sim2.three
                eq_refl Hpf) as H.
  destruct (crun Sim2.sys (runExport (H := Sim2.globs) Sim2.registered
                             Sim2.exportFlags) Sim2.world)
    as [[r w'] tr] eqn:Hrun.
  assert (Htr : Sim2.three ∈ listed tr /\ w' = Sim2.world
                /\ fetchFailures tr = [("app/api", Sim2.accessDenied)]
                /\ r = None).
  { vm_compute in Hrun. injection Hrun as <- <- <-.
    split; [by repeat constructor|done]. }
  destruct Htr as (Hin & -> & Hfail & Hr).
  destruct (H Hin) as (_ & Hgets & _). exists r, tr.
  split; [done|]. split; [|done]. rewrite Hgets.
  vm_compute in Hpf. injection Hpf as <-. reflexivity.
Defined.

(** ** The exported file *)

(** The file that [export] encodes holds the secrets that [Get] has
    returned, in the order they were fetched, and its [total_secrets] is
    their number: the secrets whose fetch failed are left out and not
    counted. It has version "1.0", a name that the source gave, a time that
    [time.Now] gave and the patterns of the flags, so [Validate] accepts it
    exactly when that name is not empty, that time is not the zero time and
    every fetched secret has a path that is not empty and a data map that
    is not nil. It is written once, to the output path with the
    permissions 0600 (384), and only when the encoding succeeded. *)
Theorem exported_file_holds_what_was_fetched {S W : Type} (sys : Sys S W)
    {G : GlobLib} (reg : registry.Registry S) (f : ExportFlags) (w : W)
    (e : goschema.ExportFile) (r' : string + error) :
  let '(_, _, tr) := crun sys (runExport reg f) w in
  (e, r') ∈ marshalled tr ->
  marshalled tr = [(e, r')]
  /\ goschema.Secrets e = fetched tr
  /\ goschema.TotalSecrets (goschema.Metadata e) = GoInt.len (fetched tr)
  /\ goschema.Version e = "1.0"
  /\ goschema.IncludePatterns (goschema.Metadata e) = exportIncludes f
  /\ goschema.ExcludePatterns (goschema.Metadata e) = exportExcludes f
  /\ (exists src, EvName src (goschema.Source (goschema.Metadata e)) ∈ tr)
  /\ EvNow (goschema.ExportedAt (goschema.Metadata e)) ∈ tr
  /\ (schemafile.Validate e = None <->
      goschema.Source (goschema.Metadata e) <> ""
      /\ time.IsZero (goschema.ExportedAt (goschema.Metadata e)) = false
      /\ Forall (fun secret => gosource.Path secret <> ""
                               /\ is_Some (gosource.Data secret)) (fetched tr))
  /\ match r' with
     | inl data => exists werr, fileWrites tr = [(exportOutput f, data, 384%N, werr)]
     | inr _ => fileWrites tr = []
     end.
Proof.
  destruct (exportDryRun f) eqn:Hdry.
  { pose proof (runExport_dry_run sys reg f w Hdry) as Hrun.
    destruct (crun sys (runExport reg f) w) as [[r w'] tr].
    destruct Hrun as [Hquiet _]. intros Hin. unfold marshalled in Hin.
    rewrite omap_Forall_None in Hin; [by apply elem_of_nil in Hin|].
    eapply Forall_impl; [exact Hquiet|].
    by intros [| | | | | | | | | | | |]. }
  pose proof (runExport_exports sys reg f w Hdry) as Hrun.
  destruct (crun sys (runExport reg f) w) as [[r w'] tr].
  destruct Hrun as [Hearly|Hrun].
  { intros Hin. unfold marshalled in Hin.
    rewrite omap_Forall_None in Hin; [by apply elem_of_nil in Hin|].
    eapply Forall_impl; [exact Hearly|].
    by intros [| | | | | | | | | | | |] [? _]. }
  destruct Hrun as (src & pf & name & now & region & infos & _ & _ & _ & _ & _
                    & Hname & Hnow & Hfile).
  destruct (filter (fun p => filter.Matches pf p = true) (listing.Path <$> infos))
    as [|path rest].
  { destruct Hfile as (-> & _). by intros ?%elem_of_nil. }
  destruct Hfile as (e0 & r0 & -> & Hsecrets & Hversion & Hmeta & Hwrite).
  intros [= -> ->]%list_elem_of_singleton.
  assert (Hfields : goschema.TotalSecrets (goschema.Metadata e0) = GoInt.len (fetched tr)
                    /\ goschema.IncludePatterns (goschema.Metadata e0) = exportIncludes f
                    /\ goschema.ExcludePatterns (goschema.Metadata e0) = exportExcludes f
                    /\ goschema.Source (goschema.Metadata e0) = name
                    /\ goschema.ExportedAt (goschema.Metadata e0) = now).
  { rewrite Hmeta. by destruct region. }
  destruct Hfields as (Htotal & Hincl & Hexcl & Hsrc & Htime).
  split; [done|]. split; [done|]. split; [done|]. split; [done|].
  split; [done|]. split; [done|]. split; [exists src; by rewrite Hsrc|].
  split; [by rewrite Htime|]. split.
  - rewrite Validate_spec, Hversion, Htotal, Hsecrets. tauto.
  - destruct r0 as [data|cause].
    + destruct Hwrite as (werr & -> & _). by exists werr.
    + by destruct Hwrite as [-> _].
Qed.

(** Witness of [exported_file_holds_what_was_fetched]: the export of
    [Sim2.world], where the fetch of "app/api" fails, encodes a file with
    the one secret "app/db", which [Validate] accepts. *)
Lemma exported_file_holds_what_was_fetched_witness :
  exists e tr,
    (crun Sim2.sys (runExport (H := Sim2.globs) Sim2.registered Sim2.exportFlags)
       Sim2.world).2 = tr
    /\ marshalled tr = [(e, inl "{}")]
    /\ goschema.Secrets e = [Inputs2.gosecret "app/db"]
    /\ goschema.TotalSecrets (goschema.Metadata e) = 1
    /\ schemafile.Validate e = None.
Proof.
  destruct (crun Sim2.sys (runExport (H := Sim2.globs) Sim2.registered
                             Sim2.exportFlags) Sim2.world)
    as [[r w'] tr] eqn:Hrun.
  destruct (marshalled tr) as [|[e r'] rest] eqn:Hm.
  { vm_compute in Hrun. injection Hrun as _ _ <-. by vm_compute in Hm. }
  pose proof (exported_file_holds_what_was_fetched Sim2.sys (G := Sim2.globs)
                Sim2.registered Sim2.exportFlags Sim2.world e r') as H.
  rewrite Hrun in H.
  assert (Hin : (e, r') ∈ marshalled tr) by (rewrite Hm; by left).
  destruct (H Hin) as (Hone & Hsecrets & Htotal & _ & _ & _ & _ & _ & Hvalid & _).
  assert (Hfetched : fetched tr = [Inputs2.gosecret "app/db"] /\ r' = inl "{}"
                     /\ goschema.Source (goschema.Metadata e) = "aws-secrets-manager"
                     /\ goschema.ExportedAt (goschema.Metadata e) = Inputs2.exportTime).
  { vm_compute in Hrun. injection Hrun as _ _ <-. vm_compute in Hm.
    injection Hm as <- <- _. by vm_compute. }
  destruct Hfetched as (Hfetched & -> & Hsrc & Htime).
  rewrite Hfetched in *. exists e, tr. split; [done|]. split; [done|].
  split; [done|]. split; [done|].
  apply Hvalid. rewrite Hsrc, Htime. split; [done|]. split; [done|].
  apply Forall_cons. split; [|constructor]. split; [done|by eexists].
Defined.

(** * The [validate] command *)

(** ** [ValidateFile] *)

(** [ValidateFile] reads the file once, decodes what it has read and
    validates the result, and does nothing else. A file that it returns
    has passed [Validate]. Otherwise the error tells the step that failed:
    "failed to read export file", "failed to parse export file" or
    "validation failed", each wrapping the cause; a file that cannot be
    read is not decoded. *)
Theorem ValidateFile_returns_valid_files {S W : Type} (sys : Sys S W)
    (path : string) (w : W) :
  let '(r, _, tr) := crun sys (schemafile.ValidateFile path) w in
  match r with
  | inl export =>
      schemafile.Validate export = None
      /\ exists data, tr = [EvReadFile path (inl data); EvUnmarshal data (inl export)]
  | inr err =>
      (exists cause,
         tr = [EvReadFile path (inr cause)]
         /\ err = Errorf_w "failed to read export file" cause)
      \/ (exists data cause,
            tr = [EvReadFile path (inl data); EvUnmarshal data (inr cause)]
            /\ err = Errorf_w "failed to parse export file" cause)
      \/ (exists data export cause,
            tr = [EvReadFile path (inl data); EvUnmarshal data (inl export)]
            /\ schemafile.Validate export = Some cause
            /\ err = Errorf_w "validation failed" cause)
  end.
Proof.
  unfold schemafile.ValidateFile, schemafile.ReadExportFile. simpl.
  destruct (sys_ReadFile sys path w) as [[data|cause] w1]; simpl.
  2: { left. by exists cause. }
  destruct (sys_Unmarshal sys data w1) as [[export|cause] w2]; simpl.
  2: { right. left. by exists data, cause. }
  destruct (schemafile.Validate export) as [cause|] eqn:Hvalid; simpl.
  - right. right. by exists data, export, cause.
  - split; [done|]. by exists data.
Qed.

(** ** The [validate] command *)

(** [validate] succeeds exactly when [ValidateFile] returns a file. When
    [ValidateFile] fails, the command returns its error wrapped in
    "validation failed", so that a file that does not pass [Validate] is
    reported as "validation failed: validation failed: ...", and it has
    printed nothing: the calls made are those of [ValidateFile]. When
    [ValidateFile] returns a file, what follows reads and writes no
    file. *)
Theorem validate_fails_as_ValidateFile {S W : Type} (sys : Sys S W)
    (validateInput : string) (w : W) :
  let '(r0, _, tr0) := crun sys (schemafile.ValidateFile validateInput) w in
  let '(r, _, tr) := crun sys (runValidate validateInput) w in
  match r0 with
  | inr err => r = Some (Errorf_w "validation failed" err) /\ tr = tr0
  | inl export =>
      r = None
      /\ exists out, tr = tr0 ++ out
                     /\ Forall (fun ev => isFetchOrFile ev = false) out
  end.
Proof.
  destruct (sys_ReadFile sys validateInput w) as [[data|cause] w1] eqn:Hread.
  2: { unfold runValidate, schemafile.ValidateFile, schemafile.ReadExportFile.
       cbn. by rewrite Hread. }
  destruct (sys_Unmarshal sys data w1) as [[export|cause] w2] eqn:Hparse.
  2: { unfold runValidate, schemafile.ValidateFile, schemafile.ReadExportFile.
       cbn. rewrite Hread. cbn. by rewrite Hparse. }
  destruct (schemafile.Validate export) as [cause|] eqn:Hvalid.
  { unfold runValidate, schemafile.ValidateFile, schemafile.ReadExportFile.
    cbn. rewrite Hread. cbn. rewrite Hparse. cbn. by rewrite Hvalid. }
  destruct (sys_Format sys (goschema.ExportedAt (goschema.Metadata export))
              "2006-01-02 15:04:05 UTC" w2) as [text w3] eqn:Hformat.
  rewrite (runValidate_run sys validateInput data export text w w1 w2 w3
             Hread Hparse Hvalid Hformat).
  unfold schemafile.ValidateFile, schemafile.ReadExportFile.
  cbn. rewrite Hread. cbn. rewrite Hparse. cbn. rewrite Hvalid. cbn.
  split; [done|]. eexists. split; [reflexivity|]. apply validateTrace_quiet.
Qed.

(** ** The preview of [validate] *)

(** For a file that [ValidateFile] accepts, [validate] succeeds and prints
    the paths of the first ten secrets of the file, in the order of the
    file, or of all when there are fewer; the line "... and N more" is
    printed exactly when the file has more than ten secrets, with the
    number of those that were left out. The total it prints is the number
    of the secrets of the file. *)
Theorem validate_previews_first_ten_paths {S W : Type} (sys : Sys S W)
    (validateInput data : string) (export : goschema.ExportFile) (w w1 w2 : W) :
  sys_ReadFile sys validateInput w = (inl data, w1) ->
  sys_Unmarshal sys data w1 = (inl export, w2) ->
  schemafile.Validate export = None ->
  let '(r, _, tr) := crun sys (runValidate validateInput) w in
  let n := GoInt.len (goschema.Secrets export) in
  r = None
  /\ printed (ToStream Stdout) "    - %s\n" tr
     = (fun secret => [AStr (gosource.Path secret)])
       <$> take 10 (goschema.Secrets export)
  /\ printed (ToStream Stdout) "    ... and %d more\n" tr
     = (if (10 <? n)%Z then [[AInt (n - 10)]] else [])
  /\ printed (ToStream Stdout) "  Total secrets:  %d\n" tr = [[AInt n]].
Proof.
  intros Hread Hparse Hvalid.
  destruct (sys_Format sys (goschema.ExportedAt (goschema.Metadata export))
              "2006-01-02 15:04:05 UTC" w2) as [text w3] eqn:Hformat.
  rewrite (runValidate_run sys validateInput data export text w w1 w2 w3
             Hread Hparse Hvalid Hformat).
  cbv zeta. split; [done|].
  apply Validate_spec in Hvalid as (_ & _ & _ & _ & Htotal).
  unfold validateTrace. cbv zeta. rewrite Htotal.
  set (n := GoInt.len (goschema.Secrets export)).
  assert (Htake : take (Z.to_nat (if (n <? 10)%Z then n else 10))
                    (goschema.Secrets export)
                  = take 10 (goschema.Secrets export)).
  { destruct (Z.ltb_spec n 10) as [Hlt|Hge]; [|done].
    subst n. unfold GoInt.len in *. rewrite !take_ge; [done|lia|lia]. }
  rewrite Htake.
  assert (Hempty : (n >? 0) = false -> take 10 (goschema.Secrets export) = []).
  { intros Hn. subst n. unfold GoInt.len in Hn.
    destruct (goschema.Secrets export); [done|].
    rewrite Z.gtb_ltb in Hn. apply Z.ltb_ge in Hn. simpl in Hn. lia. }
  assert (Hmore : (n >? 0) = false -> (10 <? n)%Z = false).
  { rewrite Z.gtb_ltb, !Z.ltb_ge. lia. }
  assert (Hgt : (n >? 10) = (10 <? n)%Z) by apply Z.gtb_ltb.
  unfold printed in *.
  rewrite !omap_app, !printed_optional.
  destruct (n >? 0) eqn:Hn.
  - rewrite !omap_app, !printed_optional.
    rewrite (omap_fmap_Some _ previewEvent
               (fun secret => [AStr (gosource.Path secret)])) by done.
    rewrite !(omap_fmap_None _ previewEvent) by done.
    rewrite Hgt, !andb_false_r. cbn. rewrite ?app_nil_r.
    split; [done|]. split; [|done]. by destruct (10 <? n)%Z.
  - rewrite !andb_false_r, (Hempty eq_refl), (Hmore eq_refl). by cbn.
Qed.

(** Witness of [validate_previews_first_ten_paths]: for the file of
    [Sim2.bigFile], which has twelve secrets, ten paths are printed and
    "... and 2 more". *)
Lemma validate_previews_first_ten_paths_witness :
  exists tr,
    (crun Sim2.sys (runValidate "secrets.json") Sim2.bigFile).2 = tr
    /\ length (printed (ToStream Stdout) "    - %s\n" tr) = 10%nat
    /\ printed (ToStream Stdout) "    ... and %d more\n" tr = [[AInt 2]]
    /\ printed (ToStream Stdout) "  Total secrets:  %d\n" tr = [[AInt 12]].
Proof.
  pose proof (validate_previews_first_ten_paths Sim2.sys "secrets.json" "{}"
                (Inputs2.gofile Sim2.twelve) Sim2.bigFile Sim2.bigFile
                Sim2.bigFile eq_refl eq_refl) as H.
  destruct (crun Sim2.sys (runValidate "secrets.json") Sim2.bigFile)
    as [[r w'] tr].
  destruct H as (_ & Hpaths & Hmore & Htotal); [by vm_compute|].
  exists tr. split; [done|]. rewrite Hpaths, Hmore, Htotal. by vm_compute.
Defined.
